(** * Verification of the libmp4 demuxer (src/mp4_demux.c)

    A shallow embedding of the MP4 box parser, the sample-index builder
    ([mp4_demux_build_tracks]), the metadata consolidation
    ([mp4_demux_build_metadata]) and the query functions of
    [mp4_demux.c], followed by the properties of the specification that
    were checked against them.

    Conventions of the embedding.
    - C integers are [Z] with the wrap-around of their type written out
      ([u8], [u16], [u32], [u64] for the unsigned types, [s64] for
      [off_t]).  The data model is LP64: [int] and [unsigned int] have 32
      bits, [off_t] and [size_t] 64 bits.
    - A pointer to an array is an [option (list _)]: [None] is [NULL].
      Reading or writing through [NULL] or outside the array is undefined
      behaviour in C; the embedding reports it as the outcome [Undef]
      instead of inventing a value.  So does a division by zero.
    - [malloc] and [calloc] are assumed to succeed and [malloc(0)] to
      return a non-[NULL] pointer (glibc); the [-ENOMEM] paths are
      therefore not reachable in the model.
    - The tracks of a demuxer form an arena ([dm_tracks], in creation
      order); a [struct mp4_track *] is an index into it.  The linked list
      [demux->track] prepends, so it enumerates the arena backwards.
    - The release of memory ([free]) has no counterpart in the model:
      [mp4_demux_close] is modelled by the reads that it performs.
    - Logging ([MP4_LOGD], [MP4_LOGE], ...) is not modelled, nor are the
      floating point values that are only logged. *)

From Stdlib Require Import ZArith Lia.
From stdpp Require Import base tactics option list numbers sorting.

Local Open Scope Z_scope.

(** ** Machine integers *)

Definition u8 (x : Z) : Z := x mod 2 ^ 8.
Definition u16 (x : Z) : Z := x mod 2 ^ 16.
Definition u32 (x : Z) : Z := x mod 2 ^ 32.
Definition u64 (x : Z) : Z := x mod 2 ^ 64.

(** Conversion of a 64-bit pattern to the signed [off_t]. *)
Definition s64 (x : Z) : Z := (x + 2 ^ 63) mod 2 ^ 64 - 2 ^ 63.

(** A little-endian host reads the bytes of the file in memory order. *)
Definition le_decode (bs : list Z) : Z :=
  foldr (fun b acc => b + 256 * acc) 0 bs.

(** [ntohl], [htonl]: byte swap of a 32-bit value on a little-endian host. *)
Definition ntohl (v : Z) : Z :=
  Z.lor (Z.lor (Z.shiftl (Z.land v 255) 24)
                (Z.shiftl (Z.land (Z.shiftr v 8) 255) 16))
        (Z.lor (Z.shiftl (Z.land (Z.shiftr v 16) 255) 8)
               (Z.land (Z.shiftr v 24) 255)).
Definition htonl : Z -> Z := ntohl.

(** [ntohs], [htons]. *)
Definition ntohs (v : Z) : Z :=
  Z.lor (Z.shiftl (Z.land v 255) 8) (Z.land (Z.shiftr v 8) 255).
Definition htons : Z -> Z := ntohs.

(** ** Error numbers (values of <errno.h> on Linux) *)

Definition ENOENT : Z := 2.
Definition EIO : Z := 5.
Definition ENOMEM : Z := 12.
Definition EEXIST : Z := 17.
Definition EINVAL : Z := 22.
Definition ENOSYS : Z := 38.
Definition EPROTO : Z := 71.
Definition EOVERFLOW : Z := 75.
Definition ENOBUFS : Z := 105.

(** ** Box types and other constants *)

Definition MP4_UUID : Z := 0x75756964.
Definition MP4_FILE_TYPE_BOX : Z := 0x66747970.
Definition MP4_MOVIE_BOX : Z := 0x6d6f6f76.
Definition MP4_USER_DATA_BOX : Z := 0x75647461.
Definition MP4_MOVIE_HEADER_BOX : Z := 0x6d766864.
Definition MP4_TRACK_BOX : Z := 0x7472616b.
Definition MP4_TRACK_HEADER_BOX : Z := 0x746b6864.
Definition MP4_TRACK_REFERENCE_BOX : Z := 0x74726566.
Definition MP4_MEDIA_BOX : Z := 0x6d646961.
Definition MP4_MEDIA_HEADER_BOX : Z := 0x6d646864.
Definition MP4_HANDLER_REFERENCE_BOX : Z := 0x68646c72.
Definition MP4_MEDIA_INFORMATION_BOX : Z := 0x6d696e66.
Definition MP4_VIDEO_MEDIA_HEADER_BOX : Z := 0x766d6864.
Definition MP4_SOUND_MEDIA_HEADER_BOX : Z := 0x736d6864.
Definition MP4_HINT_MEDIA_HEADER_BOX : Z := 0x686d6864.
Definition MP4_NULL_MEDIA_HEADER_BOX : Z := 0x6e6d6864.
Definition MP4_DATA_INFORMATION_BOX : Z := 0x64696e66.
Definition MP4_SAMPLE_TABLE_BOX : Z := 0x7374626c.
Definition MP4_SAMPLE_DESCRIPTION_BOX : Z := 0x73747364.
Definition MP4_AVC_DECODER_CONFIG_BOX : Z := 0x61766343.
Definition MP4_DECODING_TIME_TO_SAMPLE_BOX : Z := 0x73747473.
Definition MP4_SYNC_SAMPLE_BOX : Z := 0x73747373.
Definition MP4_SAMPLE_SIZE_BOX : Z := 0x7374737a.
Definition MP4_SAMPLE_TO_CHUNK_BOX : Z := 0x73747363.
Definition MP4_CHUNK_OFFSET_BOX : Z := 0x7374636f.
Definition MP4_CHUNK_OFFSET_64_BOX : Z := 0x636f3634.
Definition MP4_META_BOX : Z := 0x6d657461.
Definition MP4_KEYS_BOX : Z := 0x6b657973.
Definition MP4_ILST_BOX : Z := 0x696c7374.
Definition MP4_DATA_BOX : Z := 0x64617461.
Definition MP4_LOCATION_BOX : Z := 0xa978797a.

Definition MP4_HANDLER_TYPE_VIDEO : Z := 0x76696465.
Definition MP4_HANDLER_TYPE_AUDIO : Z := 0x736f756e.
Definition MP4_HANDLER_TYPE_HINT : Z := 0x68696e74.
Definition MP4_HANDLER_TYPE_METADATA : Z := 0x6d657461.
Definition MP4_HANDLER_TYPE_TEXT : Z := 0x74657874.

Definition MP4_REFERENCE_TYPE_DESCRIPTION : Z := 0x63647363.
Definition MP4_REFERENCE_TYPE_CHAPTERS : Z := 0x63686170.

Definition MP4_METADATA_CLASS_UTF8 : Z := 1.
Definition MP4_METADATA_CLASS_JPEG : Z := 13.
Definition MP4_METADATA_CLASS_PNG : Z := 14.
Definition MP4_METADATA_CLASS_BMP : Z := 27.

Definition MP4_METADATA_TAG_TYPE_ARTIST : Z := 0x00415254.
Definition MP4_METADATA_TAG_TYPE_TITLE : Z := 0x006e616d.
Definition MP4_METADATA_TAG_TYPE_DATE : Z := 0x00646179.
Definition MP4_METADATA_TAG_TYPE_COMMENT : Z := 0x00636d74.
Definition MP4_METADATA_TAG_TYPE_COPYRIGHT : Z := 0x00637079.
Definition MP4_METADATA_TAG_TYPE_MAKER : Z := 0x006d616b.
Definition MP4_METADATA_TAG_TYPE_MODEL : Z := 0x006d6f64.
Definition MP4_METADATA_TAG_TYPE_VERSION : Z := 0x00737772.
Definition MP4_METADATA_TAG_TYPE_ENCODER : Z := 0x00746f6f.
Definition MP4_METADATA_TAG_TYPE_COVER : Z := 0x636f7672.

(** "com.apple.quicktime.artwork" *)
Definition MP4_METADATA_KEY_COVER : list Z :=
  [99; 111; 109; 46; 97; 112; 112; 108; 101; 46; 113; 117; 105; 99; 107;
   116; 105; 109; 101; 46; 97; 114; 116; 119; 111; 114; 107].

Definition MP4_MAC_TO_UNIX_EPOCH_OFFSET : Z := 0x7c25b080.

Definition MP4_CHAPTERS_MAX : Z := 100.

(** ** Enumerations of libmp4.h

    The header is not part of the sources at hand.  The code relies on one
    fact about these enumerations: a zeroed structure ([memset]) holds the
    enumerator of value 0, taken here to be the [UNKNOWN] one. *)

Inductive mp4_track_type : Type :=
  | MP4_TRACK_TYPE_UNKNOWN
  | MP4_TRACK_TYPE_VIDEO
  | MP4_TRACK_TYPE_AUDIO
  | MP4_TRACK_TYPE_HINT
  | MP4_TRACK_TYPE_METADATA
  | MP4_TRACK_TYPE_TEXT
  | MP4_TRACK_TYPE_CHAPTERS.

Inductive mp4_video_codec : Type :=
  | MP4_VIDEO_CODEC_UNKNOWN
  | MP4_VIDEO_CODEC_AVC.

Inductive mp4_audio_codec : Type :=
  | MP4_AUDIO_CODEC_UNKNOWN
  | MP4_AUDIO_CODEC_AAC.

Inductive mp4_metadata_cover_type : Type :=
  | MP4_METADATA_COVER_TYPE_UNKNOWN
  | MP4_METADATA_COVER_TYPE_JPEG
  | MP4_METADATA_COVER_TYPE_PNG
  | MP4_METADATA_COVER_TYPE_BMP.

#[global] Instance mp4_track_type_eq_dec : EqDecision mp4_track_type.
Proof. solve_decision. Defined.
#[global] Instance mp4_metadata_cover_type_eq_dec :
  EqDecision mp4_metadata_cover_type.
Proof. solve_decision. Defined.

(** ** Structures *)

Record mp4_time_to_sample_entry : Type := Build_stts_entry {
  sampleCount : Z;   (* uint32_t *)
  sampleDelta : Z    (* uint32_t *)
}.

Record mp4_sample_to_chunk_entry : Type := Build_stsc_entry {
  firstChunk : Z;               (* uint32_t *)
  samplesPerChunk : Z;          (* uint32_t *)
  sampleDescriptionIndex : Z    (* uint32_t *)
}.

(** The byte source: a [FILE *] opened for reading on an immutable file. *)
Record FILE : Type := Build_FILE {
  f_bytes : list Z;   (* contents of the file, one byte per element *)
  f_pos : Z;          (* file position indicator *)
  f_eof : bool        (* end-of-file indicator *)
}.

Record mp4_track : Type := Build_mp4_track {
  tk_id : Z;  (* uint32_t id *)
  tk_type : mp4_track_type;
  tk_timescale : Z;  (* uint32_t *)
  tk_duration : Z;  (* uint64_t *)
  tk_creationTime : Z;  (* uint64_t *)
  tk_modificationTime : Z;  (* uint64_t *)
  tk_currentSample : Z;  (* uint32_t *)
  tk_sampleCount : Z;  (* uint32_t *)
  tk_sampleSize : option (list Z);  (* uint32_t * *)
  tk_sampleDecodingTime : option (list Z);  (* uint64_t * *)
  tk_sampleOffset : option (list Z);  (* uint64_t * *)
  tk_chunkCount : Z;  (* uint32_t *)
  tk_chunkOffset : option (list Z);  (* uint64_t * *)
  tk_timeToSampleEntryCount : Z;  (* uint32_t *)
  tk_timeToSampleEntries : option (list mp4_time_to_sample_entry);
  tk_sampleToChunkEntryCount : Z;  (* uint32_t *)
  tk_sampleToChunkEntries : option (list mp4_sample_to_chunk_entry);
  tk_syncSampleEntryCount : Z;  (* uint32_t *)
  tk_syncSampleEntries : option (list Z);  (* uint32_t * *)
  tk_referenceType : Z;  (* uint32_t *)
  tk_referenceTrackId : Z;  (* uint32_t *)
  tk_videoCodec : mp4_video_codec;
  tk_videoWidth : Z;  (* uint32_t *)
  tk_videoHeight : Z;  (* uint32_t *)
  tk_videoSpsSize : Z;  (* uint16_t *)
  tk_videoSps : option (list Z);  (* uint8_t * *)
  tk_videoPpsSize : Z;  (* uint16_t *)
  tk_videoPps : option (list Z);  (* uint8_t * *)
  tk_audioCodec : mp4_audio_codec;
  tk_audioChannelCount : Z;  (* uint32_t *)
  tk_audioSampleSize : Z;  (* uint32_t *)
  tk_audioSampleRate : Z;  (* uint32_t, 16.16 fixed point *)
  tk_metadataContentEncoding : option (list Z);  (* char * *)
  tk_metadataMimeFormat : option (list Z);  (* char * *)
  tk_ref : option nat;  (* struct mp4_track * *)
  tk_metadata : option nat;  (* struct mp4_track * *)
  tk_chapters : option nat  (* struct mp4_track * *)
}.

Definition set_tk_id (v : Z) (x : mp4_track) : mp4_track :=
  Build_mp4_track v (tk_type x) (tk_timescale x) (tk_duration x) (tk_creationTime x)
    (tk_modificationTime x) (tk_currentSample x) (tk_sampleCount x) (tk_sampleSize x)
    (tk_sampleDecodingTime x) (tk_sampleOffset x) (tk_chunkCount x) (tk_chunkOffset x)
    (tk_timeToSampleEntryCount x) (tk_timeToSampleEntries x) (tk_sampleToChunkEntryCount x)
    (tk_sampleToChunkEntries x) (tk_syncSampleEntryCount x) (tk_syncSampleEntries x)
    (tk_referenceType x) (tk_referenceTrackId x) (tk_videoCodec x) (tk_videoWidth x)
    (tk_videoHeight x) (tk_videoSpsSize x) (tk_videoSps x) (tk_videoPpsSize x) (tk_videoPps x)
    (tk_audioCodec x) (tk_audioChannelCount x) (tk_audioSampleSize x) (tk_audioSampleRate x)
    (tk_metadataContentEncoding x) (tk_metadataMimeFormat x) (tk_ref x) (tk_metadata x)
    (tk_chapters x).
Definition set_tk_type (v : mp4_track_type) (x : mp4_track) : mp4_track :=
  Build_mp4_track (tk_id x) v (tk_timescale x) (tk_duration x) (tk_creationTime x)
    (tk_modificationTime x) (tk_currentSample x) (tk_sampleCount x) (tk_sampleSize x)
    (tk_sampleDecodingTime x) (tk_sampleOffset x) (tk_chunkCount x) (tk_chunkOffset x)
    (tk_timeToSampleEntryCount x) (tk_timeToSampleEntries x) (tk_sampleToChunkEntryCount x)
    (tk_sampleToChunkEntries x) (tk_syncSampleEntryCount x) (tk_syncSampleEntries x)
    (tk_referenceType x) (tk_referenceTrackId x) (tk_videoCodec x) (tk_videoWidth x)
    (tk_videoHeight x) (tk_videoSpsSize x) (tk_videoSps x) (tk_videoPpsSize x) (tk_videoPps x)
    (tk_audioCodec x) (tk_audioChannelCount x) (tk_audioSampleSize x) (tk_audioSampleRate x)
    (tk_metadataContentEncoding x) (tk_metadataMimeFormat x) (tk_ref x) (tk_metadata x)
    (tk_chapters x).
Definition set_tk_timescale (v : Z) (x : mp4_track) : mp4_track :=
  Build_mp4_track (tk_id x) (tk_type x) v (tk_duration x) (tk_creationTime x)
    (tk_modificationTime x) (tk_currentSample x) (tk_sampleCount x) (tk_sampleSize x)
    (tk_sampleDecodingTime x) (tk_sampleOffset x) (tk_chunkCount x) (tk_chunkOffset x)
    (tk_timeToSampleEntryCount x) (tk_timeToSampleEntries x) (tk_sampleToChunkEntryCount x)
    (tk_sampleToChunkEntries x) (tk_syncSampleEntryCount x) (tk_syncSampleEntries x)
    (tk_referenceType x) (tk_referenceTrackId x) (tk_videoCodec x) (tk_videoWidth x)
    (tk_videoHeight x) (tk_videoSpsSize x) (tk_videoSps x) (tk_videoPpsSize x) (tk_videoPps x)
    (tk_audioCodec x) (tk_audioChannelCount x) (tk_audioSampleSize x) (tk_audioSampleRate x)
    (tk_metadataContentEncoding x) (tk_metadataMimeFormat x) (tk_ref x) (tk_metadata x)
    (tk_chapters x).
Definition set_tk_duration (v : Z) (x : mp4_track) : mp4_track :=
  Build_mp4_track (tk_id x) (tk_type x) (tk_timescale x) v (tk_creationTime x)
    (tk_modificationTime x) (tk_currentSample x) (tk_sampleCount x) (tk_sampleSize x)
    (tk_sampleDecodingTime x) (tk_sampleOffset x) (tk_chunkCount x) (tk_chunkOffset x)
    (tk_timeToSampleEntryCount x) (tk_timeToSampleEntries x) (tk_sampleToChunkEntryCount x)
    (tk_sampleToChunkEntries x) (tk_syncSampleEntryCount x) (tk_syncSampleEntries x)
    (tk_referenceType x) (tk_referenceTrackId x) (tk_videoCodec x) (tk_videoWidth x)
    (tk_videoHeight x) (tk_videoSpsSize x) (tk_videoSps x) (tk_videoPpsSize x) (tk_videoPps x)
    (tk_audioCodec x) (tk_audioChannelCount x) (tk_audioSampleSize x) (tk_audioSampleRate x)
    (tk_metadataContentEncoding x) (tk_metadataMimeFormat x) (tk_ref x) (tk_metadata x)
    (tk_chapters x).
Definition set_tk_creationTime (v : Z) (x : mp4_track) : mp4_track :=
  Build_mp4_track (tk_id x) (tk_type x) (tk_timescale x) (tk_duration x) v
    (tk_modificationTime x) (tk_currentSample x) (tk_sampleCount x) (tk_sampleSize x)
    (tk_sampleDecodingTime x) (tk_sampleOffset x) (tk_chunkCount x) (tk_chunkOffset x)
    (tk_timeToSampleEntryCount x) (tk_timeToSampleEntries x) (tk_sampleToChunkEntryCount x)
    (tk_sampleToChunkEntries x) (tk_syncSampleEntryCount x) (tk_syncSampleEntries x)
    (tk_referenceType x) (tk_referenceTrackId x) (tk_videoCodec x) (tk_videoWidth x)
    (tk_videoHeight x) (tk_videoSpsSize x) (tk_videoSps x) (tk_videoPpsSize x) (tk_videoPps x)
    (tk_audioCodec x) (tk_audioChannelCount x) (tk_audioSampleSize x) (tk_audioSampleRate x)
    (tk_metadataContentEncoding x) (tk_metadataMimeFormat x) (tk_ref x) (tk_metadata x)
    (tk_chapters x).
Definition set_tk_modificationTime (v : Z) (x : mp4_track) : mp4_track :=
  Build_mp4_track (tk_id x) (tk_type x) (tk_timescale x) (tk_duration x) (tk_creationTime x) v
    (tk_currentSample x) (tk_sampleCount x) (tk_sampleSize x) (tk_sampleDecodingTime x)
    (tk_sampleOffset x) (tk_chunkCount x) (tk_chunkOffset x) (tk_timeToSampleEntryCount x)
    (tk_timeToSampleEntries x) (tk_sampleToChunkEntryCount x) (tk_sampleToChunkEntries x)
    (tk_syncSampleEntryCount x) (tk_syncSampleEntries x) (tk_referenceType x)
    (tk_referenceTrackId x) (tk_videoCodec x) (tk_videoWidth x) (tk_videoHeight x)
    (tk_videoSpsSize x) (tk_videoSps x) (tk_videoPpsSize x) (tk_videoPps x) (tk_audioCodec x)
    (tk_audioChannelCount x) (tk_audioSampleSize x) (tk_audioSampleRate x)
    (tk_metadataContentEncoding x) (tk_metadataMimeFormat x) (tk_ref x) (tk_metadata x)
    (tk_chapters x).
Definition set_tk_currentSample (v : Z) (x : mp4_track) : mp4_track :=
  Build_mp4_track (tk_id x) (tk_type x) (tk_timescale x) (tk_duration x) (tk_creationTime x)
    (tk_modificationTime x) v (tk_sampleCount x) (tk_sampleSize x) (tk_sampleDecodingTime x)
    (tk_sampleOffset x) (tk_chunkCount x) (tk_chunkOffset x) (tk_timeToSampleEntryCount x)
    (tk_timeToSampleEntries x) (tk_sampleToChunkEntryCount x) (tk_sampleToChunkEntries x)
    (tk_syncSampleEntryCount x) (tk_syncSampleEntries x) (tk_referenceType x)
    (tk_referenceTrackId x) (tk_videoCodec x) (tk_videoWidth x) (tk_videoHeight x)
    (tk_videoSpsSize x) (tk_videoSps x) (tk_videoPpsSize x) (tk_videoPps x) (tk_audioCodec x)
    (tk_audioChannelCount x) (tk_audioSampleSize x) (tk_audioSampleRate x)
    (tk_metadataContentEncoding x) (tk_metadataMimeFormat x) (tk_ref x) (tk_metadata x)
    (tk_chapters x).
Definition set_tk_sampleCount (v : Z) (x : mp4_track) : mp4_track :=
  Build_mp4_track (tk_id x) (tk_type x) (tk_timescale x) (tk_duration x) (tk_creationTime x)
    (tk_modificationTime x) (tk_currentSample x) v (tk_sampleSize x) (tk_sampleDecodingTime x)
    (tk_sampleOffset x) (tk_chunkCount x) (tk_chunkOffset x) (tk_timeToSampleEntryCount x)
    (tk_timeToSampleEntries x) (tk_sampleToChunkEntryCount x) (tk_sampleToChunkEntries x)
    (tk_syncSampleEntryCount x) (tk_syncSampleEntries x) (tk_referenceType x)
    (tk_referenceTrackId x) (tk_videoCodec x) (tk_videoWidth x) (tk_videoHeight x)
    (tk_videoSpsSize x) (tk_videoSps x) (tk_videoPpsSize x) (tk_videoPps x) (tk_audioCodec x)
    (tk_audioChannelCount x) (tk_audioSampleSize x) (tk_audioSampleRate x)
    (tk_metadataContentEncoding x) (tk_metadataMimeFormat x) (tk_ref x) (tk_metadata x)
    (tk_chapters x).
Definition set_tk_sampleSize (v : option (list Z)) (x : mp4_track) : mp4_track :=
  Build_mp4_track (tk_id x) (tk_type x) (tk_timescale x) (tk_duration x) (tk_creationTime x)
    (tk_modificationTime x) (tk_currentSample x) (tk_sampleCount x) v (tk_sampleDecodingTime x)
    (tk_sampleOffset x) (tk_chunkCount x) (tk_chunkOffset x) (tk_timeToSampleEntryCount x)
    (tk_timeToSampleEntries x) (tk_sampleToChunkEntryCount x) (tk_sampleToChunkEntries x)
    (tk_syncSampleEntryCount x) (tk_syncSampleEntries x) (tk_referenceType x)
    (tk_referenceTrackId x) (tk_videoCodec x) (tk_videoWidth x) (tk_videoHeight x)
    (tk_videoSpsSize x) (tk_videoSps x) (tk_videoPpsSize x) (tk_videoPps x) (tk_audioCodec x)
    (tk_audioChannelCount x) (tk_audioSampleSize x) (tk_audioSampleRate x)
    (tk_metadataContentEncoding x) (tk_metadataMimeFormat x) (tk_ref x) (tk_metadata x)
    (tk_chapters x).
Definition set_tk_sampleDecodingTime (v : option (list Z)) (x : mp4_track) : mp4_track :=
  Build_mp4_track (tk_id x) (tk_type x) (tk_timescale x) (tk_duration x) (tk_creationTime x)
    (tk_modificationTime x) (tk_currentSample x) (tk_sampleCount x) (tk_sampleSize x) v
    (tk_sampleOffset x) (tk_chunkCount x) (tk_chunkOffset x) (tk_timeToSampleEntryCount x)
    (tk_timeToSampleEntries x) (tk_sampleToChunkEntryCount x) (tk_sampleToChunkEntries x)
    (tk_syncSampleEntryCount x) (tk_syncSampleEntries x) (tk_referenceType x)
    (tk_referenceTrackId x) (tk_videoCodec x) (tk_videoWidth x) (tk_videoHeight x)
    (tk_videoSpsSize x) (tk_videoSps x) (tk_videoPpsSize x) (tk_videoPps x) (tk_audioCodec x)
    (tk_audioChannelCount x) (tk_audioSampleSize x) (tk_audioSampleRate x)
    (tk_metadataContentEncoding x) (tk_metadataMimeFormat x) (tk_ref x) (tk_metadata x)
    (tk_chapters x).
Definition set_tk_sampleOffset (v : option (list Z)) (x : mp4_track) : mp4_track :=
  Build_mp4_track (tk_id x) (tk_type x) (tk_timescale x) (tk_duration x) (tk_creationTime x)
    (tk_modificationTime x) (tk_currentSample x) (tk_sampleCount x) (tk_sampleSize x)
    (tk_sampleDecodingTime x) v (tk_chunkCount x) (tk_chunkOffset x)
    (tk_timeToSampleEntryCount x) (tk_timeToSampleEntries x) (tk_sampleToChunkEntryCount x)
    (tk_sampleToChunkEntries x) (tk_syncSampleEntryCount x) (tk_syncSampleEntries x)
    (tk_referenceType x) (tk_referenceTrackId x) (tk_videoCodec x) (tk_videoWidth x)
    (tk_videoHeight x) (tk_videoSpsSize x) (tk_videoSps x) (tk_videoPpsSize x) (tk_videoPps x)
    (tk_audioCodec x) (tk_audioChannelCount x) (tk_audioSampleSize x) (tk_audioSampleRate x)
    (tk_metadataContentEncoding x) (tk_metadataMimeFormat x) (tk_ref x) (tk_metadata x)
    (tk_chapters x).
Definition set_tk_chunkCount (v : Z) (x : mp4_track) : mp4_track :=
  Build_mp4_track (tk_id x) (tk_type x) (tk_timescale x) (tk_duration x) (tk_creationTime x)
    (tk_modificationTime x) (tk_currentSample x) (tk_sampleCount x) (tk_sampleSize x)
    (tk_sampleDecodingTime x) (tk_sampleOffset x) v (tk_chunkOffset x)
    (tk_timeToSampleEntryCount x) (tk_timeToSampleEntries x) (tk_sampleToChunkEntryCount x)
    (tk_sampleToChunkEntries x) (tk_syncSampleEntryCount x) (tk_syncSampleEntries x)
    (tk_referenceType x) (tk_referenceTrackId x) (tk_videoCodec x) (tk_videoWidth x)
    (tk_videoHeight x) (tk_videoSpsSize x) (tk_videoSps x) (tk_videoPpsSize x) (tk_videoPps x)
    (tk_audioCodec x) (tk_audioChannelCount x) (tk_audioSampleSize x) (tk_audioSampleRate x)
    (tk_metadataContentEncoding x) (tk_metadataMimeFormat x) (tk_ref x) (tk_metadata x)
    (tk_chapters x).
Definition set_tk_chunkOffset (v : option (list Z)) (x : mp4_track) : mp4_track :=
  Build_mp4_track (tk_id x) (tk_type x) (tk_timescale x) (tk_duration x) (tk_creationTime x)
    (tk_modificationTime x) (tk_currentSample x) (tk_sampleCount x) (tk_sampleSize x)
    (tk_sampleDecodingTime x) (tk_sampleOffset x) (tk_chunkCount x) v
    (tk_timeToSampleEntryCount x) (tk_timeToSampleEntries x) (tk_sampleToChunkEntryCount x)
    (tk_sampleToChunkEntries x) (tk_syncSampleEntryCount x) (tk_syncSampleEntries x)
    (tk_referenceType x) (tk_referenceTrackId x) (tk_videoCodec x) (tk_videoWidth x)
    (tk_videoHeight x) (tk_videoSpsSize x) (tk_videoSps x) (tk_videoPpsSize x) (tk_videoPps x)
    (tk_audioCodec x) (tk_audioChannelCount x) (tk_audioSampleSize x) (tk_audioSampleRate x)
    (tk_metadataContentEncoding x) (tk_metadataMimeFormat x) (tk_ref x) (tk_metadata x)
    (tk_chapters x).
Definition set_tk_timeToSampleEntryCount (v : Z) (x : mp4_track) : mp4_track :=
  Build_mp4_track (tk_id x) (tk_type x) (tk_timescale x) (tk_duration x) (tk_creationTime x)
    (tk_modificationTime x) (tk_currentSample x) (tk_sampleCount x) (tk_sampleSize x)
    (tk_sampleDecodingTime x) (tk_sampleOffset x) (tk_chunkCount x) (tk_chunkOffset x) v
    (tk_timeToSampleEntries x) (tk_sampleToChunkEntryCount x) (tk_sampleToChunkEntries x)
    (tk_syncSampleEntryCount x) (tk_syncSampleEntries x) (tk_referenceType x)
    (tk_referenceTrackId x) (tk_videoCodec x) (tk_videoWidth x) (tk_videoHeight x)
    (tk_videoSpsSize x) (tk_videoSps x) (tk_videoPpsSize x) (tk_videoPps x) (tk_audioCodec x)
    (tk_audioChannelCount x) (tk_audioSampleSize x) (tk_audioSampleRate x)
    (tk_metadataContentEncoding x) (tk_metadataMimeFormat x) (tk_ref x) (tk_metadata x)
    (tk_chapters x).
Definition set_tk_timeToSampleEntries (v : option (list mp4_time_to_sample_entry)) (x : mp4_track) : mp4_track :=
  Build_mp4_track (tk_id x) (tk_type x) (tk_timescale x) (tk_duration x) (tk_creationTime x)
    (tk_modificationTime x) (tk_currentSample x) (tk_sampleCount x) (tk_sampleSize x)
    (tk_sampleDecodingTime x) (tk_sampleOffset x) (tk_chunkCount x) (tk_chunkOffset x)
    (tk_timeToSampleEntryCount x) v (tk_sampleToChunkEntryCount x) (tk_sampleToChunkEntries x)
    (tk_syncSampleEntryCount x) (tk_syncSampleEntries x) (tk_referenceType x)
    (tk_referenceTrackId x) (tk_videoCodec x) (tk_videoWidth x) (tk_videoHeight x)
    (tk_videoSpsSize x) (tk_videoSps x) (tk_videoPpsSize x) (tk_videoPps x) (tk_audioCodec x)
    (tk_audioChannelCount x) (tk_audioSampleSize x) (tk_audioSampleRate x)
    (tk_metadataContentEncoding x) (tk_metadataMimeFormat x) (tk_ref x) (tk_metadata x)
    (tk_chapters x).
Definition set_tk_sampleToChunkEntryCount (v : Z) (x : mp4_track) : mp4_track :=
  Build_mp4_track (tk_id x) (tk_type x) (tk_timescale x) (tk_duration x) (tk_creationTime x)
    (tk_modificationTime x) (tk_currentSample x) (tk_sampleCount x) (tk_sampleSize x)
    (tk_sampleDecodingTime x) (tk_sampleOffset x) (tk_chunkCount x) (tk_chunkOffset x)
    (tk_timeToSampleEntryCount x) (tk_timeToSampleEntries x) v (tk_sampleToChunkEntries x)
    (tk_syncSampleEntryCount x) (tk_syncSampleEntries x) (tk_referenceType x)
    (tk_referenceTrackId x) (tk_videoCodec x) (tk_videoWidth x) (tk_videoHeight x)
    (tk_videoSpsSize x) (tk_videoSps x) (tk_videoPpsSize x) (tk_videoPps x) (tk_audioCodec x)
    (tk_audioChannelCount x) (tk_audioSampleSize x) (tk_audioSampleRate x)
    (tk_metadataContentEncoding x) (tk_metadataMimeFormat x) (tk_ref x) (tk_metadata x)
    (tk_chapters x).
Definition set_tk_sampleToChunkEntries (v : option (list mp4_sample_to_chunk_entry)) (x : mp4_track) : mp4_track :=
  Build_mp4_track (tk_id x) (tk_type x) (tk_timescale x) (tk_duration x) (tk_creationTime x)
    (tk_modificationTime x) (tk_currentSample x) (tk_sampleCount x) (tk_sampleSize x)
    (tk_sampleDecodingTime x) (tk_sampleOffset x) (tk_chunkCount x) (tk_chunkOffset x)
    (tk_timeToSampleEntryCount x) (tk_timeToSampleEntries x) (tk_sampleToChunkEntryCount x) v
    (tk_syncSampleEntryCount x) (tk_syncSampleEntries x) (tk_referenceType x)
    (tk_referenceTrackId x) (tk_videoCodec x) (tk_videoWidth x) (tk_videoHeight x)
    (tk_videoSpsSize x) (tk_videoSps x) (tk_videoPpsSize x) (tk_videoPps x) (tk_audioCodec x)
    (tk_audioChannelCount x) (tk_audioSampleSize x) (tk_audioSampleRate x)
    (tk_metadataContentEncoding x) (tk_metadataMimeFormat x) (tk_ref x) (tk_metadata x)
    (tk_chapters x).
Definition set_tk_syncSampleEntryCount (v : Z) (x : mp4_track) : mp4_track :=
  Build_mp4_track (tk_id x) (tk_type x) (tk_timescale x) (tk_duration x) (tk_creationTime x)
    (tk_modificationTime x) (tk_currentSample x) (tk_sampleCount x) (tk_sampleSize x)
    (tk_sampleDecodingTime x) (tk_sampleOffset x) (tk_chunkCount x) (tk_chunkOffset x)
    (tk_timeToSampleEntryCount x) (tk_timeToSampleEntries x) (tk_sampleToChunkEntryCount x)
    (tk_sampleToChunkEntries x) v (tk_syncSampleEntries x) (tk_referenceType x)
    (tk_referenceTrackId x) (tk_videoCodec x) (tk_videoWidth x) (tk_videoHeight x)
    (tk_videoSpsSize x) (tk_videoSps x) (tk_videoPpsSize x) (tk_videoPps x) (tk_audioCodec x)
    (tk_audioChannelCount x) (tk_audioSampleSize x) (tk_audioSampleRate x)
    (tk_metadataContentEncoding x) (tk_metadataMimeFormat x) (tk_ref x) (tk_metadata x)
    (tk_chapters x).
Definition set_tk_syncSampleEntries (v : option (list Z)) (x : mp4_track) : mp4_track :=
  Build_mp4_track (tk_id x) (tk_type x) (tk_timescale x) (tk_duration x) (tk_creationTime x)
    (tk_modificationTime x) (tk_currentSample x) (tk_sampleCount x) (tk_sampleSize x)
    (tk_sampleDecodingTime x) (tk_sampleOffset x) (tk_chunkCount x) (tk_chunkOffset x)
    (tk_timeToSampleEntryCount x) (tk_timeToSampleEntries x) (tk_sampleToChunkEntryCount x)
    (tk_sampleToChunkEntries x) (tk_syncSampleEntryCount x) v (tk_referenceType x)
    (tk_referenceTrackId x) (tk_videoCodec x) (tk_videoWidth x) (tk_videoHeight x)
    (tk_videoSpsSize x) (tk_videoSps x) (tk_videoPpsSize x) (tk_videoPps x) (tk_audioCodec x)
    (tk_audioChannelCount x) (tk_audioSampleSize x) (tk_audioSampleRate x)
    (tk_metadataContentEncoding x) (tk_metadataMimeFormat x) (tk_ref x) (tk_metadata x)
    (tk_chapters x).
Definition set_tk_referenceType (v : Z) (x : mp4_track) : mp4_track :=
  Build_mp4_track (tk_id x) (tk_type x) (tk_timescale x) (tk_duration x) (tk_creationTime x)
    (tk_modificationTime x) (tk_currentSample x) (tk_sampleCount x) (tk_sampleSize x)
    (tk_sampleDecodingTime x) (tk_sampleOffset x) (tk_chunkCount x) (tk_chunkOffset x)
    (tk_timeToSampleEntryCount x) (tk_timeToSampleEntries x) (tk_sampleToChunkEntryCount x)
    (tk_sampleToChunkEntries x) (tk_syncSampleEntryCount x) (tk_syncSampleEntries x) v
    (tk_referenceTrackId x) (tk_videoCodec x) (tk_videoWidth x) (tk_videoHeight x)
    (tk_videoSpsSize x) (tk_videoSps x) (tk_videoPpsSize x) (tk_videoPps x) (tk_audioCodec x)
    (tk_audioChannelCount x) (tk_audioSampleSize x) (tk_audioSampleRate x)
    (tk_metadataContentEncoding x) (tk_metadataMimeFormat x) (tk_ref x) (tk_metadata x)
    (tk_chapters x).
Definition set_tk_referenceTrackId (v : Z) (x : mp4_track) : mp4_track :=
  Build_mp4_track (tk_id x) (tk_type x) (tk_timescale x) (tk_duration x) (tk_creationTime x)
    (tk_modificationTime x) (tk_currentSample x) (tk_sampleCount x) (tk_sampleSize x)
    (tk_sampleDecodingTime x) (tk_sampleOffset x) (tk_chunkCount x) (tk_chunkOffset x)
    (tk_timeToSampleEntryCount x) (tk_timeToSampleEntries x) (tk_sampleToChunkEntryCount x)
    (tk_sampleToChunkEntries x) (tk_syncSampleEntryCount x) (tk_syncSampleEntries x)
    (tk_referenceType x) v (tk_videoCodec x) (tk_videoWidth x) (tk_videoHeight x)
    (tk_videoSpsSize x) (tk_videoSps x) (tk_videoPpsSize x) (tk_videoPps x) (tk_audioCodec x)
    (tk_audioChannelCount x) (tk_audioSampleSize x) (tk_audioSampleRate x)
    (tk_metadataContentEncoding x) (tk_metadataMimeFormat x) (tk_ref x) (tk_metadata x)
    (tk_chapters x).
Definition set_tk_videoCodec (v : mp4_video_codec) (x : mp4_track) : mp4_track :=
  Build_mp4_track (tk_id x) (tk_type x) (tk_timescale x) (tk_duration x) (tk_creationTime x)
    (tk_modificationTime x) (tk_currentSample x) (tk_sampleCount x) (tk_sampleSize x)
    (tk_sampleDecodingTime x) (tk_sampleOffset x) (tk_chunkCount x) (tk_chunkOffset x)
    (tk_timeToSampleEntryCount x) (tk_timeToSampleEntries x) (tk_sampleToChunkEntryCount x)
    (tk_sampleToChunkEntries x) (tk_syncSampleEntryCount x) (tk_syncSampleEntries x)
    (tk_referenceType x) (tk_referenceTrackId x) v (tk_videoWidth x) (tk_videoHeight x)
    (tk_videoSpsSize x) (tk_videoSps x) (tk_videoPpsSize x) (tk_videoPps x) (tk_audioCodec x)
    (tk_audioChannelCount x) (tk_audioSampleSize x) (tk_audioSampleRate x)
    (tk_metadataContentEncoding x) (tk_metadataMimeFormat x) (tk_ref x) (tk_metadata x)
    (tk_chapters x).
Definition set_tk_videoWidth (v : Z) (x : mp4_track) : mp4_track :=
  Build_mp4_track (tk_id x) (tk_type x) (tk_timescale x) (tk_duration x) (tk_creationTime x)
    (tk_modificationTime x) (tk_currentSample x) (tk_sampleCount x) (tk_sampleSize x)
    (tk_sampleDecodingTime x) (tk_sampleOffset x) (tk_chunkCount x) (tk_chunkOffset x)
    (tk_timeToSampleEntryCount x) (tk_timeToSampleEntries x) (tk_sampleToChunkEntryCount x)
    (tk_sampleToChunkEntries x) (tk_syncSampleEntryCount x) (tk_syncSampleEntries x)
    (tk_referenceType x) (tk_referenceTrackId x) (tk_videoCodec x) v (tk_videoHeight x)
    (tk_videoSpsSize x) (tk_videoSps x) (tk_videoPpsSize x) (tk_videoPps x) (tk_audioCodec x)
    (tk_audioChannelCount x) (tk_audioSampleSize x) (tk_audioSampleRate x)
    (tk_metadataContentEncoding x) (tk_metadataMimeFormat x) (tk_ref x) (tk_metadata x)
    (tk_chapters x).
Definition set_tk_videoHeight (v : Z) (x : mp4_track) : mp4_track :=
  Build_mp4_track (tk_id x) (tk_type x) (tk_timescale x) (tk_duration x) (tk_creationTime x)
    (tk_modificationTime x) (tk_currentSample x) (tk_sampleCount x) (tk_sampleSize x)
    (tk_sampleDecodingTime x) (tk_sampleOffset x) (tk_chunkCount x) (tk_chunkOffset x)
    (tk_timeToSampleEntryCount x) (tk_timeToSampleEntries x) (tk_sampleToChunkEntryCount x)
    (tk_sampleToChunkEntries x) (tk_syncSampleEntryCount x) (tk_syncSampleEntries x)
    (tk_referenceType x) (tk_referenceTrackId x) (tk_videoCodec x) (tk_videoWidth x) v
    (tk_videoSpsSize x) (tk_videoSps x) (tk_videoPpsSize x) (tk_videoPps x) (tk_audioCodec x)
    (tk_audioChannelCount x) (tk_audioSampleSize x) (tk_audioSampleRate x)
    (tk_metadataContentEncoding x) (tk_metadataMimeFormat x) (tk_ref x) (tk_metadata x)
    (tk_chapters x).
Definition set_tk_videoSpsSize (v : Z) (x : mp4_track) : mp4_track :=
  Build_mp4_track (tk_id x) (tk_type x) (tk_timescale x) (tk_duration x) (tk_creationTime x)
    (tk_modificationTime x) (tk_currentSample x) (tk_sampleCount x) (tk_sampleSize x)
    (tk_sampleDecodingTime x) (tk_sampleOffset x) (tk_chunkCount x) (tk_chunkOffset x)
    (tk_timeToSampleEntryCount x) (tk_timeToSampleEntries x) (tk_sampleToChunkEntryCount x)
    (tk_sampleToChunkEntries x) (tk_syncSampleEntryCount x) (tk_syncSampleEntries x)
    (tk_referenceType x) (tk_referenceTrackId x) (tk_videoCodec x) (tk_videoWidth x)
    (tk_videoHeight x) v (tk_videoSps x) (tk_videoPpsSize x) (tk_videoPps x) (tk_audioCodec x)
    (tk_audioChannelCount x) (tk_audioSampleSize x) (tk_audioSampleRate x)
    (tk_metadataContentEncoding x) (tk_metadataMimeFormat x) (tk_ref x) (tk_metadata x)
    (tk_chapters x).
Definition set_tk_videoSps (v : option (list Z)) (x : mp4_track) : mp4_track :=
  Build_mp4_track (tk_id x) (tk_type x) (tk_timescale x) (tk_duration x) (tk_creationTime x)
    (tk_modificationTime x) (tk_currentSample x) (tk_sampleCount x) (tk_sampleSize x)
    (tk_sampleDecodingTime x) (tk_sampleOffset x) (tk_chunkCount x) (tk_chunkOffset x)
    (tk_timeToSampleEntryCount x) (tk_timeToSampleEntries x) (tk_sampleToChunkEntryCount x)
    (tk_sampleToChunkEntries x) (tk_syncSampleEntryCount x) (tk_syncSampleEntries x)
    (tk_referenceType x) (tk_referenceTrackId x) (tk_videoCodec x) (tk_videoWidth x)
    (tk_videoHeight x) (tk_videoSpsSize x) v (tk_videoPpsSize x) (tk_videoPps x)
    (tk_audioCodec x) (tk_audioChannelCount x) (tk_audioSampleSize x) (tk_audioSampleRate x)
    (tk_metadataContentEncoding x) (tk_metadataMimeFormat x) (tk_ref x) (tk_metadata x)
    (tk_chapters x).
Definition set_tk_videoPpsSize (v : Z) (x : mp4_track) : mp4_track :=
  Build_mp4_track (tk_id x) (tk_type x) (tk_timescale x) (tk_duration x) (tk_creationTime x)
    (tk_modificationTime x) (tk_currentSample x) (tk_sampleCount x) (tk_sampleSize x)
    (tk_sampleDecodingTime x) (tk_sampleOffset x) (tk_chunkCount x) (tk_chunkOffset x)
    (tk_timeToSampleEntryCount x) (tk_timeToSampleEntries x) (tk_sampleToChunkEntryCount x)
    (tk_sampleToChunkEntries x) (tk_syncSampleEntryCount x) (tk_syncSampleEntries x)
    (tk_referenceType x) (tk_referenceTrackId x) (tk_videoCodec x) (tk_videoWidth x)
    (tk_videoHeight x) (tk_videoSpsSize x) (tk_videoSps x) v (tk_videoPps x) (tk_audioCodec x)
    (tk_audioChannelCount x) (tk_audioSampleSize x) (tk_audioSampleRate x)
    (tk_metadataContentEncoding x) (tk_metadataMimeFormat x) (tk_ref x) (tk_metadata x)
    (tk_chapters x).
Definition set_tk_videoPps (v : option (list Z)) (x : mp4_track) : mp4_track :=
  Build_mp4_track (tk_id x) (tk_type x) (tk_timescale x) (tk_duration x) (tk_creationTime x)
    (tk_modificationTime x) (tk_currentSample x) (tk_sampleCount x) (tk_sampleSize x)
    (tk_sampleDecodingTime x) (tk_sampleOffset x) (tk_chunkCount x) (tk_chunkOffset x)
    (tk_timeToSampleEntryCount x) (tk_timeToSampleEntries x) (tk_sampleToChunkEntryCount x)
    (tk_sampleToChunkEntries x) (tk_syncSampleEntryCount x) (tk_syncSampleEntries x)
    (tk_referenceType x) (tk_referenceTrackId x) (tk_videoCodec x) (tk_videoWidth x)
    (tk_videoHeight x) (tk_videoSpsSize x) (tk_videoSps x) (tk_videoPpsSize x) v
    (tk_audioCodec x) (tk_audioChannelCount x) (tk_audioSampleSize x) (tk_audioSampleRate x)
    (tk_metadataContentEncoding x) (tk_metadataMimeFormat x) (tk_ref x) (tk_metadata x)
    (tk_chapters x).
Definition set_tk_audioCodec (v : mp4_audio_codec) (x : mp4_track) : mp4_track :=
  Build_mp4_track (tk_id x) (tk_type x) (tk_timescale x) (tk_duration x) (tk_creationTime x)
    (tk_modificationTime x) (tk_currentSample x) (tk_sampleCount x) (tk_sampleSize x)
    (tk_sampleDecodingTime x) (tk_sampleOffset x) (tk_chunkCount x) (tk_chunkOffset x)
    (tk_timeToSampleEntryCount x) (tk_timeToSampleEntries x) (tk_sampleToChunkEntryCount x)
    (tk_sampleToChunkEntries x) (tk_syncSampleEntryCount x) (tk_syncSampleEntries x)
    (tk_referenceType x) (tk_referenceTrackId x) (tk_videoCodec x) (tk_videoWidth x)
    (tk_videoHeight x) (tk_videoSpsSize x) (tk_videoSps x) (tk_videoPpsSize x) (tk_videoPps x) v
    (tk_audioChannelCount x) (tk_audioSampleSize x) (tk_audioSampleRate x)
    (tk_metadataContentEncoding x) (tk_metadataMimeFormat x) (tk_ref x) (tk_metadata x)
    (tk_chapters x).
Definition set_tk_audioChannelCount (v : Z) (x : mp4_track) : mp4_track :=
  Build_mp4_track (tk_id x) (tk_type x) (tk_timescale x) (tk_duration x) (tk_creationTime x)
    (tk_modificationTime x) (tk_currentSample x) (tk_sampleCount x) (tk_sampleSize x)
    (tk_sampleDecodingTime x) (tk_sampleOffset x) (tk_chunkCount x) (tk_chunkOffset x)
    (tk_timeToSampleEntryCount x) (tk_timeToSampleEntries x) (tk_sampleToChunkEntryCount x)
    (tk_sampleToChunkEntries x) (tk_syncSampleEntryCount x) (tk_syncSampleEntries x)
    (tk_referenceType x) (tk_referenceTrackId x) (tk_videoCodec x) (tk_videoWidth x)
    (tk_videoHeight x) (tk_videoSpsSize x) (tk_videoSps x) (tk_videoPpsSize x) (tk_videoPps x)
    (tk_audioCodec x) v (tk_audioSampleSize x) (tk_audioSampleRate x)
    (tk_metadataContentEncoding x) (tk_metadataMimeFormat x) (tk_ref x) (tk_metadata x)
    (tk_chapters x).
Definition set_tk_audioSampleSize (v : Z) (x : mp4_track) : mp4_track :=
  Build_mp4_track (tk_id x) (tk_type x) (tk_timescale x) (tk_duration x) (tk_creationTime x)
    (tk_modificationTime x) (tk_currentSample x) (tk_sampleCount x) (tk_sampleSize x)
    (tk_sampleDecodingTime x) (tk_sampleOffset x) (tk_chunkCount x) (tk_chunkOffset x)
    (tk_timeToSampleEntryCount x) (tk_timeToSampleEntries x) (tk_sampleToChunkEntryCount x)
    (tk_sampleToChunkEntries x) (tk_syncSampleEntryCount x) (tk_syncSampleEntries x)
    (tk_referenceType x) (tk_referenceTrackId x) (tk_videoCodec x) (tk_videoWidth x)
    (tk_videoHeight x) (tk_videoSpsSize x) (tk_videoSps x) (tk_videoPpsSize x) (tk_videoPps x)
    (tk_audioCodec x) (tk_audioChannelCount x) v (tk_audioSampleRate x)
    (tk_metadataContentEncoding x) (tk_metadataMimeFormat x) (tk_ref x) (tk_metadata x)
    (tk_chapters x).
Definition set_tk_audioSampleRate (v : Z) (x : mp4_track) : mp4_track :=
  Build_mp4_track (tk_id x) (tk_type x) (tk_timescale x) (tk_duration x) (tk_creationTime x)
    (tk_modificationTime x) (tk_currentSample x) (tk_sampleCount x) (tk_sampleSize x)
    (tk_sampleDecodingTime x) (tk_sampleOffset x) (tk_chunkCount x) (tk_chunkOffset x)
    (tk_timeToSampleEntryCount x) (tk_timeToSampleEntries x) (tk_sampleToChunkEntryCount x)
    (tk_sampleToChunkEntries x) (tk_syncSampleEntryCount x) (tk_syncSampleEntries x)
    (tk_referenceType x) (tk_referenceTrackId x) (tk_videoCodec x) (tk_videoWidth x)
    (tk_videoHeight x) (tk_videoSpsSize x) (tk_videoSps x) (tk_videoPpsSize x) (tk_videoPps x)
    (tk_audioCodec x) (tk_audioChannelCount x) (tk_audioSampleSize x) v
    (tk_metadataContentEncoding x) (tk_metadataMimeFormat x) (tk_ref x) (tk_metadata x)
    (tk_chapters x).
Definition set_tk_metadataContentEncoding (v : option (list Z)) (x : mp4_track) : mp4_track :=
  Build_mp4_track (tk_id x) (tk_type x) (tk_timescale x) (tk_duration x) (tk_creationTime x)
    (tk_modificationTime x) (tk_currentSample x) (tk_sampleCount x) (tk_sampleSize x)
    (tk_sampleDecodingTime x) (tk_sampleOffset x) (tk_chunkCount x) (tk_chunkOffset x)
    (tk_timeToSampleEntryCount x) (tk_timeToSampleEntries x) (tk_sampleToChunkEntryCount x)
    (tk_sampleToChunkEntries x) (tk_syncSampleEntryCount x) (tk_syncSampleEntries x)
    (tk_referenceType x) (tk_referenceTrackId x) (tk_videoCodec x) (tk_videoWidth x)
    (tk_videoHeight x) (tk_videoSpsSize x) (tk_videoSps x) (tk_videoPpsSize x) (tk_videoPps x)
    (tk_audioCodec x) (tk_audioChannelCount x) (tk_audioSampleSize x) (tk_audioSampleRate x) v
    (tk_metadataMimeFormat x) (tk_ref x) (tk_metadata x) (tk_chapters x).
Definition set_tk_metadataMimeFormat (v : option (list Z)) (x : mp4_track) : mp4_track :=
  Build_mp4_track (tk_id x) (tk_type x) (tk_timescale x) (tk_duration x) (tk_creationTime x)
    (tk_modificationTime x) (tk_currentSample x) (tk_sampleCount x) (tk_sampleSize x)
    (tk_sampleDecodingTime x) (tk_sampleOffset x) (tk_chunkCount x) (tk_chunkOffset x)
    (tk_timeToSampleEntryCount x) (tk_timeToSampleEntries x) (tk_sampleToChunkEntryCount x)
    (tk_sampleToChunkEntries x) (tk_syncSampleEntryCount x) (tk_syncSampleEntries x)
    (tk_referenceType x) (tk_referenceTrackId x) (tk_videoCodec x) (tk_videoWidth x)
    (tk_videoHeight x) (tk_videoSpsSize x) (tk_videoSps x) (tk_videoPpsSize x) (tk_videoPps x)
    (tk_audioCodec x) (tk_audioChannelCount x) (tk_audioSampleSize x) (tk_audioSampleRate x)
    (tk_metadataContentEncoding x) v (tk_ref x) (tk_metadata x) (tk_chapters x).
Definition set_tk_ref (v : option nat) (x : mp4_track) : mp4_track :=
  Build_mp4_track (tk_id x) (tk_type x) (tk_timescale x) (tk_duration x) (tk_creationTime x)
    (tk_modificationTime x) (tk_currentSample x) (tk_sampleCount x) (tk_sampleSize x)
    (tk_sampleDecodingTime x) (tk_sampleOffset x) (tk_chunkCount x) (tk_chunkOffset x)
    (tk_timeToSampleEntryCount x) (tk_timeToSampleEntries x) (tk_sampleToChunkEntryCount x)
    (tk_sampleToChunkEntries x) (tk_syncSampleEntryCount x) (tk_syncSampleEntries x)
    (tk_referenceType x) (tk_referenceTrackId x) (tk_videoCodec x) (tk_videoWidth x)
    (tk_videoHeight x) (tk_videoSpsSize x) (tk_videoSps x) (tk_videoPpsSize x) (tk_videoPps x)
    (tk_audioCodec x) (tk_audioChannelCount x) (tk_audioSampleSize x) (tk_audioSampleRate x)
    (tk_metadataContentEncoding x) (tk_metadataMimeFormat x) v (tk_metadata x) (tk_chapters x).
Definition set_tk_metadata (v : option nat) (x : mp4_track) : mp4_track :=
  Build_mp4_track (tk_id x) (tk_type x) (tk_timescale x) (tk_duration x) (tk_creationTime x)
    (tk_modificationTime x) (tk_currentSample x) (tk_sampleCount x) (tk_sampleSize x)
    (tk_sampleDecodingTime x) (tk_sampleOffset x) (tk_chunkCount x) (tk_chunkOffset x)
    (tk_timeToSampleEntryCount x) (tk_timeToSampleEntries x) (tk_sampleToChunkEntryCount x)
    (tk_sampleToChunkEntries x) (tk_syncSampleEntryCount x) (tk_syncSampleEntries x)
    (tk_referenceType x) (tk_referenceTrackId x) (tk_videoCodec x) (tk_videoWidth x)
    (tk_videoHeight x) (tk_videoSpsSize x) (tk_videoSps x) (tk_videoPpsSize x) (tk_videoPps x)
    (tk_audioCodec x) (tk_audioChannelCount x) (tk_audioSampleSize x) (tk_audioSampleRate x)
    (tk_metadataContentEncoding x) (tk_metadataMimeFormat x) (tk_ref x) v (tk_chapters x).
Definition set_tk_chapters (v : option nat) (x : mp4_track) : mp4_track :=
  Build_mp4_track (tk_id x) (tk_type x) (tk_timescale x) (tk_duration x) (tk_creationTime x)
    (tk_modificationTime x) (tk_currentSample x) (tk_sampleCount x) (tk_sampleSize x)
    (tk_sampleDecodingTime x) (tk_sampleOffset x) (tk_chunkCount x) (tk_chunkOffset x)
    (tk_timeToSampleEntryCount x) (tk_timeToSampleEntries x) (tk_sampleToChunkEntryCount x)
    (tk_sampleToChunkEntries x) (tk_syncSampleEntryCount x) (tk_syncSampleEntries x)
    (tk_referenceType x) (tk_referenceTrackId x) (tk_videoCodec x) (tk_videoWidth x)
    (tk_videoHeight x) (tk_videoSpsSize x) (tk_videoSps x) (tk_videoPpsSize x) (tk_videoPps x)
    (tk_audioCodec x) (tk_audioChannelCount x) (tk_audioSampleSize x) (tk_audioSampleRate x)
    (tk_metadataContentEncoding x) (tk_metadataMimeFormat x) (tk_ref x) (tk_metadata x) v.

Record mp4_demux : Type := Build_mp4_demux {
  dm_file : FILE;  (* FILE *file *)
  dm_fileSize : Z;  (* off_t *)
  dm_readBytes : Z;  (* off_t *)
  dm_tracks : list mp4_track;  (* struct mp4_track *track, as an arena *)
  dm_trackCount : Z;  (* unsigned int *)
  dm_timescale : Z;  (* uint32_t *)
  dm_duration : Z;  (* uint64_t *)
  dm_creationTime : Z;  (* uint64_t *)
  dm_modificationTime : Z;  (* uint64_t *)
  dm_chaptersName : list (option (list Z));  (* char *[MP4_CHAPTERS_MAX] *)
  dm_chaptersTime : list Z;  (* uint64_t [MP4_CHAPTERS_MAX] *)
  dm_chaptersCount : Z;  (* unsigned int *)
  dm_finalMetadataCount : Z;  (* unsigned int *)
  dm_finalMetadataKey : option (list (option (list Z)));  (* char ** *)
  dm_finalMetadataValue : option (list (option (list Z)));  (* char ** *)
  dm_udtaLocationKey : option (list Z);  (* char * *)
  dm_udtaLocationValue : option (list Z);  (* char * *)
  dm_finalCoverOffset : Z;  (* off_t *)
  dm_finalCoverSize : Z;  (* uint32_t *)
  dm_finalCoverType : mp4_metadata_cover_type;
  dm_udtaCoverOffset : Z;  (* off_t *)
  dm_udtaCoverSize : Z;  (* uint32_t *)
  dm_udtaCoverType : mp4_metadata_cover_type;
  dm_metaCoverOffset : Z;  (* off_t *)
  dm_metaCoverSize : Z;  (* uint32_t *)
  dm_metaCoverType : mp4_metadata_cover_type;
  dm_udtaMetadataCount : Z;  (* unsigned int *)
  dm_udtaMetadataParseIdx : Z;  (* unsigned int *)
  dm_udtaMetadataKey : option (list (option (list Z)));  (* char ** *)
  dm_udtaMetadataValue : option (list (option (list Z)));  (* char ** *)
  dm_metaMetadataCount : Z;  (* unsigned int *)
  dm_metaMetadataKey : option (list (option (list Z)));  (* char ** *)
  dm_metaMetadataValue : option (list (option (list Z)))  (* char ** *)
}.

Definition set_dm_file (v : FILE) (x : mp4_demux) : mp4_demux :=
  Build_mp4_demux v (dm_fileSize x) (dm_readBytes x) (dm_tracks x) (dm_trackCount x)
    (dm_timescale x) (dm_duration x) (dm_creationTime x) (dm_modificationTime x)
    (dm_chaptersName x) (dm_chaptersTime x) (dm_chaptersCount x) (dm_finalMetadataCount x)
    (dm_finalMetadataKey x) (dm_finalMetadataValue x) (dm_udtaLocationKey x)
    (dm_udtaLocationValue x) (dm_finalCoverOffset x) (dm_finalCoverSize x) (dm_finalCoverType x)
    (dm_udtaCoverOffset x) (dm_udtaCoverSize x) (dm_udtaCoverType x) (dm_metaCoverOffset x)
    (dm_metaCoverSize x) (dm_metaCoverType x) (dm_udtaMetadataCount x)
    (dm_udtaMetadataParseIdx x) (dm_udtaMetadataKey x) (dm_udtaMetadataValue x)
    (dm_metaMetadataCount x) (dm_metaMetadataKey x) (dm_metaMetadataValue x).
Definition set_dm_fileSize (v : Z) (x : mp4_demux) : mp4_demux :=
  Build_mp4_demux (dm_file x) v (dm_readBytes x) (dm_tracks x) (dm_trackCount x)
    (dm_timescale x) (dm_duration x) (dm_creationTime x) (dm_modificationTime x)
    (dm_chaptersName x) (dm_chaptersTime x) (dm_chaptersCount x) (dm_finalMetadataCount x)
    (dm_finalMetadataKey x) (dm_finalMetadataValue x) (dm_udtaLocationKey x)
    (dm_udtaLocationValue x) (dm_finalCoverOffset x) (dm_finalCoverSize x) (dm_finalCoverType x)
    (dm_udtaCoverOffset x) (dm_udtaCoverSize x) (dm_udtaCoverType x) (dm_metaCoverOffset x)
    (dm_metaCoverSize x) (dm_metaCoverType x) (dm_udtaMetadataCount x)
    (dm_udtaMetadataParseIdx x) (dm_udtaMetadataKey x) (dm_udtaMetadataValue x)
    (dm_metaMetadataCount x) (dm_metaMetadataKey x) (dm_metaMetadataValue x).
Definition set_dm_readBytes (v : Z) (x : mp4_demux) : mp4_demux :=
  Build_mp4_demux (dm_file x) (dm_fileSize x) v (dm_tracks x) (dm_trackCount x) (dm_timescale x)
    (dm_duration x) (dm_creationTime x) (dm_modificationTime x) (dm_chaptersName x)
    (dm_chaptersTime x) (dm_chaptersCount x) (dm_finalMetadataCount x) (dm_finalMetadataKey x)
    (dm_finalMetadataValue x) (dm_udtaLocationKey x) (dm_udtaLocationValue x)
    (dm_finalCoverOffset x) (dm_finalCoverSize x) (dm_finalCoverType x) (dm_udtaCoverOffset x)
    (dm_udtaCoverSize x) (dm_udtaCoverType x) (dm_metaCoverOffset x) (dm_metaCoverSize x)
    (dm_metaCoverType x) (dm_udtaMetadataCount x) (dm_udtaMetadataParseIdx x)
    (dm_udtaMetadataKey x) (dm_udtaMetadataValue x) (dm_metaMetadataCount x)
    (dm_metaMetadataKey x) (dm_metaMetadataValue x).
Definition set_dm_tracks (v : list mp4_track) (x : mp4_demux) : mp4_demux :=
  Build_mp4_demux (dm_file x) (dm_fileSize x) (dm_readBytes x) v (dm_trackCount x)
    (dm_timescale x) (dm_duration x) (dm_creationTime x) (dm_modificationTime x)
    (dm_chaptersName x) (dm_chaptersTime x) (dm_chaptersCount x) (dm_finalMetadataCount x)
    (dm_finalMetadataKey x) (dm_finalMetadataValue x) (dm_udtaLocationKey x)
    (dm_udtaLocationValue x) (dm_finalCoverOffset x) (dm_finalCoverSize x) (dm_finalCoverType x)
    (dm_udtaCoverOffset x) (dm_udtaCoverSize x) (dm_udtaCoverType x) (dm_metaCoverOffset x)
    (dm_metaCoverSize x) (dm_metaCoverType x) (dm_udtaMetadataCount x)
    (dm_udtaMetadataParseIdx x) (dm_udtaMetadataKey x) (dm_udtaMetadataValue x)
    (dm_metaMetadataCount x) (dm_metaMetadataKey x) (dm_metaMetadataValue x).
Definition set_dm_trackCount (v : Z) (x : mp4_demux) : mp4_demux :=
  Build_mp4_demux (dm_file x) (dm_fileSize x) (dm_readBytes x) (dm_tracks x) v (dm_timescale x)
    (dm_duration x) (dm_creationTime x) (dm_modificationTime x) (dm_chaptersName x)
    (dm_chaptersTime x) (dm_chaptersCount x) (dm_finalMetadataCount x) (dm_finalMetadataKey x)
    (dm_finalMetadataValue x) (dm_udtaLocationKey x) (dm_udtaLocationValue x)
    (dm_finalCoverOffset x) (dm_finalCoverSize x) (dm_finalCoverType x) (dm_udtaCoverOffset x)
    (dm_udtaCoverSize x) (dm_udtaCoverType x) (dm_metaCoverOffset x) (dm_metaCoverSize x)
    (dm_metaCoverType x) (dm_udtaMetadataCount x) (dm_udtaMetadataParseIdx x)
    (dm_udtaMetadataKey x) (dm_udtaMetadataValue x) (dm_metaMetadataCount x)
    (dm_metaMetadataKey x) (dm_metaMetadataValue x).
Definition set_dm_timescale (v : Z) (x : mp4_demux) : mp4_demux :=
  Build_mp4_demux (dm_file x) (dm_fileSize x) (dm_readBytes x) (dm_tracks x) (dm_trackCount x) v
    (dm_duration x) (dm_creationTime x) (dm_modificationTime x) (dm_chaptersName x)
    (dm_chaptersTime x) (dm_chaptersCount x) (dm_finalMetadataCount x) (dm_finalMetadataKey x)
    (dm_finalMetadataValue x) (dm_udtaLocationKey x) (dm_udtaLocationValue x)
    (dm_finalCoverOffset x) (dm_finalCoverSize x) (dm_finalCoverType x) (dm_udtaCoverOffset x)
    (dm_udtaCoverSize x) (dm_udtaCoverType x) (dm_metaCoverOffset x) (dm_metaCoverSize x)
    (dm_metaCoverType x) (dm_udtaMetadataCount x) (dm_udtaMetadataParseIdx x)
    (dm_udtaMetadataKey x) (dm_udtaMetadataValue x) (dm_metaMetadataCount x)
    (dm_metaMetadataKey x) (dm_metaMetadataValue x).
Definition set_dm_duration (v : Z) (x : mp4_demux) : mp4_demux :=
  Build_mp4_demux (dm_file x) (dm_fileSize x) (dm_readBytes x) (dm_tracks x) (dm_trackCount x)
    (dm_timescale x) v (dm_creationTime x) (dm_modificationTime x) (dm_chaptersName x)
    (dm_chaptersTime x) (dm_chaptersCount x) (dm_finalMetadataCount x) (dm_finalMetadataKey x)
    (dm_finalMetadataValue x) (dm_udtaLocationKey x) (dm_udtaLocationValue x)
    (dm_finalCoverOffset x) (dm_finalCoverSize x) (dm_finalCoverType x) (dm_udtaCoverOffset x)
    (dm_udtaCoverSize x) (dm_udtaCoverType x) (dm_metaCoverOffset x) (dm_metaCoverSize x)
    (dm_metaCoverType x) (dm_udtaMetadataCount x) (dm_udtaMetadataParseIdx x)
    (dm_udtaMetadataKey x) (dm_udtaMetadataValue x) (dm_metaMetadataCount x)
    (dm_metaMetadataKey x) (dm_metaMetadataValue x).
Definition set_dm_creationTime (v : Z) (x : mp4_demux) : mp4_demux :=
  Build_mp4_demux (dm_file x) (dm_fileSize x) (dm_readBytes x) (dm_tracks x) (dm_trackCount x)
    (dm_timescale x) (dm_duration x) v (dm_modificationTime x) (dm_chaptersName x)
    (dm_chaptersTime x) (dm_chaptersCount x) (dm_finalMetadataCount x) (dm_finalMetadataKey x)
    (dm_finalMetadataValue x) (dm_udtaLocationKey x) (dm_udtaLocationValue x)
    (dm_finalCoverOffset x) (dm_finalCoverSize x) (dm_finalCoverType x) (dm_udtaCoverOffset x)
    (dm_udtaCoverSize x) (dm_udtaCoverType x) (dm_metaCoverOffset x) (dm_metaCoverSize x)
    (dm_metaCoverType x) (dm_udtaMetadataCount x) (dm_udtaMetadataParseIdx x)
    (dm_udtaMetadataKey x) (dm_udtaMetadataValue x) (dm_metaMetadataCount x)
    (dm_metaMetadataKey x) (dm_metaMetadataValue x).
Definition set_dm_modificationTime (v : Z) (x : mp4_demux) : mp4_demux :=
  Build_mp4_demux (dm_file x) (dm_fileSize x) (dm_readBytes x) (dm_tracks x) (dm_trackCount x)
    (dm_timescale x) (dm_duration x) (dm_creationTime x) v (dm_chaptersName x)
    (dm_chaptersTime x) (dm_chaptersCount x) (dm_finalMetadataCount x) (dm_finalMetadataKey x)
    (dm_finalMetadataValue x) (dm_udtaLocationKey x) (dm_udtaLocationValue x)
    (dm_finalCoverOffset x) (dm_finalCoverSize x) (dm_finalCoverType x) (dm_udtaCoverOffset x)
    (dm_udtaCoverSize x) (dm_udtaCoverType x) (dm_metaCoverOffset x) (dm_metaCoverSize x)
    (dm_metaCoverType x) (dm_udtaMetadataCount x) (dm_udtaMetadataParseIdx x)
    (dm_udtaMetadataKey x) (dm_udtaMetadataValue x) (dm_metaMetadataCount x)
    (dm_metaMetadataKey x) (dm_metaMetadataValue x).
Definition set_dm_chaptersName (v : list (option (list Z))) (x : mp4_demux) : mp4_demux :=
  Build_mp4_demux (dm_file x) (dm_fileSize x) (dm_readBytes x) (dm_tracks x) (dm_trackCount x)
    (dm_timescale x) (dm_duration x) (dm_creationTime x) (dm_modificationTime x) v
    (dm_chaptersTime x) (dm_chaptersCount x) (dm_finalMetadataCount x) (dm_finalMetadataKey x)
    (dm_finalMetadataValue x) (dm_udtaLocationKey x) (dm_udtaLocationValue x)
    (dm_finalCoverOffset x) (dm_finalCoverSize x) (dm_finalCoverType x) (dm_udtaCoverOffset x)
    (dm_udtaCoverSize x) (dm_udtaCoverType x) (dm_metaCoverOffset x) (dm_metaCoverSize x)
    (dm_metaCoverType x) (dm_udtaMetadataCount x) (dm_udtaMetadataParseIdx x)
    (dm_udtaMetadataKey x) (dm_udtaMetadataValue x) (dm_metaMetadataCount x)
    (dm_metaMetadataKey x) (dm_metaMetadataValue x).
Definition set_dm_chaptersTime (v : list Z) (x : mp4_demux) : mp4_demux :=
  Build_mp4_demux (dm_file x) (dm_fileSize x) (dm_readBytes x) (dm_tracks x) (dm_trackCount x)
    (dm_timescale x) (dm_duration x) (dm_creationTime x) (dm_modificationTime x)
    (dm_chaptersName x) v (dm_chaptersCount x) (dm_finalMetadataCount x) (dm_finalMetadataKey x)
    (dm_finalMetadataValue x) (dm_udtaLocationKey x) (dm_udtaLocationValue x)
    (dm_finalCoverOffset x) (dm_finalCoverSize x) (dm_finalCoverType x) (dm_udtaCoverOffset x)
    (dm_udtaCoverSize x) (dm_udtaCoverType x) (dm_metaCoverOffset x) (dm_metaCoverSize x)
    (dm_metaCoverType x) (dm_udtaMetadataCount x) (dm_udtaMetadataParseIdx x)
    (dm_udtaMetadataKey x) (dm_udtaMetadataValue x) (dm_metaMetadataCount x)
    (dm_metaMetadataKey x) (dm_metaMetadataValue x).
Definition set_dm_chaptersCount (v : Z) (x : mp4_demux) : mp4_demux :=
  Build_mp4_demux (dm_file x) (dm_fileSize x) (dm_readBytes x) (dm_tracks x) (dm_trackCount x)
    (dm_timescale x) (dm_duration x) (dm_creationTime x) (dm_modificationTime x)
    (dm_chaptersName x) (dm_chaptersTime x) v (dm_finalMetadataCount x) (dm_finalMetadataKey x)
    (dm_finalMetadataValue x) (dm_udtaLocationKey x) (dm_udtaLocationValue x)
    (dm_finalCoverOffset x) (dm_finalCoverSize x) (dm_finalCoverType x) (dm_udtaCoverOffset x)
    (dm_udtaCoverSize x) (dm_udtaCoverType x) (dm_metaCoverOffset x) (dm_metaCoverSize x)
    (dm_metaCoverType x) (dm_udtaMetadataCount x) (dm_udtaMetadataParseIdx x)
    (dm_udtaMetadataKey x) (dm_udtaMetadataValue x) (dm_metaMetadataCount x)
    (dm_metaMetadataKey x) (dm_metaMetadataValue x).
Definition set_dm_finalMetadataCount (v : Z) (x : mp4_demux) : mp4_demux :=
  Build_mp4_demux (dm_file x) (dm_fileSize x) (dm_readBytes x) (dm_tracks x) (dm_trackCount x)
    (dm_timescale x) (dm_duration x) (dm_creationTime x) (dm_modificationTime x)
    (dm_chaptersName x) (dm_chaptersTime x) (dm_chaptersCount x) v (dm_finalMetadataKey x)
    (dm_finalMetadataValue x) (dm_udtaLocationKey x) (dm_udtaLocationValue x)
    (dm_finalCoverOffset x) (dm_finalCoverSize x) (dm_finalCoverType x) (dm_udtaCoverOffset x)
    (dm_udtaCoverSize x) (dm_udtaCoverType x) (dm_metaCoverOffset x) (dm_metaCoverSize x)
    (dm_metaCoverType x) (dm_udtaMetadataCount x) (dm_udtaMetadataParseIdx x)
    (dm_udtaMetadataKey x) (dm_udtaMetadataValue x) (dm_metaMetadataCount x)
    (dm_metaMetadataKey x) (dm_metaMetadataValue x).
Definition set_dm_finalMetadataKey (v : option (list (option (list Z)))) (x : mp4_demux) : mp4_demux :=
  Build_mp4_demux (dm_file x) (dm_fileSize x) (dm_readBytes x) (dm_tracks x) (dm_trackCount x)
    (dm_timescale x) (dm_duration x) (dm_creationTime x) (dm_modificationTime x)
    (dm_chaptersName x) (dm_chaptersTime x) (dm_chaptersCount x) (dm_finalMetadataCount x) v
    (dm_finalMetadataValue x) (dm_udtaLocationKey x) (dm_udtaLocationValue x)
    (dm_finalCoverOffset x) (dm_finalCoverSize x) (dm_finalCoverType x) (dm_udtaCoverOffset x)
    (dm_udtaCoverSize x) (dm_udtaCoverType x) (dm_metaCoverOffset x) (dm_metaCoverSize x)
    (dm_metaCoverType x) (dm_udtaMetadataCount x) (dm_udtaMetadataParseIdx x)
    (dm_udtaMetadataKey x) (dm_udtaMetadataValue x) (dm_metaMetadataCount x)
    (dm_metaMetadataKey x) (dm_metaMetadataValue x).
Definition set_dm_finalMetadataValue (v : option (list (option (list Z)))) (x : mp4_demux) : mp4_demux :=
  Build_mp4_demux (dm_file x) (dm_fileSize x) (dm_readBytes x) (dm_tracks x) (dm_trackCount x)
    (dm_timescale x) (dm_duration x) (dm_creationTime x) (dm_modificationTime x)
    (dm_chaptersName x) (dm_chaptersTime x) (dm_chaptersCount x) (dm_finalMetadataCount x)
    (dm_finalMetadataKey x) v (dm_udtaLocationKey x) (dm_udtaLocationValue x)
    (dm_finalCoverOffset x) (dm_finalCoverSize x) (dm_finalCoverType x) (dm_udtaCoverOffset x)
    (dm_udtaCoverSize x) (dm_udtaCoverType x) (dm_metaCoverOffset x) (dm_metaCoverSize x)
    (dm_metaCoverType x) (dm_udtaMetadataCount x) (dm_udtaMetadataParseIdx x)
    (dm_udtaMetadataKey x) (dm_udtaMetadataValue x) (dm_metaMetadataCount x)
    (dm_metaMetadataKey x) (dm_metaMetadataValue x).
Definition set_dm_udtaLocationKey (v : option (list Z)) (x : mp4_demux) : mp4_demux :=
  Build_mp4_demux (dm_file x) (dm_fileSize x) (dm_readBytes x) (dm_tracks x) (dm_trackCount x)
    (dm_timescale x) (dm_duration x) (dm_creationTime x) (dm_modificationTime x)
    (dm_chaptersName x) (dm_chaptersTime x) (dm_chaptersCount x) (dm_finalMetadataCount x)
    (dm_finalMetadataKey x) (dm_finalMetadataValue x) v (dm_udtaLocationValue x)
    (dm_finalCoverOffset x) (dm_finalCoverSize x) (dm_finalCoverType x) (dm_udtaCoverOffset x)
    (dm_udtaCoverSize x) (dm_udtaCoverType x) (dm_metaCoverOffset x) (dm_metaCoverSize x)
    (dm_metaCoverType x) (dm_udtaMetadataCount x) (dm_udtaMetadataParseIdx x)
    (dm_udtaMetadataKey x) (dm_udtaMetadataValue x) (dm_metaMetadataCount x)
    (dm_metaMetadataKey x) (dm_metaMetadataValue x).
Definition set_dm_udtaLocationValue (v : option (list Z)) (x : mp4_demux) : mp4_demux :=
  Build_mp4_demux (dm_file x) (dm_fileSize x) (dm_readBytes x) (dm_tracks x) (dm_trackCount x)
    (dm_timescale x) (dm_duration x) (dm_creationTime x) (dm_modificationTime x)
    (dm_chaptersName x) (dm_chaptersTime x) (dm_chaptersCount x) (dm_finalMetadataCount x)
    (dm_finalMetadataKey x) (dm_finalMetadataValue x) (dm_udtaLocationKey x) v
    (dm_finalCoverOffset x) (dm_finalCoverSize x) (dm_finalCoverType x) (dm_udtaCoverOffset x)
    (dm_udtaCoverSize x) (dm_udtaCoverType x) (dm_metaCoverOffset x) (dm_metaCoverSize x)
    (dm_metaCoverType x) (dm_udtaMetadataCount x) (dm_udtaMetadataParseIdx x)
    (dm_udtaMetadataKey x) (dm_udtaMetadataValue x) (dm_metaMetadataCount x)
    (dm_metaMetadataKey x) (dm_metaMetadataValue x).
Definition set_dm_finalCoverOffset (v : Z) (x : mp4_demux) : mp4_demux :=
  Build_mp4_demux (dm_file x) (dm_fileSize x) (dm_readBytes x) (dm_tracks x) (dm_trackCount x)
    (dm_timescale x) (dm_duration x) (dm_creationTime x) (dm_modificationTime x)
    (dm_chaptersName x) (dm_chaptersTime x) (dm_chaptersCount x) (dm_finalMetadataCount x)
    (dm_finalMetadataKey x) (dm_finalMetadataValue x) (dm_udtaLocationKey x)
    (dm_udtaLocationValue x) v (dm_finalCoverSize x) (dm_finalCoverType x)
    (dm_udtaCoverOffset x) (dm_udtaCoverSize x) (dm_udtaCoverType x) (dm_metaCoverOffset x)
    (dm_metaCoverSize x) (dm_metaCoverType x) (dm_udtaMetadataCount x)
    (dm_udtaMetadataParseIdx x) (dm_udtaMetadataKey x) (dm_udtaMetadataValue x)
    (dm_metaMetadataCount x) (dm_metaMetadataKey x) (dm_metaMetadataValue x).
Definition set_dm_finalCoverSize (v : Z) (x : mp4_demux) : mp4_demux :=
  Build_mp4_demux (dm_file x) (dm_fileSize x) (dm_readBytes x) (dm_tracks x) (dm_trackCount x)
    (dm_timescale x) (dm_duration x) (dm_creationTime x) (dm_modificationTime x)
    (dm_chaptersName x) (dm_chaptersTime x) (dm_chaptersCount x) (dm_finalMetadataCount x)
    (dm_finalMetadataKey x) (dm_finalMetadataValue x) (dm_udtaLocationKey x)
    (dm_udtaLocationValue x) (dm_finalCoverOffset x) v (dm_finalCoverType x)
    (dm_udtaCoverOffset x) (dm_udtaCoverSize x) (dm_udtaCoverType x) (dm_metaCoverOffset x)
    (dm_metaCoverSize x) (dm_metaCoverType x) (dm_udtaMetadataCount x)
    (dm_udtaMetadataParseIdx x) (dm_udtaMetadataKey x) (dm_udtaMetadataValue x)
    (dm_metaMetadataCount x) (dm_metaMetadataKey x) (dm_metaMetadataValue x).
Definition set_dm_finalCoverType (v : mp4_metadata_cover_type) (x : mp4_demux) : mp4_demux :=
  Build_mp4_demux (dm_file x) (dm_fileSize x) (dm_readBytes x) (dm_tracks x) (dm_trackCount x)
    (dm_timescale x) (dm_duration x) (dm_creationTime x) (dm_modificationTime x)
    (dm_chaptersName x) (dm_chaptersTime x) (dm_chaptersCount x) (dm_finalMetadataCount x)
    (dm_finalMetadataKey x) (dm_finalMetadataValue x) (dm_udtaLocationKey x)
    (dm_udtaLocationValue x) (dm_finalCoverOffset x) (dm_finalCoverSize x) v
    (dm_udtaCoverOffset x) (dm_udtaCoverSize x) (dm_udtaCoverType x) (dm_metaCoverOffset x)
    (dm_metaCoverSize x) (dm_metaCoverType x) (dm_udtaMetadataCount x)
    (dm_udtaMetadataParseIdx x) (dm_udtaMetadataKey x) (dm_udtaMetadataValue x)
    (dm_metaMetadataCount x) (dm_metaMetadataKey x) (dm_metaMetadataValue x).
Definition set_dm_udtaCoverOffset (v : Z) (x : mp4_demux) : mp4_demux :=
  Build_mp4_demux (dm_file x) (dm_fileSize x) (dm_readBytes x) (dm_tracks x) (dm_trackCount x)
    (dm_timescale x) (dm_duration x) (dm_creationTime x) (dm_modificationTime x)
    (dm_chaptersName x) (dm_chaptersTime x) (dm_chaptersCount x) (dm_finalMetadataCount x)
    (dm_finalMetadataKey x) (dm_finalMetadataValue x) (dm_udtaLocationKey x)
    (dm_udtaLocationValue x) (dm_finalCoverOffset x) (dm_finalCoverSize x) (dm_finalCoverType x)
    v (dm_udtaCoverSize x) (dm_udtaCoverType x) (dm_metaCoverOffset x) (dm_metaCoverSize x)
    (dm_metaCoverType x) (dm_udtaMetadataCount x) (dm_udtaMetadataParseIdx x)
    (dm_udtaMetadataKey x) (dm_udtaMetadataValue x) (dm_metaMetadataCount x)
    (dm_metaMetadataKey x) (dm_metaMetadataValue x).
Definition set_dm_udtaCoverSize (v : Z) (x : mp4_demux) : mp4_demux :=
  Build_mp4_demux (dm_file x) (dm_fileSize x) (dm_readBytes x) (dm_tracks x) (dm_trackCount x)
    (dm_timescale x) (dm_duration x) (dm_creationTime x) (dm_modificationTime x)
    (dm_chaptersName x) (dm_chaptersTime x) (dm_chaptersCount x) (dm_finalMetadataCount x)
    (dm_finalMetadataKey x) (dm_finalMetadataValue x) (dm_udtaLocationKey x)
    (dm_udtaLocationValue x) (dm_finalCoverOffset x) (dm_finalCoverSize x) (dm_finalCoverType x)
    (dm_udtaCoverOffset x) v (dm_udtaCoverType x) (dm_metaCoverOffset x) (dm_metaCoverSize x)
    (dm_metaCoverType x) (dm_udtaMetadataCount x) (dm_udtaMetadataParseIdx x)
    (dm_udtaMetadataKey x) (dm_udtaMetadataValue x) (dm_metaMetadataCount x)
    (dm_metaMetadataKey x) (dm_metaMetadataValue x).
Definition set_dm_udtaCoverType (v : mp4_metadata_cover_type) (x : mp4_demux) : mp4_demux :=
  Build_mp4_demux (dm_file x) (dm_fileSize x) (dm_readBytes x) (dm_tracks x) (dm_trackCount x)
    (dm_timescale x) (dm_duration x) (dm_creationTime x) (dm_modificationTime x)
    (dm_chaptersName x) (dm_chaptersTime x) (dm_chaptersCount x) (dm_finalMetadataCount x)
    (dm_finalMetadataKey x) (dm_finalMetadataValue x) (dm_udtaLocationKey x)
    (dm_udtaLocationValue x) (dm_finalCoverOffset x) (dm_finalCoverSize x) (dm_finalCoverType x)
    (dm_udtaCoverOffset x) (dm_udtaCoverSize x) v (dm_metaCoverOffset x) (dm_metaCoverSize x)
    (dm_metaCoverType x) (dm_udtaMetadataCount x) (dm_udtaMetadataParseIdx x)
    (dm_udtaMetadataKey x) (dm_udtaMetadataValue x) (dm_metaMetadataCount x)
    (dm_metaMetadataKey x) (dm_metaMetadataValue x).
Definition set_dm_metaCoverOffset (v : Z) (x : mp4_demux) : mp4_demux :=
  Build_mp4_demux (dm_file x) (dm_fileSize x) (dm_readBytes x) (dm_tracks x) (dm_trackCount x)
    (dm_timescale x) (dm_duration x) (dm_creationTime x) (dm_modificationTime x)
    (dm_chaptersName x) (dm_chaptersTime x) (dm_chaptersCount x) (dm_finalMetadataCount x)
    (dm_finalMetadataKey x) (dm_finalMetadataValue x) (dm_udtaLocationKey x)
    (dm_udtaLocationValue x) (dm_finalCoverOffset x) (dm_finalCoverSize x) (dm_finalCoverType x)
    (dm_udtaCoverOffset x) (dm_udtaCoverSize x) (dm_udtaCoverType x) v (dm_metaCoverSize x)
    (dm_metaCoverType x) (dm_udtaMetadataCount x) (dm_udtaMetadataParseIdx x)
    (dm_udtaMetadataKey x) (dm_udtaMetadataValue x) (dm_metaMetadataCount x)
    (dm_metaMetadataKey x) (dm_metaMetadataValue x).
Definition set_dm_metaCoverSize (v : Z) (x : mp4_demux) : mp4_demux :=
  Build_mp4_demux (dm_file x) (dm_fileSize x) (dm_readBytes x) (dm_tracks x) (dm_trackCount x)
    (dm_timescale x) (dm_duration x) (dm_creationTime x) (dm_modificationTime x)
    (dm_chaptersName x) (dm_chaptersTime x) (dm_chaptersCount x) (dm_finalMetadataCount x)
    (dm_finalMetadataKey x) (dm_finalMetadataValue x) (dm_udtaLocationKey x)
    (dm_udtaLocationValue x) (dm_finalCoverOffset x) (dm_finalCoverSize x) (dm_finalCoverType x)
    (dm_udtaCoverOffset x) (dm_udtaCoverSize x) (dm_udtaCoverType x) (dm_metaCoverOffset x) v
    (dm_metaCoverType x) (dm_udtaMetadataCount x) (dm_udtaMetadataParseIdx x)
    (dm_udtaMetadataKey x) (dm_udtaMetadataValue x) (dm_metaMetadataCount x)
    (dm_metaMetadataKey x) (dm_metaMetadataValue x).
Definition set_dm_metaCoverType (v : mp4_metadata_cover_type) (x : mp4_demux) : mp4_demux :=
  Build_mp4_demux (dm_file x) (dm_fileSize x) (dm_readBytes x) (dm_tracks x) (dm_trackCount x)
    (dm_timescale x) (dm_duration x) (dm_creationTime x) (dm_modificationTime x)
    (dm_chaptersName x) (dm_chaptersTime x) (dm_chaptersCount x) (dm_finalMetadataCount x)
    (dm_finalMetadataKey x) (dm_finalMetadataValue x) (dm_udtaLocationKey x)
    (dm_udtaLocationValue x) (dm_finalCoverOffset x) (dm_finalCoverSize x) (dm_finalCoverType x)
    (dm_udtaCoverOffset x) (dm_udtaCoverSize x) (dm_udtaCoverType x) (dm_metaCoverOffset x)
    (dm_metaCoverSize x) v (dm_udtaMetadataCount x) (dm_udtaMetadataParseIdx x)
    (dm_udtaMetadataKey x) (dm_udtaMetadataValue x) (dm_metaMetadataCount x)
    (dm_metaMetadataKey x) (dm_metaMetadataValue x).
Definition set_dm_udtaMetadataCount (v : Z) (x : mp4_demux) : mp4_demux :=
  Build_mp4_demux (dm_file x) (dm_fileSize x) (dm_readBytes x) (dm_tracks x) (dm_trackCount x)
    (dm_timescale x) (dm_duration x) (dm_creationTime x) (dm_modificationTime x)
    (dm_chaptersName x) (dm_chaptersTime x) (dm_chaptersCount x) (dm_finalMetadataCount x)
    (dm_finalMetadataKey x) (dm_finalMetadataValue x) (dm_udtaLocationKey x)
    (dm_udtaLocationValue x) (dm_finalCoverOffset x) (dm_finalCoverSize x) (dm_finalCoverType x)
    (dm_udtaCoverOffset x) (dm_udtaCoverSize x) (dm_udtaCoverType x) (dm_metaCoverOffset x)
    (dm_metaCoverSize x) (dm_metaCoverType x) v (dm_udtaMetadataParseIdx x)
    (dm_udtaMetadataKey x) (dm_udtaMetadataValue x) (dm_metaMetadataCount x)
    (dm_metaMetadataKey x) (dm_metaMetadataValue x).
Definition set_dm_udtaMetadataParseIdx (v : Z) (x : mp4_demux) : mp4_demux :=
  Build_mp4_demux (dm_file x) (dm_fileSize x) (dm_readBytes x) (dm_tracks x) (dm_trackCount x)
    (dm_timescale x) (dm_duration x) (dm_creationTime x) (dm_modificationTime x)
    (dm_chaptersName x) (dm_chaptersTime x) (dm_chaptersCount x) (dm_finalMetadataCount x)
    (dm_finalMetadataKey x) (dm_finalMetadataValue x) (dm_udtaLocationKey x)
    (dm_udtaLocationValue x) (dm_finalCoverOffset x) (dm_finalCoverSize x) (dm_finalCoverType x)
    (dm_udtaCoverOffset x) (dm_udtaCoverSize x) (dm_udtaCoverType x) (dm_metaCoverOffset x)
    (dm_metaCoverSize x) (dm_metaCoverType x) (dm_udtaMetadataCount x) v (dm_udtaMetadataKey x)
    (dm_udtaMetadataValue x) (dm_metaMetadataCount x) (dm_metaMetadataKey x)
    (dm_metaMetadataValue x).
Definition set_dm_udtaMetadataKey (v : option (list (option (list Z)))) (x : mp4_demux) : mp4_demux :=
  Build_mp4_demux (dm_file x) (dm_fileSize x) (dm_readBytes x) (dm_tracks x) (dm_trackCount x)
    (dm_timescale x) (dm_duration x) (dm_creationTime x) (dm_modificationTime x)
    (dm_chaptersName x) (dm_chaptersTime x) (dm_chaptersCount x) (dm_finalMetadataCount x)
    (dm_finalMetadataKey x) (dm_finalMetadataValue x) (dm_udtaLocationKey x)
    (dm_udtaLocationValue x) (dm_finalCoverOffset x) (dm_finalCoverSize x) (dm_finalCoverType x)
    (dm_udtaCoverOffset x) (dm_udtaCoverSize x) (dm_udtaCoverType x) (dm_metaCoverOffset x)
    (dm_metaCoverSize x) (dm_metaCoverType x) (dm_udtaMetadataCount x)
    (dm_udtaMetadataParseIdx x) v (dm_udtaMetadataValue x) (dm_metaMetadataCount x)
    (dm_metaMetadataKey x) (dm_metaMetadataValue x).
Definition set_dm_udtaMetadataValue (v : option (list (option (list Z)))) (x : mp4_demux) : mp4_demux :=
  Build_mp4_demux (dm_file x) (dm_fileSize x) (dm_readBytes x) (dm_tracks x) (dm_trackCount x)
    (dm_timescale x) (dm_duration x) (dm_creationTime x) (dm_modificationTime x)
    (dm_chaptersName x) (dm_chaptersTime x) (dm_chaptersCount x) (dm_finalMetadataCount x)
    (dm_finalMetadataKey x) (dm_finalMetadataValue x) (dm_udtaLocationKey x)
    (dm_udtaLocationValue x) (dm_finalCoverOffset x) (dm_finalCoverSize x) (dm_finalCoverType x)
    (dm_udtaCoverOffset x) (dm_udtaCoverSize x) (dm_udtaCoverType x) (dm_metaCoverOffset x)
    (dm_metaCoverSize x) (dm_metaCoverType x) (dm_udtaMetadataCount x)
    (dm_udtaMetadataParseIdx x) (dm_udtaMetadataKey x) v (dm_metaMetadataCount x)
    (dm_metaMetadataKey x) (dm_metaMetadataValue x).
Definition set_dm_metaMetadataCount (v : Z) (x : mp4_demux) : mp4_demux :=
  Build_mp4_demux (dm_file x) (dm_fileSize x) (dm_readBytes x) (dm_tracks x) (dm_trackCount x)
    (dm_timescale x) (dm_duration x) (dm_creationTime x) (dm_modificationTime x)
    (dm_chaptersName x) (dm_chaptersTime x) (dm_chaptersCount x) (dm_finalMetadataCount x)
    (dm_finalMetadataKey x) (dm_finalMetadataValue x) (dm_udtaLocationKey x)
    (dm_udtaLocationValue x) (dm_finalCoverOffset x) (dm_finalCoverSize x) (dm_finalCoverType x)
    (dm_udtaCoverOffset x) (dm_udtaCoverSize x) (dm_udtaCoverType x) (dm_metaCoverOffset x)
    (dm_metaCoverSize x) (dm_metaCoverType x) (dm_udtaMetadataCount x)
    (dm_udtaMetadataParseIdx x) (dm_udtaMetadataKey x) (dm_udtaMetadataValue x) v
    (dm_metaMetadataKey x) (dm_metaMetadataValue x).
Definition set_dm_metaMetadataKey (v : option (list (option (list Z)))) (x : mp4_demux) : mp4_demux :=
  Build_mp4_demux (dm_file x) (dm_fileSize x) (dm_readBytes x) (dm_tracks x) (dm_trackCount x)
    (dm_timescale x) (dm_duration x) (dm_creationTime x) (dm_modificationTime x)
    (dm_chaptersName x) (dm_chaptersTime x) (dm_chaptersCount x) (dm_finalMetadataCount x)
    (dm_finalMetadataKey x) (dm_finalMetadataValue x) (dm_udtaLocationKey x)
    (dm_udtaLocationValue x) (dm_finalCoverOffset x) (dm_finalCoverSize x) (dm_finalCoverType x)
    (dm_udtaCoverOffset x) (dm_udtaCoverSize x) (dm_udtaCoverType x) (dm_metaCoverOffset x)
    (dm_metaCoverSize x) (dm_metaCoverType x) (dm_udtaMetadataCount x)
    (dm_udtaMetadataParseIdx x) (dm_udtaMetadataKey x) (dm_udtaMetadataValue x)
    (dm_metaMetadataCount x) v (dm_metaMetadataValue x).
Definition set_dm_metaMetadataValue (v : option (list (option (list Z)))) (x : mp4_demux) : mp4_demux :=
  Build_mp4_demux (dm_file x) (dm_fileSize x) (dm_readBytes x) (dm_tracks x) (dm_trackCount x)
    (dm_timescale x) (dm_duration x) (dm_creationTime x) (dm_modificationTime x)
    (dm_chaptersName x) (dm_chaptersTime x) (dm_chaptersCount x) (dm_finalMetadataCount x)
    (dm_finalMetadataKey x) (dm_finalMetadataValue x) (dm_udtaLocationKey x)
    (dm_udtaLocationValue x) (dm_finalCoverOffset x) (dm_finalCoverSize x) (dm_finalCoverType x)
    (dm_udtaCoverOffset x) (dm_udtaCoverSize x) (dm_udtaCoverType x) (dm_metaCoverOffset x)
    (dm_metaCoverSize x) (dm_metaCoverType x) (dm_udtaMetadataCount x)
    (dm_udtaMetadataParseIdx x) (dm_udtaMetadataKey x) (dm_udtaMetadataValue x)
    (dm_metaMetadataCount x) (dm_metaMetadataKey x) v.

(** A zeroed [struct mp4_track] ([memset] of the whole structure). *)
Definition mp4_track_zero : mp4_track :=
  Build_mp4_track 0 MP4_TRACK_TYPE_UNKNOWN 0 0 0 0 0 0 None None None 0 None
    0 None 0 None 0 None 0 0 MP4_VIDEO_CODEC_UNKNOWN 0 0 0 None 0 None
    MP4_AUDIO_CODEC_UNKNOWN 0 0 0 None None None None None.

(** A zeroed [struct mp4_demux] whose [file] member is [f]. *)
Definition mp4_demux_zero (f : FILE) : mp4_demux :=
  Build_mp4_demux f 0 0 [] 0 0 0 0 0
    (replicate (Z.to_nat MP4_CHAPTERS_MAX) None)
    (replicate (Z.to_nat MP4_CHAPTERS_MAX) 0) 0
    0 None None None None
    0 0 MP4_METADATA_COVER_TYPE_UNKNOWN
    0 0 MP4_METADATA_COVER_TYPE_UNKNOWN
    0 0 MP4_METADATA_COVER_TYPE_UNKNOWN
    0 0 None None 0 None None.

(** ** Arrays

    [a[i]] for a C array [a]: [None] stands for undefined behaviour
    ([a] is [NULL], or [i] is outside the allocated block). *)

Definition aget {A : Type} (a : option (list A)) (i : Z) : option A :=
  match a with
  | Some l => if decide (0 <= i) then l !! Z.to_nat i else None
  | None => None
  end.

(** [a[i] = v]. *)
Definition aset {A : Type} (a : option (list A)) (i : Z) (v : A)
  : option (list A) :=
  match a with
  | Some l =>
      if decide (0 <= i < Z.of_nat (length l))
      then Some (<[Z.to_nat i := v]> l) else None
  | None => None
  end.

(** [for (i = i0; i < i0 + n; i++) s = body i s], for a body that may run
    into undefined behaviour. *)
Fixpoint for_opt {S : Type} (n : nat) (i : Z) (body : Z -> S -> option S)
    (s : S) : option S :=
  match n with
  | O => Some s
  | S n' =>
      match body i s with
      | Some s' => for_opt n' (i + 1) body s'
      | None => None
      end
  end.

(** A C string stored in a buffer ends before the first NUL byte. *)
Fixpoint cstring (buf : list Z) : list Z :=
  match buf with
  | [] => []
  | b :: rest => if decide (b = 0) then [] else b :: cstring rest
  end.

Definition strlen (buf : list Z) : Z := Z.of_nat (length (cstring buf)).

(** ** Outcomes and the demuxer monad

    A function of the demuxer runs on the [struct mp4_demux] it is given
    and either returns a value ([Ok]), returns a negative error code
    ([Err], the code is the value returned, e.g. [- EINVAL]), or has no
    defined behaviour ([Undef]).  [OutOfFuel] is produced by the
    recursive box walker only, when the recursion budget of the model is
    used up; it is not a behaviour of the C code. *)

Inductive outcome (A : Type) : Type :=
  | Ok (a : A) (d : mp4_demux)
  | Err (code : Z) (d : mp4_demux)
  | Undef
  | OutOfFuel.
Arguments Ok {A} a d.
Arguments Err {A} code d.
Arguments Undef {A}.
Arguments OutOfFuel {A}.

Definition M (A : Type) : Type := mp4_demux -> outcome A.

Definition ret {A : Type} (a : A) : M A := fun d => Ok a d.

Definition bind {A B : Type} (m : M A) (k : A -> M B) : M B :=
  fun d =>
    match m d with
    | Ok a d' => k a d'
    | Err c d' => Err c d'
    | Undef => Undef
    | OutOfFuel => OutOfFuel
    end.

Definition fail {A : Type} (code : Z) : M A := fun d => Err code d.
Definition undef {A : Type} : M A := fun _ => Undef.
Definition gets {A : Type} (f : mp4_demux -> A) : M A := fun d => Ok (f d) d.
Definition modify (f : mp4_demux -> mp4_demux) : M unit :=
  fun d => Ok tt (f d).

(** Undefined behaviour of a pure computation carried into the monad. *)
Definition defined {A : Type} (o : option A) : M A :=
  match o with Some a => ret a | None => undef end.

Declare Scope mp4_scope.
Delimit Scope mp4_scope with mp4.
Notation "'let*' x ':=' m 'in' k" := (bind m (fun x => k))
  (at level 10, x pattern, m at level 100, k at level 200) : mp4_scope.
Notation "m ';;;' k" := (bind m (fun _ => k))
  (at level 100, k at level 200, right associativity) : mp4_scope.
Local Open Scope mp4_scope.

(** [for (i = i0; i < i0 + n; i++) s = body i s] in the monad. *)
Fixpoint forM {S : Type} (n : nat) (i : Z) (body : Z -> S -> M S) (s : S)
    : M S :=
  match n with
  | O => ret s
  | S n' => let* s' := body i s in forM n' (i + 1) body s'
  end.

(** Modelled from the spec: the macros [MP4_RETURN_ERR_IF_FAILED(cond,
    err)] and [MP4_LOG_ERR_AND_RETURN_ERR_IF_FAILED(cond, err, ...)] are
    defined in mp4_log.h, which is not part of the sources at hand.  By
    Section 7 of the specification a handler fails with [Invalid] when "a
    declared box payload [is] smaller than the grammar's fixed minimum",
    which the code writes [MP4_LOG_ERR_AND_RETURN_ERR_IF_FAILED((maxBytes
    >= 8), -EINVAL, ...)]: the enclosing function returns [err] when
    [cond] is false and goes on when it is true.  Both macros behave
    alike but for the log message. *)
Definition MP4_RETURN_ERR_IF_FAILED (cond : bool) (err : Z) : M unit :=
  if cond then ret tt else fail err.

Definition MP4_LOG_ERR_AND_RETURN_ERR_IF_FAILED (cond : bool) (err : Z)
    : M unit :=
  MP4_RETURN_ERR_IF_FAILED cond err.

(** ** The byte source *)

Definition file_length (f : FILE) : Z := Z.of_nat (length (f_bytes f)).

(** [fread(buf, size, 1, file)]: the bytes read when the call returns 1.
    It returns 0 when [size] is 0, and when fewer than [size] bytes are
    left; the stream is then at the end of the file with its
    end-of-file indicator set. *)
Definition fread_file (size : Z) (f : FILE) : option (list Z) * FILE :=
  if decide (size <= 0) then (None, f)
  else if decide (0 <= f_pos f /\ f_pos f + size <= file_length f) then
    (Some (take (Z.to_nat size) (drop (Z.to_nat (f_pos f)) (f_bytes f))),
     Build_FILE (f_bytes f) (f_pos f + size) (f_eof f))
  else
    (None, Build_FILE (f_bytes f) (Z.max (f_pos f) (file_length f)) true).

Definition fread (size : Z) : M (option (list Z)) :=
  fun d =>
    let '(r, f) := fread_file size (dm_file d) in
    Ok r (set_dm_file f d).

(** [fseeko(file, off, SEEK_CUR)] and [fseeko(file, off, SEEK_SET)]:
    [None] when the call returns 0, else the value of [errno].  Seeking
    beyond the end of the file is allowed; a successful call clears the
    end-of-file indicator. *)
Definition fseeko_to (new : Z) (f : FILE) : option Z * FILE :=
  if decide (new < 0) then (Some EINVAL, f)
  else if decide (2 ^ 63 <= new) then (Some EOVERFLOW, f)
  else (None, Build_FILE (f_bytes f) new false).

Definition fseeko_cur (off : Z) : M (option Z) :=
  fun d =>
    let '(r, f) := fseeko_to (f_pos (dm_file d) + off) (dm_file d) in
    Ok r (set_dm_file f d).

Definition fseeko_set (off : Z) : M (option Z) :=
  fun d =>
    let '(r, f) := fseeko_to off (dm_file d) in
    Ok r (set_dm_file f d).

Definition ftello : M Z := gets (fun d => f_pos (dm_file d)).
Definition feof : M bool := gets (fun d => f_eof (dm_file d)).

(** [MP4_READ_32(file, val32, readBytes)]: the native value read and the
    updated byte count; the enclosing function returns [-EIO] when the
    read fails.  Likewise [MP4_READ_16] and [MP4_READ_8]. *)
Definition MP4_READ (size : Z) (readBytes : Z) : M (Z * Z) :=
  let* r := fread size in
  match r with
  | Some bs => ret (le_decode bs, readBytes + size)
  | None => fail (- EIO)
  end.

Definition MP4_READ_32 : Z -> M (Z * Z) := MP4_READ 4.
Definition MP4_READ_16 : Z -> M (Z * Z) := MP4_READ 2.
Definition MP4_READ_8 : Z -> M (Z * Z) := MP4_READ 1.

(** [fseeko(...)] followed by the check that it returned 0, the
    enclosing function returning [-errno] otherwise. *)
Definition seek_or_fail (m : M (option Z)) : M unit :=
  let* r := m in
  match r with
  | None => ret tt
  | Some e => fail (- e)
  end.

(** [MP4_SKIP(file, readBytes, maxBytes)]: the updated byte count. *)
Definition MP4_SKIP (readBytes maxBytes : Z) : M Z :=
  if decide (readBytes < maxBytes) then
    seek_or_fail (fseeko_cur (maxBytes - readBytes));;;
    ret maxBytes
  else ret readBytes.

(** ** Tracks in the arena *)

(** [demux->track]: the head of the list is the track created last. *)
Definition track_head (d : mp4_demux) : option nat :=
  match length (dm_tracks d) with
  | O => None
  | S h => Some h
  end.

(** [tk->next]. *)
Definition track_next (h : nat) : option nat :=
  match h with
  | O => None
  | S h' => Some h'
  end.

(** Dereferencing a track pointer. *)
Definition get_track (h : nat) : M mp4_track :=
  fun d =>
    match dm_tracks d !! h with
    | Some tk => Ok tk d
    | None => Undef
    end.

(** Assigning to members of [*tk]. *)
Definition upd_track (h : nat) (f : mp4_track -> mp4_track) : M unit :=
  fun d =>
    match dm_tracks d !! h with
    | Some tk => Ok tt (set_dm_tracks (<[h := f tk]> (dm_tracks d)) d)
    | None => Undef
    end.

(** The search loop
    [for (tk = demux->track; tk; tk = tk->next) if (tk->id == id) break;]
    started at the track of index [n - 1]: the track found, if any. *)
Fixpoint find_track_from (tracks : list mp4_track) (n : nat) (id : Z)
    : option nat :=
  match n with
  | O => None
  | S h =>
      match tracks !! h with
      | Some tk =>
          if decide (tk_id tk = id) then Some h
          else find_track_from tracks h id
      | None => None
      end
  end.

Definition find_track (d : mp4_demux) (id : Z) : option nat :=
  find_track_from (dm_tracks d) (length (dm_tracks d)) id.


(** ** mp4_demux_build_tracks *)

(** Ticks to microseconds, as the code computes it everywhere:
    [(ticks * 1000000 + timescale / 2) / timescale] in 64-bit unsigned
    arithmetic ([timescale] is a [uint32_t]).  Dividing by a zero
    timescale is undefined. *)
Definition ticks_to_us (ticks timescale : Z) : option Z :=
  if decide (timescale = 0) then None
  else Some (u64 (u64 (ticks * 1000000) + timescale / 2) / timescale).

(** *** Sample count of the sample-to-chunk table

    One iteration of the first loop over [tk->sampleToChunkEntries]; the
    state is [(lastFirstChunk, lastSamplesPerChunk, sampleCount)], all
    [uint32_t]. *)
Definition stsc_count_step (entries : option (list mp4_sample_to_chunk_entry))
    (i : Z) (st : Z * Z * Z) : option (Z * Z * Z) :=
  let '(lastFirstChunk, lastSamplesPerChunk, sampleCount) := st in
  e ← aget entries i;
  let chunkCount := u32 (firstChunk e - lastFirstChunk) in
  Some (firstChunk e, samplesPerChunk e,
        u32 (sampleCount + u32 (chunkCount * lastSamplesPerChunk))).

(** The value of [sampleCount] that is compared with [tk->sampleCount]. *)
Definition stsc_sample_count (tk : mp4_track) : option Z :=
  st ← for_opt (Z.to_nat (tk_sampleToChunkEntryCount tk)) 0
        (stsc_count_step (tk_sampleToChunkEntries tk)) (1, 0, 0);
  let '(lastFirstChunk, lastSamplesPerChunk, sampleCount) := st in
  let chunkCount := u32 (u32 (tk_chunkCount tk - lastFirstChunk) + 1) in
  Some (u32 (sampleCount + u32 (chunkCount * lastSamplesPerChunk))).

(** *** Sample offsets

    Body of the innermost loop, for one sample of the chunk [chunkIdx];
    the state is [(n, offsetInChunk, tk->sampleOffset)]. *)
Definition fill_sample (chunkOffset sampleSize : option (list Z))
    (chunkIdx : Z) (k : Z) (st : Z * Z * option (list Z))
    : option (Z * Z * option (list Z)) :=
  let '(n, offsetInChunk, sampleOffset) := st in
  c ← aget chunkOffset chunkIdx;
  sampleOffset' ← aset sampleOffset n (u64 (c + offsetInChunk));
  sz ← aget sampleSize n;
  Some (u32 (n + 1), u64 (offsetInChunk + sz), Some sampleOffset').

(** Body of the loop over the chunks of a run; the state is
    [(n, chunkIdx, tk->sampleOffset)]. *)
Definition fill_chunk (chunkOffset sampleSize : option (list Z))
    (lastSamplesPerChunk : Z) (j : Z) (st : Z * Z * option (list Z))
    : option (Z * Z * option (list Z)) :=
  let '(n, chunkIdx, sampleOffset) := st in
  st' ← for_opt (Z.to_nat lastSamplesPerChunk) 0
         (fill_sample chunkOffset sampleSize chunkIdx) (n, 0, sampleOffset);
  let '(n', _, sampleOffset') := st' in
  Some (n', u32 (chunkIdx + 1), sampleOffset').

(** The chunks of one run: [for (j = 0; j < chunkCount; j++, chunkIdx++)]. *)
Definition fill_run (chunkOffset sampleSize : option (list Z))
    (chunkCount lastSamplesPerChunk : Z) (st : Z * Z * option (list Z))
    : option (Z * Z * option (list Z)) :=
  for_opt (Z.to_nat chunkCount) 0
    (fill_chunk chunkOffset sampleSize lastSamplesPerChunk) st.

(** Body of the second loop over [tk->sampleToChunkEntries]; the state is
    [(lastFirstChunk, lastSamplesPerChunk, (n, chunkIdx, sampleOffset))]. *)
Definition fill_entry (tk : mp4_track) (i : Z)
    (st : Z * Z * (Z * Z * option (list Z)))
    : option (Z * Z * (Z * Z * option (list Z))) :=
  let '(lastFirstChunk, lastSamplesPerChunk, fs) := st in
  e ← aget (tk_sampleToChunkEntries tk) i;
  let chunkCount := u32 (firstChunk e - lastFirstChunk) in
  fs' ← fill_run (tk_chunkOffset tk) (tk_sampleSize tk)
          chunkCount lastSamplesPerChunk fs;
  Some (firstChunk e, samplesPerChunk e, fs').

(** The whole expansion, started on the freshly allocated array
    [sampleOffset]: the array when the loops are done. *)
Definition fill_sample_offsets (tk : mp4_track)
    (sampleOffset : option (list Z)) : option (option (list Z)) :=
  st ← for_opt (Z.to_nat (tk_sampleToChunkEntryCount tk)) 0
        (fill_entry tk) (1, 0, (0, 0, sampleOffset));
  let '(lastFirstChunk, lastSamplesPerChunk, fs) := st in
  let chunkCount := u32 (u32 (tk_chunkCount tk - lastFirstChunk) + 1) in
  fs' ← fill_run (tk_chunkOffset tk) (tk_sampleSize tk)
          chunkCount lastSamplesPerChunk fs;
  Some (fs'.2).

(** *** Decoding times *)

(** [sampleCount += tk->timeToSampleEntries[i].sampleCount]. *)
Definition stts_count_step (entries : option (list mp4_time_to_sample_entry))
    (i : Z) (sc : Z) : option Z :=
  e ← aget entries i;
  Some (u32 (sc + sampleCount e)).

Definition stts_sample_count (tk : mp4_track) : option Z :=
  for_opt (Z.to_nat (tk_timeToSampleEntryCount tk)) 0
    (stts_count_step (tk_timeToSampleEntries tk)) 0.

(** Body of the inner loop; the state is [(k, ts, tk->sampleDecodingTime)]. *)
Definition fill_time (sampleDelta : Z) (j : Z)
    (st : Z * Z * option (list Z)) : option (Z * Z * option (list Z)) :=
  let '(k, ts, sampleDecodingTime) := st in
  sampleDecodingTime' ← aset sampleDecodingTime k ts;
  Some (u32 (k + 1), u64 (ts + sampleDelta), Some sampleDecodingTime').

Definition fill_time_entry (entries : option (list mp4_time_to_sample_entry))
    (i : Z) (st : Z * Z * option (list Z))
    : option (Z * Z * option (list Z)) :=
  e ← aget entries i;
  for_opt (Z.to_nat (sampleCount e)) 0 (fill_time (sampleDelta e)) st.

Definition fill_decoding_times (tk : mp4_track)
    (sampleDecodingTime : option (list Z)) : option (option (list Z)) :=
  st ← for_opt (Z.to_nat (tk_timeToSampleEntryCount tk)) 0
        (fill_time_entry (tk_timeToSampleEntries tk))
        (0, 0, sampleDecodingTime);
  Some (st.2).

(** *** The loop over the tracks *)

(** Local variables of [mp4_demux_build_tracks] that live across the
    iterations of its main loop. *)
Record build_locals : Type := Build_locals {
  videoTk : option nat;
  metaTk : option nat;
  chapTk : option nat;
  videoTrackCount : Z;
  audioTrackCount : Z;
  hintTrackCount : Z;
  metadataTrackCount : Z;
  textTrackCount : Z
}.

Definition build_locals_init : build_locals :=
  Build_locals None None None 0 0 0 0 0.

(** The [switch (tk->type)] that counts the tracks by type. *)
Definition count_track_type (h : nat) (ty : mp4_track_type)
    (loc : build_locals) : build_locals :=
  match ty with
  | MP4_TRACK_TYPE_VIDEO =>
      Build_locals (Some h) (metaTk loc) (chapTk loc)
        (videoTrackCount loc + 1) (audioTrackCount loc) (hintTrackCount loc)
        (metadataTrackCount loc) (textTrackCount loc)
  | MP4_TRACK_TYPE_AUDIO =>
      Build_locals (videoTk loc) (metaTk loc) (chapTk loc)
        (videoTrackCount loc) (audioTrackCount loc + 1) (hintTrackCount loc)
        (metadataTrackCount loc) (textTrackCount loc)
  | MP4_TRACK_TYPE_HINT =>
      Build_locals (videoTk loc) (metaTk loc) (chapTk loc)
        (videoTrackCount loc) (audioTrackCount loc) (hintTrackCount loc + 1)
        (metadataTrackCount loc) (textTrackCount loc)
  | MP4_TRACK_TYPE_METADATA =>
      Build_locals (videoTk loc) (Some h) (chapTk loc)
        (videoTrackCount loc) (audioTrackCount loc) (hintTrackCount loc)
        (metadataTrackCount loc + 1) (textTrackCount loc)
  | MP4_TRACK_TYPE_TEXT =>
      Build_locals (videoTk loc) (metaTk loc) (chapTk loc)
        (videoTrackCount loc) (audioTrackCount loc) (hintTrackCount loc)
        (metadataTrackCount loc) (textTrackCount loc + 1)
  | _ => loc
  end.

Definition set_chapTk (v : option nat) (loc : build_locals) : build_locals :=
  Build_locals (videoTk loc) (metaTk loc) v
    (videoTrackCount loc) (audioTrackCount loc) (hintTrackCount loc)
    (metadataTrackCount loc) (textTrackCount loc).

(** The sample tables of the track [h]: the two cross-checks of the
    sample count and the two dense arrays. *)
Definition build_track_tables (h : nat) : M unit :=
  let* tk := get_track h in
  let* sampleCount := defined (stsc_sample_count tk) in
  if decide (sampleCount <> tk_sampleCount tk) then fail (- EPROTO)
  else
    (* tk->sampleOffset = malloc(sampleCount * sizeof(uint64_t)) *)
    let sampleOffset := Some (replicate (Z.to_nat sampleCount) 0) in
    upd_track h (set_tk_sampleOffset sampleOffset);;;
    let* sampleOffset' := defined (fill_sample_offsets tk sampleOffset) in
    upd_track h (set_tk_sampleOffset sampleOffset');;;
    let* sampleCount := defined (stts_sample_count tk) in
    if decide (sampleCount <> tk_sampleCount tk) then fail (- EPROTO)
    else
      (* tk->sampleDecodingTime = malloc(sampleCount * sizeof(uint64_t)) *)
      let sampleDecodingTime := Some (replicate (Z.to_nat sampleCount) 0) in
      upd_track h (set_tk_sampleDecodingTime sampleDecodingTime);;;
      let* sampleDecodingTime' :=
        defined (fill_decoding_times tk sampleDecodingTime) in
      upd_track h (set_tk_sampleDecodingTime sampleDecodingTime').

(** "link tracks using track references" *)
Definition link_track (h : nat) (loc : build_locals) : M build_locals :=
  let* tk := get_track h in
  if decide (tk_referenceType tk <> 0 /\ tk_referenceTrackId tk <> 0) then
    let* found := gets (fun d => find_track d (tk_referenceTrackId tk)) in
    match found with
    | Some hRef =>
        let* tkRef := get_track hRef in
        if decide (tk_referenceType tk = MP4_REFERENCE_TYPE_DESCRIPTION
                   /\ tk_type tk = MP4_TRACK_TYPE_METADATA) then
          upd_track hRef (set_tk_metadata (Some h));;;
          upd_track h (set_tk_ref (Some hRef));;;
          ret loc
        else if decide (tk_referenceType tk = MP4_REFERENCE_TYPE_CHAPTERS
                        /\ tk_type tkRef = MP4_TRACK_TYPE_TEXT) then
          upd_track h (set_tk_chapters (Some hRef));;;
          upd_track hRef (set_tk_ref (Some h));;;
          upd_track hRef (set_tk_type MP4_TRACK_TYPE_CHAPTERS);;;
          ret (set_chapTk (Some hRef) loc)
        else ret loc
    | None => ret loc
    end
  else ret loc.

(** One iteration of [for (tk = demux->track; tk; tk = tk->next)]. *)
Definition build_track (h : nat) (loc : build_locals) : M build_locals :=
  build_track_tables h;;;
  let* tk := get_track h in
  link_track h (count_track_type h (tk_type tk) loc).

(** The loop, started at the track of index [n - 1]. *)
Fixpoint build_tracks_loop (n : nat) (loc : build_locals) : M build_locals :=
  match n with
  | O => ret loc
  | S h => let* loc' := build_track h loc in build_tracks_loop h loc'
  end.

(** "workaround: if we have only 1 video track and 1 metadata track with
    no track reference, link them anyway" *)
Definition link_single_metadata (loc : build_locals) : M unit :=
  match videoTk loc, metaTk loc with
  | Some hv, Some hm =>
      if decide (videoTrackCount loc = 1 /\ metadataTrackCount loc = 1
                 /\ audioTrackCount loc = 0 /\ hintTrackCount loc = 0) then
        let* tkv := get_track hv in
        match tk_metadata tkv with
        | None =>
            upd_track hv (set_tk_metadata (Some hm));;;
            upd_track hm (set_tk_ref (Some hv))
        | Some _ => ret tt
        end
      else ret tt
  | _, _ => ret tt
  end.

(** Body of the loop that builds the chapter list, for the sample [i] of
    the chapter track. *)
Definition build_chapter (hChap : nat) (i : Z) (_ : unit) : M unit :=
  let* chapTk := get_track hChap in
  let* sampleSize := defined (aget (tk_sampleSize chapTk) i) in
  let* offset := defined (aget (tk_sampleOffset chapTk) i) in
  seek_or_fail (fseeko_set (s64 offset));;;
  let* (sz, readBytes) := MP4_READ_16 0 in
  let sz := ntohs sz in
  if decide (sz <= u32 (sampleSize - readBytes)) then
    (* chapName = malloc(sz + 1);
       demux->chaptersName[demux->chaptersCount] = chapName; *)
    let* count := gets dm_chaptersCount in
    let* names := gets dm_chaptersName in
    let* names' :=
      defined (aset (Some names) count
                 (Some (replicate (Z.to_nat (sz + 1)) 0))) in
    modify (set_dm_chaptersName names');;;
    let* r := fread sz in
    match r with
    | None => fail (- EIO)
    | Some bytes =>
        (* chapName[sz] = '\0' *)
        let* names' :=
          defined (aset (Some names') count (Some (bytes ++ [0]))) in
        modify (set_dm_chaptersName names');;;
        let* dts := defined (aget (tk_sampleDecodingTime chapTk) i) in
        let* chapTime := defined (ticks_to_us dts (tk_timescale chapTk)) in
        let* times := gets dm_chaptersTime in
        let* times' := defined (aset (Some times) count chapTime) in
        modify (set_dm_chaptersTime times');;;
        modify (set_dm_chaptersCount (u32 (count + 1)))
    end
  else ret tt.

Definition build_chapters (loc : build_locals) : M unit :=
  match chapTk loc with
  | Some hChap =>
      let* chapTk := get_track hChap in
      forM (Z.to_nat (tk_sampleCount chapTk)) 0 (build_chapter hChap) tt
  | None => ret tt
  end.

Definition mp4_demux_build_tracks : M unit :=
  let* n := gets (fun d => length (dm_tracks d)) in
  let* loc := build_tracks_loop n build_locals_init in
  link_single_metadata loc;;;
  build_chapters loc.

(** ** mp4_demux_build_metadata *)

(** The condition
    [(value[i]) && (strlen(value[i]) > 0) && (key[i]) && (strlen(key[i]) > 0)]
    on the entry [i] of a pair of string arrays. *)
Definition metadata_entry_set (keys values : option (list (option (list Z))))
    (i : Z) : option bool :=
  v ← aget values i;
  match v with
  | None => Some false
  | Some vbuf =>
      if decide (strlen vbuf > 0) then
        k ← aget keys i;
        match k with
        | None => Some false
        | Some kbuf => Some (bool_decide (strlen kbuf > 0))
        end
      else Some false
  end.

(** The same condition on the [udta] location pair. *)
Definition location_set (d : mp4_demux) : bool :=
  match dm_udtaLocationValue d, dm_udtaLocationKey d with
  | Some vbuf, Some kbuf =>
      bool_decide (strlen vbuf > 0) && bool_decide (strlen kbuf > 0)
  | _, _ => false
  end.

(** The counting loops. *)
Definition count_entries (keys values : option (list (option (list Z))))
    (count : Z) : option Z :=
  for_opt (Z.to_nat count) 0
    (fun i n => b ← metadata_entry_set keys values i;
                Some (if b : bool then u32 (n + 1) else n)) 0.

(** The copying loops; the state is
    [(k, demux->finalMetadataKey, demux->finalMetadataValue)]. *)
Definition copy_entries (keys values : option (list (option (list Z))))
    (count : Z)
    (st : Z * option (list (option (list Z))) * option (list (option (list Z))))
    : option (Z * option (list (option (list Z)))
                * option (list (option (list Z)))) :=
  for_opt (Z.to_nat count) 0
    (fun i st =>
       let '(k, fkeys, fvalues) := st in
       b ← metadata_entry_set keys values i;
       if b : bool then
         key ← aget keys i;
         fkeys' ← aset fkeys k key;
         value ← aget values i;
         fvalues' ← aset fvalues k value;
         Some (u32 (k + 1), Some fkeys', Some fvalues')
       else Some st) st.

Definition mp4_demux_build_metadata : M unit :=
  let* d := gets (fun d => d) in
  let* metaCount :=
    defined (count_entries (dm_metaMetadataKey d) (dm_metaMetadataValue d)
               (dm_metaMetadataCount d)) in
  let* udtaCount :=
    defined (count_entries (dm_udtaMetadataKey d) (dm_udtaMetadataValue d)
               (dm_udtaMetadataCount d)) in
  let xyzCount := if location_set d then 1 else 0 in
  let finalCount := u32 (u32 (metaCount + udtaCount) + xyzCount) in
  modify (set_dm_finalMetadataCount finalCount);;;
  (* calloc(demux->finalMetadataCount, sizeof(char * )) *)
  let fkeys := Some (replicate (Z.to_nat finalCount) None) in
  modify (set_dm_finalMetadataKey fkeys);;;
  let fvalues := Some (replicate (Z.to_nat finalCount) None) in
  modify (set_dm_finalMetadataValue fvalues);;;
  let* st :=
    defined (copy_entries (dm_metaMetadataKey d) (dm_metaMetadataValue d)
               (dm_metaMetadataCount d) (0, fkeys, fvalues)) in
  let* st :=
    defined (copy_entries (dm_udtaMetadataKey d) (dm_udtaMetadataValue d)
               (dm_udtaMetadataCount d) st) in
  let '(k, fkeys, fvalues) := st in
  let* st :=
    (if location_set d then
       let* fkeys' := defined (aset fkeys k (dm_udtaLocationKey d)) in
       let* fvalues' := defined (aset fvalues k (dm_udtaLocationValue d)) in
       ret (Some fkeys', Some fvalues')
     else ret (fkeys, fvalues)) in
  modify (set_dm_finalMetadataKey st.1);;;
  modify (set_dm_finalMetadataValue st.2);;;
  if decide (dm_metaCoverSize d > 0) then
    modify (set_dm_finalCoverSize (dm_metaCoverSize d));;;
    modify (set_dm_finalCoverOffset (dm_metaCoverOffset d));;;
    modify (set_dm_finalCoverType (dm_metaCoverType d))
  else if decide (dm_udtaCoverSize d > 0) then
    modify (set_dm_finalCoverSize (dm_udtaCoverSize d));;;
    modify (set_dm_finalCoverOffset (dm_udtaCoverOffset d));;;
    modify (set_dm_finalCoverType (dm_udtaCoverType d))
  else ret tt.


(** ** Query functions

    The structures that the query functions fill are declared in
    libmp4.h, which is not part of the sources at hand; their members are
    the ones the functions assign.  The checks that the [demux] and the
    output pointers are not [NULL] are left out: the model is given a
    demuxer and returns the output structure. *)

(** Modelled from the spec: [struct mp4_media_info] of libmp4.h (Section
    4.6: "media_info() -> {duration_us, creation_time_unix,
    modification_time_unix, track_count}"); the times and the duration are
    64-bit unsigned like the members of [struct mp4_demux] they are
    computed from. *)
Record mp4_media_info : Type := Build_mp4_media_info {
  mi_duration : Z;
  mi_creation_time : Z;
  mi_modification_time : Z;
  mi_track_count : Z
}.

(** Modelled from the spec: [struct mp4_track_info] of libmp4.h (Section
    4.6, track_info).  [ti_audio_sample_rate] holds the 16.16 fixed
    point value that the code divides by 65536 as a [float]. *)
Record mp4_track_info : Type := Build_mp4_track_info {
  ti_id : Z;
  ti_type : mp4_track_type;
  ti_duration : Z;
  ti_creation_time : Z;
  ti_modification_time : Z;
  ti_sample_count : Z;
  ti_has_metadata : Z;
  ti_metadata_content_encoding : option (list Z);
  ti_metadata_mime_format : option (list Z);
  ti_video_codec : mp4_video_codec;
  ti_video_width : Z;
  ti_video_height : Z;
  ti_audio_codec : mp4_audio_codec;
  ti_audio_channel_count : Z;
  ti_audio_sample_size : Z;
  ti_audio_sample_rate : Z
}.

(** Modelled from the spec: [struct mp4_track_sample] of libmp4.h (Section
    4.6: "next_sample(...) -> {sample_size, metadata_size, sample_dts_us,
    next_sample_dts_us}"). *)
Record mp4_track_sample : Type := Build_mp4_track_sample {
  sample_size : Z;
  metadata_size : Z;
  sample_dts : Z;
  next_sample_dts : Z
}.

(** The structures after [memset(..., 0, ...)]. *)
Definition mp4_track_info_zero : mp4_track_info :=
  Build_mp4_track_info 0 MP4_TRACK_TYPE_UNKNOWN 0 0 0 0 0 None None
    MP4_VIDEO_CODEC_UNKNOWN 0 0 MP4_AUDIO_CODEC_UNKNOWN 0 0 0.

Definition mp4_track_sample_zero : mp4_track_sample :=
  Build_mp4_track_sample 0 0 0 0.

Definition mp4_demux_get_media_info : M mp4_media_info :=
  let* d := gets (fun d => d) in
  let* duration := defined (ticks_to_us (dm_duration d) (dm_timescale d)) in
  ret (Build_mp4_media_info
         duration
         (u64 (dm_creationTime d - MP4_MAC_TO_UNIX_EPOCH_OFFSET))
         (u64 (dm_creationTime d - MP4_MAC_TO_UNIX_EPOCH_OFFSET))
         (dm_trackCount d)).

Definition mp4_demux_get_track_count : M Z := gets dm_trackCount.

(** [for (tk = demux->track, k = 0; (tk) && (k < track_idx);
         tk = tk->next, k++);]: the value of [tk] after the loop. *)
Fixpoint walk_tracks (steps : nat) (tk : option nat) : option nat :=
  match steps, tk with
  | S steps', Some h => walk_tracks steps' (track_next h)
  | _, _ => tk
  end.

(** The assignments of the branch [if (tk)]. *)
Definition track_info_of (d : mp4_demux) (tk : mp4_track)
    : option mp4_track_info :=
  duration ← ticks_to_us (tk_duration tk) (tk_timescale tk);
  encoding_format ←
    match tk_metadata tk with
    | Some hm =>
        metatk ← dm_tracks d !! hm;
        Some (tk_metadataContentEncoding metatk, tk_metadataMimeFormat metatk)
    | None =>
        if decide (tk_type tk = MP4_TRACK_TYPE_METADATA)
        then Some (tk_metadataContentEncoding tk, tk_metadataMimeFormat tk)
        else Some (None, None)
    end;
  let is_video := bool_decide (tk_type tk = MP4_TRACK_TYPE_VIDEO) in
  let is_audio := bool_decide (tk_type tk = MP4_TRACK_TYPE_AUDIO) in
  Some (Build_mp4_track_info
          (tk_id tk) (tk_type tk) duration
          (u64 (tk_creationTime tk - MP4_MAC_TO_UNIX_EPOCH_OFFSET))
          (u64 (tk_creationTime tk - MP4_MAC_TO_UNIX_EPOCH_OFFSET))
          (tk_sampleCount tk)
          (match tk_metadata tk with Some _ => 1 | None => 0 end)
          encoding_format.1 encoding_format.2
          (if is_video then tk_videoCodec tk else MP4_VIDEO_CODEC_UNKNOWN)
          (if is_video then tk_videoWidth tk else 0)
          (if is_video then tk_videoHeight tk else 0)
          (if is_audio then tk_audioCodec tk else MP4_AUDIO_CODEC_UNKNOWN)
          (if is_audio then tk_audioChannelCount tk else 0)
          (if is_audio then tk_audioSampleSize tk else 0)
          (if is_audio then tk_audioSampleRate tk else 0)).

Definition mp4_demux_get_track_info (track_idx : Z) : M mp4_track_info :=
  let* trackCount := gets dm_trackCount in
  MP4_RETURN_ERR_IF_FAILED (bool_decide (track_idx < trackCount)) (- EINVAL);;;
  let* d := gets (fun d => d) in
  match walk_tracks (Z.to_nat track_idx) (track_head d) with
  | Some h =>
      let* tk := get_track h in
      defined (track_info_of d tk)
  | None =>
      MP4_LOG_ERR_AND_RETURN_ERR_IF_FAILED true (- ENOENT);;;
      ret mp4_track_info_zero
  end.

(** The copy of a sample into a caller's buffer: [fseeko] to its offset
    and [fread] of its size. *)
Definition read_sample (offset size : Z) : M (list Z) :=
  seek_or_fail (fseeko_set (s64 offset));;;
  let* r := fread size in
  match r with
  | Some bytes => ret bytes
  | None => fail (- EIO)
  end.

(** [mp4_demux_get_track_next_sample].  [sample_buffer] and
    [metadata_buffer] tell whether the pointers of these names are not
    [NULL].  The value returned holds the structure [*track_sample] and
    the bytes stored into either buffer, if any. *)
Definition mp4_demux_get_track_next_sample (track_id : Z)
    (sample_buffer : bool) (sample_buffer_size : Z)
    (metadata_buffer : bool) (metadata_buffer_size : Z)
    : M (mp4_track_sample * option (list Z) * option (list Z)) :=
  let* found := gets (fun d => find_track d track_id) in
  match found with
  | Some _ => ret tt
  | None => MP4_LOG_ERR_AND_RETURN_ERR_IF_FAILED true (- ENOENT)
  end;;;
  (* [tk] is [NULL] here when no track was found *)
  let* h := defined found in
  let* tk := get_track h in
  let cur := tk_currentSample tk in
  if decide (cur < tk_sampleCount tk) then
    let* size := defined (aget (tk_sampleSize tk) cur) in
    let* sample_data :=
      (if sample_buffer && bool_decide (size <= sample_buffer_size) then
         let* offset := defined (aget (tk_sampleOffset tk) cur) in
         let* bytes := read_sample offset size in
         ret (Some bytes)
       else if sample_buffer then
         MP4_LOG_ERR_AND_RETURN_ERR_IF_FAILED true (- ENOBUFS);;;
         ret None
       else ret None) in
    let* metadata :=
      match tk_metadata tk with
      | Some hm =>
          let* metatk := get_track hm in
          let* msize := defined (aget (tk_sampleSize metatk) cur) in
          if metadata_buffer && bool_decide (msize <= metadata_buffer_size)
          then
            let* offset := defined (aget (tk_sampleOffset metatk) cur) in
            let* bytes := read_sample offset msize in
            ret (msize, Some bytes)
          else ret (msize, None)
      | None => ret (0, None)
      end in
    let* dts := defined (aget (tk_sampleDecodingTime tk) cur) in
    let* dts_us := defined (ticks_to_us dts (tk_timescale tk)) in
    let* next_dts_us :=
      (if decide (cur < u32 (tk_sampleCount tk - 1)) then
         let* next := defined (aget (tk_sampleDecodingTime tk) (cur + 1)) in
         defined (ticks_to_us next (tk_timescale tk))
       else ret 0) in
    upd_track h (set_tk_currentSample (u32 (cur + 1)));;;
    ret (Build_mp4_track_sample size metadata.1 dts_us next_dts_us,
         sample_data, metadata.2)
  else ret (mp4_track_sample_zero, None, None).

(** [mp4_demux_get_chapters]: the count and the two arrays. *)
Definition mp4_demux_get_chapters
    : M (Z * list Z * list (option (list Z))) :=
  gets (fun d => (dm_chaptersCount d, dm_chaptersTime d, dm_chaptersName d)).

Definition mp4_demux_get_metadata_strings
    : M (Z * option (list (option (list Z)))
           * option (list (option (list Z)))) :=
  gets (fun d => (dm_finalMetadataCount d, dm_finalMetadataKey d,
                  dm_finalMetadataValue d)).

(** [mp4_demux_get_metadata_cover].  [cover_buffer], [cover_size] and
    [cover_type] tell whether the pointers of these names are not [NULL].
    The value returned holds what is stored through [cover_size] and
    [cover_type] and into the buffer, if anything. *)
Definition mp4_demux_get_metadata_cover (cover_buffer : bool)
    (cover_buffer_size : Z) (cover_size cover_type : bool)
    : M (option Z * option mp4_metadata_cover_type * option (list Z)) :=
  let* d := gets (fun d => d) in
  if decide (dm_finalCoverSize d > 0) then
    let out_size := if cover_size then Some (dm_finalCoverSize d) else None in
    let out_type := if cover_type then Some (dm_finalCoverType d) else None in
    if cover_buffer && bool_decide (dm_finalCoverSize d <= cover_buffer_size)
    then
      seek_or_fail (fseeko_set (dm_finalCoverOffset d));;;
      let* r := fread (dm_finalCoverSize d) in
      match r with
      | Some bytes => ret (out_size, out_type, Some bytes)
      | None => fail (- EIO)
      end
    else if cover_buffer then
      MP4_LOG_ERR_AND_RETURN_ERR_IF_FAILED true (- ENOBUFS);;;
      ret (out_size, out_type, None)
    else ret (out_size, out_type, None)
  else if cover_size then ret (Some 0, None, None)
  else undef.


(** ** Box handlers

    Every handler is given the ancestors of the box it parses (their
    types, the nearest first; the last one is the root [demux->root], of
    type 0), the size [maxBytes] of the payload and the current track,
    and returns the number of bytes consumed.  In the C code the handler
    receives the tree item of the box itself under the name [parent];
    [parent->parent] there is the head of [ancestors] here. *)

(** [(uint64_t)ntohl(hi) << 32 | ((uint64_t)ntohl(lo) & 0xFFFFFFFF)]. *)
Definition join64 (hi lo : Z) : Z :=
  Z.lor (Z.shiftl hi 32) (Z.land lo 0xFFFFFFFF).

(** A 64-bit big-endian field read as two 32-bit words. *)
Definition read_64 (boxReadBytes : Z) : M (Z * Z) :=
  let* (val32, boxReadBytes) := MP4_READ_32 boxReadBytes in
  let hi := ntohl val32 in
  let* (val32, boxReadBytes) := MP4_READ_32 boxReadBytes in
  ret (join64 hi (ntohl val32), boxReadBytes).

(** [n] 32-bit words whose value is not used. *)
Definition skip_words (n : nat) (boxReadBytes : Z) : M Z :=
  forM n 0
    (fun _ boxReadBytes =>
       let* (_, boxReadBytes) := MP4_READ_32 boxReadBytes in
       ret boxReadBytes)
    boxReadBytes.

(** The hours, minutes and seconds that are logged with a duration are
    computed by dividing by [timescale]; nothing is kept of them, but the
    division is undefined when [timescale] is zero. *)
Definition log_duration (timescale : Z) : M unit :=
  if decide (timescale = 0) then undef else ret tt.

Definition mp4_demux_parse_ftyp (maxBytes : Z) : M Z :=
  MP4_LOG_ERR_AND_RETURN_ERR_IF_FAILED (bool_decide (maxBytes >= 8))
    (- EINVAL);;;
  (* major_brand, minor_version *)
  let* (_, boxReadBytes) := MP4_READ_32 0 in
  let* (_, boxReadBytes) := MP4_READ_32 boxReadBytes in
  (* compatible_brands[]: while (boxReadBytes + 4 <= maxBytes) *)
  let* boxReadBytes :=
    skip_words (Z.to_nat ((maxBytes - boxReadBytes) / 4)) boxReadBytes in
  MP4_SKIP boxReadBytes maxBytes.

Definition mp4_demux_parse_mvhd (maxBytes : Z) : M Z :=
  MP4_LOG_ERR_AND_RETURN_ERR_IF_FAILED (bool_decide (maxBytes >= 25 * 4))
    (- EINVAL);;;
  (* version & flags *)
  let* (val32, boxReadBytes) := MP4_READ_32 0 in
  let flags := ntohl val32 in
  let version := Z.land (Z.shiftr flags 24) 0xFF in
  let* boxReadBytes :=
    (if decide (version = 1) then
       MP4_LOG_ERR_AND_RETURN_ERR_IF_FAILED (bool_decide (maxBytes >= 28 * 4))
         (- EINVAL);;;
       let* (creationTime, boxReadBytes) := read_64 boxReadBytes in
       modify (set_dm_creationTime creationTime);;;
       let* (modificationTime, boxReadBytes) := read_64 boxReadBytes in
       modify (set_dm_modificationTime modificationTime);;;
       let* (val32, boxReadBytes) := MP4_READ_32 boxReadBytes in
       let timescale := ntohl val32 in
       modify (set_dm_timescale timescale);;;
       let* (duration, boxReadBytes) := read_64 boxReadBytes in
       modify (set_dm_duration duration);;;
       log_duration timescale;;;
       ret boxReadBytes
     else
       let* (val32, boxReadBytes) := MP4_READ_32 boxReadBytes in
       modify (set_dm_creationTime (ntohl val32));;;
       let* (val32, boxReadBytes) := MP4_READ_32 boxReadBytes in
       modify (set_dm_modificationTime (ntohl val32));;;
       let* (val32, boxReadBytes) := MP4_READ_32 boxReadBytes in
       let timescale := ntohl val32 in
       modify (set_dm_timescale timescale);;;
       let* (val32, boxReadBytes) := MP4_READ_32 boxReadBytes in
       modify (set_dm_duration (ntohl val32));;;
       log_duration timescale;;;
       ret boxReadBytes) in
  (* rate; volume & reserved; reserved (2); matrix (9); pre_defined (6);
     next_track_ID *)
  let* boxReadBytes := skip_words 20 boxReadBytes in
  MP4_SKIP boxReadBytes maxBytes.

(** [MP4_LOG_ERR_AND_RETURN_ERR_IF_FAILED((track != NULL), -EINVAL, ...)]
    and the track then pointed to. *)
Definition require_track (track : option nat) : M nat :=
  MP4_LOG_ERR_AND_RETURN_ERR_IF_FAILED (bool_decide (is_Some track))
    (- EINVAL);;;
  defined track.

Definition mp4_demux_parse_tkhd (maxBytes : Z) (track : option nat) : M Z :=
  let* h := require_track track in
  MP4_LOG_ERR_AND_RETURN_ERR_IF_FAILED (bool_decide (maxBytes >= 21 * 4))
    (- EINVAL);;;
  (* version & flags *)
  let* (val32, boxReadBytes) := MP4_READ_32 0 in
  let flags := ntohl val32 in
  let version := Z.land (Z.shiftr flags 24) 0xFF in
  let* timescale := gets dm_timescale in
  let* boxReadBytes :=
    (if decide (version = 1) then
       MP4_LOG_ERR_AND_RETURN_ERR_IF_FAILED (bool_decide (maxBytes >= 24 * 4))
         (- EINVAL);;;
       (* creation_time, modification_time *)
       let* (_, boxReadBytes) := read_64 boxReadBytes in
       let* (_, boxReadBytes) := read_64 boxReadBytes in
       (* track_ID *)
       let* (val32, boxReadBytes) := MP4_READ_32 boxReadBytes in
       upd_track h (set_tk_id (ntohl val32));;;
       (* reserved *)
       let* (_, boxReadBytes) := MP4_READ_32 boxReadBytes in
       (* duration *)
       let* (_, boxReadBytes) := read_64 boxReadBytes in
       log_duration timescale;;;
       ret boxReadBytes
     else
       (* creation_time, modification_time *)
       let* (_, boxReadBytes) := MP4_READ_32 boxReadBytes in
       let* (_, boxReadBytes) := MP4_READ_32 boxReadBytes in
       (* track_ID *)
       let* (val32, boxReadBytes) := MP4_READ_32 boxReadBytes in
       upd_track h (set_tk_id (ntohl val32));;;
       (* reserved *)
       let* (_, boxReadBytes) := MP4_READ_32 boxReadBytes in
       (* duration *)
       let* (_, boxReadBytes) := MP4_READ_32 boxReadBytes in
       log_duration timescale;;;
       ret boxReadBytes) in
  (* reserved (2); layer & alternate_group; volume & reserved; matrix (9);
     width; height *)
  let* boxReadBytes := skip_words 15 boxReadBytes in
  MP4_SKIP boxReadBytes maxBytes.

Definition mp4_demux_parse_tref (maxBytes : Z) (track : option nat) : M Z :=
  let* h := require_track track in
  MP4_LOG_ERR_AND_RETURN_ERR_IF_FAILED (bool_decide (maxBytes >= 3 * 4))
    (- EINVAL);;;
  (* reference type size *)
  let* (_, boxReadBytes) := MP4_READ_32 0 in
  (* reference type *)
  let* (val32, boxReadBytes) := MP4_READ_32 boxReadBytes in
  upd_track h (set_tk_referenceType (ntohl val32));;;
  (* track IDs: only the first one is read *)
  let* (val32, boxReadBytes) := MP4_READ_32 boxReadBytes in
  upd_track h (set_tk_referenceTrackId (ntohl val32));;;
  MP4_SKIP boxReadBytes maxBytes.

Definition mp4_demux_parse_mdhd (maxBytes : Z) (track : option nat) : M Z :=
  let* h := require_track track in
  MP4_LOG_ERR_AND_RETURN_ERR_IF_FAILED (bool_decide (maxBytes >= 6 * 4))
    (- EINVAL);;;
  (* version & flags *)
  let* (val32, boxReadBytes) := MP4_READ_32 0 in
  let flags := ntohl val32 in
  let version := Z.land (Z.shiftr flags 24) 0xFF in
  let* boxReadBytes :=
    (if decide (version = 1) then
       MP4_LOG_ERR_AND_RETURN_ERR_IF_FAILED (bool_decide (maxBytes >= 9 * 4))
         (- EINVAL);;;
       let* (creationTime, boxReadBytes) := read_64 boxReadBytes in
       upd_track h (set_tk_creationTime creationTime);;;
       let* (modificationTime, boxReadBytes) := read_64 boxReadBytes in
       upd_track h (set_tk_modificationTime modificationTime);;;
       let* (val32, boxReadBytes) := MP4_READ_32 boxReadBytes in
       let timescale := ntohl val32 in
       upd_track h (set_tk_timescale timescale);;;
       let* (duration, boxReadBytes) := read_64 boxReadBytes in
       upd_track h (set_tk_duration duration);;;
       log_duration timescale;;;
       ret boxReadBytes
     else
       let* (val32, boxReadBytes) := MP4_READ_32 boxReadBytes in
       upd_track h (set_tk_creationTime (ntohl val32));;;
       let* (val32, boxReadBytes) := MP4_READ_32 boxReadBytes in
       upd_track h (set_tk_modificationTime (ntohl val32));;;
       let* (val32, boxReadBytes) := MP4_READ_32 boxReadBytes in
       let timescale := ntohl val32 in
       upd_track h (set_tk_timescale timescale);;;
       let* (val32, boxReadBytes) := MP4_READ_32 boxReadBytes in
       upd_track h (set_tk_duration (ntohl val32));;;
       log_duration timescale;;;
       ret boxReadBytes) in
  (* language & pre_defined *)
  let* (_, boxReadBytes) := MP4_READ_32 boxReadBytes in
  MP4_SKIP boxReadBytes maxBytes.

Definition mp4_demux_parse_vmhd (maxBytes : Z) : M Z :=
  MP4_LOG_ERR_AND_RETURN_ERR_IF_FAILED (bool_decide (maxBytes >= 3 * 4))
    (- EINVAL);;;
  (* version & flags *)
  let* (_, boxReadBytes) := MP4_READ_32 0 in
  (* graphicsmode, opcolor[3] *)
  let* (_, boxReadBytes) := MP4_READ_16 boxReadBytes in
  let* (_, boxReadBytes) := MP4_READ_16 boxReadBytes in
  let* (_, boxReadBytes) := MP4_READ_16 boxReadBytes in
  let* (_, boxReadBytes) := MP4_READ_16 boxReadBytes in
  MP4_SKIP boxReadBytes maxBytes.

Definition mp4_demux_parse_smhd (maxBytes : Z) : M Z :=
  MP4_LOG_ERR_AND_RETURN_ERR_IF_FAILED (bool_decide (maxBytes >= 2 * 4))
    (- EINVAL);;;
  (* version & flags; balance & reserved *)
  let* boxReadBytes := skip_words 2 0 in
  MP4_SKIP boxReadBytes maxBytes.

Definition mp4_demux_parse_hmhd (maxBytes : Z) : M Z :=
  MP4_LOG_ERR_AND_RETURN_ERR_IF_FAILED (bool_decide (maxBytes >= 5 * 4))
    (- EINVAL);;;
  (* version & flags; maxPDUsize & avgPDUsize; maxbitrate; avgbitrate;
     reserved *)
  let* boxReadBytes := skip_words 5 0 in
  MP4_SKIP boxReadBytes maxBytes.

Definition mp4_demux_parse_nmhd (maxBytes : Z) : M Z :=
  MP4_LOG_ERR_AND_RETURN_ERR_IF_FAILED (bool_decide (maxBytes >= 4))
    (- EINVAL);;;
  (* version & flags *)
  let* (_, boxReadBytes) := MP4_READ_32 0 in
  MP4_SKIP boxReadBytes maxBytes.

(** The loop that reads a NUL-terminated string of at most 99 characters
    into [char str[100]]:
    [for (k = 0; (k < sizeof(str) - 1) && (boxReadBytes < maxBytes); k++)
       { MP4_READ_8(file, str[k], boxReadBytes);
         if (str[k] == '\0') break; }].
    [fuel] is [sizeof(str) - 1 - k]; a cell of the buffer holds [None]
    as long as it has an indeterminate value. *)
Fixpoint read_string_loop (fuel : nat) (k : Z) (maxBytes : Z)
    (st : Z * list (option Z)) : M (Z * (Z * list (option Z))) :=
  let '(boxReadBytes, str) := st in
  match fuel with
  | O => ret (k, st)
  | S fuel' =>
      if decide (boxReadBytes < maxBytes) then
        let* (c, boxReadBytes) := MP4_READ_8 boxReadBytes in
        let* str := defined (aset (Some str) k (Some c)) in
        if decide (c = 0) then ret (k, (boxReadBytes, str))
        else read_string_loop fuel' (k + 1) maxBytes (boxReadBytes, str)
      else ret (k, st)
  end.

(** The loop followed by [str[k + 1] = '\0']. *)
Definition read_string (maxBytes : Z) (st : Z * list (option Z))
    : M (Z * list (option Z)) :=
  let* (k, st) := read_string_loop 99 0 maxBytes st in
  let* str := defined (aset (Some st.2) (k + 1) (Some 0)) in
  ret (st.1, str).

(** [strdup(str)] when [strlen(str) > 0]: the characters before the first
    NUL, followed by a NUL.  Reading an indeterminate character is
    undefined. *)
Fixpoint cstring_of_buffer (str : list (option Z)) : option (list Z) :=
  match str with
  | [] => None
  | None :: _ => None
  | Some c :: rest =>
      if decide (c = 0) then Some []
      else s ← cstring_of_buffer rest; Some (c :: s)
  end.

Definition mp4_demux_parse_hdlr (ancestors : list Z) (maxBytes : Z)
    (track : option nat) : M Z :=
  MP4_LOG_ERR_AND_RETURN_ERR_IF_FAILED (bool_decide (maxBytes >= 6 * 4))
    (- EINVAL);;;
  (* version & flags *)
  let* (_, boxReadBytes) := MP4_READ_32 0 in
  (* pre_defined *)
  let* (_, boxReadBytes) := MP4_READ_32 boxReadBytes in
  (* handler_type *)
  let* (val32, boxReadBytes) := MP4_READ_32 boxReadBytes in
  let handlerType := ntohl val32 in
  match track, ancestors !! 0%nat with
  | Some h, Some parent_type =>
      if decide (parent_type = MP4_MEDIA_BOX) then
        upd_track h (set_tk_type
          (if decide (handlerType = MP4_HANDLER_TYPE_VIDEO)
           then MP4_TRACK_TYPE_VIDEO
           else if decide (handlerType = MP4_HANDLER_TYPE_AUDIO)
           then MP4_TRACK_TYPE_AUDIO
           else if decide (handlerType = MP4_HANDLER_TYPE_HINT)
           then MP4_TRACK_TYPE_HINT
           else if decide (handlerType = MP4_HANDLER_TYPE_METADATA)
           then MP4_TRACK_TYPE_METADATA
           else if decide (handlerType = MP4_HANDLER_TYPE_TEXT)
           then MP4_TRACK_TYPE_TEXT
           else MP4_TRACK_TYPE_UNKNOWN))
      else ret tt
  | _, _ => ret tt
  end;;;
  (* reserved *)
  let* boxReadBytes := skip_words 3 boxReadBytes in
  (* char name[100]; *)
  let* (boxReadBytes, _) :=
    read_string maxBytes (boxReadBytes, replicate 100 None) in
  MP4_SKIP boxReadBytes maxBytes.

(** One SPS or PPS of the [avcC] box: the loop body shared by the two
    loops of [mp4_demux_parse_avcc].  [stored] tells whether the track
    already holds a parameter set of this kind; [store] keeps the first
    one.  The state is [(boxReadBytes, minBytes)]. *)
Definition parse_avcc_nalu (maxBytes : Z) (h : nat)
    (stored : mp4_track -> option (list Z))
    (store : Z -> list Z -> mp4_track -> mp4_track)
    (i : Z) (st : Z * Z) : M (Z * Z) :=
  let '(boxReadBytes, minBytes) := st in
  let* (val16, boxReadBytes) := MP4_READ_16 boxReadBytes in
  let length := htons val16 in
  let minBytes := minBytes + length in
  MP4_LOG_ERR_AND_RETURN_ERR_IF_FAILED (bool_decide (maxBytes >= minBytes))
    (- EINVAL);;;
  let* tk := get_track h in
  match stored tk with
  | None =>
      if decide (length <> 0) then
        (* first one found: the size and the malloc'ed buffer are set
           before the read *)
        upd_track h (store length (replicate (Z.to_nat length) 0));;;
        let* r := fread length in
        match r with
        | Some bytes => upd_track h (store length bytes)
        | None => fail (- EIO)
        end
      else seek_or_fail (fseeko_cur length)
  | Some _ =>
      (* ignore any other one *)
      seek_or_fail (fseeko_cur length)
  end;;;
  ret (boxReadBytes + length, minBytes).

Definition mp4_demux_parse_avcc (maxBytes : Z) (track : option nat) : M Z :=
  let minBytes := 6 in
  let* h := require_track track in
  MP4_LOG_ERR_AND_RETURN_ERR_IF_FAILED (bool_decide (maxBytes >= minBytes))
    (- EINVAL);;;
  (* version & profile & level *)
  let* (_, boxReadBytes) := MP4_READ_32 0 in
  (* length_size & sps_count *)
  let* (val16, boxReadBytes) := MP4_READ_16 boxReadBytes in
  let val16 := htons val16 in
  let spsCount := Z.land val16 0x1F in
  let minBytes := minBytes + 2 * spsCount in
  MP4_LOG_ERR_AND_RETURN_ERR_IF_FAILED (bool_decide (maxBytes >= minBytes))
    (- EINVAL);;;
  let* (boxReadBytes, minBytes) :=
    forM (Z.to_nat spsCount) 0
      (parse_avcc_nalu maxBytes h tk_videoSps
         (fun size bytes tk =>
            set_tk_videoSps (Some bytes) (set_tk_videoSpsSize size tk)))
      (boxReadBytes, minBytes) in
  let minBytes := minBytes + 1 in
  MP4_LOG_ERR_AND_RETURN_ERR_IF_FAILED (bool_decide (maxBytes >= minBytes))
    (- EINVAL);;;
  (* pps_count *)
  let* (ppsCount, boxReadBytes) := MP4_READ_8 boxReadBytes in
  let minBytes := minBytes + 2 * ppsCount in
  MP4_LOG_ERR_AND_RETURN_ERR_IF_FAILED (bool_decide (maxBytes >= minBytes))
    (- EINVAL);;;
  let* (boxReadBytes, _) :=
    forM (Z.to_nat ppsCount) 0
      (parse_avcc_nalu maxBytes h tk_videoPps
         (fun size bytes tk =>
            set_tk_videoPps (Some bytes) (set_tk_videoPpsSize size tk)))
      (boxReadBytes, minBytes) in
  MP4_SKIP boxReadBytes maxBytes.

(** One entry of the [stsd] box of a video track. *)
Definition parse_stsd_video (maxBytes : Z) (h : nat) (boxReadBytes : Z)
    : M Z :=
  MP4_LOG_ERR_AND_RETURN_ERR_IF_FAILED (bool_decide (maxBytes >= 102))
    (- EINVAL);;;
  (* size; type; reserved; reserved & data_reference_index;
     pre_defined & reserved (4) *)
  let* boxReadBytes := skip_words 8 boxReadBytes in
  (* width & height *)
  let* (val32, boxReadBytes) := MP4_READ_32 boxReadBytes in
  upd_track h (set_tk_videoWidth (Z.land (Z.shiftr (ntohl val32) 16) 0xFFFF));;;
  upd_track h (set_tk_videoHeight (Z.land (ntohl val32) 0xFFFF));;;
  (* horizresolution; vertresolution; reserved *)
  let* boxReadBytes := skip_words 3 boxReadBytes in
  (* frame_count *)
  let* (_, boxReadBytes) := MP4_READ_16 boxReadBytes in
  (* compressorname *)
  let* r := fread 32 in
  match r with
  | None => fail (- EIO)
  | Some _ =>
      let boxReadBytes := boxReadBytes + 32 in
      (* depth & pre_defined; codec specific size *)
      let* boxReadBytes := skip_words 2 boxReadBytes in
      (* codec specific *)
      let* (val32, boxReadBytes) := MP4_READ_32 boxReadBytes in
      let codec := ntohl val32 in
      if decide (codec = MP4_AVC_DECODER_CONFIG_BOX) then
        upd_track h (set_tk_videoCodec MP4_VIDEO_CODEC_AVC);;;
        let* n := mp4_demux_parse_avcc (maxBytes - boxReadBytes) (Some h) in
        ret (boxReadBytes + n)
      else ret boxReadBytes
  end.

(** One entry of the [stsd] box of an audio track. *)
Definition parse_stsd_audio (maxBytes : Z) (h : nat) (boxReadBytes : Z)
    : M Z :=
  MP4_LOG_ERR_AND_RETURN_ERR_IF_FAILED (bool_decide (maxBytes >= 44))
    (- EINVAL);;;
  (* size; type; reserved; reserved & data_reference_index; reserved (2) *)
  let* boxReadBytes := skip_words 6 boxReadBytes in
  (* channelcount & samplesize *)
  let* (val32, boxReadBytes) := MP4_READ_32 boxReadBytes in
  upd_track h
    (set_tk_audioChannelCount (Z.land (Z.shiftr (ntohl val32) 16) 0xFFFF));;;
  upd_track h (set_tk_audioSampleSize (Z.land (ntohl val32) 0xFFFF));;;
  (* reserved *)
  let* (_, boxReadBytes) := MP4_READ_32 boxReadBytes in
  (* samplerate *)
  let* (val32, boxReadBytes) := MP4_READ_32 boxReadBytes in
  upd_track h (set_tk_audioSampleRate (ntohl val32));;;
  ret boxReadBytes.

(** One entry of the [stsd] box of a metadata track. *)
Definition parse_stsd_metadata (maxBytes : Z) (h : nat) (boxReadBytes : Z)
    : M Z :=
  MP4_LOG_ERR_AND_RETURN_ERR_IF_FAILED (bool_decide (maxBytes >= 24))
    (- EINVAL);;;
  (* size; type; reserved *)
  let* boxReadBytes := skip_words 3 boxReadBytes in
  (* reserved; data_reference_index *)
  let* (_, boxReadBytes) := MP4_READ_16 boxReadBytes in
  let* (_, boxReadBytes) := MP4_READ_16 boxReadBytes in
  (* char str[100]; *)
  let* (boxReadBytes, str) :=
    read_string maxBytes (boxReadBytes, replicate 100 None) in
  let* s := defined (cstring_of_buffer str) in
  (if decide (s <> []) then
     upd_track h (set_tk_metadataContentEncoding (Some (s ++ [0])))
   else ret tt);;;
  let* (boxReadBytes, str) := read_string maxBytes (boxReadBytes, str) in
  let* s := defined (cstring_of_buffer str) in
  (if decide (s <> []) then
     upd_track h (set_tk_metadataMimeFormat (Some (s ++ [0])))
   else ret tt);;;
  ret boxReadBytes.

Definition mp4_demux_parse_stsd (maxBytes : Z) (track : option nat) : M Z :=
  let* h := require_track track in
  MP4_LOG_ERR_AND_RETURN_ERR_IF_FAILED (bool_decide (maxBytes >= 8))
    (- EINVAL);;;
  (* version & flags *)
  let* (_, boxReadBytes) := MP4_READ_32 0 in
  (* entry_count *)
  let* (val32, boxReadBytes) := MP4_READ_32 boxReadBytes in
  let entryCount := ntohl val32 in
  let* boxReadBytes :=
    forM (Z.to_nat entryCount) 0
      (fun _ boxReadBytes =>
         let* tk := get_track h in
         match tk_type tk with
         | MP4_TRACK_TYPE_VIDEO => parse_stsd_video maxBytes h boxReadBytes
         | MP4_TRACK_TYPE_AUDIO => parse_stsd_audio maxBytes h boxReadBytes
         | MP4_TRACK_TYPE_METADATA =>
             parse_stsd_metadata maxBytes h boxReadBytes
         | _ => ret boxReadBytes
         end)
      boxReadBytes in
  MP4_SKIP boxReadBytes maxBytes.

(** ** Sample tables *)

(** [a[i]] replaced by [f a[i]] (an assignment to a member of [a[i]]). *)
Definition amod {A : Type} (a : option (list A)) (i : Z) (f : A -> A)
    : option (list A) :=
  x ← aget a i; aset a i (f x).

Definition set_sampleCount (v : Z) (e : mp4_time_to_sample_entry)
    : mp4_time_to_sample_entry := Build_stts_entry v (sampleDelta e).
Definition set_sampleDelta (v : Z) (e : mp4_time_to_sample_entry)
    : mp4_time_to_sample_entry := Build_stts_entry (sampleCount e) v.
Definition set_firstChunk (v : Z) (e : mp4_sample_to_chunk_entry)
    : mp4_sample_to_chunk_entry :=
  Build_stsc_entry v (samplesPerChunk e) (sampleDescriptionIndex e).
Definition set_samplesPerChunk (v : Z) (e : mp4_sample_to_chunk_entry)
    : mp4_sample_to_chunk_entry :=
  Build_stsc_entry (firstChunk e) v (sampleDescriptionIndex e).
Definition set_sampleDescriptionIndex (v : Z) (e : mp4_sample_to_chunk_entry)
    : mp4_sample_to_chunk_entry :=
  Build_stsc_entry (firstChunk e) (samplesPerChunk e) v.

(** An assignment [track->table[i] = ...] or [track->table[i].member =
    ...]: [get] and [set] select the table, [f] is the assignment. *)
Definition upd_table {A : Type} (h : nat)
    (get : mp4_track -> option (list A))
    (set : option (list A) -> mp4_track -> mp4_track)
    (i : Z) (f : A -> A) : M unit :=
  let* tk := get_track h in
  let* table := defined (amod (get tk) i f) in
  upd_track h (set (Some table)).

Definition mp4_demux_parse_stts (maxBytes : Z) (track : option nat) : M Z :=
  let* h := require_track track in
  let* tk := get_track h in
  MP4_LOG_ERR_AND_RETURN_ERR_IF_FAILED
    (bool_decide (tk_timeToSampleEntries tk = None)) (- EEXIST);;;
  MP4_LOG_ERR_AND_RETURN_ERR_IF_FAILED (bool_decide (maxBytes >= 8))
    (- EINVAL);;;
  (* version & flags *)
  let* (_, boxReadBytes) := MP4_READ_32 0 in
  (* entry_count *)
  let* (val32, boxReadBytes) := MP4_READ_32 boxReadBytes in
  let entryCount := ntohl val32 in
  upd_track h (set_tk_timeToSampleEntryCount entryCount);;;
  (* malloc *)
  upd_track h (set_tk_timeToSampleEntries
                 (Some (replicate (Z.to_nat entryCount) (Build_stts_entry 0 0))));;;
  MP4_LOG_ERR_AND_RETURN_ERR_IF_FAILED
    (bool_decide (maxBytes >= u32 (8 + u32 (entryCount * 8)))) (- EINVAL);;;
  let* boxReadBytes :=
    forM (Z.to_nat entryCount) 0
      (fun i boxReadBytes =>
         (* sample_count *)
         let* (val32, boxReadBytes) := MP4_READ_32 boxReadBytes in
         upd_table h tk_timeToSampleEntries set_tk_timeToSampleEntries i
           (set_sampleCount (ntohl val32));;;
         (* sample_delta *)
         let* (val32, boxReadBytes) := MP4_READ_32 boxReadBytes in
         upd_table h tk_timeToSampleEntries set_tk_timeToSampleEntries i
           (set_sampleDelta (ntohl val32));;;
         ret boxReadBytes)
      boxReadBytes in
  MP4_SKIP boxReadBytes maxBytes.

Definition mp4_demux_parse_stss (maxBytes : Z) (track : option nat) : M Z :=
  let* h := require_track track in
  let* tk := get_track h in
  MP4_LOG_ERR_AND_RETURN_ERR_IF_FAILED
    (bool_decide (tk_syncSampleEntries tk = None)) (- EEXIST);;;
  MP4_LOG_ERR_AND_RETURN_ERR_IF_FAILED (bool_decide (maxBytes >= 8))
    (- EINVAL);;;
  (* version & flags *)
  let* (_, boxReadBytes) := MP4_READ_32 0 in
  (* entry_count *)
  let* (val32, boxReadBytes) := MP4_READ_32 boxReadBytes in
  let entryCount := ntohl val32 in
  upd_track h (set_tk_syncSampleEntryCount entryCount);;;
  (* malloc *)
  upd_track h (set_tk_syncSampleEntries
                 (Some (replicate (Z.to_nat entryCount) 0)));;;
  MP4_LOG_ERR_AND_RETURN_ERR_IF_FAILED
    (bool_decide (maxBytes >= u32 (8 + u32 (entryCount * 4)))) (- EINVAL);;;
  let* boxReadBytes :=
    forM (Z.to_nat entryCount) 0
      (fun i boxReadBytes =>
         (* sample_number *)
         let* (val32, boxReadBytes) := MP4_READ_32 boxReadBytes in
         upd_table h tk_syncSampleEntries set_tk_syncSampleEntries i
           (fun _ => ntohl val32);;;
         ret boxReadBytes)
      boxReadBytes in
  MP4_SKIP boxReadBytes maxBytes.

Definition mp4_demux_parse_stsz (maxBytes : Z) (track : option nat) : M Z :=
  let* h := require_track track in
  let* tk := get_track h in
  MP4_LOG_ERR_AND_RETURN_ERR_IF_FAILED
    (bool_decide (tk_sampleSize tk = None)) (- EEXIST);;;
  MP4_LOG_ERR_AND_RETURN_ERR_IF_FAILED (bool_decide (maxBytes >= 12))
    (- EINVAL);;;
  (* version & flags *)
  let* (_, boxReadBytes) := MP4_READ_32 0 in
  (* sample_size *)
  let* (val32, boxReadBytes) := MP4_READ_32 boxReadBytes in
  let sampleSize := ntohl val32 in
  (* sample_count *)
  let* (val32, boxReadBytes) := MP4_READ_32 boxReadBytes in
  let sampleCount := ntohl val32 in
  upd_track h (set_tk_sampleCount sampleCount);;;
  (* malloc *)
  upd_track h (set_tk_sampleSize (Some (replicate (Z.to_nat sampleCount) 0)));;;
  let* boxReadBytes :=
    (if decide (sampleSize = 0) then
       MP4_LOG_ERR_AND_RETURN_ERR_IF_FAILED
         (bool_decide (maxBytes >= u32 (12 + u32 (sampleCount * 4))))
         (- EINVAL);;;
       forM (Z.to_nat sampleCount) 0
         (fun i boxReadBytes =>
            (* entry_size *)
            let* (val32, boxReadBytes) := MP4_READ_32 boxReadBytes in
            upd_table h tk_sampleSize set_tk_sampleSize i
              (fun _ => ntohl val32);;;
            ret boxReadBytes)
         boxReadBytes
     else
       forM (Z.to_nat sampleCount) 0
         (fun i boxReadBytes =>
            upd_table h tk_sampleSize set_tk_sampleSize i
              (fun _ => sampleSize);;;
            ret boxReadBytes)
         boxReadBytes) in
  MP4_SKIP boxReadBytes maxBytes.

Definition mp4_demux_parse_stsc (maxBytes : Z) (track : option nat) : M Z :=
  let* h := require_track track in
  let* tk := get_track h in
  MP4_LOG_ERR_AND_RETURN_ERR_IF_FAILED
    (bool_decide (tk_sampleToChunkEntries tk = None)) (- EEXIST);;;
  MP4_LOG_ERR_AND_RETURN_ERR_IF_FAILED (bool_decide (maxBytes >= 8))
    (- EINVAL);;;
  (* version & flags *)
  let* (_, boxReadBytes) := MP4_READ_32 0 in
  (* entry_count *)
  let* (val32, boxReadBytes) := MP4_READ_32 boxReadBytes in
  let entryCount := ntohl val32 in
  upd_track h (set_tk_sampleToChunkEntryCount entryCount);;;
  (* malloc *)
  upd_track h (set_tk_sampleToChunkEntries
                 (Some (replicate (Z.to_nat entryCount)
                          (Build_stsc_entry 0 0 0))));;;
  MP4_LOG_ERR_AND_RETURN_ERR_IF_FAILED
    (bool_decide (maxBytes >= u32 (8 + u32 (entryCount * 12)))) (- EINVAL);;;
  let* boxReadBytes :=
    forM (Z.to_nat entryCount) 0
      (fun i boxReadBytes =>
         (* first_chunk *)
         let* (val32, boxReadBytes) := MP4_READ_32 boxReadBytes in
         upd_table h tk_sampleToChunkEntries set_tk_sampleToChunkEntries i
           (set_firstChunk (ntohl val32));;;
         (* samples_per_chunk *)
         let* (val32, boxReadBytes) := MP4_READ_32 boxReadBytes in
         upd_table h tk_sampleToChunkEntries set_tk_sampleToChunkEntries i
           (set_samplesPerChunk (ntohl val32));;;
         (* sample_description_index *)
         let* (val32, boxReadBytes) := MP4_READ_32 boxReadBytes in
         upd_table h tk_sampleToChunkEntries set_tk_sampleToChunkEntries i
           (set_sampleDescriptionIndex (ntohl val32));;;
         ret boxReadBytes)
      boxReadBytes in
  MP4_SKIP boxReadBytes maxBytes.

Definition mp4_demux_parse_stco (maxBytes : Z) (track : option nat) : M Z :=
  let* h := require_track track in
  let* tk := get_track h in
  MP4_LOG_ERR_AND_RETURN_ERR_IF_FAILED
    (bool_decide (tk_chunkOffset tk = None)) (- EEXIST);;;
  MP4_LOG_ERR_AND_RETURN_ERR_IF_FAILED (bool_decide (maxBytes >= 8))
    (- EINVAL);;;
  (* version & flags *)
  let* (_, boxReadBytes) := MP4_READ_32 0 in
  (* entry_count *)
  let* (val32, boxReadBytes) := MP4_READ_32 boxReadBytes in
  let chunkCount := ntohl val32 in
  upd_track h (set_tk_chunkCount chunkCount);;;
  (* malloc *)
  upd_track h (set_tk_chunkOffset (Some (replicate (Z.to_nat chunkCount) 0)));;;
  MP4_LOG_ERR_AND_RETURN_ERR_IF_FAILED
    (bool_decide (maxBytes >= u32 (8 + u32 (chunkCount * 4)))) (- EINVAL);;;
  let* boxReadBytes :=
    forM (Z.to_nat chunkCount) 0
      (fun i boxReadBytes =>
         (* chunk_offset *)
         let* (val32, boxReadBytes) := MP4_READ_32 boxReadBytes in
         upd_table h tk_chunkOffset set_tk_chunkOffset i
           (fun _ => ntohl val32);;;
         ret boxReadBytes)
      boxReadBytes in
  MP4_SKIP boxReadBytes maxBytes.

Definition mp4_demux_parse_co64 (maxBytes : Z) (track : option nat) : M Z :=
  let* h := require_track track in
  let* tk := get_track h in
  MP4_LOG_ERR_AND_RETURN_ERR_IF_FAILED
    (bool_decide (tk_chunkOffset tk = None)) (- EEXIST);;;
  MP4_LOG_ERR_AND_RETURN_ERR_IF_FAILED (bool_decide (maxBytes >= 8))
    (- EINVAL);;;
  (* version & flags *)
  let* (_, boxReadBytes) := MP4_READ_32 0 in
  (* entry_count *)
  let* (val32, boxReadBytes) := MP4_READ_32 boxReadBytes in
  let chunkCount := ntohl val32 in
  upd_track h (set_tk_chunkCount chunkCount);;;
  (* malloc *)
  upd_track h (set_tk_chunkOffset (Some (replicate (Z.to_nat chunkCount) 0)));;;
  MP4_LOG_ERR_AND_RETURN_ERR_IF_FAILED
    (bool_decide (maxBytes >= u32 (8 + u32 (chunkCount * 8)))) (- EINVAL);;;
  let* boxReadBytes :=
    forM (Z.to_nat chunkCount) 0
      (fun i boxReadBytes =>
         (* chunk_offset *)
         let* (val32, boxReadBytes) := MP4_READ_32 boxReadBytes in
         upd_table h tk_chunkOffset set_tk_chunkOffset i
           (fun _ => Z.shiftl (ntohl val32) 32);;;
         let* (val32, boxReadBytes) := MP4_READ_32 boxReadBytes in
         upd_table h tk_chunkOffset set_tk_chunkOffset i
           (fun c => Z.lor c (Z.land (ntohl val32) 0xFFFFFFFF));;;
         ret boxReadBytes)
      boxReadBytes in
  MP4_SKIP boxReadBytes maxBytes.

(** ** Metadata boxes *)

(** The four characters of a box type, followed by a NUL. *)
Definition fourcc_string (type : Z) : list Z :=
  [Z.land (Z.shiftr type 24) 0xFF; Z.land (Z.shiftr type 16) 0xFF;
   Z.land (Z.shiftr type 8) 0xFF; Z.land type 0xFF; 0].

(** [buf = malloc(len + 1); fread(buf, len, 1, file); buf[len] = '\0']
    with the 32-bit unsigned [len]: the buffer read.  [len + 1] wraps to 0
    for the largest [len], and the read then overflows the buffer. *)
Definition read_value (len : Z) : M (list Z) :=
  if decide (u32 (len + 1) = 0) then undef
  else
    let* r := fread len in
    match r with
    | Some bytes => ret (bytes ++ [0])
    | None => fail (- EIO)
    end.

(** [type] is the type of the [xyz] box itself. *)
Definition mp4_demux_parse_xyz (type : Z) (maxBytes : Z) : M Z :=
  MP4_LOG_ERR_AND_RETURN_ERR_IF_FAILED (bool_decide (maxBytes >= 4))
    (- EINVAL);;;
  (* location_size *)
  let* (val16, boxReadBytes) := MP4_READ_16 0 in
  let locationSize := ntohs val16 in
  (* language_code *)
  let* (_, boxReadBytes) := MP4_READ_16 boxReadBytes in
  MP4_LOG_ERR_AND_RETURN_ERR_IF_FAILED
    (bool_decide (maxBytes >= 4 + locationSize)) (- EINVAL);;;
  modify (set_dm_udtaLocationKey (Some (fourcc_string type)));;;
  modify (set_dm_udtaLocationValue
            (Some (replicate (Z.to_nat (locationSize + 1)) 0)));;;
  let* value := read_value locationSize in
  modify (set_dm_udtaLocationValue (Some value));;;
  MP4_SKIP (boxReadBytes + locationSize) maxBytes.

(** A difference and a sum of two [off_t]; signed overflow is
    undefined. *)
Definition off_t_sub (a b : Z) : M Z :=
  if decide (- 2 ^ 63 <= a - b < 2 ^ 63) then ret (a - b) else undef.

Definition off_t_add (a b : Z) : M Z :=
  if decide (- 2 ^ 63 <= a + b < 2 ^ 63) then ret (a + b) else undef.

(** [count++] for an [int] [count]. *)
Definition int_succ (count : Z) : M Z :=
  if decide (count + 1 < 2 ^ 31) then ret (count + 1) else undef.

(** The loop of [mp4_demux_count_ilst_sub_box]; the state is
    [(totalReadBytes, count)].  Every iteration reads 8 bytes or more of
    the file, so that the length of the file bounds their number. *)
Fixpoint count_ilst_loop (fuel : nat) (maxBytes : Z) (st : Z * Z)
    : M (Z * Z) :=
  let '(totalReadBytes, count) := st in
  if decide (totalReadBytes + 8 <= maxBytes) then
    match fuel with
    | O => fun _ => OutOfFuel
    | S fuel' =>
        (* box size *)
        let* (val32, boxReadBytes) := MP4_READ_32 0 in
        let size := ntohl val32 in
        (* box type *)
        let* (_, boxReadBytes) := MP4_READ_32 boxReadBytes in
        let* (realBoxSize, boxReadBytes) :=
          (if decide (size = 0) then
             (* "size == 0 for list element is not implemented" *)
             MP4_LOG_ERR_AND_RETURN_ERR_IF_FAILED false (- ENOSYS);;;
             undef
           else if decide (size = 1) then
             MP4_LOG_ERR_AND_RETURN_ERR_IF_FAILED
               (bool_decide (maxBytes >= boxReadBytes + 16)) (- EINVAL);;;
             (* large size *)
             let* (largesize, boxReadBytes) := read_64 boxReadBytes in
             ret (s64 largesize, boxReadBytes)
           else ret (size, boxReadBytes)) in
        let* count := int_succ count in
        let* _ := MP4_SKIP boxReadBytes realBoxSize in
        let* totalReadBytes := off_t_add totalReadBytes realBoxSize in
        count_ilst_loop fuel' maxBytes (totalReadBytes, count)
    end
  else ret st.

Definition mp4_demux_count_ilst_sub_box (maxBytes : Z) : M Z :=
  MP4_LOG_ERR_AND_RETURN_ERR_IF_FAILED (bool_decide (maxBytes >= 8))
    (- EINVAL);;;
  let* fuel := gets (fun d => S (length (f_bytes (dm_file d)))) in
  let* (totalReadBytes, count) := count_ilst_loop fuel maxBytes (0, 0) in
  let* back := off_t_sub 0 totalReadBytes in
  seek_or_fail (fseeko_cur back);;;
  ret count.

(** The value of an [int] function whose error codes are not checked by
    its caller: the error code becomes the value. *)
Definition int_value (m : M Z) : M Z :=
  fun d =>
    match m d with
    | Err code d' => Ok code d'
    | r => r
    end.

Definition mp4_demux_parse_meta_keys (maxBytes : Z) : M Z :=
  MP4_LOG_ERR_AND_RETURN_ERR_IF_FAILED (bool_decide (maxBytes >= 8))
    (- EINVAL);;;
  (* version & flags *)
  let* (_, boxReadBytes) := MP4_READ_32 0 in
  (* entry_count *)
  let* (val32, boxReadBytes) := MP4_READ_32 boxReadBytes in
  let count := ntohl val32 in
  modify (set_dm_metaMetadataCount count);;;
  MP4_LOG_ERR_AND_RETURN_ERR_IF_FAILED
    (bool_decide (maxBytes >= u32 (4 + u32 (count * 8)))) (- EINVAL);;;
  (* calloc *)
  modify (set_dm_metaMetadataKey (Some (replicate (Z.to_nat count) None)));;;
  modify (set_dm_metaMetadataValue (Some (replicate (Z.to_nat count) None)));;;
  let* boxReadBytes :=
    forM (Z.to_nat count) 0
      (fun i boxReadBytes =>
         (* key_size *)
         let* (val32, boxReadBytes) := MP4_READ_32 boxReadBytes in
         let keySize := ntohl val32 in
         MP4_LOG_ERR_AND_RETURN_ERR_IF_FAILED (bool_decide (keySize >= 8))
           (- EINVAL);;;
         let keySize := keySize - 8 in
         (* key_namespace *)
         let* (_, boxReadBytes) := MP4_READ_32 boxReadBytes in
         MP4_LOG_ERR_AND_RETURN_ERR_IF_FAILED
           (bool_decide (maxBytes - boxReadBytes >= keySize)) (- EINVAL);;;
         let* keys := gets dm_metaMetadataKey in
         let* keys' :=
           defined (aset keys i
                      (Some (replicate (Z.to_nat (keySize + 1)) 0))) in
         modify (set_dm_metaMetadataKey (Some keys'));;;
         let* key := read_value keySize in
         let* keys' := defined (aset (Some keys') i (Some key)) in
         modify (set_dm_metaMetadataKey (Some keys'));;;
         ret (boxReadBytes + keySize))
      boxReadBytes in
  MP4_SKIP boxReadBytes maxBytes.

Definition cover_type_of_class (clazz : Z) : mp4_metadata_cover_type :=
  if decide (clazz = MP4_METADATA_CLASS_PNG) then MP4_METADATA_COVER_TYPE_PNG
  else if decide (clazz = MP4_METADATA_CLASS_BMP)
  then MP4_METADATA_COVER_TYPE_BMP
  else MP4_METADATA_COVER_TYPE_JPEG.

(** The tags whose value [mp4_demux_parse_meta_data] keeps as a [udta]
    entry. *)
Definition is_udta_tag (tag : Z) : bool :=
  bool_decide (Z.land tag 0xFFFFFF ∈
    [MP4_METADATA_TAG_TYPE_ARTIST; MP4_METADATA_TAG_TYPE_TITLE;
     MP4_METADATA_TAG_TYPE_DATE; MP4_METADATA_TAG_TYPE_COMMENT;
     MP4_METADATA_TAG_TYPE_COPYRIGHT; MP4_METADATA_TAG_TYPE_MAKER;
     MP4_METADATA_TAG_TYPE_MODEL; MP4_METADATA_TAG_TYPE_VERSION;
     MP4_METADATA_TAG_TYPE_ENCODER]).

(** [!strcmp(a, b)] on two buffers. *)
Definition streq (a b : list Z) : bool :=
  bool_decide (cstring a = cstring b).

Definition mp4_demux_parse_meta_data (ancestors : list Z) (maxBytes : Z)
    : M Z :=
  MP4_LOG_ERR_AND_RETURN_ERR_IF_FAILED
    (bool_decide (is_Some (ancestors !! 0%nat))) (- EINVAL);;;
  (* parent->parent->box.type *)
  let* type := defined (ancestors !! 0%nat) in
  MP4_LOG_ERR_AND_RETURN_ERR_IF_FAILED (bool_decide (maxBytes >= 9))
    (- EINVAL);;;
  (* version & class *)
  let* (val32, boxReadBytes) := MP4_READ_32 0 in
  let clazz := Z.land (ntohl val32) 0xFF in
  (* reserved *)
  let* (_, boxReadBytes) := MP4_READ_32 boxReadBytes in
  let valueLen := u32 (maxBytes - boxReadBytes) in
  let* boxReadBytes :=
    (if decide (clazz = MP4_METADATA_CLASS_UTF8) then
       if is_udta_tag type then
         let* idx := gets dm_udtaMetadataParseIdx in
         modify (set_dm_udtaMetadataParseIdx (u32 (idx + 1)));;;
         let* keys := gets dm_udtaMetadataKey in
         let* keys' := defined (aset keys idx (Some (fourcc_string type))) in
         modify (set_dm_udtaMetadataKey (Some keys'));;;
         let* values := gets dm_udtaMetadataValue in
         let* values' :=
           defined (aset values idx
                      (Some (replicate (Z.to_nat (u32 (valueLen + 1))) 0))) in
         modify (set_dm_udtaMetadataValue (Some values'));;;
         let* value := read_value valueLen in
         let* values' := defined (aset (Some values') idx (Some value)) in
         modify (set_dm_udtaMetadataValue (Some values'));;;
         ret (boxReadBytes + valueLen)
       else
         let* count := gets dm_metaMetadataCount in
         if decide (type > 0 /\ type <= count) then
           let idx := type - 1 in
           let* values := gets dm_metaMetadataValue in
           let* values' :=
             defined (aset values idx
                        (Some (replicate (Z.to_nat (u32 (valueLen + 1))) 0))) in
           modify (set_dm_metaMetadataValue (Some values'));;;
           let* value := read_value valueLen in
           let* values' := defined (aset (Some values') idx (Some value)) in
           modify (set_dm_metaMetadataValue (Some values'));;;
           ret (boxReadBytes + valueLen)
         else ret boxReadBytes
     else if decide (clazz = MP4_METADATA_CLASS_JPEG
                     \/ clazz = MP4_METADATA_CLASS_PNG
                     \/ clazz = MP4_METADATA_CLASS_BMP) then
       (if decide (type = MP4_METADATA_TAG_TYPE_COVER) then
          let* offset := ftello in
          modify (set_dm_udtaCoverOffset offset);;;
          modify (set_dm_udtaCoverSize valueLen);;;
          modify (set_dm_udtaCoverType (cover_type_of_class clazz))
        else
          let* count := gets dm_metaMetadataCount in
          if decide (type > 0 /\ type <= count) then
            let* keys := gets dm_metaMetadataKey in
            let* key := defined (aget keys (type - 1)) in
            (* strcmp on a [NULL] key is undefined *)
            let* key := defined key in
            if streq key MP4_METADATA_KEY_COVER then
              let* offset := ftello in
              modify (set_dm_metaCoverOffset offset);;;
              modify (set_dm_metaCoverSize valueLen);;;
              modify (set_dm_metaCoverType (cover_type_of_class clazz))
            else ret tt
          else ret tt);;;
       ret boxReadBytes
     else ret boxReadBytes) in
  MP4_SKIP boxReadBytes maxBytes.

(** ** The box walker *)

(** [off_t _ret = handler(...);
     MP4_RETURN_ERR_IF_FAILED((_ret >= 0), (int)_ret);
     boxReadBytes += _ret;] *)
Definition add_ret (boxReadBytes : Z) (handler : M Z) : M Z :=
  let* _ret := handler in
  MP4_RETURN_ERR_IF_FAILED (bool_decide (_ret >= 0)) _ret;;;
  ret (boxReadBytes + _ret).

(** The [switch (box.type)] of [mp4_demux_parse_children], for a box of
    type [type] whose header of [boxReadBytes] bytes has been read:
    the value of [boxReadBytes] after the switch.  [parent] holds the types
    of the enclosing boxes, the nearest first, and [parse_children item
    maxBytes track] stands for the recursive call on the children of the
    box. *)
Definition parse_box (parse_children : list Z -> Z -> option nat -> M Z)
    (parent : list Z) (type : Z) (realBoxSize boxReadBytes : Z)
    (track : option nat) : M Z :=
  let item := type :: parent in
  let payload := off_t_sub realBoxSize boxReadBytes in
  if decide (type = MP4_UUID) then
    let* size := payload in
    MP4_LOG_ERR_AND_RETURN_ERR_IF_FAILED (bool_decide (u32 size >= 16))
      (- EINVAL);;;
    (* box extended type *)
    let* r := fread 16 in
    match r with
    | Some _ => ret (boxReadBytes + 16)
    | None => fail (- EIO)
    end
  else if decide (type ∈ [MP4_MOVIE_BOX; MP4_USER_DATA_BOX; MP4_MEDIA_BOX;
                          MP4_MEDIA_INFORMATION_BOX; MP4_DATA_INFORMATION_BOX;
                          MP4_SAMPLE_TABLE_BOX]) then
    let* size := payload in
    add_ret boxReadBytes (parse_children item size track)
  else if decide (type = MP4_FILE_TYPE_BOX) then
    let* size := payload in
    add_ret boxReadBytes (mp4_demux_parse_ftyp size)
  else if decide (type = MP4_MOVIE_HEADER_BOX) then
    let* size := payload in
    add_ret boxReadBytes (mp4_demux_parse_mvhd size)
  else if decide (type = MP4_TRACK_BOX) then
    (* keep the track in the list *)
    let* tk := gets (fun d => length (dm_tracks d)) in
    modify (fun d => set_dm_tracks (dm_tracks d ++ [mp4_track_zero]) d);;;
    modify (fun d => set_dm_trackCount (u32 (dm_trackCount d + 1)) d);;;
    let* size := payload in
    add_ret boxReadBytes (parse_children item size (Some tk))
  else if decide (type = MP4_TRACK_HEADER_BOX) then
    let* size := payload in
    add_ret boxReadBytes (mp4_demux_parse_tkhd size track)
  else if decide (type = MP4_TRACK_REFERENCE_BOX) then
    let* size := payload in
    add_ret boxReadBytes (mp4_demux_parse_tref size track)
  else if decide (type = MP4_HANDLER_REFERENCE_BOX) then
    let* size := payload in
    add_ret boxReadBytes (mp4_demux_parse_hdlr parent size track)
  else if decide (type = MP4_MEDIA_HEADER_BOX) then
    let* size := payload in
    add_ret boxReadBytes (mp4_demux_parse_mdhd size track)
  else if decide (type = MP4_VIDEO_MEDIA_HEADER_BOX) then
    let* size := payload in
    add_ret boxReadBytes (mp4_demux_parse_vmhd size)
  else if decide (type = MP4_SOUND_MEDIA_HEADER_BOX) then
    let* size := payload in
    add_ret boxReadBytes (mp4_demux_parse_smhd size)
  else if decide (type = MP4_HINT_MEDIA_HEADER_BOX) then
    let* size := payload in
    add_ret boxReadBytes (mp4_demux_parse_hmhd size)
  else if decide (type = MP4_NULL_MEDIA_HEADER_BOX) then
    let* size := payload in
    add_ret boxReadBytes (mp4_demux_parse_nmhd size)
  else if decide (type = MP4_SAMPLE_DESCRIPTION_BOX) then
    let* size := payload in
    add_ret boxReadBytes (mp4_demux_parse_stsd size track)
  else if decide (type = MP4_DECODING_TIME_TO_SAMPLE_BOX) then
    let* size := payload in
    add_ret boxReadBytes (mp4_demux_parse_stts size track)
  else if decide (type = MP4_SYNC_SAMPLE_BOX) then
    let* size := payload in
    add_ret boxReadBytes (mp4_demux_parse_stss size track)
  else if decide (type = MP4_SAMPLE_SIZE_BOX) then
    let* size := payload in
    add_ret boxReadBytes (mp4_demux_parse_stsz size track)
  else if decide (type = MP4_SAMPLE_TO_CHUNK_BOX) then
    let* size := payload in
    add_ret boxReadBytes (mp4_demux_parse_stsc size track)
  else if decide (type = MP4_CHUNK_OFFSET_BOX) then
    let* size := payload in
    add_ret boxReadBytes (mp4_demux_parse_stco size track)
  else if decide (type = MP4_CHUNK_OFFSET_64_BOX) then
    let* size := payload in
    add_ret boxReadBytes (mp4_demux_parse_co64 size track)
  else if decide (type = MP4_META_BOX) then
    if decide (parent !! 0%nat = Some MP4_USER_DATA_BOX) then
      let* size := payload in
      MP4_LOG_ERR_AND_RETURN_ERR_IF_FAILED (bool_decide (size >= 4))
        (- EINVAL);;;
      (* version & flags *)
      let* (_, boxReadBytes) := MP4_READ_32 boxReadBytes in
      let* size := off_t_sub realBoxSize boxReadBytes in
      add_ret boxReadBytes (parse_children item size track)
    else if decide (parent !! 0%nat = Some MP4_MOVIE_BOX) then
      let* size := payload in
      add_ret boxReadBytes (parse_children item size track)
    else ret boxReadBytes
  else if decide (type = MP4_ILST_BOX) then
    (if decide (parent !! 1%nat = Some MP4_USER_DATA_BOX) then
       let* size := payload in
       let* count := int_value (mp4_demux_count_ilst_sub_box size) in
       let count := u32 count in
       modify (set_dm_udtaMetadataCount count);;;
       if decide (count > 0) then
         (* calloc *)
         modify (set_dm_udtaMetadataKey
                   (Some (replicate (Z.to_nat count) None)));;;
         modify (set_dm_udtaMetadataValue
                   (Some (replicate (Z.to_nat count) None)));;;
         modify (set_dm_udtaMetadataParseIdx 0)
       else ret tt
     else ret tt);;;
    let* size := payload in
    add_ret boxReadBytes (parse_children item size track)
  else if decide (type = MP4_DATA_BOX) then
    let* size := payload in
    add_ret boxReadBytes (mp4_demux_parse_meta_data parent size)
  else if decide (type = MP4_LOCATION_BOX) then
    if decide (parent !! 0%nat = Some MP4_USER_DATA_BOX) then
      let* size := payload in
      add_ret boxReadBytes (mp4_demux_parse_xyz type size)
    else ret boxReadBytes
  else if decide (type = MP4_KEYS_BOX) then
    if decide (parent !! 0%nat = Some MP4_META_BOX) then
      let* size := payload in
      add_ret boxReadBytes (mp4_demux_parse_meta_keys size)
    else ret boxReadBytes
  else
    if decide (parent !! 0%nat = Some MP4_ILST_BOX) then
      let* size := payload in
      add_ret boxReadBytes (parse_children item size track)
    else ret boxReadBytes.

(** [mp4_demux_parse_children(demux, parent, maxBytes, track)], from the
    test of its loop on: [parentReadBytes] and [lastBox] are its local
    variables of these names.  [fuel] bounds the number of boxes visited. *)
Fixpoint mp4_demux_parse_children_from (fuel : nat) (parent : list Z)
    (maxBytes : Z) (track : option nat) (parentReadBytes : Z)
    (lastBox : bool) {struct fuel} : M Z :=
  let* eof := feof in
  if negb eof && negb lastBox && bool_decide (parentReadBytes + 8 < maxBytes)
  then
    match fuel with
    | O => fun _ => OutOfFuel
    | S fuel' =>
        (* box size *)
        let* (val32, boxReadBytes) := MP4_READ_32 0 in
        let size := ntohl val32 in
        (* box type *)
        let* (val32, boxReadBytes) := MP4_READ_32 boxReadBytes in
        let type := ntohl val32 in
        let* (lastBox, sizes) :=
          (if decide (size = 0) then
             (* box extends to end of file *)
             let* d := gets (fun d => d) in
             ret (true, (dm_fileSize d - dm_readBytes d, boxReadBytes))
           else if decide (size = 1) then
             MP4_LOG_ERR_AND_RETURN_ERR_IF_FAILED
               (bool_decide (maxBytes >= parentReadBytes + 16)) (- EINVAL);;;
             (* large size *)
             let* (largesize, boxReadBytes) := read_64 boxReadBytes in
             ret (lastBox, (s64 largesize, boxReadBytes))
           else ret (lastBox, (size, boxReadBytes))) in
        let '(realBoxSize, boxReadBytes) := sizes in
        let* parentEnd := off_t_add parentReadBytes realBoxSize in
        MP4_LOG_ERR_AND_RETURN_ERR_IF_FAILED
          (bool_decide (maxBytes >= parentEnd)) (- EINVAL);;;
        let* boxReadBytes :=
          parse_box
            (fun item maxBytes track =>
               mp4_demux_parse_children_from fuel' item maxBytes track 0 false)
            parent type realBoxSize boxReadBytes track in
        (* skip the rest of the box *)
        if decide (realBoxSize < boxReadBytes) then fail (- EIO)
        else
          let* r := fseeko_cur (realBoxSize - boxReadBytes) in
          match r with
          | Some _ => fail (- EIO)
          | None =>
              (* parentReadBytes += realBoxSize *)
              mp4_demux_parse_children_from fuel' parent maxBytes track
                parentEnd lastBox
          end
    end
  else ret parentReadBytes.

Definition mp4_demux_parse_children (fuel : nat) (parent : list Z)
    (maxBytes : Z) (track : option nat) : M Z :=
  mp4_demux_parse_children_from fuel parent maxBytes track 0 false.

(** ** mp4_demux_close

    What [mp4_demux_close] reads of the demuxer while it releases it.
    [fclose], [mp4_demux_free_children] and [mp4_demux_free_tracks]
    release the file, the boxes and the tracks.  The three loops that
    follow read [chaptersName[i]] for [i < chaptersCount], and the cells
    [i] of the key and value arrays of [udta] and of [meta] for [i] below
    their counts: this is undefined when an array is [NULL], or shorter
    than its count.  The release of the memory has no counterpart in the
    model, which returns the demuxer as it was; the test that [demux] is
    not [NULL] is left out, as for the query functions. *)
Definition close_strings (keys values : option (list (option (list Z))))
    (count : Z) : option unit :=
  for_opt (Z.to_nat count) 0
    (fun i _ => _ ← aget keys i; _ ← aget values i; Some tt) tt.

Definition mp4_demux_close : M unit :=
  let* d := gets (fun d => d) in
  defined (for_opt (Z.to_nat (dm_chaptersCount d)) 0
             (fun i _ => _ ← aget (Some (dm_chaptersName d)) i; Some tt) tt);;;
  defined (close_strings (dm_udtaMetadataKey d) (dm_udtaMetadataValue d)
             (dm_udtaMetadataCount d));;;
  defined (close_strings (dm_metaMetadataKey d) (dm_metaMetadataValue d)
             (dm_metaMetadataCount d)).

(** ** mp4_demux_open

    [mp4_demux_open] returns the demuxer ([Ok]) or [NULL] ([Err]).  When
    a step fails the code stores an error code in its local variable
    [err], calls [mp4_demux_close] on the demuxer and returns [NULL]:
    [err] is passed to [MP4_RETURN_VAL_IF_FAILED(1, err, NULL)] only,
    whose condition holds, so that no error code reaches the caller.
    The outcome [Err c d] of the model stands for the return of [NULL];
    [c] is the last value of [err] and [d] the demuxer that was closed.
    The file is given by its contents; that it can be opened is
    assumed. *)

(** A failure of [m] replaced by the failure [code]. *)
Definition or_fail (code : Z) {A : Type} (m : M A) : M A :=
  fun d =>
    match m d with
    | Err _ d' => Err code d'
    | r => r
    end.

Definition mp4_demux_open_from : M unit :=
  (* fseeko(file, 0, SEEK_END); fileSize = ftello(file);
     fseeko(file, 0, SEEK_SET) *)
  let* fileSize := gets (fun d => file_length (dm_file d)) in
  modify (set_dm_fileSize fileSize);;;
  let* retBytes :=
    or_fail (- EIO)
      (mp4_demux_parse_children (S (Z.to_nat fileSize)) [0] fileSize None) in
  modify (fun d => set_dm_readBytes (dm_readBytes d + retBytes) d);;;
  or_fail (- EIO) mp4_demux_build_tracks;;;
  or_fail (- EIO) mp4_demux_build_metadata.

(** The steps of [mp4_demux_open] and, when one has failed, the
    statements that follow its label [error]. *)
Definition mp4_demux_open (contents : list Z) : outcome unit :=
  match mp4_demux_open_from (mp4_demux_zero (Build_FILE contents 0 false))
  with
  | Err err d => (mp4_demux_close;;; fail err) d
  | r => r
  end.

(** ** The sample layout described by the specification

    These definitions follow the words of the specification, not the
    code; the theorems below compare them with what the code computes. *)

Definition sumZ (l : list Z) : Z := foldr Z.add 0 l.

(** The runs of chunks of a sample-to-chunk table, for a track of [total]
    chunks: "each entry covering chunks from its first_chunk up to the
    next entry's first_chunk, and the last entry covering all chunks
    through the total chunk count".  A run is a triple (first chunk,
    number of chunks, samples per chunk); chunks are numbered from 1. *)
Fixpoint stsc_runs (entries : list mp4_sample_to_chunk_entry) (total : Z)
    : list (Z * Z * Z) :=
  match entries with
  | [] => []
  | e :: rest =>
      let next :=
        match rest with
        | e' :: _ => firstChunk e'
        | [] => total + 1
        end in
      (firstChunk e, next - firstChunk e, samplesPerChunk e)
        :: stsc_runs rest total
  end.

(** The place of a sample: the number of its chunk, its rank in this
    chunk (from 0) and the number of samples of the chunk. *)
Definition chunk_places (s : Z) (c : Z) : list (Z * Z * Z) :=
  (fun k => (c, k, s)) <$> seqZ 0 s.

Definition run_places (run : Z * Z * Z) : list (Z * Z * Z) :=
  let '(first, n, s) := run in
  concat (chunk_places s <$> seqZ first n).

(** The places of the samples of a track, in the order of the samples:
    the expansion of the runs in order. *)
Definition sample_places (entries : list mp4_sample_to_chunk_entry)
    (total : Z) : list (Z * Z * Z) :=
  concat (run_places <$> stsc_runs entries total).

(** The sizes of the [k] samples that precede the sample [i] in its
    chunk, when [i] has rank [k]. *)
Definition preceding_sizes (sampleSize : list Z) (i : nat) (k : Z)
    : list Z :=
  take (Z.to_nat k) (drop (i - Z.to_nat k) sampleSize).

(** The offset that the specification gives to the sample [i] placed at
    rank [k] in the chunk [c]: "chunk_offset[chunk(i)] + the sum of
    sample_size[j] for the samples j preceding i within the same
    chunk", a 64-bit unsigned value. *)
Definition spec_sample_offset (chunkOffset sampleSize : list Z) (i : nat)
    (place : Z * Z * Z) : option Z :=
  let '(c, k, _) := place in
  if decide (1 <= c) then
    offset ← chunkOffset !! Z.to_nat (c - 1);
    Some (u64 (offset + sumZ (preceding_sizes sampleSize i k)))
  else None.

(** The end of the chunk of the sample [i]: the offset of the chunk plus
    the sizes of all its samples. *)
Definition spec_chunk_end (chunkOffset sampleSize : list Z) (i : nat)
    (place : Z * Z * Z) : option Z :=
  let '(c, k, s) := place in
  if decide (1 <= c) then
    offset ← chunkOffset !! Z.to_nat (c - 1);
    Some (offset + sumZ (take (Z.to_nat s)
                           (drop (i - Z.to_nat k) sampleSize)))
  else None.

(** The sample count obtained by expanding the sample-to-chunk table
    against the chunk count. *)
Definition spec_sample_count (entries : list mp4_sample_to_chunk_entry)
    (total : Z) : Z :=
  Z.of_nat (length (sample_places entries total)).


(** * Notions used by the proofs *)

(** ** Partial correctness in the demuxer monad *)

(** When [m] is run in a state that satisfies [P] and returns, its value
    and the state it leaves satisfy [Q]. *)
Definition hoare {A : Type} (P : mp4_demux -> Prop) (m : M A)
    (Q : A -> mp4_demux -> Prop) : Prop :=
  forall d a d', P d -> m d = Ok a d' -> Q a d'.

(** [m] preserves the invariant [P]. *)
Definition pres (P : mp4_demux -> Prop) {A : Type} (m : M A) : Prop :=
  hoare P m (fun _ => P).

(** Invariants that do not depend on the state of the byte source are
    preserved by all file operations. *)
Class FileIndep (P : mp4_demux -> Prop) : Prop :=
  file_indep : forall f d, P d -> P (set_dm_file f d).

(** The members of a track that the handlers of the sample tables
    assign, and nothing else does. *)
Definition tables (tk : mp4_track) :=
  (tk_sampleCount tk, tk_sampleSize tk,
   (tk_chunkCount tk, tk_chunkOffset tk),
   (tk_timeToSampleEntryCount tk, tk_timeToSampleEntries tk),
   (tk_sampleToChunkEntryCount tk, tk_sampleToChunkEntries tk),
   (tk_syncSampleEntryCount tk, tk_syncSampleEntries tk)).

(** Invariants that depend on the sample tables of the tracks only. *)
Class TablesInv (P : mp4_demux -> Prop) : Prop :=
  tables_inv : forall d d',
    tables <$> dm_tracks d = tables <$> dm_tracks d' -> P d -> P d'.

(** The members that are settled when [mp4_demux_build_tracks] is done
    with the sample tables of a track. *)
Definition derived (tk : mp4_track) :=
  (tables tk, tk_sampleOffset tk, tk_sampleDecodingTime tk, tk_timescale tk).

(** ** The expansion of the sample-to-chunk table *)

Definition olist {A : Type} (a : option (list A)) : list A := default [] a.

(** The samples placed so far by the loops that fill [sampleOffset]: [P]
    lists their places, [n] is the index of the next sample and [so] the
    array of [N] cells. *)
Definition placed (co ss : list Z) (P : list (Z * Z * Z)) (n : Z)
    (so : option (list Z)) (N : nat) : Prop :=
  n = Z.of_nat (length P) /\
  exists l, so = Some l /\ length l = N /\
    forall i place, P !! i = Some place ->
      l !! i = spec_sample_offset co ss i place /\ is_Some (l !! i).

Arguments run_places : simpl never.
Arguments chunk_places : simpl never.

(** A loop over the elements of a list, for a body that may run into
    undefined behaviour. *)
Fixpoint fold_opt {A S : Type} (step : A -> S -> option S) (l : list A)
    (s : S) : option S :=
  match l with
  | [] => Some s
  | x :: l' => s' ← step x s; fold_opt step l' s'
  end.

(** The runs that the loops of the code go through, from the state
    [(lastFirstChunk, lastSamplesPerChunk)]: one for each entry left and
    the one that follows the loop. *)
Fixpoint runs_from (lfc lspc : Z) (l : list mp4_sample_to_chunk_entry)
    (total : Z) : list (Z * Z * Z) :=
  match l with
  | [] => [(lfc, total + 1 - lfc, lspc)]
  | e :: rest =>
      (lfc, firstChunk e - lfc, lspc)
        :: runs_from (firstChunk e) (samplesPerChunk e) rest total
  end.

(** The number of iterations of the innermost loop, run by run. *)
Fixpoint count_runs (lfc lspc : Z) (l : list mp4_sample_to_chunk_entry)
    (total : Z) : Z :=
  match l with
  | [] => u32 (total + 1 - lfc) * lspc
  | e :: rest =>
      u32 (firstChunk e - lfc) * lspc
      + count_runs (firstChunk e) (samplesPerChunk e) rest total
  end.

(** The bodies of the two loops over [tk->sampleToChunkEntries], as
    functions of the entry. *)
Definition fill_step (chunkOffset sampleSize : option (list Z))
    (e : mp4_sample_to_chunk_entry) (st : Z * Z * (Z * Z * option (list Z)))
    : option (Z * Z * (Z * Z * option (list Z))) :=
  fs' ← fill_run chunkOffset sampleSize (u32 (firstChunk e - st.1.1))
          st.1.2 st.2;
  Some (firstChunk e, samplesPerChunk e, fs').

Definition count_step (e : mp4_sample_to_chunk_entry) (st : Z * Z * Z)
    : option (Z * Z * Z) :=
  Some (firstChunk e, samplesPerChunk e,
        u32 (st.2 + u32 (u32 (firstChunk e - st.1.1) * st.1.2))).

Definition stsc_entry_ok (e : mp4_sample_to_chunk_entry) : Prop :=
  0 <= firstChunk e < 2 ^ 32 /\ 0 <= samplesPerChunk e < 2 ^ 32.

(** What the handlers of the sample tables establish on a track. *)
Record wf_tables (tk : mp4_track) : Prop := Build_wf_tables {
  wf_chunkCount : 0 <= tk_chunkCount tk < 2 ^ 32;
  wf_chunkOffset :
    Z.of_nat (length (olist (tk_chunkOffset tk))) <= tk_chunkCount tk;
  wf_entries : Forall stsc_entry_ok (olist (tk_sampleToChunkEntries tk));
  wf_entryCount :
    tk_sampleToChunkEntryCount tk
    = Z.of_nat (length (olist (tk_sampleToChunkEntries tk)));
  wf_sizes : Forall (fun x => 0 <= x) (olist (tk_sampleSize tk));
  wf_offsets : Forall (fun x => 0 <= x) (olist (tk_chunkOffset tk));
  wf_sampleCount :
    tk_sampleCount tk = Z.of_nat (length (olist (tk_sampleSize tk)));
  wf_timeCount :
    tk_timeToSampleEntryCount tk
    = Z.of_nat (length (olist (tk_timeToSampleEntries tk)))
}.

(** What [mp4_demux_build_tracks] establishes on a track: the two checks
    of the sample count have passed and the two arrays are the ones that
    its loops fill. *)
Definition built (tk : mp4_track) : Prop :=
  stsc_sample_count tk = Some (tk_sampleCount tk)
  /\ fill_sample_offsets tk
       (Some (replicate (Z.to_nat (tk_sampleCount tk)) 0))
     = Some (tk_sampleOffset tk)
  /\ stts_sample_count tk = Some (tk_sampleCount tk)
  /\ fill_decoding_times tk
       (Some (replicate (Z.to_nat (tk_sampleCount tk)) 0))
     = Some (tk_sampleDecodingTime tk).

(** Invariants that depend on the tables and the two arrays only. *)
Class DerivedInv (P : mp4_demux -> Prop) : Prop :=
  derived_inv : forall d d',
    derived <$> dm_tracks d = derived <$> dm_tracks d' -> P d -> P d'.

(** The sum of the sample counts of the time-to-sample table. *)
Definition spec_stts_count (entries : list mp4_time_to_sample_entry) : Z :=
  sumZ (sampleCount <$> entries).

(** The state in which [mp4_demux_open] calls
    [mp4_demux_build_tracks]. *)
Definition parsed (contents : list Z) : mp4_demux :=
  let f := Build_FILE contents 0 false in
  match mp4_demux_parse_children (S (Z.to_nat (file_length f))) [0]
          (file_length f) None
          (set_dm_fileSize (file_length f) (mp4_demux_zero f)) with
  | Ok n d => set_dm_readBytes (dm_readBytes d + n) d
  | _ => mp4_demux_zero f
  end.

(** ** Covers *)

(** The three members that describe each cover. *)
Definition meta_cover (d : mp4_demux) :=
  (dm_metaCoverOffset d, dm_metaCoverSize d, dm_metaCoverType d).
Definition udta_cover (d : mp4_demux) :=
  (dm_udtaCoverOffset d, dm_udtaCoverSize d, dm_udtaCoverType d).
Definition final_cover (d : mp4_demux) :=
  (dm_finalCoverOffset d, dm_finalCoverSize d, dm_finalCoverType d).


(** ** Computations that touch the byte source only *)

Definition file_only {A : Type} (m : M A) : Prop :=
  forall d,
    match m d with
    | Ok _ d' | Err _ d' => exists f, d' = set_dm_file f d
    | _ => True
    end.

(** ** The handlers of the sample tables *)

(** The state of the tracks [T] after a handler has set the count [n] by
    [setc] and filled, by [set], a table of [n] cells that satisfy [ok]
    for the track [h]. *)
Definition installed {A : Type}
    (set : option (list A) -> mp4_track -> mp4_track)
    (setc : Z -> mp4_track -> mp4_track) (ok : A -> Prop)
    (T : list mp4_track) (h : nat) (tk : mp4_track) (n : Z)
    (d : mp4_demux) : Prop :=
  exists l, dm_tracks d = <[h := set (Some l) (setc n tk)]> T
            /\ length l = Z.to_nat n /\ Forall ok l.

(** What a handler of a sample table does to the tracks [T] when it
    returns: the track it is given had no such table, and now has it. *)
Definition table_installed {A : Type} (get : mp4_track -> option (list A))
    (set : option (list A) -> mp4_track -> mp4_track)
    (setc : Z -> mp4_track -> mp4_track) (ok : A -> Prop)
    (T : list mp4_track) (track : option nat) (d : mp4_demux) : Prop :=
  exists h tk n,
    track = Some h /\ T !! h = Some tk /\ get tk = None
    /\ 0 <= n < 2 ^ 32 /\ installed set setc ok T h tk n d.

(** A table that is set and its count are the same in [tk'] as in
    [tk]. *)
Definition kept {A : Type} (get : mp4_track -> option (list A))
    (getc : mp4_track -> Z) (tk tk' : mp4_track) : Prop :=
  get tk <> None -> get tk' = get tk /\ getc tk' = getc tk.

Definition frozen (tk tk' : mp4_track) : Prop :=
  kept tk_timeToSampleEntries tk_timeToSampleEntryCount tk tk'
  /\ kept tk_syncSampleEntries tk_syncSampleEntryCount tk tk'
  /\ kept tk_sampleSize tk_sampleCount tk tk'
  /\ kept tk_sampleToChunkEntries tk_sampleToChunkEntryCount tk tk'
  /\ kept tk_chunkOffset tk_chunkCount tk tk'.

(** The tracks [T] are still there in [d], with the tables they had. *)
Definition frozen_from (T : list mp4_track) (d : mp4_demux) : Prop :=
  forall h tk, T !! h = Some tk ->
    exists tk', dm_tracks d !! h = Some tk' /\ frozen tk tk'.

Definition wf_all (d : mp4_demux) : Prop := Forall wf_tables (dm_tracks d).

(** The invariant of the loop over the tracks in
    [mp4_demux_build_tracks]: the tables are those of the tracks [T], and
    the tracks from [n] on are built. *)
Definition built_from (T : list mp4_track) (n : nat) (d : mp4_demux)
    : Prop :=
  tables <$> dm_tracks d = tables <$> T
  /\ forall h tk, (n <= h)%nat -> dm_tracks d !! h = Some tk -> built tk.

(** ** The statements about the sample arrays *)

(** C1 for one track: the array [sampleOffset] has one cell for each
    sample of the expansion of the sample-to-chunk table, and the cell of
    a sample holds the offset that the specification gives to it. *)
Definition offsets_follow_chunks (tk : mp4_track) : Prop :=
  exists offsets,
    tk_sampleOffset tk = Some offsets
    /\ Z.of_nat (length offsets) = tk_sampleCount tk
    /\ tk_sampleCount tk
       = spec_sample_count (olist (tk_sampleToChunkEntries tk))
           (tk_chunkCount tk)
    /\ forall i place,
         sample_places (olist (tk_sampleToChunkEntries tk))
           (tk_chunkCount tk) !! i = Some place ->
         offsets !! i
         = spec_sample_offset (olist (tk_chunkOffset tk))
             (olist (tk_sampleSize tk)) i place
         /\ is_Some (offsets !! i).

(** The first track of a demuxer. *)
Definition first_track (d : mp4_demux) : mp4_track :=
  default mp4_track_zero (dm_tracks d !! 0%nat).

(** In a list of places, the rank of a sample in its chunk is below the
    number of samples of the chunk and not above its index. *)
Definition rank_ok (P : list (Z * Z * Z)) : Prop :=
  forall i c k s, P !! i = Some (c, k, s) ->
    0 <= k < s /\ (Z.to_nat k <= i)%nat.

(** ** Boxes of the sample tables *)

(** The track [tk] already holds the table that a box of type [type]
    fills. *)
Definition box_table_set (type : Z) (tk : mp4_track) : Prop :=
  (type = MP4_DECODING_TIME_TO_SAMPLE_BOX
   /\ tk_timeToSampleEntries tk <> None)
  \/ (type = MP4_SYNC_SAMPLE_BOX /\ tk_syncSampleEntries tk <> None)
  \/ (type = MP4_SAMPLE_SIZE_BOX /\ tk_sampleSize tk <> None)
  \/ (type = MP4_SAMPLE_TO_CHUNK_BOX /\ tk_sampleToChunkEntries tk <> None)
  \/ (type = MP4_CHUNK_OFFSET_BOX /\ tk_chunkOffset tk <> None)
  \/ (type = MP4_CHUNK_OFFSET_64_BOX /\ tk_chunkOffset tk <> None).

(** ** Error codes *)

(** The error codes that [m] can return satisfy [S]. *)
Definition errs {A : Type} (S : Z -> Prop) (m : M A) : Prop :=
  forall d c d', m d = Err c d' -> S c.

(** One of the two checks of [mp4_demux_build_tracks] fails for the
    track: the count of the sample-to-chunk table or the count of the
    time-to-sample table, as the code computes them, is not the sample
    count. *)
Definition count_mismatch (tk : mp4_track) : Prop :=
  (exists sc, stsc_sample_count tk = Some sc /\ sc <> tk_sampleCount tk)
  \/ (exists sc, stts_sample_count tk = Some sc /\ sc <> tk_sampleCount tk).

(** ** The budget of the box walker *)

(** The byte source of [d'] is that of [d], read further. *)
Definition file_le (d d' : mp4_demux) : Prop :=
  f_bytes (dm_file d') = f_bytes (dm_file d)
  /\ f_pos (dm_file d) <= f_pos (dm_file d').

(** The bytes that are left to read. *)
Definition bytes_left (d : mp4_demux) : Z :=
  file_length (dm_file d) - f_pos (dm_file d).

(** Run with fewer than [F] bytes left, [m] does not run out of fuel,
    and it moves forward in the file. *)
Definition walks {A : Type} (F : Z) (m : M A) : Prop :=
  forall d, 0 <= f_pos (dm_file d) -> bytes_left d < F ->
    match m d with
    | Ok _ d' | Err _ d' => file_le d d'
    | Undef => True
    | OutOfFuel => False
    end.

(** [m] has no recursion budget to use up. *)
Definition fueled {A : Type} (m : M A) : Prop :=
  forall d, m d <> OutOfFuel.

(** ** Example files

    Boxes are built from their payload; all integers of the format are
    big-endian. *)

Definition be16 (n : Z) : list Z := [n / 2 ^ 8 mod 256; n mod 256].

Definition be32 (n : Z) : list Z :=
  [n / 2 ^ 24 mod 256; n / 2 ^ 16 mod 256; n / 2 ^ 8 mod 256; n mod 256].

Definition words (l : list Z) : list Z := concat (be32 <$> l).

Definition box (type : Z) (payload : list Z) : list Z :=
  be32 (8 + Z.of_nat (length payload)) ++ be32 type ++ payload.

Definition MP4_MEDIA_DATA_BOX : Z := 0x6d646174.

Definition ex_ftyp : list Z := box MP4_FILE_TYPE_BOX (words [1; 2; 3]).

(** [mvhd], version 0: creation and modification times 1000 s and 2000 s
    after the Unix epoch, timescale 1000, duration 5000. *)
Definition ex_mvhd : list Z :=
  box MP4_MOVIE_HEADER_BOX
    (words ([0; MP4_MAC_TO_UNIX_EPOCH_OFFSET + 1000;
             MP4_MAC_TO_UNIX_EPOCH_OFFSET + 2000; 1000; 5000]
            ++ replicate 20 0)).

Definition ex_tkhd (id : Z) : list Z :=
  box MP4_TRACK_HEADER_BOX (words ([0; 0; 0; id; 0; 5000] ++ replicate 15 0)).

Definition ex_mdhd : list Z :=
  box MP4_MEDIA_HEADER_BOX (words [0; 0; 0; 90000; 9000; 0]).

Definition ex_hdlr (handler : Z) : list Z :=
  box MP4_HANDLER_REFERENCE_BOX (words [0; 0; handler; 0; 0; 0] ++ [65; 0]).

(** A track: [extra] goes between [tkhd] and [mdia] (a [tref] box),
    [stbl] is the content of the sample table box. *)
Definition ex_trak (id handler : Z) (extra stbl : list Z) : list Z :=
  box MP4_TRACK_BOX
    (ex_tkhd id ++ extra
     ++ box MP4_MEDIA_BOX
          (ex_mdhd ++ ex_hdlr handler
           ++ box MP4_MEDIA_INFORMATION_BOX (box MP4_SAMPLE_TABLE_BOX stbl))).

Definition ex_stts (entries : list (Z * Z)) : list Z :=
  box MP4_DECODING_TIME_TO_SAMPLE_BOX
    (words ([0; Z.of_nat (length entries)]
            ++ concat ((fun e => [e.1; e.2]) <$> entries))).

Definition ex_stsz (sizes : list Z) : list Z :=
  box MP4_SAMPLE_SIZE_BOX (words ([0; 0; Z.of_nat (length sizes)] ++ sizes)).

Definition ex_stsc (entries : list (Z * Z)) : list Z :=
  box MP4_SAMPLE_TO_CHUNK_BOX
    (words ([0; Z.of_nat (length entries)]
            ++ concat ((fun e => [e.1; e.2; 1]) <$> entries))).

Definition ex_stco (offsets : list Z) : list Z :=
  box MP4_CHUNK_OFFSET_BOX (words ([0; Z.of_nat (length offsets)] ++ offsets)).

(** A movie made of the tracks [traks], followed by [data] in an [mdat]
    box. *)
Definition ex_movie (traks data : list Z) : list Z :=
  ex_ftyp ++ box MP4_MOVIE_BOX (ex_mvhd ++ traks)
  ++ box MP4_MEDIA_DATA_BOX data.

(** One audio track of id 7 with three samples of 10, 20 and 30 bytes in
    one chunk at [offset], 3000 ticks apart. *)
Definition ex_audio_at (stts : list (Z * Z)) (offset : Z) : list Z :=
  ex_movie
    (ex_trak 7 MP4_HANDLER_TYPE_AUDIO []
       (ex_stts stts ++ ex_stsz [10; 20; 30] ++ ex_stsc [(1, 3)]
        ++ ex_stco [offset]))
    (replicate 100 7).

Definition ex_audio : list Z := ex_audio_at [(3, 3000)] 400.

(** The same file with a chunk offset that lies beyond its end. *)
Definition ex_audio_beyond : list Z := ex_audio_at [(3, 3000)] 4000.

(** The same file with a second [stts] box in the sample table. *)
Definition ex_audio_two_stts : list Z :=
  ex_movie
    (ex_trak 7 MP4_HANDLER_TYPE_AUDIO []
       (ex_stts [(3, 3000)] ++ ex_stts [(3, 3000)] ++ ex_stsz [10; 20; 30]
        ++ ex_stsc [(1, 3)] ++ ex_stco [400]))
    (replicate 100 7).

(** Example B of the specification: "stsc=[(1,3,1),(5,2,1)], stco has 6
    chunks, stsz uniform 1000, ... sample_count expected 16; mismatched
    stsz.sample_count=15". *)
Definition ex_mismatch : list Z :=
  ex_movie
    (ex_trak 1 MP4_HANDLER_TYPE_VIDEO []
       (ex_stts [(15, 3000)]
        ++ box MP4_SAMPLE_SIZE_BOX (words [0; 1000; 15])
        ++ ex_stsc [(1, 3); (5, 2)]
        ++ ex_stco [1000; 4000; 7000; 10000; 13000; 15000]))
    [].

(** An audio track that refers to a text track of [n] chapters; every
    sample of the text track is a name of one character.  [offset] is the
    place of the first name in the file. *)
Definition ex_chapters_head (n offset : Z) : list Z :=
  ex_ftyp
  ++ box MP4_MOVIE_BOX
       (ex_mvhd
        ++ ex_trak 1 MP4_HANDLER_TYPE_AUDIO
             (box MP4_TRACK_REFERENCE_BOX
                (words [12; MP4_REFERENCE_TYPE_CHAPTERS; 2]))
             (ex_stts [(3, 3000)] ++ ex_stsz [10; 20; 30] ++ ex_stsc [(1, 3)]
              ++ ex_stco [0])
        ++ ex_trak 2 MP4_HANDLER_TYPE_TEXT []
             (ex_stts [(n, 90000)]
              ++ box MP4_SAMPLE_SIZE_BOX (words [0; 3; n])
              ++ ex_stsc [(1, n)] ++ ex_stco [offset])).

Definition ex_chapters (n : Z) : list Z :=
  let offset := Z.of_nat (length (ex_chapters_head n 0)) + 8 in
  ex_chapters_head n offset
  ++ box MP4_MEDIA_DATA_BOX (concat (replicate (Z.to_nat n) [0; 1; 65])).

(** A movie without tracks that holds a cover of 5 bytes in [udta] and a
    cover of 7 bytes under the key "com.apple.quicktime.artwork" in
    [meta]. *)
Definition ex_data (clazz : Z) (value : list Z) : list Z :=
  box MP4_DATA_BOX (words [clazz; 0] ++ value).

Definition ex_udta_cover : list Z :=
  box MP4_USER_DATA_BOX
    (box MP4_META_BOX
       (words [0]
        ++ box MP4_ILST_BOX
             (box MP4_METADATA_TAG_TYPE_COVER
                (ex_data MP4_METADATA_CLASS_PNG [1; 2; 3; 4; 5])))).

Definition ex_meta_cover : list Z :=
  let key := cstring MP4_METADATA_KEY_COVER in
  box MP4_META_BOX
    (box MP4_KEYS_BOX
       (words [0; 1; 8 + Z.of_nat (length key); 0x6d647461] ++ key)
     ++ box MP4_ILST_BOX
          (box 1 (ex_data MP4_METADATA_CLASS_JPEG [1; 2; 3; 4; 5; 6; 7]))).

Definition ex_covers (udta meta : bool) : list Z :=
  ex_ftyp
  ++ box MP4_MOVIE_BOX
       (ex_mvhd ++ (if udta then ex_udta_cover else [])
        ++ (if meta then ex_meta_cover else [])).

(** The demuxer that [mp4_demux_open] returns for a file; the zeroed
    demuxer stands for [NULL]. *)
Definition opened (contents : list Z) : mp4_demux :=
  match mp4_demux_open contents with
  | Ok _ d => d
  | _ => mp4_demux_zero (Build_FILE contents 0 false)
  end.

(** ** mp4_demux_is_sync_sample *)

(** Conversion of a 32-bit unsigned value to [int]: the value of the
    same bit pattern in two's complement (the conversion of a value above
    [INT_MAX] is implementation-defined; this is what gcc and clang
    do). *)
Definition s32 (x : Z) : Z := (x + 2 ^ 31) mod 2 ^ 32 - 2 ^ 31.

(** [if ((prevSyncSampleIdx) && (i > 0))
       *prevSyncSampleIdx = track->syncSampleEntries[i - 1] - 1;]
    [prev] is the value of [*prevSyncSampleIdx], [None] when the pointer
    is [NULL]. *)
Definition set_prev_sync (entries : option (list Z)) (i : Z)
    (prev : option Z) : option (option Z) :=
  match prev with
  | Some _ =>
      if decide (i > 0) then
        e ← aget entries (i - 1);
        Some (Some (s32 (u32 (e - 1))))
      else Some prev
  | None => Some None
  end.

(** The loop of [mp4_demux_is_sync_sample] from the index [i] on, with
    [n] entries left, and what follows it: the value returned and the
    value of [*prevSyncSampleIdx]. *)
Fixpoint is_sync_loop (entries : option (list Z)) (sampleIdx : Z)
    (prev : option Z) (n : nat) (i : Z) : option (Z * option Z) :=
  match n with
  | O => prev' ← set_prev_sync entries i prev; Some (0, prev')
  | S n' =>
      e ← aget entries i;
      if decide (u32 (e - 1) = sampleIdx) then Some (1, prev)
      else if decide (u32 (e - 1) > sampleIdx) then
        prev' ← set_prev_sync entries i prev; Some (0, prev')
      else is_sync_loop entries sampleIdx prev n' (i + 1)
  end.

Definition mp4_demux_is_sync_sample (track : mp4_track) (sampleIdx : Z)
    (prevSyncSampleIdx : option Z) : option (Z * option Z) :=
  match tk_syncSampleEntries track with
  | None => Some (1, prevSyncSampleIdx)
  | Some _ =>
      is_sync_loop (tk_syncSampleEntries track) sampleIdx prevSyncSampleIdx
        (Z.to_nat (tk_syncSampleEntryCount track)) 0
  end.

(** ** mp4_demux_seek *)

(** [ts = (time_offset * tk->timescale + 500000) / 1000000], in 64-bit
    unsigned arithmetic. *)
Definition seek_ts (time_offset timescale : Z) : Z :=
  u64 (u64 (time_offset * timescale) + 500000) / 1000000.

(** The value of [start] when the loop [while] is entered: the estimate
    [(sampleCount * ts + duration - 1) / duration] converted to
    [unsigned int] and then to [int], and the two tests that follow.
    The division by a zero duration is undefined. *)
Definition seek_start (tk : mp4_track) (ts : Z) : option Z :=
  if decide (tk_duration tk = 0) then None
  else
    let start :=
      s32 (u32 (u64 (u64 (u64 (tk_sampleCount tk * ts) + tk_duration tk) - 1)
                / tk_duration tk)) in
    let start := if decide (start < 0) then 0 else start in
    Some (if decide (u32 start >= tk_sampleCount tk)
          then s32 (u32 (tk_sampleCount tk - 1)) else start).

(** [while (((unsigned)start < tk->sampleCount)
           && (tk->sampleDecodingTime[start] < ts)) start++;]
    [n] bounds the number of iterations: the loop is entered with
    [n = tk->sampleCount], which [start] cannot exceed.  [start++] is
    undefined for [INT_MAX]. *)
Fixpoint seek_forward (times : option (list Z)) (ts sampleCount : Z)
    (n : nat) (start : Z) : option Z :=
  match n with
  | O => Some start
  | S n' =>
      if decide (u32 start < sampleCount) then
        t ← aget times start;
        if decide (t < ts) then
          if decide (start + 1 < 2 ^ 31)
          then seek_forward times ts sampleCount n' (start + 1)
          else None
        else Some start
      else Some start
  end.

(** [for (i = start; i >= 0; i--)], entered with [start = k - 1]: the
    new value of [start] when [found] is set. *)
Fixpoint seek_backward (tk : mp4_track) (ts : Z) (sync : bool) (k : nat)
    : option (option Z) :=
  match k with
  | O => Some None
  | S k' =>
      let i := Z.of_nat k' in
      t ← aget (tk_sampleDecodingTime tk) i;
      if decide (t <= ts) then
        r ← mp4_demux_is_sync_sample tk i (Some (-1));
        let isSync := r.1 in
        let prevSync := default (-1) r.2 in
        if bool_decide (isSync <> 0) || negb sync then Some (Some i)
        else if decide (prevSync >= 0) then Some (Some prevSync)
        else seek_backward tk ts sync k'
      else seek_backward tk ts sync k'
  end.

(** One iteration of the loop over the tracks.  [MP4_LOGI] is defined
    in mp4_log.h, which is not part of the sources at hand; [logs] tells
    whether it evaluates its arguments, one of which reads
    [tk->sampleDecodingTime[start]] and divides by [tk->timescale]. *)
Definition seek_track (logs : bool) (time_offset : Z) (sync : bool)
    (h : nat) : M unit :=
  let* tk := get_track h in
  if decide (tk_type tk = MP4_TRACK_TYPE_CHAPTERS) then ret tt
  else if decide (tk_type tk = MP4_TRACK_TYPE_METADATA /\ tk_ref tk <> None)
  then ret tt
  else
    let ts := seek_ts time_offset (tk_timescale tk) in
    let* start := defined (seek_start tk ts) in
    let* start :=
      defined (seek_forward (tk_sampleDecodingTime tk) ts (tk_sampleCount tk)
                 (Z.to_nat (tk_sampleCount tk)) start) in
    let* found := defined (seek_backward tk ts sync (Z.to_nat (start + 1))) in
    match found with
    | Some start =>
        upd_track h (set_tk_currentSample (u32 start));;;
        (if logs then
           let* dts := defined (aget (tk_sampleDecodingTime tk) start) in
           let* _ := defined (ticks_to_us dts (tk_timescale tk)) in
           ret tt
         else ret tt);;;
        match tk_metadata tk with
        | Some hm =>
            let* metatk := get_track hm in
            if decide (u32 start < tk_sampleCount metatk) then
              let* dts := defined (aget (tk_sampleDecodingTime tk) start) in
              let* mdts :=
                defined (aget (tk_sampleDecodingTime metatk) start) in
              if decide (dts = mdts)
              then upd_track hm (set_tk_currentSample (u32 start))
              else ret tt
            else ret tt
        | None => ret tt
        end
    | None => MP4_LOG_ERR_AND_RETURN_ERR_IF_FAILED true (- ENOENT)
    end.

(** [for (tk = demux->track; tk; tk = tk->next)], started at the track
    of index [n - 1]. *)
Fixpoint seek_loop (logs : bool) (time_offset : Z) (sync : bool) (n : nat)
    : M unit :=
  match n with
  | O => ret tt
  | S h =>
      seek_track logs time_offset sync h;;;
      seek_loop logs time_offset sync h
  end.

Definition mp4_demux_seek (logs : bool) (time_offset : Z) (sync : bool)
    : M unit :=
  let* n := gets (fun d => length (dm_tracks d)) in
  seek_loop logs time_offset sync n.

(** ** mp4_demux_get_track_avc_decoder_config

    [out] holds the values of [( *sps, *sps_size)] and
    [( *pps, *pps_size)] when the function is called; the value returned
    holds them when it returns.  The buffers are those of the track, not
    copies. *)
Definition mp4_demux_get_track_avc_decoder_config (track_id : Z)
    (out : (option (list Z) * Z) * (option (list Z) * Z))
    : M ((option (list Z) * Z) * (option (list Z) * Z)) :=
  let* found := gets (fun d => find_track d track_id) in
  match found with
  | Some _ => ret tt
  | None => MP4_LOG_ERR_AND_RETURN_ERR_IF_FAILED true (- ENOENT)
  end;;;
  (* [tk] is [NULL] here when no track was found *)
  let* h := defined found in
  let* tk := get_track h in
  ret (match tk_videoSps tk with
       | Some _ => (tk_videoSps tk, tk_videoSpsSize tk)
       | None => out.1
       end,
       match tk_videoPps tk with
       | Some _ => (tk_videoPps tk, tk_videoPpsSize tk)
       | None => out.2
       end).

(** ** Notions used by the properties of the query functions *)

(** The call returned an error code. *)
Definition failed {A : Type} (r : outcome A) : bool :=
  match r with Err _ _ => true | _ => false end.

(** The call used up the recursion budget of the model. *)
Definition out_of_fuel {A : Type} (r : outcome A) : bool :=
  match r with OutOfFuel => true | _ => false end.

(** The decoding times do not decrease from one sample to the next. *)
Definition times_sorted (times : list Z) : Prop := StronglySorted Z.le times.

(** The track that [mp4_demux_seek] does not skip. *)
Definition seekable (tk : mp4_track) : Prop :=
  tk_type tk <> MP4_TRACK_TYPE_CHAPTERS
  /\ ~ (tk_type tk = MP4_TRACK_TYPE_METADATA /\ tk_ref tk <> None).

(** The sync sample table lists sample numbers (from 1) in increasing
    order. *)
Definition stss_sorted (entries : list Z) : Prop :=
  Forall (fun e => 1 <= e <= 2 ^ 31) entries /\ StronglySorted Z.lt entries.

(** The index of the last sync sample below the sample [idx], or [p]
    when there is none. *)
Definition sync_before (entries : list Z) (idx p : Z) : Z :=
  match list.last (filter (fun e => e - 1 < idx) entries) with
  | Some e => e - 1
  | None => p
  end.

(** The sync sample table of the track has as many cells as its count
    tells. *)
Definition stss_complete (tk : mp4_track) : Prop :=
  match tk_syncSampleEntries tk with
  | Some entries =>
      tk_syncSampleEntryCount tk = Z.of_nat (length entries)
  | None => True
  end.

(** The samples found by [mp4_demux_seek] in a sync sample table: the
    last entry whose sample is not after the sample [c0]. *)
Definition sync_at (entries : list Z) (c0 : Z) : option Z :=
  list.last (filter (fun e => e - 1 <= c0) entries).

(** A video track of four samples, 3000 ticks apart, the first and the
    third of which are sync samples. *)
Definition ex_stss (entries : list Z) : list Z :=
  box MP4_SYNC_SAMPLE_BOX (words ([0; Z.of_nat (length entries)] ++ entries)).

Definition ex_sync_with (entries : list Z) : list Z :=
  ex_movie
    (ex_trak 1 MP4_HANDLER_TYPE_VIDEO []
       (ex_stts [(4, 3000)] ++ ex_stsz [10; 20; 30; 40] ++ ex_stsc [(1, 4)]
        ++ ex_stco [400] ++ ex_stss entries))
    (replicate 100 7).

Definition ex_sync : list Z := ex_sync_with [1; 3].

(** A video track whose sample description holds an [avcC] box with one
    SPS of 3 bytes and one PPS of 2 bytes. *)
Definition ex_avcc : list Z :=
  [1; 66; 0; 30] ++ [255; 225] ++ be16 3 ++ [103; 1; 2]
  ++ [1] ++ be16 2 ++ [104; 3].

Definition ex_stsd_video : list Z :=
  box MP4_SAMPLE_DESCRIPTION_BOX
    (words [0; 1] ++ words (replicate 8 0) ++ be32 (640 * 65536 + 480)
     ++ words [0; 0; 0] ++ be16 1 ++ replicate 32 0 ++ words [0; 0]
     ++ be32 MP4_AVC_DECODER_CONFIG_BOX ++ ex_avcc).

Definition ex_avc : list Z :=
  ex_movie
    (ex_trak 1 MP4_HANDLER_TYPE_VIDEO []
       (ex_stsd_video ++ ex_stts [(3, 3000)] ++ ex_stsz [10; 20; 30]
        ++ ex_stsc [(1, 3)] ++ ex_stco [400]))
    (replicate 100 7).

(** ** The time-to-sample table *)

Definition stts_entry_ok (e : mp4_time_to_sample_entry) : Prop :=
  0 <= sampleCount e < 2 ^ 32 /\ 0 <= sampleDelta e < 2 ^ 32.

(** What the handlers of the [stts] and [stss] boxes establish on a
    track. *)
Record wf_times (tk : mp4_track) : Prop := Build_wf_times {
  wt_entries : Forall stts_entry_ok (olist (tk_timeToSampleEntries tk));
  wt_sync :
    Forall (fun e => 0 <= e < 2 ^ 32) (olist (tk_syncSampleEntries tk));
  wt_syncCount :
    tk_syncSampleEntryCount tk
    = Z.of_nat (length (olist (tk_syncSampleEntries tk)))
}.

Definition wf_times_all (d : mp4_demux) : Prop :=
  Forall wf_times (dm_tracks d).

(** The deltas of the samples, in the order of the samples: every entry
    of the time-to-sample table gives its delta to [sampleCount]
    samples. *)
Definition stts_deltas (entries : list mp4_time_to_sample_entry) : list Z :=
  concat ((fun e => replicate (Z.to_nat (sampleCount e)) (sampleDelta e))
            <$> entries).

(** The samples timed so far by the loops that fill
    [sampleDecodingTime]: [D] lists their deltas, [k] is the index of the
    next sample, [ts] its decoding time and [arr] the array of [N]
    cells. *)
Definition timed (D : list Z) (k ts : Z) (arr : option (list Z)) (N : nat)
    : Prop :=
  k = Z.of_nat (length D) /\ ts = u64 (sumZ D)
  /\ exists l, arr = Some l /\ length l = N
       /\ forall i, (i < length D)%nat ->
            l !! i = Some (u64 (sumZ (take i D))).

(** The array [sampleDecodingTime] of a track has one cell for each
    sample, and the cell of a sample holds the sum of the deltas of the
    samples before it, as a 64-bit unsigned value. *)
Definition times_follow_stts (tk : mp4_track) : Prop :=
  exists times,
    tk_sampleDecodingTime tk = Some times
    /\ Z.of_nat (length times) = tk_sampleCount tk
    /\ length (stts_deltas (olist (tk_timeToSampleEntries tk)))
       = length times
    /\ forall i, (i < length times)%nat ->
         times !! i
         = Some (u64 (sumZ (take i (stts_deltas
                                      (olist (tk_timeToSampleEntries tk)))))).

(** ** The consolidated metadata *)

(** An entry (key, value) of a pair of arrays of strings is kept when
    neither pointer is [NULL] and neither string is empty. *)
Definition entry_set (kv : option (list Z) * option (list Z)) : bool :=
  match kv.2, kv.1 with
  | Some vbuf, Some kbuf =>
      bool_decide (strlen vbuf > 0) && bool_decide (strlen kbuf > 0)
  | _, _ => false
  end.

(** The entries [i, i + n) of a pair of arrays of strings. *)
Definition metadata_pairs (keys values : option (list (option (list Z))))
    (i n : nat) : list (option (list Z) * option (list Z)) :=
  (fun j => (mjoin (olist keys !! j), mjoin (olist values !! j)))
    <$> seq i n.

(** Those of them that are kept. *)
Definition selected (keys values : option (list (option (list Z))))
    (i n : nat) : list (option (list Z) * option (list Z)) :=
  filter (fun kv => entry_set kv = true) (metadata_pairs keys values i n).

(** The entries that [mp4_demux_build_metadata] keeps: those of [meta],
    then those of [udta], then the location. *)
Definition final_entries (d : mp4_demux)
    : list (option (list Z) * option (list Z)) :=
  selected (dm_metaMetadataKey d) (dm_metaMetadataValue d) 0
    (Z.to_nat (dm_metaMetadataCount d))
  ++ selected (dm_udtaMetadataKey d) (dm_udtaMetadataValue d) 0
       (Z.to_nat (dm_udtaMetadataCount d))
  ++ (if location_set d
      then [(dm_udtaLocationKey d, dm_udtaLocationValue d)] else []).

(** The entries copied so far into the two final arrays of [N] cells. *)
Definition copied (sel : list (option (list Z) * option (list Z)))
    (st : Z * option (list (option (list Z)))
          * option (list (option (list Z)))) (N : nat) : Prop :=
  st.1.1 = Z.of_nat (length sel)
  /\ exists lk lv,
       st.1.2 = Some lk /\ st.2 = Some lv
       /\ length lk = N /\ length lv = N
       /\ take (length sel) lk = fst <$> sel
       /\ take (length sel) lv = snd <$> sel.

(** A movie without tracks that holds, in [udta], a title, an artist
    whose value is empty and a location, and, in [meta], two keys of
    which the first has a value. *)
Definition ex_strings : list Z :=
  ex_ftyp
  ++ box MP4_MOVIE_BOX
       (ex_mvhd
        ++ box MP4_USER_DATA_BOX
             (box MP4_META_BOX
                (words [0]
                 ++ box MP4_ILST_BOX
                      (box 0xA96E616D
                         (ex_data MP4_METADATA_CLASS_UTF8 [72; 105])
                       ++ box 0xA9415254
                            (ex_data MP4_METADATA_CLASS_UTF8 [0])))
              ++ box MP4_LOCATION_BOX (be16 3 ++ be16 0 ++ [43; 52; 56]))
        ++ box MP4_META_BOX
             (box MP4_KEYS_BOX
                (words [0; 2; 13; 0x6d647461] ++ [99; 111; 109; 46; 97]
                 ++ words [13; 0x6d647461] ++ [99; 111; 109; 46; 98])
              ++ box MP4_ILST_BOX
                   (box 1 (ex_data MP4_METADATA_CLASS_UTF8 [118; 49])))).

(** ** Cursors *)

(** The track count of a demuxer and the cursors of its tracks. *)
Definition cursors (d : mp4_demux) :=
  (dm_trackCount d, tk_currentSample <$> dm_tracks d).

(** Invariants that depend on the track count and on the cursors
    only. *)
Class CursorInv (P : mp4_demux -> Prop) : Prop :=
  cursor_inv : forall d d', cursors d = cursors d' -> P d -> P d'.

(** The track count is the number of tracks, and every cursor is on the
    first sample. *)
Definition fresh (d : mp4_demux) : Prop :=
  dm_trackCount d = u32 (Z.of_nat (length (dm_tracks d)))
  /\ Forall (fun tk => tk_currentSample tk = 0) (dm_tracks d).

(** One audio track of id 7 with four samples of 10, 20, 30 and 40
    bytes in one chunk, whose 64-bit offset ([co64]) is [2^64 - 5]. *)
Definition ex_co64 (offsets : list Z) : list Z :=
  box MP4_CHUNK_OFFSET_64_BOX
    (words ([0; Z.of_nat (length offsets)]
            ++ concat ((fun o => [o / 2 ^ 32; o mod 2 ^ 32]) <$> offsets))).

Definition ex_wrap : list Z :=
  ex_movie
    (ex_trak 7 MP4_HANDLER_TYPE_AUDIO []
       (ex_stts [(4, 3000)] ++ ex_stsz [10; 20; 30; 40] ++ ex_stsc [(1, 4)]
        ++ ex_co64 [2 ^ 64 - 5]))
    [].

(** ** The two checks of the sample count, in the words of the
    specification *)

(** The sample-to-chunk table is ordered with respect to the chunk
    count [total]: no entry covers a negative number of chunks, that is,
    the [first_chunk] values do not decrease and the last one is at most
    [total + 1]. *)
Definition stsc_ordered (entries : list mp4_sample_to_chunk_entry)
    (total : Z) : Prop :=
  Forall (fun run : Z * Z * Z => 0 <= run.1.2) (stsc_runs entries total).

(** "The sample count obtained by expanding the stsc entries against
    the stco/co64 chunk count differs from the stsz sample_count, or the
    sum of the stts entries' sample_count fields differs from the stsz
    sample_count", both counts taken as 32-bit unsigned values. *)
Definition spec_count_mismatch (tk : mp4_track) : Prop :=
  u32 (spec_sample_count (olist (tk_sampleToChunkEntries tk))
         (tk_chunkCount tk))
  <> tk_sampleCount tk
  \/ u32 (spec_stts_count (olist (tk_timeToSampleEntries tk)))
     <> tk_sampleCount tk.

(** A track of two chunks whose sample-to-chunk table is not ordered:
    its entries are (first_chunk 3, 1 sample per chunk) and (first_chunk
    2, 1 sample per chunk).  The first entry covers no chunk and the
    second one the chunk 2, so that the expansion has one sample, which
    the time-to-sample table and the sample size box announce too. *)
Definition ex_unordered : list Z :=
  ex_movie
    (ex_trak 7 MP4_HANDLER_TYPE_AUDIO []
       (ex_stts [(1, 3000)] ++ ex_stsz [10] ++ ex_stsc [(3, 1); (2, 1)]
        ++ ex_stco [400; 410]))
    (replicate 100 7).

(** ** Copies into the buffers of the caller *)

(** What becomes of the copy of a sample into a buffer of the caller. *)
Inductive copy : Type :=
  | NoCopy
  | Copied (bytes : list Z)
  | CopyFails (code : Z).

(** The copy of the [size] bytes at the offset [off] of a file that
    holds [bytes]: it fails with [-EINVAL] when the offset, taken as an
    [off_t], is negative, and with [-EIO] when the range is empty or
    does not lie within the file. *)
Definition read_of (bytes : list Z) (off size : Z) : copy :=
  if decide (s64 off < 0) then CopyFails (- EINVAL)
  else if decide (0 < size /\ s64 off + size <= Z.of_nat (length bytes))
  then Copied (take (Z.to_nat size) (drop (Z.to_nat (s64 off)) bytes))
  else CopyFails (- EIO).

(** A copy is made when a buffer is passed ([buffer] tells whether the
    pointer is not [NULL]) and the sample is not larger than it. *)
Definition copy_of (bytes : list Z) (buffer : bool) (buffer_size : Z)
    (off size : Z) : copy :=
  if buffer && bool_decide (size <= buffer_size) then read_of bytes off size
  else NoCopy.

Definition copied_bytes (c : copy) : option (list Z) :=
  match c with
  | Copied bytes => Some bytes
  | _ => None
  end.

(** The cells of the linked metadata track that
    [mp4_demux_get_track_next_sample] reads for the current sample of
    [tk]: the size [msize] and the offset [moff] of the sample of the
    same index. *)
Definition metadata_cells (d : mp4_demux) (tk : mp4_track)
    (msize moff : Z) : Prop :=
  match tk_metadata tk with
  | Some hm =>
      exists metatk,
        dm_tracks d !! hm = Some metatk
        /\ aget (tk_sampleSize metatk) (tk_currentSample tk) = Some msize
        /\ aget (tk_sampleOffset metatk) (tk_currentSample tk) = Some moff
  | None => msize = 0
  end.

Definition metadata_copy (d : mp4_demux) (tk : mp4_track)
    (metadata_buffer : bool) (metadata_buffer_size : Z) (msize moff : Z)
    : copy :=
  match tk_metadata tk with
  | Some _ =>
      copy_of (f_bytes (dm_file d)) metadata_buffer metadata_buffer_size
        moff msize
  | None => NoCopy
  end.

(** One audio track of id 7 whose first sample is empty. *)
Definition ex_empty_sample : list Z :=
  ex_movie
    (ex_trak 7 MP4_HANDLER_TYPE_AUDIO []
       (ex_stts [(3, 3000)] ++ ex_stsz [0; 20; 30] ++ ex_stsc [(1, 3)]
        ++ ex_stco [400]))
    (replicate 100 7).

(** ** Reading a track *)

(** A caller's loop: [n] calls of [mp4_demux_get_track_next_sample] for
    one track, without buffers; the structures that the calls fill. *)
Fixpoint read_samples (n : nat) (track_id : Z)
    : M (list mp4_track_sample) :=
  match n with
  | O => ret []
  | S n' =>
      let* r := mp4_demux_get_track_next_sample track_id false 0 false 0 in
      let* rs := read_samples n' track_id in
      ret (r.1.1 :: rs)
  end.

(** The structure [r] describes the sample [i] of a track without linked
    metadata: its size, its decoding time and the decoding time of the
    sample after it (0 for the last sample), in microseconds. *)
Definition describes (tk : mp4_track) (i : Z) (r : mp4_track_sample)
    : Prop :=
  aget (tk_sampleSize tk) i = Some (sample_size r)
  /\ metadata_size r = 0
  /\ (exists dts,
        aget (tk_sampleDecodingTime tk) i = Some dts
        /\ ticks_to_us dts (tk_timescale tk) = Some (sample_dts r))
  /\ (if decide (i + 1 < tk_sampleCount tk) then
        exists next,
          aget (tk_sampleDecodingTime tk) (i + 1) = Some next
          /\ ticks_to_us next (tk_timescale tk) = Some (next_sample_dts r)
      else next_sample_dts r = 0).

(** One audio track of id 7, of three samples, that has no media header
    box: its duration and its timescale are left at 0. *)
Definition ex_no_duration : list Z :=
  ex_ftyp
  ++ box MP4_MOVIE_BOX
       (ex_mvhd
        ++ box MP4_TRACK_BOX
             (ex_tkhd 7
              ++ box MP4_MEDIA_BOX
                   (ex_hdlr MP4_HANDLER_TYPE_AUDIO
                    ++ box MP4_MEDIA_INFORMATION_BOX
                         (box MP4_SAMPLE_TABLE_BOX
                            (ex_stts [(3, 3000)] ++ ex_stsz [10; 20; 30]
                             ++ ex_stsc [(1, 3)] ++ ex_stco [400])))))
  ++ box MP4_MEDIA_DATA_BOX (replicate 100 7).

(** A movie whose [keys] box announces 5 keys and ends there. *)
Definition ex_keys_short : list Z :=
  ex_ftyp
  ++ box MP4_MOVIE_BOX
       (ex_mvhd ++ box MP4_META_BOX (box MP4_KEYS_BOX (words [0; 5]))).

(** * Reasoning about the demuxer monad *)


Lemma bind_Ok {A B : Type} (m : M A) (k : A -> M B) d b d2 :
  bind m k d = Ok b d2 <-> exists a d1, m d = Ok a d1 /\ k a d1 = Ok b d2.
Proof.
  unfold bind. destruct (m d) as [a d1| | |]; split; intros H;
    try discriminate; try (destruct H as (? & ? & ? & ?); discriminate).
  - eauto.
  - destruct H as (a' & d1' & Heq & Hk). congruence.
Qed.

Lemma defined_Ok {A : Type} (o : option A) d a d' :
  defined o d = Ok a d' <-> o = Some a /\ d' = d.
Proof.
  destruct o; simpl; unfold ret, undef; split; intros H.
  - by inversion H.
  - destruct H as [[= ->] ->]. done.
  - done.
  - by destruct H.
Qed.

Lemma gets_Ok {A : Type} (f : mp4_demux -> A) d a d' :
  gets f d = Ok a d' <-> a = f d /\ d' = d.
Proof. unfold gets. split; [by intros [= <- <-] | by intros [-> ->]]. Qed.

Lemma ret_Ok {A : Type} (x : A) d a d' :
  ret x d = Ok a d' <-> a = x /\ d' = d.
Proof. unfold ret. split; [by intros [= <- <-] | by intros [-> ->]]. Qed.

Lemma modify_Ok (f : mp4_demux -> mp4_demux) d a d' :
  modify f d = Ok a d' <-> d' = f d.
Proof. unfold modify. destruct a. split; [by intros [= <-] | by intros ->]. Qed.

Lemma or_fail_Ok {A : Type} (code : Z) (m : M A) d a d' :
  or_fail code m d = Ok a d' <-> m d = Ok a d'.
Proof. unfold or_fail. destruct (m d); split; intros H; by simplify_eq. Qed.

Lemma or_fail_Err {A : Type} (code : Z) (m : M A) d c d' :
  or_fail code m d = Err c d' -> c = code.
Proof. unfold or_fail. destruct (m d); intros H; by simplify_eq. Qed.

Lemma bind_Err {A B : Type} (m : M A) (k : A -> M B) d c d2 :
  bind m k d = Err c d2 <->
  m d = Err c d2 \/ exists a d1, m d = Ok a d1 /\ k a d1 = Err c d2.
Proof.
  unfold bind. split.
  - destruct (m d) as [a d1|c' d1| |]; intros H; try discriminate.
    + right. by exists a, d1.
    + injection H as -> ->. by left.
  - intros [H|(a & d1 & H & Hk)]; by rewrite H.
Qed.

Lemma hoare_bind {A B : Type} P (m : M A) (k : A -> M B) Q R :
  hoare P m Q -> (forall a, hoare (Q a) (k a) R) -> hoare P (bind m k) R.
Proof.
  intros Hm Hk d b d2 HP H. apply bind_Ok in H as (a & d1 & H1 & H2).
  eapply Hk; [|done]. by eapply Hm.
Qed.

Lemma hoare_conseq {A : Type} (P P' : mp4_demux -> Prop) (m : M A)
    (Q Q' : A -> mp4_demux -> Prop) :
  hoare P' m Q' -> (forall d, P d -> P' d) ->
  (forall a d, Q' a d -> Q a d) -> hoare P m Q.
Proof. intros Hm HP HQ d a d' Hd H. apply HQ. eapply Hm; eauto. Qed.

Lemma hoare_ret {A : Type} (x : A) (P : mp4_demux -> Prop) Q :
  (forall d, P d -> Q x d) -> hoare P (ret x) Q.
Proof. intros H d a d' HP [-> ->]%ret_Ok. auto. Qed.

Lemma hoare_false {A : Type} (m : M A) Q : hoare (fun _ => False) m Q.
Proof. by intros d a d' []. Qed.

Lemma hoare_pure {A : Type} (phi : Prop) P (m : M A) Q :
  (phi -> hoare P m Q) -> hoare (fun d => phi /\ P d) m Q.
Proof. intros H d a d' [Hphi HP]. by apply H. Qed.

Lemma pres_elim P {A : Type} (m : M A) d a d' :
  pres P m -> P d -> m d = Ok a d' -> P d'.
Proof. intros H. apply H. Qed.

Lemma pres_get_track P h : pres P (get_track h).
Proof.
  intros d a d' HP H. unfold get_track in H.
  destruct (_ !! _); by simplify_eq.
Qed.

Lemma pres_bind {A B : Type} P (m : M A) (k : A -> M B) :
  pres P m -> (forall a, pres P (k a)) -> pres P (bind m k).
Proof. intros Hm Hk. by eapply hoare_bind. Qed.

Lemma pres_ret {A : Type} P (x : A) : pres P (ret x).
Proof. by apply hoare_ret. Qed.

Lemma pres_fail {A : Type} P c : pres P (@fail A c).
Proof. by intros d a d' _ H. Qed.

Lemma pres_undef {A : Type} P : pres P (@undef A).
Proof. by intros d a d' _ H. Qed.

Lemma pres_out_of_fuel {A : Type} P : pres P (fun _ => @OutOfFuel A).
Proof. by intros d a d' _ H. Qed.

Lemma pres_defined {A : Type} P (o : option A) : pres P (defined o).
Proof. intros d a d' HP [_ ->]%defined_Ok. done. Qed.

Lemma pres_gets {A : Type} P (f : mp4_demux -> A) : pres P (gets f).
Proof. intros d a d' HP [_ ->]%gets_Ok. done. Qed.

Lemma pres_modify P (f : mp4_demux -> mp4_demux) :
  (forall d, P d -> P (f d)) -> pres P (modify f).
Proof. intros Hf d a d' HP ->%modify_Ok. auto. Qed.

Lemma pres_macro P cond err : pres P (MP4_RETURN_ERR_IF_FAILED cond err).
Proof. destruct cond; [apply pres_ret | apply pres_fail]. Qed.

Lemma pres_log_macro P cond err :
  pres P (MP4_LOG_ERR_AND_RETURN_ERR_IF_FAILED cond err).
Proof. apply pres_macro. Qed.

Lemma pres_forM {S : Type} P (n : nat) (i : Z) (body : Z -> S -> M S) s :
  (forall i s, pres P (body i s)) -> pres P (forM n i body s).
Proof.
  intros Hbody. revert i s.
  induction n as [|n IH]; intros i s; simpl.
  - apply pres_ret.
  - apply pres_bind; [apply Hbody | intros; apply IH].
Qed.

Lemma pres_int_value P (m : M Z) :
  pres P m -> (forall d c d', P d -> m d = Err c d' -> P d') ->
  pres P (int_value m).
Proof.
  intros Hm He d a d' HP H. unfold int_value in H.
  destruct (m d) eqn:E; simplify_eq; eauto.
Qed.

Lemma pres_or_fail {A : Type} P code (m : M A) :
  pres P m -> pres P (or_fail code m).
Proof.
  intros Hm d a d' HP H. unfold or_fail in H.
  destruct (m d) eqn:E; simplify_eq; eauto.
Qed.

Section file_ops.
Context (P : mp4_demux -> Prop) `{!FileIndep P}.

Lemma pres_fread size : pres P (fread size).
Proof.
  intros d a d' HP H. unfold fread in H.
  destruct (fread_file _ _). injection H as <- <-. by apply file_indep.
Qed.

Lemma pres_fseeko_cur off : pres P (fseeko_cur off).
Proof.
  intros d a d' HP H. unfold fseeko_cur in H.
  destruct (fseeko_to _ _). injection H as <- <-. by apply file_indep.
Qed.

Lemma pres_fseeko_set off : pres P (fseeko_set off).
Proof.
  intros d a d' HP H. unfold fseeko_set in H.
  destruct (fseeko_to _ _). injection H as <- <-. by apply file_indep.
Qed.

Lemma pres_seek_or_fail m : pres P m -> pres P (seek_or_fail m).
Proof.
  intros Hm. apply pres_bind; [done|].
  intros [e|]; [apply pres_fail | apply pres_ret].
Qed.

Lemma pres_MP4_READ size readBytes : pres P (MP4_READ size readBytes).
Proof.
  apply pres_bind; [apply pres_fread|].
  intros [bs|]; [apply pres_ret | apply pres_fail].
Qed.

Lemma pres_MP4_SKIP readBytes maxBytes : pres P (MP4_SKIP readBytes maxBytes).
Proof.
  unfold MP4_SKIP. destruct (decide _); [|apply pres_ret].
  apply pres_bind; [|intros; apply pres_ret].
  apply pres_seek_or_fail, pres_fseeko_cur.
Qed.
End file_ops.

Section file_ops_derived.
Context (P : mp4_demux -> Prop) `{!FileIndep P}.

Lemma pres_read_sample offset size : pres P (read_sample offset size).
Proof.
  apply pres_bind; [apply pres_seek_or_fail, pres_fseeko_set; done|].
  intros _. apply pres_bind; [by apply pres_fread|].
  intros [bs|]; [apply pres_ret | apply pres_fail].
Qed.

Lemma pres_read_64 n : pres P (read_64 n).
Proof.
  apply pres_bind; [by apply pres_MP4_READ|]. intros [v b].
  apply pres_bind; [by apply pres_MP4_READ|]. intros [v' b'].
  apply pres_ret.
Qed.

Lemma pres_skip_words n b : pres P (skip_words n b).
Proof.
  apply pres_forM. intros i s.
  apply pres_bind; [by apply pres_MP4_READ|]. intros [v b']. apply pres_ret.
Qed.

Lemma pres_read_value n : pres P (read_value n).
Proof.
  unfold read_value. destruct (decide _); [apply pres_undef|].
  apply pres_bind; [by apply pres_fread|].
  intros [bs|]; [apply pres_ret | apply pres_fail].
Qed.
End file_ops_derived.

(** A tactic for goals [pres P m]: it follows the structure of [m]. *)
Ltac pres_step :=
  lazymatch goal with
  | |- pres _ (bind _ _) => apply pres_bind; [|intros]
  | |- pres _ (ret _) => apply pres_ret
  | |- pres _ (fail _) => apply pres_fail
  | |- pres _ undef => apply pres_undef
  | |- pres _ (fun _ => OutOfFuel) => apply pres_out_of_fuel
  | |- pres _ (defined _) => apply pres_defined
  | |- pres _ (gets _) => apply pres_gets
  | |- pres _ (get_track _) => apply pres_get_track
  | |- pres _ ftello => apply pres_gets
  | |- pres _ feof => apply pres_gets
  | |- pres _ (MP4_RETURN_ERR_IF_FAILED _ _) => apply pres_macro
  | |- pres _ (MP4_LOG_ERR_AND_RETURN_ERR_IF_FAILED _ _) => apply pres_log_macro
  | |- pres _ (fread _) => apply pres_fread; try (assumption || typeclasses eauto)
  | |- pres _ (fseeko_cur _) => apply pres_fseeko_cur; try (assumption || typeclasses eauto)
  | |- pres _ (fseeko_set _) => apply pres_fseeko_set; try (assumption || typeclasses eauto)
  | |- pres _ (seek_or_fail _) => apply pres_seek_or_fail; try (assumption || typeclasses eauto)
  | |- pres _ (MP4_READ _ _) => apply pres_MP4_READ; try (assumption || typeclasses eauto)
  | |- pres _ (MP4_READ_32 _) => apply pres_MP4_READ; try (assumption || typeclasses eauto)
  | |- pres _ (MP4_READ_16 _) => apply pres_MP4_READ; try (assumption || typeclasses eauto)
  | |- pres _ (MP4_READ_8 _) => apply pres_MP4_READ; try (assumption || typeclasses eauto)
  | |- pres _ (MP4_SKIP _ _) => apply pres_MP4_SKIP; try (assumption || typeclasses eauto)
  | |- pres _ (read_sample _ _) => apply pres_read_sample; try (assumption || typeclasses eauto)
  | |- pres _ (read_64 _) => apply pres_read_64; try (assumption || typeclasses eauto)
  | |- pres _ (skip_words _ _) => apply pres_skip_words; try (assumption || typeclasses eauto)
  | |- pres _ (read_value _) => apply pres_read_value; try (assumption || typeclasses eauto)
  | |- pres _ (forM _ _ _ _) => apply pres_forM; intros
  | |- pres _ (or_fail _ _) => apply pres_or_fail
  | |- pres _ (match ?x with _ => _ end) => destruct x
  | |- pres _ (let '(_, _) := ?x in _) => destruct x
  end.

Ltac pres_auto := repeat pres_step.

#[global] Instance tracks_eq_file_indep T :
  FileIndep (fun d => dm_tracks d = T).
Proof. intros f d H. exact H. Qed.



(** * Machine integers *)

Lemma u32_small (x : Z) : 0 <= x < 2 ^ 32 -> u32 x = x.
Proof. intros H. unfold u32. apply Z.mod_small. lia. Qed.

Lemma u32_range (x : Z) : 0 <= u32 x < 2 ^ 32.
Proof. unfold u32. apply Z.mod_pos_bound. lia. Qed.

Lemma u64_range (x : Z) : 0 <= u64 x < 2 ^ 64.
Proof. unfold u64. apply Z.mod_pos_bound. lia. Qed.

Lemma u64_small (x : Z) : 0 <= x < 2 ^ 64 -> u64 x = x.
Proof. intros H. unfold u64. apply Z.mod_small. lia. Qed.

Lemma u64_add_r (x y : Z) : u64 (x + u64 y) = u64 (x + y).
Proof. unfold u64. by rewrite Zplus_mod_idemp_r. Qed.

Lemma u64_add_l (x y : Z) : u64 (u64 x + y) = u64 (x + y).
Proof. unfold u64. by rewrite Zplus_mod_idemp_l. Qed.

Lemma u32_add_r (x y : Z) : u32 (x + u32 y) = u32 (x + y).
Proof. unfold u32. by rewrite Zplus_mod_idemp_r. Qed.

Lemma u32_add_l (x y : Z) : u32 (u32 x + y) = u32 (x + y).
Proof. unfold u32. by rewrite Zplus_mod_idemp_l. Qed.

(** * Arrays *)

Lemma aget_Some {A : Type} (a : option (list A)) (i : Z) (x : A) :
  aget a i = Some x <->
  exists l, a = Some l /\ 0 <= i /\ l !! Z.to_nat i = Some x.
Proof.
  unfold aget. split.
  - destruct a as [l|]; [|done]. destruct (decide (0 <= i)); [|done]. eauto.
  - intros (l & -> & Hi & Hl). by rewrite decide_True.
Qed.

Lemma aset_Some {A : Type} (a : option (list A)) (i : Z) (v : A) l' :
  aset a i v = Some l' <->
  exists l, a = Some l /\ 0 <= i < Z.of_nat (length l)
            /\ l' = <[Z.to_nat i := v]> l.
Proof.
  unfold aset. split.
  - destruct a as [l|]; [|done]. destruct (decide _); [|done].
    intros [= <-]. eauto.
  - intros (l & -> & Hi & ->). by rewrite decide_True.
Qed.

Lemma sumZ_app (l1 l2 : list Z) : sumZ (l1 ++ l2) = sumZ l1 + sumZ l2.
Proof. unfold sumZ. induction l1 as [|x l1 IH]; simpl; lia. Qed.

(** [for_opt] does not look at the index when its body does not. *)
Lemma for_opt_S {S : Type} (n : nat) (i : Z) (body : Z -> S -> option S) s :
  for_opt (Datatypes.S n) i body s = body i s ≫= for_opt n (i + 1) body.
Proof. simpl. by destruct (body i s). Qed.

Lemma for_opt_index {S : Type} (n : nat) (i j : Z)
    (body : Z -> S -> option S) s :
  (forall i j s, body i s = body j s) ->
  for_opt n i body s = for_opt n j body s.
Proof.
  intros Hbody. revert i j s.
  induction n as [|n IH]; intros i j s; simpl; [done|].
  rewrite (Hbody i j). destruct (body j s); [apply IH | done].
Qed.

Lemma for_opt_add {S : Type} (n m : nat) (i : Z) (body : Z -> S -> option S)
    s :
  for_opt (n + m) i body s =
  for_opt n i body s ≫= for_opt m (i + Z.of_nat n) body.
Proof.
  revert i s. induction n as [|n IH]; intros i s.
  - simpl. by rewrite Z.add_0_r.
  - change (Datatypes.S n + m)%nat with (Datatypes.S (n + m)).
    rewrite !for_opt_S. destruct (body i s) as [s'|]; simpl; [|done].
    rewrite IH. by replace (i + 1 + Z.of_nat n) with (i + Z.of_nat (Datatypes.S n)) by lia.
Qed.

(** * The expansion of the sample-to-chunk table *)

Lemma take_chunk_places_S (s c : Z) (j : nat) :
  Z.of_nat j < s ->
  take (S j) (chunk_places s c) =
  take j (chunk_places s c) ++ [(c, Z.of_nat j, s)].
Proof.
  intros Hj. apply take_S_r. unfold chunk_places.
  rewrite list_lookup_fmap, lookup_seqZ_lt by lia. simpl. f_equal.
Qed.

Lemma length_chunk_places (s c : Z) :
  length (chunk_places s c) = Z.to_nat s.
Proof. unfold chunk_places. by rewrite length_fmap, length_seqZ. Qed.

Lemma fill_samples_placed (chunkOffset sampleSize : option (list Z))
    (N : nat) (ci s : Z) (P : list (Z * Z * Z)) :
  (Z.of_nat N < 2 ^ 32) -> 0 <= ci ->
  forall (rem j : nat) n oic so st',
  (Z.of_nat j + Z.of_nat rem = s) ->
  for_opt rem 0 (fill_sample chunkOffset sampleSize ci) (n, oic, so)
    = Some st' ->
  placed (olist chunkOffset) (olist sampleSize)
    (P ++ take j (chunk_places s (ci + 1))) n so N ->
  oic = u64 (sumZ (take j (drop (length P) (olist sampleSize)))) ->
  placed (olist chunkOffset) (olist sampleSize)
    (P ++ chunk_places s (ci + 1)) st'.1.1 st'.2 N
  /\ (0 < rem -> Z.to_nat ci < length (olist chunkOffset))%nat.
Proof.
  intros HN Hci rem. induction rem as [|rem IH]; intros j n oic so st' Hs.
  - simpl. intros [= <-] Hpl _. simpl. split; [|lia].
    rewrite firstn_all2 in Hpl; [done|].
    rewrite length_chunk_places. lia.
  - rewrite for_opt_S. intros Hfor Hpl Hoic.
    destruct (fill_sample _ _ _ _ _) as [[[n1 oic1] so1]|] eqn:Hstep;
      [|done]. simpl in Hfor.
    unfold fill_sample in Hstep.
    destruct (aget chunkOffset ci) as [c|] eqn:Hc; [|done]. simpl in Hstep.
    destruct (aset so n _) as [l1|] eqn:Hset; [|done]. simpl in Hstep.
    destruct (aget sampleSize n) as [sz|] eqn:Hsz; [|done]. simpl in Hstep.
    injection Hstep as <- <- <-.
    apply aget_Some in Hc as (lc & -> & _ & Hc).
    apply aset_Some in Hset as (l & -> & Hn & ->).
    apply aget_Some in Hsz as (lz & -> & _ & Hsz).
    destruct Hpl as (Hnlen & l' & [= <-] & Hlen & Hpl).
    assert (length (take j (chunk_places s (ci + 1))) = j) as Htl.
    { rewrite length_take, length_chunk_places. lia. }
    rewrite length_app, Htl in Hnlen.
    rewrite for_opt_index with (j := 0) in Hfor by done.
    eapply (IH (S j)) in Hfor; [| lia | |].
    + destruct Hfor as [Hfor _]. split; [exact Hfor|].
      intros _. simpl. by eapply lookup_lt_Some.
    + rewrite take_chunk_places_S by lia. split.
      { rewrite u32_small by lia.
        rewrite !length_app, Htl. simpl. lia. }
      eexists. split; [done|]. split; [by rewrite length_insert|].
      intros i place Hi.
      rewrite app_assoc in Hi.
      apply lookup_app_Some in Hi as [Hi|[Hge Hi]].
      * rewrite list_lookup_insert_ne.
        { by apply Hpl. }
        apply lookup_lt_Some in Hi. rewrite length_app, Htl in Hi. lia.
      * rewrite length_app, Htl in Hge, Hi.
        apply list_lookup_singleton_Some in Hi as [Hi <-].
        assert (i = Z.to_nat n) as -> by lia.
        rewrite list_lookup_insert_eq by lia. split; [|done].
        simpl. rewrite decide_True by lia.
        replace (ci + 1 - 1) with ci by lia. rewrite Hc. simpl.
        f_equal. rewrite Hoic, u64_add_r. do 2 f_equal.
        unfold preceding_sizes, olist. simpl. rewrite Nat2Z.id.
        by replace (Z.to_nat n - j)%nat with (length P) by lia.
    + simpl. rewrite Hoic, u64_add_l. f_equal.
      erewrite take_S_r.
      * rewrite sumZ_app. unfold sumZ at 3. simpl. rewrite Z.add_0_r. done.
      * rewrite lookup_drop. unfold olist. simpl. rewrite <- Hsz. f_equal. lia.
Qed.

Lemma chunk_places_nil (s c : Z) : s <= 0 -> chunk_places s c = [].
Proof. intros H. unfold chunk_places. by rewrite seqZ_nil. Qed.

Lemma fill_chunk_placed (chunkOffset sampleSize : option (list Z))
    (N : nat) (s j n ci : Z) so (P : list (Z * Z * Z)) st' :
  Z.of_nat N < 2 ^ 32 -> 0 <= ci ->
  fill_chunk chunkOffset sampleSize s j (n, ci, so) = Some st' ->
  placed (olist chunkOffset) (olist sampleSize) P n so N ->
  placed (olist chunkOffset) (olist sampleSize)
    (P ++ chunk_places s (ci + 1)) st'.1.1 st'.2 N
  /\ st'.1.2 = u32 (ci + 1)
  /\ (0 < s -> (Z.to_nat ci < length (olist chunkOffset))%nat).
Proof.
  intros HN Hci Hfill Hpl. unfold fill_chunk in Hfill.
  destruct (for_opt _ _ _ _) as [[[n1 oic1] so1]|] eqn:Hfor; [|done].
  simpl in Hfill. injection Hfill as <-. simpl.
  destruct (decide (s <= 0)) as [Hs|Hs].
  - replace (Z.to_nat s) with 0%nat in Hfor by lia. simpl in Hfor.
    injection Hfor as <- <- <-.
    rewrite chunk_places_nil, app_nil_r by done. split; [done|].
    split; [done|lia].
  - eapply (fill_samples_placed _ _ N ci s P HN Hci _ 0%nat) in Hfor.
    + destruct Hfor as [Hpl' Hlt]. simpl in Hpl'. split; [done|].
      split; [done|]. intros _. apply Hlt. lia.
    + lia.
    + simpl. by rewrite app_nil_r.
    + simpl. by rewrite u64_small by lia.
Qed.

Lemma fill_chunk_empty (chunkOffset sampleSize : option (list Z))
    (s j n ci : Z) so :
  s <= 0 ->
  fill_chunk chunkOffset sampleSize s j (n, ci, so)
  = Some (n, u32 (ci + 1), so).
Proof.
  intros Hs. unfold fill_chunk.
  by replace (Z.to_nat s) with 0%nat by lia.
Qed.

(** A run of chunks without samples only moves [chunkIdx]. *)
Lemma fill_run_empty (chunkOffset sampleSize : option (list Z)) (s : Z)
    (cc : nat) (j n ci : Z) so :
  s <= 0 ->
  for_opt cc j (fill_chunk chunkOffset sampleSize s) (n, ci, so)
  = Some (n, u32 (ci + Z.of_nat cc), so) \/
  (cc = 0%nat /\
   for_opt cc j (fill_chunk chunkOffset sampleSize s) (n, ci, so)
   = Some (n, ci, so)).
Proof.
  intros Hs. revert j ci. induction cc as [|cc IH]; intros j ci.
  - right. done.
  - left. rewrite for_opt_S, fill_chunk_empty by done. simpl.
    destruct (IH (j + 1) (u32 (ci + 1))) as [->|[-> ->]].
    + rewrite u32_add_l.
      by replace (ci + 1 + Z.of_nat cc) with (ci + Z.of_nat (S cc)) by lia.
    + by replace (ci + Z.of_nat 1) with (ci + 1) by lia.
Qed.

Lemma fill_run_chunks (chunkOffset sampleSize : option (list Z)) (N : nat)
    (s : Z) :
  Z.of_nat N < 2 ^ 32 -> 0 < s ->
  Z.of_nat (length (olist chunkOffset)) < 2 ^ 32 ->
  forall (cc : nat) (j n ci : Z) so P st',
  0 <= ci ->
  for_opt cc j (fill_chunk chunkOffset sampleSize s) (n, ci, so) = Some st' ->
  placed (olist chunkOffset) (olist sampleSize) P n so N ->
  (cc = 0%nat \/ ci + Z.of_nat cc <= Z.of_nat (length (olist chunkOffset)))
  /\ st'.1.2 = ci + Z.of_nat cc
  /\ placed (olist chunkOffset) (olist sampleSize)
       (P ++ concat (chunk_places s <$> seqZ (ci + 1) (Z.of_nat cc)))
       st'.1.1 st'.2 N.
Proof.
  intros HN Hs Hco cc. induction cc as [|cc IH]; intros j n ci so P st' Hci.
  - simpl. intros [= <-] Hpl. simpl. rewrite app_nil_r.
    split; [by left|]. split; [lia|done].
  - rewrite for_opt_S. intros Hfor Hpl.
    destruct (fill_chunk _ _ _ _ _) as [[[n1 ci1] so1]|] eqn:Hchunk; [|done].
    simpl in Hfor.
    eapply (fill_chunk_placed _ _ N _ _ _ _ _ P) in Hchunk
      as (Hpl1 & Hci1 & Hlt); [|done..].
    simpl in Hpl1, Hci1. specialize (Hlt Hs).
    rewrite u32_small in Hci1 by lia. subst ci1.
    eapply (IH _ _ _ _ (P ++ chunk_places s (ci + 1))) in Hfor
      as (Hbound & Hci' & Hpl'); [| lia | done].
    split; [right; lia|]. split; [lia|].
    rewrite seqZ_cons by lia. simpl. rewrite app_assoc.
    by replace (Z.pred (Z.of_nat (S cc))) with (Z.of_nat cc) by lia.
Qed.

Lemma run_places_nil (first n s : Z) :
  s <= 0 \/ n <= 0 -> run_places (first, n, s) = [].
Proof.
  change (run_places (first, n, s))
    with (concat (chunk_places s <$> seqZ first n)).
  intros [Hs|Hn].
  - induction (seqZ first n) as [|c l IH]; [done|].
    rewrite fmap_cons. simpl. by rewrite chunk_places_nil, IH.
  - by rewrite seqZ_nil.
Qed.

Lemma length_run_places (first n s : Z) :
  0 <= s -> 0 <= n ->
  Z.of_nat (length (run_places (first, n, s))) = n * s.
Proof.
  intros Hs Hn.
  change (run_places (first, n, s))
    with (concat (chunk_places s <$> seqZ first n)).
  assert (forall l : list Z,
    Z.of_nat (length (concat (chunk_places s <$> l)))
    = Z.of_nat (length l) * s) as Hl.
  { induction l as [|c l IH]; [done|].
    rewrite fmap_cons. simpl.
    rewrite length_app, length_chunk_places. lia. }
  rewrite Hl, length_seqZ. lia.
Qed.

Lemma u32_sub_cases (a b : Z) :
  0 <= a < 2 ^ 32 -> 0 <= b < 2 ^ 32 ->
  (b <= a /\ u32 (a - b) = a - b) \/ (a < b /\ u32 (a - b) = a - b + 2 ^ 32).
Proof.
  intros Ha Hb. destruct (decide (b <= a)).
  - left. split; [done|]. apply u32_small. lia.
  - right. split; [lia|]. unfold u32.
    rewrite <- (Z.mod_add _ 1) by lia. apply Z.mod_small. lia.
Qed.

(** One run of the code against the run of the specification. *)
Lemma fill_run_placed (chunkOffset sampleSize : option (list Z)) (N : nat)
    (lfc next s n : Z) so P st' :
  Z.of_nat N < 2 ^ 32 ->
  Z.of_nat (length (olist chunkOffset)) < 2 ^ 32 - 1 ->
  0 <= lfc < 2 ^ 32 -> 0 <= next < 2 ^ 32 ->
  fill_run chunkOffset sampleSize (u32 (next - lfc)) s (n, u32 (lfc - 1), so)
    = Some st' ->
  placed (olist chunkOffset) (olist sampleSize) P n so N ->
  st'.1.2 = u32 (next - 1)
  /\ placed (olist chunkOffset) (olist sampleSize)
       (P ++ run_places (lfc, next - lfc, s)) st'.1.1 st'.2 N
  /\ (0 <= s ->
      Z.of_nat (length (run_places (lfc, next - lfc, s)))
      = u32 (next - lfc) * s).
Proof.
  intros HN Hco Hlfc Hnext Hfill Hpl. unfold fill_run in Hfill.
  pose proof (u32_range (next - lfc)) as Hw.
  destruct (decide (s <= 0)) as [Hs|Hs].
  - rewrite run_places_nil, app_nil_r by lia.
    destruct (fill_run_empty chunkOffset sampleSize s
                (Z.to_nat (u32 (next - lfc))) 0 n (u32 (lfc - 1)) so Hs)
      as [Heq|[Hz Heq]]; rewrite Heq in Hfill; injection Hfill as <-; simpl.
    + split; [|split; [done|simpl; lia]].
      rewrite Z2Nat.id by lia. rewrite u32_add_l, u32_add_r. f_equal. lia.
    + split; [|split; [done|simpl; lia]].
      assert (u32 (next - lfc) = 0) as H0 by lia.
      destruct (u32_sub_cases next lfc) as [[? ?]|[? ?]]; [done..| |]; [|lia].
      f_equal. lia.
  - destruct (decide (u32 (next - lfc) = 0)) as [Hz|Hz].
    + rewrite Hz in Hfill. simpl in Hfill. injection Hfill as <-. simpl.
      destruct (u32_sub_cases next lfc) as [[? ?]|[? ?]]; [done..| |]; [|lia].
      rewrite run_places_nil, app_nil_r by lia.
      split; [f_equal; lia|]. split; [done|simpl; lia].
    + pose proof (u32_range (lfc - 1)) as Hci.
      eapply (fill_run_chunks _ _ N s) in Hfill as (Hbound & Hci' & Hpl');
        [|lia..|done].
      rewrite Z2Nat.id in Hbound, Hci', Hpl' by lia.
      destruct Hbound as [?|Hbound]; [lia|].
      assert (1 <= lfc) as Hlfc1.
      { destruct (decide (lfc = 0)) as [->|]; [|lia].
        change (u32 (0 - 1)) with (2 ^ 32 - 1) in Hbound. lia. }
      rewrite (u32_small (lfc - 1)) in Hbound, Hci', Hpl' by lia.
      destruct (u32_sub_cases next lfc) as [[? Heq]|[? Heq]]; [done..| |];
        rewrite Heq in Hbound, Hci', Hpl', Hz |- *; [|lia].
      split; [rewrite u32_small by lia; lia|].
      replace (lfc - 1 + 1) with lfc in Hpl' by lia. split; [done|].
      intros _. apply length_run_places; lia.
Qed.

(** * Loops over the entries of a table *)

Lemma for_opt_ext {S : Type} (n : nat) (i : Z) (f g : Z -> S -> option S) s :
  (forall i s, f i s = g i s) -> for_opt n i f s = for_opt n i g s.
Proof.
  intros Hfg. revert i s. induction n as [|n IH]; intros i s; simpl; [done|].
  rewrite Hfg. destruct (g i s); [apply IH | done].
Qed.

Lemma for_opt_aget_fold {A S : Type} (step : A -> S -> option S)
    (l pre : list A) (s : S) :
  for_opt (length l) (Z.of_nat (length pre))
    (fun i st => e ← aget (Some (pre ++ l)) i; step e st) s
  = fold_opt step l s.
Proof.
  revert pre s. induction l as [|x l IH]; intros pre s; [done|].
  simpl length. rewrite for_opt_S. simpl.
  rewrite decide_True by lia. rewrite Nat2Z.id.
  rewrite list_lookup_middle by done. simpl.
  destruct (step x s) as [s'|]; simpl; [|done].
  specialize (IH (pre ++ [x]) s').
  rewrite length_app, <- app_assoc in IH. simpl in IH.
  rewrite <- IH. f_equal. lia.
Qed.

Lemma runs_from_stsc_runs (lfc : Z) (l : list mp4_sample_to_chunk_entry)
    (total : Z) :
  concat (run_places <$> runs_from lfc 0 l total) = sample_places l total.
Proof.
  unfold sample_places.
  assert (forall e rest,
    runs_from (firstChunk e) (samplesPerChunk e) rest total
    = stsc_runs (e :: rest) total) as Hruns.
  { intros e rest. revert e. induction rest as [|e' rest IH]; intros e.
    - simpl. do 2 f_equal.
    - simpl. f_equal. apply IH. }
  destruct l as [|e rest]; simpl.
  - by rewrite run_places_nil by lia.
  - rewrite run_places_nil by lia. simpl. by rewrite Hruns.
Qed.

Lemma fill_all_placed (chunkOffset sampleSize : option (list Z)) (N : nat)
    (C : Z) :
  Z.of_nat N < 2 ^ 32 ->
  Z.of_nat (length (olist chunkOffset)) < 2 ^ 32 - 1 ->
  0 <= C < 2 ^ 32 - 1 ->
  forall (l : list mp4_sample_to_chunk_entry) lfc lspc n so P fs',
  Forall stsc_entry_ok l ->
  0 <= lfc < 2 ^ 32 -> 0 <= lspc ->
  (st ← fold_opt (fill_step chunkOffset sampleSize) l
         (lfc, lspc, (n, u32 (lfc - 1), so));
   fill_run chunkOffset sampleSize (u32 (u32 (C - st.1.1) + 1)) st.1.2 st.2)
  = Some fs' ->
  placed (olist chunkOffset) (olist sampleSize) P n so N ->
  placed (olist chunkOffset) (olist sampleSize)
    (P ++ concat (run_places <$> runs_from lfc lspc l C)) fs'.1.1 fs'.2 N
  /\ Z.of_nat (length (concat (run_places <$> runs_from lfc lspc l C)))
     = count_runs lfc lspc l C.
Proof.
  intros HN Hco HC l.
  induction l as [|e l IH]; intros lfc lspc n so P fs' Hl Hlfc Hlspc Hfill Hpl.
  - simpl in Hfill. rewrite u32_add_l in Hfill.
    replace (C - lfc + 1) with (C + 1 - lfc) in Hfill by lia.
    eapply fill_run_placed in Hfill as (_ & Hpl' & Hlen); [|done|done|lia..|done].
    simpl. rewrite app_nil_r. split; [done|]. by apply Hlen.
  - apply Forall_cons_1 in Hl as [[He Hs] Hl].
    cbn [fold_opt] in Hfill.
    destruct (fill_step _ _ e _) as [st1|] eqn:Hstep; [|done].
    unfold fill_step in Hstep. simpl in Hstep.
    destruct (fill_run _ _ _ _ _) as [[[n1 ci1] so1]|] eqn:Hrun; [|done].
    simpl in Hstep. injection Hstep as <-. simpl in Hfill.
    eapply fill_run_placed in Hrun as (Hci & Hpl1 & Hlen); [|done..].
    simpl in Hci, Hpl1. subst ci1.
    eapply IH in Hfill as [Hpl' Hlen']; [|done|done|lia|done].
    simpl. rewrite length_app, <- app_assoc in *. split; [done|].
    rewrite Nat2Z.inj_add, Hlen by done. unfold fmap in Hlen'. lia.
Qed.

Lemma count_all (C : Z) (l : list mp4_sample_to_chunk_entry) :
  forall lfc lspc sc,
  (st ← fold_opt count_step l (lfc, lspc, sc);
   Some (u32 (st.2 + u32 (u32 (u32 (C - st.1.1) + 1) * st.1.2))))
  = Some (u32 (sc + count_runs lfc lspc l C)).
Proof.
  induction l as [|e l IH]; intros lfc lspc sc; simpl.
  - rewrite u32_add_r, u32_add_l.
    by replace (C - lfc + 1) with (C + 1 - lfc) by lia.
  - rewrite IH. f_equal. rewrite u32_add_l.
    rewrite (Z.add_comm sc), <- Z.add_assoc, (Z.add_comm (u32 _)).
    rewrite Z.add_assoc, u32_add_r. f_equal. lia.
Qed.

Lemma for_opt_entries {S : Type} (tk : mp4_track)
    (body : Z -> S -> option S)
    (step : mp4_sample_to_chunk_entry -> S -> option S) (s : S) :
  wf_tables tk ->
  (forall i st, body i st = e ← aget (tk_sampleToChunkEntries tk) i; step e st) ->
  for_opt (Z.to_nat (tk_sampleToChunkEntryCount tk)) 0 body s
  = fold_opt step (olist (tk_sampleToChunkEntries tk)) s.
Proof.
  intros Hwf Hbody. rewrite (wf_entryCount _ Hwf), Nat2Z.id.
  rewrite (for_opt_ext _ _ _ _ _ Hbody).
  destruct (tk_sampleToChunkEntries tk) as [l|]; [|done].
  apply (for_opt_aget_fold step l []).
Qed.

Lemma stsc_sample_count_runs (tk : mp4_track) :
  wf_tables tk ->
  stsc_sample_count tk
  = Some (u32 (count_runs 1 0 (olist (tk_sampleToChunkEntries tk))
                 (tk_chunkCount tk))).
Proof.
  intros Hwf. unfold stsc_sample_count.
  rewrite (for_opt_entries tk _ count_step); [|done|by intros i [[??]?]].
  pose proof (count_all (tk_chunkCount tk)
                (olist (tk_sampleToChunkEntries tk)) 1 0 0) as Hcount.
  rewrite Z.add_0_l in Hcount. rewrite <- Hcount.
  destruct (fold_opt _ _ _) as [[[??]?]|]; done.
Qed.

Lemma fill_sample_offsets_placed (tk : mp4_track) (sc : Z)
    (so' : option (list Z)) :
  wf_tables tk -> tk_chunkCount tk < 0xFFFFFFFF ->
  stsc_sample_count tk = Some sc ->
  fill_sample_offsets tk (Some (replicate (Z.to_nat sc) 0)) = Some so' ->
  sc = spec_sample_count (olist (tk_sampleToChunkEntries tk))
         (tk_chunkCount tk)
  /\ exists l, so' = Some l /\ length l = Z.to_nat sc /\
     forall i place,
       sample_places (olist (tk_sampleToChunkEntries tk)) (tk_chunkCount tk)
         !! i = Some place ->
       l !! i = spec_sample_offset (olist (tk_chunkOffset tk))
                  (olist (tk_sampleSize tk)) i place
       /\ is_Some (l !! i).
Proof.
  intros Hwf HC Hsc Hfill.
  pose proof (wf_chunkCount _ Hwf) as HC0.
  pose proof (wf_chunkOffset _ Hwf) as Hco.
  rewrite stsc_sample_count_runs in Hsc by done. injection Hsc as Hsc.
  unfold fill_sample_offsets in Hfill.
  rewrite (for_opt_entries tk _
             (fill_step (tk_chunkOffset tk) (tk_sampleSize tk))) in Hfill;
    [|done|by intros i [[??]?]].
  destruct (fold_opt _ _ _) as [[[lfc lspc] fs]|] eqn:Hfold; [|done].
  simpl in Hfill.
  destruct (fill_run _ _ _ _ _) as [fs'|] eqn:Hrun; [|done].
  injection Hfill as <-.
  pose proof (u32_range (count_runs 1 0 (olist (tk_sampleToChunkEntries tk))
                           (tk_chunkCount tk))) as Hrange.
  rewrite Hsc in Hrange.
  destruct (fill_all_placed (tk_chunkOffset tk) (tk_sampleSize tk)
              (Z.to_nat sc) (tk_chunkCount tk)) with
    (l := olist (tk_sampleToChunkEntries tk)) (lfc := 1) (lspc := 0)
    (n := 0) (so := Some (replicate (Z.to_nat sc) 0))
    (P := @nil (Z * Z * Z)) (fs' := fs') as [Hpl Hlen].
  - lia.
  - lia.
  - lia.
  - apply (wf_entries _ Hwf).
  - lia.
  - lia.
  - change (u32 (1 - 1)) with 0. by rewrite Hfold.
  - split; [done|]. eexists. split; [done|].
    split; [by rewrite length_replicate|]. by intros i place.
  - rewrite runs_from_stsc_runs in *. simpl in Hpl.
    destruct Hpl as (_ & l & Hso & Hl & Hpl).
    assert (sc = spec_sample_count (olist (tk_sampleToChunkEntries tk))
                   (tk_chunkCount tk)) as Hcount.
    { unfold spec_sample_count. rewrite Hlen, <- Hsc.
      apply u32_small. rewrite <- Hlen. split; [lia|].
      destruct (sample_places _ _) as [|p ps] eqn:Hps using rev_ind;
        [simpl; lia|].
      clear IHps.
      destruct (Hpl (length ps) p) as [_ Hsome].
      { by rewrite lookup_app_r, Nat.sub_diag by lia. }
      apply lookup_lt_is_Some in Hsome. rewrite length_app. simpl. lia. }
    split; [done|]. exists l. done.
Qed.


(** * Invariants of the parser

    An invariant that depends on the sample tables of the tracks only is
    preserved by every handler but the six that fill these tables. *)

#[global] Instance tables_inv_file_indep (P : mp4_demux -> Prop) :
  TablesInv P -> FileIndep P.
Proof. intros HP f d Hd. by apply (tables_inv d). Qed.

Lemma pres_modify_tables (P : mp4_demux -> Prop) `{!TablesInv P}
    (f : mp4_demux -> mp4_demux) :
  (forall d, tables <$> dm_tracks (f d) = tables <$> dm_tracks d) ->
  pres P (modify f).
Proof. intros Hf. apply pres_modify. intros d Hd. by apply (tables_inv d). Qed.

Lemma pres_upd_track (P : mp4_demux -> Prop) `{!TablesInv P} (h : nat)
    (f : mp4_track -> mp4_track) :
  (forall tk, tables (f tk) = tables tk) -> pres P (upd_track h f).
Proof.
  intros Hf d a d' HP H. unfold upd_track in H.
  destruct (dm_tracks d !! h) as [tk|] eqn:Htk; [|done].
  injection H as _ <-. apply (tables_inv d); [|done].
  change (dm_tracks (set_dm_tracks ?x _)) with x.
  rewrite list_fmap_insert, Hf, list_insert_id; [done|].
  by rewrite list_lookup_fmap, Htk.
Qed.

Lemma pres_log_duration P timescale : pres P (log_duration timescale).
Proof.
  unfold log_duration. destruct (decide _); [apply pres_undef|apply pres_ret].
Qed.

Lemma pres_require_track P track : pres P (require_track track).
Proof.
  apply pres_bind; [apply pres_log_macro|]. intros _. apply pres_defined.
Qed.

Lemma pres_off_t_sub P a b : pres P (off_t_sub a b).
Proof.
  unfold off_t_sub. destruct (decide _); [apply pres_ret|apply pres_undef].
Qed.

Lemma pres_off_t_add P a b : pres P (off_t_add a b).
Proof.
  unfold off_t_add. destruct (decide _); [apply pres_ret|apply pres_undef].
Qed.

Lemma pres_int_succ P count : pres P (int_succ count).
Proof.
  unfold int_succ. destruct (decide _); [apply pres_ret|apply pres_undef].
Qed.

Lemma pres_add_ret P boxReadBytes (handler : M Z) :
  pres P handler -> pres P (add_ret boxReadBytes handler).
Proof.
  intros Hh. apply pres_bind; [done|]. intros r.
  apply pres_bind; [apply pres_macro|]. intros _. apply pres_ret.
Qed.

(** One more step for goals [pres P m], for an invariant [P] of the
    sample tables. *)
Ltac pres_tables_step :=
  lazymatch goal with
  | |- pres _ (modify _) =>
      apply pres_modify_tables;
      [first [assumption | typeclasses eauto] | intros; reflexivity]
  | |- pres _ (upd_track _ _) =>
      apply pres_upd_track;
      [first [assumption | typeclasses eauto] | intros; reflexivity]
  | |- pres _ (log_duration _) => apply pres_log_duration
  | |- pres _ (require_track _) => apply pres_require_track
  | |- pres _ (off_t_sub _ _) => apply pres_off_t_sub
  | |- pres _ (off_t_add _ _) => apply pres_off_t_add
  | |- pres _ (int_succ _) => apply pres_int_succ
  | |- pres _ (add_ret _ _) => apply pres_add_ret
  | |- _ => pres_step
  end.

Ltac pres_tables := repeat pres_tables_step.

Section handlers.
Context (P : mp4_demux -> Prop) `{!TablesInv P}.

Lemma pres_parse_ftyp maxBytes : pres P (mp4_demux_parse_ftyp maxBytes).
Proof. unfold mp4_demux_parse_ftyp. pres_tables. Qed.

Lemma pres_parse_mvhd maxBytes : pres P (mp4_demux_parse_mvhd maxBytes).
Proof. unfold mp4_demux_parse_mvhd. pres_tables. Qed.

Lemma pres_parse_tkhd maxBytes track :
  pres P (mp4_demux_parse_tkhd maxBytes track).
Proof. unfold mp4_demux_parse_tkhd. pres_tables. Qed.

Lemma pres_parse_tref maxBytes track :
  pres P (mp4_demux_parse_tref maxBytes track).
Proof. unfold mp4_demux_parse_tref. pres_tables. Qed.

Lemma pres_parse_mdhd maxBytes track :
  pres P (mp4_demux_parse_mdhd maxBytes track).
Proof. unfold mp4_demux_parse_mdhd. pres_tables. Qed.

Lemma pres_parse_vmhd maxBytes : pres P (mp4_demux_parse_vmhd maxBytes).
Proof. unfold mp4_demux_parse_vmhd. pres_tables. Qed.

Lemma pres_parse_smhd maxBytes : pres P (mp4_demux_parse_smhd maxBytes).
Proof. unfold mp4_demux_parse_smhd. pres_tables. Qed.

Lemma pres_parse_hmhd maxBytes : pres P (mp4_demux_parse_hmhd maxBytes).
Proof. unfold mp4_demux_parse_hmhd. pres_tables. Qed.

Lemma pres_parse_nmhd maxBytes : pres P (mp4_demux_parse_nmhd maxBytes).
Proof. unfold mp4_demux_parse_nmhd. pres_tables. Qed.

Lemma pres_read_string_loop fuel k maxBytes st :
  pres P (read_string_loop fuel k maxBytes st).
Proof.
  revert k st. induction fuel as [|fuel IH]; intros k [b str]; simpl.
  - apply pres_ret.
  - pres_tables. apply IH.
Qed.

Lemma pres_read_string maxBytes st : pres P (read_string maxBytes st).
Proof.
  unfold read_string. apply pres_bind; [apply pres_read_string_loop|].
  intros. pres_tables.
Qed.

Lemma pres_parse_hdlr ancestors maxBytes track :
  pres P (mp4_demux_parse_hdlr ancestors maxBytes track).
Proof.
  unfold mp4_demux_parse_hdlr. pres_tables; try apply pres_read_string;
    pres_tables.
Qed.
End handlers.

Section handlers_more.
Context (P : mp4_demux -> Prop) `{!TablesInv P}.

Lemma pres_parse_avcc_nalu maxBytes h stored store i st :
  (forall size bytes tk, tables (store size bytes tk) = tables tk) ->
  pres P (parse_avcc_nalu maxBytes h stored store i st).
Proof.
  intros Hstore. unfold parse_avcc_nalu. destruct st as [b m].
  pres_tables; apply pres_upd_track; done.
Qed.

Lemma pres_parse_avcc maxBytes track :
  pres P (mp4_demux_parse_avcc maxBytes track).
Proof.
  unfold mp4_demux_parse_avcc. pres_tables;
    apply pres_parse_avcc_nalu; done.
Qed.

Lemma pres_parse_stsd_video maxBytes h b :
  pres P (parse_stsd_video maxBytes h b).
Proof.
  unfold parse_stsd_video. pres_tables. apply pres_parse_avcc.
Qed.

Lemma pres_parse_stsd_audio maxBytes h b :
  pres P (parse_stsd_audio maxBytes h b).
Proof. unfold parse_stsd_audio. pres_tables. Qed.

Lemma pres_parse_stsd_metadata maxBytes h b :
  pres P (parse_stsd_metadata maxBytes h b).
Proof.
  unfold parse_stsd_metadata.
  pres_tables; try (apply pres_read_string; done); pres_tables;
    try (apply pres_read_string; done); pres_tables.
Qed.

Lemma pres_parse_stsd maxBytes track :
  pres P (mp4_demux_parse_stsd maxBytes track).
Proof.
  unfold mp4_demux_parse_stsd. pres_tables;
    first [apply pres_parse_stsd_video | apply pres_parse_stsd_audio
          | apply pres_parse_stsd_metadata].
Qed.

Lemma pres_parse_xyz type maxBytes :
  pres P (mp4_demux_parse_xyz type maxBytes).
Proof. unfold mp4_demux_parse_xyz. pres_tables. Qed.

Lemma pres_count_ilst_loop fuel maxBytes st :
  pres P (count_ilst_loop fuel maxBytes st).
Proof.
  revert st. induction fuel as [|fuel IH]; intros [t c]; simpl.
  - destruct (decide _); [apply pres_out_of_fuel|apply pres_ret].
  - destruct (decide _); [|apply pres_ret]. pres_tables; apply IH.
Qed.

Lemma pres_count_ilst_sub_box maxBytes :
  pres P (mp4_demux_count_ilst_sub_box maxBytes).
Proof.
  unfold mp4_demux_count_ilst_sub_box. pres_tables.
  apply pres_count_ilst_loop.
Qed.

Lemma pres_parse_meta_keys maxBytes :
  pres P (mp4_demux_parse_meta_keys maxBytes).
Proof. unfold mp4_demux_parse_meta_keys. pres_tables. Qed.

Lemma pres_parse_meta_data ancestors maxBytes :
  pres P (mp4_demux_parse_meta_data ancestors maxBytes).
Proof. unfold mp4_demux_parse_meta_data. pres_tables. Qed.
End handlers_more.

(** * The box walker *)

Lemma set_dm_file_id (d : mp4_demux) : d = set_dm_file (dm_file d) d.
Proof. by destruct d. Qed.

Lemma file_only_bind {A B : Type} (m : M A) (k : A -> M B) :
  file_only m -> (forall a, file_only (k a)) -> file_only (bind m k).
Proof.
  intros Hm Hk d. specialize (Hm d). unfold bind.
  destruct (m d) as [a d1|c d1| |]; [|done..].
  destruct Hm as [f ->]. specialize (Hk a (set_dm_file f d)).
  destruct (k a _) as [b d2|c d2| |]; [| |done..];
    destruct Hk as [g ->]; by exists g.
Qed.

Lemma file_only_ret {A : Type} (x : A) : file_only (ret x).
Proof. intros d. exists (dm_file d). apply set_dm_file_id. Qed.

Lemma file_only_fail {A : Type} (c : Z) : file_only (@fail A c).
Proof. intros d. exists (dm_file d). apply set_dm_file_id. Qed.

Lemma file_only_gets {A : Type} (f : mp4_demux -> A) : file_only (gets f).
Proof. intros d. exists (dm_file d). apply set_dm_file_id. Qed.

Lemma file_only_macro cond err :
  file_only (MP4_LOG_ERR_AND_RETURN_ERR_IF_FAILED cond err).
Proof. destruct cond; [apply file_only_ret|apply file_only_fail]. Qed.

Lemma file_only_fread size : file_only (fread size).
Proof. intros d. unfold fread. destruct (fread_file _ _). by eexists. Qed.

Lemma file_only_fseeko_cur off : file_only (fseeko_cur off).
Proof. intros d. unfold fseeko_cur. destruct (fseeko_to _ _). by eexists. Qed.

Lemma file_only_seek_or_fail m : file_only m -> file_only (seek_or_fail m).
Proof.
  intros Hm. apply file_only_bind; [done|].
  intros [e|]; [apply file_only_fail|apply file_only_ret].
Qed.

Lemma file_only_MP4_READ size readBytes : file_only (MP4_READ size readBytes).
Proof.
  apply file_only_bind; [apply file_only_fread|].
  intros [bs|]; [apply file_only_ret|apply file_only_fail].
Qed.

Lemma file_only_MP4_SKIP readBytes maxBytes :
  file_only (MP4_SKIP readBytes maxBytes).
Proof.
  unfold MP4_SKIP. destruct (decide _); [|apply file_only_ret].
  apply file_only_bind; [|intros; apply file_only_ret].
  apply file_only_seek_or_fail, file_only_fseeko_cur.
Qed.

Lemma file_only_off_t_sub a b : file_only (off_t_sub a b).
Proof. unfold off_t_sub. destruct (decide _); [apply file_only_ret|done]. Qed.

Lemma file_only_off_t_add a b : file_only (off_t_add a b).
Proof. unfold off_t_add. destruct (decide _); [apply file_only_ret|done]. Qed.

Lemma file_only_int_succ count : file_only (int_succ count).
Proof. unfold int_succ. destruct (decide _); [apply file_only_ret|done]. Qed.

Lemma file_only_read_64 n : file_only (read_64 n).
Proof.
  apply file_only_bind; [apply file_only_MP4_READ|]. intros [v b].
  apply file_only_bind; [apply file_only_MP4_READ|]. intros [v' b'].
  apply file_only_ret.
Qed.

Lemma file_only_count_ilst_loop fuel maxBytes st :
  file_only (count_ilst_loop fuel maxBytes st).
Proof.
  revert st. induction fuel as [|fuel IH]; intros [t c]; simpl.
  - destruct (decide _); [done|apply file_only_ret].
  - destruct (decide _); [|apply file_only_ret].
    apply file_only_bind; [apply file_only_MP4_READ|]. intros [v b].
    apply file_only_bind; [apply file_only_MP4_READ|]. intros [v' b'].
    apply file_only_bind.
    + destruct (decide _).
      * apply file_only_bind; [apply file_only_fail|]. by intros _ d.
      * destruct (decide _); [|apply file_only_ret].
        apply file_only_bind; [apply file_only_macro|]. intros _.
        apply file_only_bind; [apply file_only_read_64|]. intros [large b''].
        apply file_only_ret.
    + intros [r b'']. apply file_only_bind; [apply file_only_int_succ|].
      intros c'. apply file_only_bind; [apply file_only_MP4_SKIP|].
      intros _. apply file_only_bind; [apply file_only_off_t_add|].
      intros t'. apply IH.
Qed.

Lemma file_only_count_ilst_sub_box maxBytes :
  file_only (mp4_demux_count_ilst_sub_box maxBytes).
Proof.
  unfold mp4_demux_count_ilst_sub_box.
  apply file_only_bind; [apply file_only_macro|]. intros _.
  apply file_only_bind; [apply file_only_gets|]. intros fuel.
  apply file_only_bind; [apply file_only_count_ilst_loop|]. intros [t c].
  apply file_only_bind; [apply file_only_off_t_sub|]. intros back.
  apply file_only_bind; [|intros; apply file_only_ret].
  apply file_only_seek_or_fail, file_only_fseeko_cur.
Qed.

Section walker.
Context (P : mp4_demux -> Prop) `{!TablesInv P}.
Hypothesis P_new_track :
  forall d, P d -> P (set_dm_tracks (dm_tracks d ++ [mp4_track_zero]) d).
Hypothesis P_stts : forall maxBytes track,
  pres P (mp4_demux_parse_stts maxBytes track).
Hypothesis P_stss : forall maxBytes track,
  pres P (mp4_demux_parse_stss maxBytes track).
Hypothesis P_stsz : forall maxBytes track,
  pres P (mp4_demux_parse_stsz maxBytes track).
Hypothesis P_stsc : forall maxBytes track,
  pres P (mp4_demux_parse_stsc maxBytes track).
Hypothesis P_stco : forall maxBytes track,
  pres P (mp4_demux_parse_stco maxBytes track).
Hypothesis P_co64 : forall maxBytes track,
  pres P (mp4_demux_parse_co64 maxBytes track).

Lemma pres_count_ilst_value maxBytes :
  pres P (int_value (mp4_demux_count_ilst_sub_box maxBytes)).
Proof.
  apply pres_int_value; [by apply pres_count_ilst_sub_box|].
  intros d c d' HP H.
  pose proof (file_only_count_ilst_sub_box maxBytes d) as Hf.
  rewrite H in Hf. destruct Hf as [f ->]. by apply file_indep.
Qed.

Lemma pres_parse_box pc parent type realBoxSize boxReadBytes track :
  (forall item maxBytes track, pres P (pc item maxBytes track)) ->
  pres P (parse_box pc parent type realBoxSize boxReadBytes track).
Proof.
  intros Hpc. unfold parse_box.
  pres_tables;
    first [ apply Hpc | apply P_stts | apply P_stss | apply P_stsz
          | apply P_stsc | apply P_stco | apply P_co64
          | by apply pres_parse_ftyp | by apply pres_parse_mvhd
          | by apply pres_parse_tkhd | by apply pres_parse_tref
          | by apply pres_parse_hdlr | by apply pres_parse_mdhd
          | by apply pres_parse_vmhd | by apply pres_parse_smhd
          | by apply pres_parse_hmhd | by apply pres_parse_nmhd
          | by apply pres_parse_stsd | by apply pres_parse_meta_data
          | by apply pres_parse_xyz | by apply pres_parse_meta_keys
          | apply pres_count_ilst_value
          | by apply pres_modify, P_new_track
          | idtac ].
Qed.

Lemma pres_parse_children_from fuel :
  forall parent maxBytes track parentReadBytes lastBox,
  pres P (mp4_demux_parse_children_from fuel parent maxBytes track
            parentReadBytes lastBox).
Proof.
  induction fuel as [|fuel IH]; intros parent maxBytes track prb lastBox;
    simpl.
  - pres_tables.
  - pres_tables; first [apply IH | apply pres_parse_box; intros; apply IH].
Qed.

Lemma pres_parse_children fuel parent maxBytes track :
  pres P (mp4_demux_parse_children fuel parent maxBytes track).
Proof. apply pres_parse_children_from. Qed.
End walker.

(** * Byte order *)

Lemma land_255_range (x : Z) : 0 <= Z.land x 255 < 256.
Proof.
  change 255 with (Z.ones 8). rewrite Z.land_ones by lia.
  apply Z.mod_pos_bound. lia.
Qed.

Lemma lor_bounded (k a b : Z) :
  0 <= k -> 0 <= a < 2 ^ k -> 0 <= b < 2 ^ k -> 0 <= Z.lor a b < 2 ^ k.
Proof.
  intros Hk [Ha0 Ha] [Hb0 Hb]. split; [by apply Z.lor_nonneg|].
  apply Z.bounded_iff_bits_nonneg; [done|by apply Z.lor_nonneg|].
  intros l Hl. rewrite Z.lor_spec.
  rewrite (proj1 (Z.bounded_iff_bits_nonneg k a Hk Ha0) Ha l Hl).
  by rewrite (proj1 (Z.bounded_iff_bits_nonneg k b Hk Hb0) Hb l Hl).
Qed.

Lemma shiftl_byte_bounded (x n : Z) :
  0 <= n <= 24 -> 0 <= x < 256 -> 0 <= Z.shiftl x n < 2 ^ 32.
Proof.
  intros Hn Hx. rewrite Z.shiftl_mul_pow2 by lia. split; [lia|].
  assert (2 ^ n <= 2 ^ 24) by (apply Z.pow_le_mono_r; lia). nia.
Qed.

Lemma ntohl_range (v : Z) : 0 <= ntohl v < 2 ^ 32.
Proof.
  unfold ntohl.
  repeat apply lor_bounded; try lia;
    try (apply shiftl_byte_bounded; [lia|apply land_255_range]).
  pose proof (land_255_range (Z.shiftr v 24)). lia.
Qed.

(** * The handlers of the sample tables *)

#[global] Instance installed_file_indep {A : Type}
    (set : option (list A) -> mp4_track -> mp4_track)
    (setc : Z -> mp4_track -> mp4_track) (ok : A -> Prop)
    (T : list mp4_track) (h : nat) (tk : mp4_track) (n : Z) :
  FileIndep (installed set setc ok T h tk n).
Proof. intros f d H. exact H. Qed.

Lemma hoare_get_track (T : list mp4_track) (h : nat) :
  hoare (fun d => dm_tracks d = T) (get_track h)
    (fun tk d => T !! h = Some tk /\ dm_tracks d = T).
Proof.
  intros d tk d' HT H. unfold get_track in H.
  destruct (dm_tracks d !! h) as [tk'|] eqn:Htk; [|done].
  injection H as <- <-. by rewrite <- HT.
Qed.

Lemma hoare_require_track (P : mp4_demux -> Prop) (track : option nat) :
  hoare P (require_track track) (fun h d => track = Some h /\ P d).
Proof.
  intros d h d' HP H. unfold require_track in H.
  apply bind_Ok in H as ([] & d1 & H1 & H).
  apply defined_Ok in H as [Htrack ->].
  split; [done|]. by eapply (pres_log_macro P).
Qed.

Lemma hoare_macro (P : mp4_demux -> Prop) (cond : bool) (err : Z) :
  hoare P (MP4_LOG_ERR_AND_RETURN_ERR_IF_FAILED cond err)
    (fun _ d => cond = true /\ P d).
Proof.
  intros d [] d' HP H. destruct cond; [|done]. by injection H as <-.
Qed.

Section table_handler.
Context {A : Type} (get : mp4_track -> option (list A)).
Context (set : option (list A) -> mp4_track -> mp4_track).
Context (setc : Z -> mp4_track -> mp4_track) (ok : A -> Prop).
Hypothesis get_set : forall a tk, get (set a tk) = a.
Hypothesis set_set : forall a b tk, set a (set b tk) = set a tk.

(** The test that the table is not there yet. *)
Lemma hoare_table_head (T : list mp4_track) (track : option nat) (err : Z)
    (k : nat -> M Z) (Q : Z -> mp4_demux -> Prop) :
  (forall h tk, track = Some h -> T !! h = Some tk -> get tk = None ->
     hoare (fun d => dm_tracks d = T) (k h) Q) ->
  hoare (fun d => dm_tracks d = T)
    (let* h := require_track track in
     let* tk := get_track h in
     MP4_LOG_ERR_AND_RETURN_ERR_IF_FAILED (bool_decide (get tk = None)) err;;;
     k h) Q.
Proof.
  intros Hk. eapply hoare_bind; [apply hoare_require_track|].
  intros h. apply hoare_pure. intros Htrack.
  eapply hoare_bind; [apply hoare_get_track|].
  intros tk. apply hoare_pure. intros Htk.
  eapply hoare_bind; [apply hoare_macro|].
  intros []. apply hoare_pure. intros Hnone%bool_decide_eq_true.
  by eapply Hk.
Qed.

Context (T : list mp4_track) (h : nat) (tk : mp4_track) (n : Z).
Hypothesis HT : T !! h = Some tk.

(** The count is set and the table allocated. *)
Lemma hoare_install (x0 : A) (rest : M Z) :
  ok x0 ->
  pres (installed set setc ok T h tk n) rest ->
  hoare (fun d => dm_tracks d = T)
    (upd_track h (setc n);;;
     upd_track h (set (Some (replicate (Z.to_nat n) x0)));;;
     rest)
    (fun _ => installed set setc ok T h tk n).
Proof.
  intros Hx0 Hrest d r d' Hd H.
  apply bind_Ok in H as ([] & d1 & H1 & H).
  apply bind_Ok in H as ([] & d2 & H2 & H).
  eapply Hrest; [|exact H].
  unfold upd_track in H1. rewrite Hd, HT in H1. injection H1 as <-.
  unfold upd_track in H2.
  change (dm_tracks (set_dm_tracks ?x _)) with x in H2.
  rewrite list_lookup_insert_eq in H2 by (by eapply lookup_lt_Some).
  injection H2 as <-. eexists. split; [|split].
  - change (dm_tracks (set_dm_tracks ?x _)) with x.
    by rewrite list_insert_insert_eq.
  - by rewrite length_replicate.
  - by apply Forall_replicate.
Qed.

Lemma hoare_install_table (track : option nat) (x0 : A) (rest : M Z) :
  track = Some h -> get tk = None -> 0 <= n < 2 ^ 32 -> ok x0 ->
  pres (installed set setc ok T h tk n) rest ->
  hoare (fun d => dm_tracks d = T)
    (upd_track h (setc n);;;
     upd_track h (set (Some (replicate (Z.to_nat n) x0)));;;
     rest)
    (fun _ => table_installed get set setc ok T track).
Proof.
  intros Htrack Hnone Hn Hx0 Hrest d r d' Hd H.
  exists h, tk, n. do 4 (split; [done|]).
  by eapply hoare_install.
Qed.

(** An assignment to a cell of the table. *)
Lemma pres_upd_table (i : Z) (f : A -> A) :
  (forall x, ok x -> ok (f x)) ->
  pres (installed set setc ok T h tk n) (upd_table h get set i f).
Proof.
  intros Hf d [] d' (l & Hd & Hlen & Hok) H. unfold upd_table in H.
  apply bind_Ok in H as (tk' & d1 & H1 & H).
  unfold get_track in H1. rewrite Hd in H1.
  rewrite list_lookup_insert_eq in H1 by (by eapply lookup_lt_Some).
  injection H1 as <- <-.
  apply bind_Ok in H as (table & d1 & [Hmod ->]%defined_Ok & H).
  unfold upd_track in H. rewrite Hd in H.
  rewrite list_lookup_insert_eq in H by (by eapply lookup_lt_Some).
  injection H as <-.
  rewrite get_set in Hmod. unfold amod in Hmod.
  destruct (aget (Some l) i) as [x|] eqn:Hx; [|done]. simpl in Hmod.
  apply aget_Some in Hx as (? & [= <-] & Hi & Hx).
  destruct (decide _) as [_|]; [|done]. injection Hmod as <-.
  exists (<[Z.to_nat i := f x]> l). split; [|split].
  - change (dm_tracks (set_dm_tracks ?x _)) with x.
    by rewrite list_insert_insert_eq, set_set.
  - by rewrite length_insert.
  - apply Forall_insert; [done|]. apply Hf.
    by eapply Forall_lookup_1.
Qed.
End table_handler.

Lemma hoare_bind_pres {A B : Type} (P : mp4_demux -> Prop) (m : M A)
    (k : A -> M B) (R : B -> mp4_demux -> Prop) :
  pres P m -> (forall a, hoare P (k a) R) -> hoare P (bind m k) R.
Proof. intros Hm Hk. by eapply hoare_bind. Qed.

(** A step that does not touch the tracks. *)
Ltac hoare_keep := apply hoare_bind_pres; [pres_auto|].

(** The part of a handler that follows the allocation of its table;
    what is left to prove is that the assignments keep the cells valid. *)
Ltac pres_installed :=
  repeat first
    [ eapply pres_upd_table;
      [intros; reflexivity | intros; reflexivity | eassumption | ]
    | pres_step ].

(** The allocation and what follows. *)
Ltac hoare_installs get :=
  eapply (hoare_install_table get);
  [eassumption | eassumption | eassumption | apply ntohl_range | |
   pres_installed].

Lemma parse_stts_installed T maxBytes track :
  hoare (fun d => dm_tracks d = T) (mp4_demux_parse_stts maxBytes track)
    (fun _ => table_installed tk_timeToSampleEntries
                set_tk_timeToSampleEntries set_tk_timeToSampleEntryCount
                (fun _ => True) T track).
Proof.
  unfold mp4_demux_parse_stts.
  apply (hoare_table_head tk_timeToSampleEntries). intros h tk ? ? ?.
  hoare_keep. intros _. hoare_keep. intros [_ b1]. hoare_keep.
  intros [v b2]. hoare_installs tk_timeToSampleEntries; done.
Qed.

Lemma parse_stss_installed T maxBytes track :
  hoare (fun d => dm_tracks d = T) (mp4_demux_parse_stss maxBytes track)
    (fun _ => table_installed tk_syncSampleEntries
                set_tk_syncSampleEntries set_tk_syncSampleEntryCount
                (fun _ => True) T track).
Proof.
  unfold mp4_demux_parse_stss.
  apply (hoare_table_head tk_syncSampleEntries). intros h tk ? ? ?.
  hoare_keep. intros _. hoare_keep. intros [_ b1]. hoare_keep.
  intros [v b2]. hoare_installs tk_syncSampleEntries; done.
Qed.

Lemma parse_stsz_installed T maxBytes track :
  hoare (fun d => dm_tracks d = T) (mp4_demux_parse_stsz maxBytes track)
    (fun _ => table_installed tk_sampleSize set_tk_sampleSize
                set_tk_sampleCount (fun x => 0 <= x) T track).
Proof.
  unfold mp4_demux_parse_stsz.
  apply (hoare_table_head tk_sampleSize). intros h tk ? ? ?.
  hoare_keep. intros _. hoare_keep. intros [_ b1]. hoare_keep.
  intros [v b2]. hoare_keep. intros [v' b3].
  hoare_installs tk_sampleSize; try done; intros; apply ntohl_range.
Qed.

Lemma parse_stsc_installed T maxBytes track :
  hoare (fun d => dm_tracks d = T) (mp4_demux_parse_stsc maxBytes track)
    (fun _ => table_installed tk_sampleToChunkEntries
                set_tk_sampleToChunkEntries set_tk_sampleToChunkEntryCount
                stsc_entry_ok T track).
Proof.
  unfold mp4_demux_parse_stsc.
  apply (hoare_table_head tk_sampleToChunkEntries). intros h tk ? ? ?.
  hoare_keep. intros _. hoare_keep. intros [_ b1]. hoare_keep.
  intros [v b2].
  hoare_installs tk_sampleToChunkEntries; try done;
    intros e [He Hs]; split; simpl; first [done | apply ntohl_range].
Qed.

Lemma parse_stco_installed T maxBytes track :
  hoare (fun d => dm_tracks d = T) (mp4_demux_parse_stco maxBytes track)
    (fun _ => table_installed tk_chunkOffset set_tk_chunkOffset
                set_tk_chunkCount (fun x => 0 <= x) T track).
Proof.
  unfold mp4_demux_parse_stco.
  apply (hoare_table_head tk_chunkOffset). intros h tk ? ? ?.
  hoare_keep. intros _. hoare_keep. intros [_ b1]. hoare_keep.
  intros [v b2].
  hoare_installs tk_chunkOffset; try done; intros; apply ntohl_range.
Qed.

Lemma parse_co64_installed T maxBytes track :
  hoare (fun d => dm_tracks d = T) (mp4_demux_parse_co64 maxBytes track)
    (fun _ => table_installed tk_chunkOffset set_tk_chunkOffset
                set_tk_chunkCount (fun x => 0 <= x) T track).
Proof.
  unfold mp4_demux_parse_co64.
  apply (hoare_table_head tk_chunkOffset). intros h tk ? ? ?.
  hoare_keep. intros _. hoare_keep. intros [_ b1]. hoare_keep.
  intros [v b2].
  hoare_installs tk_chunkOffset; try done; intros x Hx.
  - apply Z.shiftl_nonneg, ntohl_range.
  - apply Z.lor_nonneg. split; [done|]. apply Z.land_nonneg. by right.
Qed.

(** * Two invariants of the parser *)

Lemma pres_of_installed {A : Type} (P : mp4_demux -> Prop) (handler : M Z)
    (get : mp4_track -> option (list A)) set setc ok track :
  (forall T, hoare (fun d => dm_tracks d = T) handler
               (fun _ => table_installed get set setc ok T track)) ->
  (forall d d', P d ->
     table_installed get set setc ok (dm_tracks d) track d' -> P d') ->
  pres P handler.
Proof.
  intros Hspec HP d a d' Hd H. eapply HP; [done|].
  by eapply (Hspec (dm_tracks d)).
Qed.

Lemma Forall_tables (Q : mp4_track -> Prop) :
  (forall tk tk', tables tk = tables tk' -> Q tk -> Q tk') ->
  forall T T', tables <$> T = tables <$> T' -> Forall Q T -> Forall Q T'.
Proof.
  intros HQ T. induction T as [|tk T IH]; intros [|tk' T'] Heq HF;
    try done.
  rewrite !fmap_cons in Heq.
  assert (tables tk = tables tk') as Htk by congruence.
  assert (tables <$> T = tables <$> T') as HT by congruence.
  apply Forall_cons_1 in HF as [Hq HF].
  constructor; [by eapply HQ|by apply IH].
Qed.

(** ** The tables are well formed *)

Lemma wf_tables_ext (tk tk' : mp4_track) :
  tables tk = tables tk' -> wf_tables tk -> wf_tables tk'.
Proof.
  intros Heq [H1 H2 H3 H4 H5 H6 H7 H8]. unfold tables in Heq.
  injection Heq as E1 E2 E3 E4 E5 E6 E7 E8 E9 E10.
  constructor; congruence.
Qed.

#[global] Instance wf_all_tables_inv : TablesInv wf_all.
Proof.
  intros d d' Heq. unfold wf_all.
  eapply Forall_tables; [apply wf_tables_ext|done].
Qed.

Lemma wf_tables_zero : wf_tables mp4_track_zero.
Proof. constructor; simpl; by try constructor. Qed.

Lemma wf_all_new_track (d : mp4_demux) :
  wf_all d -> wf_all (set_dm_tracks (dm_tracks d ++ [mp4_track_zero]) d).
Proof.
  unfold wf_all. intros Hd.
  change (dm_tracks (set_dm_tracks ?x _)) with x.
  apply Forall_app. split; [done|].
  constructor; [apply wf_tables_zero|constructor].
Qed.

(** A handler that returns has left a well-formed track, provided the
    track it has changed is one. *)
Lemma wf_all_installed {A : Type} (get : mp4_track -> option (list A))
    set setc ok track (d d' : mp4_demux) :
  (forall tk l n, wf_tables tk -> get tk = None -> 0 <= n < 2 ^ 32 ->
     length l = Z.to_nat n -> Forall ok l ->
     wf_tables (set (Some l) (setc n tk))) ->
  wf_all d ->
  table_installed get set setc ok (dm_tracks d) track d' -> wf_all d'.
Proof.
  intros Hwf Hd (h & tk & n & _ & Htk & Hnone & Hn & l & Heq & Hlen & Hok).
  unfold wf_all in *. rewrite Heq. apply Forall_insert; [done|].
  apply Hwf; try done. by eapply Forall_lookup_1.
Qed.

Lemma pres_wf_stts maxBytes track :
  pres wf_all (mp4_demux_parse_stts maxBytes track).
Proof.
  eapply pres_of_installed; [intros; apply parse_stts_installed|].
  intros d d'. apply wf_all_installed.
  intros tk l n [] ? ? Hlen ?. constructor; try done. simpl. lia.
Qed.

Lemma pres_wf_stss maxBytes track :
  pres wf_all (mp4_demux_parse_stss maxBytes track).
Proof.
  eapply pres_of_installed; [intros; apply parse_stss_installed|].
  intros d d'. apply wf_all_installed.
  intros tk l n [] ? ? ? ?. by constructor.
Qed.

Lemma pres_wf_stsz maxBytes track :
  pres wf_all (mp4_demux_parse_stsz maxBytes track).
Proof.
  eapply pres_of_installed; [intros; apply parse_stsz_installed|].
  intros d d'. apply wf_all_installed.
  intros tk l n [] ? ? Hlen ?. constructor; try done. simpl. lia.
Qed.

Lemma pres_wf_stsc maxBytes track :
  pres wf_all (mp4_demux_parse_stsc maxBytes track).
Proof.
  eapply pres_of_installed; [intros; apply parse_stsc_installed|].
  intros d d'. apply wf_all_installed.
  intros tk l n [] ? ? Hlen ?. constructor; try done. simpl. lia.
Qed.

Lemma wf_tables_chunks (tk : mp4_track) (l : list Z) (n : Z) :
  wf_tables tk -> 0 <= n < 2 ^ 32 -> length l = Z.to_nat n ->
  Forall (fun x => 0 <= x) l ->
  wf_tables (set_tk_chunkOffset (Some l) (set_tk_chunkCount n tk)).
Proof. intros [] ? Hlen ?. constructor; try done. simpl. lia. Qed.

Lemma pres_wf_stco maxBytes track :
  pres wf_all (mp4_demux_parse_stco maxBytes track).
Proof.
  eapply pres_of_installed; [intros; apply parse_stco_installed|].
  intros d d'. apply wf_all_installed. intros. by apply wf_tables_chunks.
Qed.

Lemma pres_wf_co64 maxBytes track :
  pres wf_all (mp4_demux_parse_co64 maxBytes track).
Proof.
  eapply pres_of_installed; [intros; apply parse_co64_installed|].
  intros d d'. apply wf_all_installed. intros. by apply wf_tables_chunks.
Qed.

Lemma pres_wf_parse_children fuel parent maxBytes track :
  pres wf_all (mp4_demux_parse_children fuel parent maxBytes track).
Proof.
  apply pres_parse_children; first
    [ apply _ | apply wf_all_new_track | apply pres_wf_stts
    | apply pres_wf_stss | apply pres_wf_stsz | apply pres_wf_stsc
    | apply pres_wf_stco | apply pres_wf_co64 ].
Qed.

(** ** A table that is set is never changed *)

Lemma frozen_refl (tk : mp4_track) : frozen tk tk.
Proof. by repeat split. Qed.

Lemma frozen_ext (tk tk' tk'' : mp4_track) :
  tables tk' = tables tk'' -> frozen tk tk' -> frozen tk tk''.
Proof.
  intros Heq (H1 & H2 & H3 & H4 & H5). unfold tables in Heq.
  injection Heq as E1 E2 E3 E4 E5 E6 E7 E8 E9 E10.
  unfold frozen, kept in *.
  rewrite <- E1, <- E2, <- E3, <- E4, <- E5, <- E6, <- E7, <- E8, <- E9,
    <- E10. done.
Qed.

#[global] Instance frozen_from_tables_inv (T : list mp4_track) :
  TablesInv (frozen_from T).
Proof.
  intros d d' Heq Hd h tk Htk.
  destruct (Hd h tk Htk) as (tk' & Htk' & Hfr).
  assert ((tables <$> dm_tracks d') !! h = Some (tables tk')) as Hl.
  { by rewrite <- Heq, list_lookup_fmap, Htk'. }
  rewrite list_lookup_fmap in Hl.
  destruct (dm_tracks d' !! h) as [tk''|]; [|done].
  simpl in Hl. exists tk''. split; [done|].
  eapply frozen_ext; [|done]. congruence.
Qed.

Lemma frozen_from_new_track (T : list mp4_track) (d : mp4_demux) :
  frozen_from T d ->
  frozen_from T (set_dm_tracks (dm_tracks d ++ [mp4_track_zero]) d).
Proof.
  intros Hd h tk Htk. destruct (Hd h tk Htk) as (tk' & Htk' & Hfr).
  exists tk'. split; [|done].
  change (dm_tracks (set_dm_tracks ?x _)) with x.
  by apply lookup_app_l_Some.
Qed.

Lemma frozen_from_installed {A : Type} (get : mp4_track -> option (list A))
    set setc ok track (T : list mp4_track) (d d' : mp4_demux) :
  (forall tk0 tk l n, frozen tk0 tk -> get tk = None ->
     frozen tk0 (set (Some l) (setc n tk))) ->
  frozen_from T d ->
  table_installed get set setc ok (dm_tracks d) track d' ->
  frozen_from T d'.
Proof.
  intros Hfr Hd (h & tk & n & _ & Htk & Hnone & _ & l & Heq & _) h0 tk0 H0.
  destruct (Hd h0 tk0 H0) as (tk1 & H1 & Hf1). rewrite Heq.
  destruct (decide (h0 = h)) as [->|Hne].
  - rewrite list_lookup_insert_eq by (by eapply lookup_lt_Some).
    eexists. split; [done|]. apply Hfr; [|done]. congruence.
  - rewrite list_lookup_insert_ne by done. eauto.
Qed.

(** The table that a handler fills was not set before, so that nothing
    that was set has changed. *)
Ltac frozen_installed :=
  let H1 := fresh "Htts" in let H2 := fresh "Hss" in
  let H3 := fresh "Hsz" in let H4 := fresh "Hstc" in
  let H5 := fresh "Hco" in
  let Hnone := fresh "Hnone" in let Hne := fresh "Hne" in
  intros ? ? ? ? (H1 & H2 & H3 & H4 & H5) Hnone; unfold frozen, kept in *;
  split_and !; intros Hne; simpl; try (by auto);
  exfalso;
  first [ destruct (H1 Hne); congruence | destruct (H2 Hne); congruence
        | destruct (H3 Hne); congruence | destruct (H4 Hne); congruence
        | destruct (H5 Hne); congruence ].

Section frozen.
Context (T : list mp4_track).

Lemma pres_frozen_stts maxBytes track :
  pres (frozen_from T) (mp4_demux_parse_stts maxBytes track).
Proof.
  eapply pres_of_installed; [intros; apply parse_stts_installed|].
  intros d d' Hd Hi.
  eapply (frozen_from_installed _ _ _ _ _ T d d'); [|exact Hd|exact Hi].
  frozen_installed.
Qed.

Lemma pres_frozen_stss maxBytes track :
  pres (frozen_from T) (mp4_demux_parse_stss maxBytes track).
Proof.
  eapply pres_of_installed; [intros; apply parse_stss_installed|].
  intros d d' Hd Hi.
  eapply (frozen_from_installed _ _ _ _ _ T d d'); [|exact Hd|exact Hi].
  frozen_installed.
Qed.

Lemma pres_frozen_stsz maxBytes track :
  pres (frozen_from T) (mp4_demux_parse_stsz maxBytes track).
Proof.
  eapply pres_of_installed; [intros; apply parse_stsz_installed|].
  intros d d' Hd Hi.
  eapply (frozen_from_installed _ _ _ _ _ T d d'); [|exact Hd|exact Hi].
  frozen_installed.
Qed.

Lemma pres_frozen_stsc maxBytes track :
  pres (frozen_from T) (mp4_demux_parse_stsc maxBytes track).
Proof.
  eapply pres_of_installed; [intros; apply parse_stsc_installed|].
  intros d d' Hd Hi.
  eapply (frozen_from_installed _ _ _ _ _ T d d'); [|exact Hd|exact Hi].
  frozen_installed.
Qed.

Lemma pres_frozen_stco maxBytes track :
  pres (frozen_from T) (mp4_demux_parse_stco maxBytes track).
Proof.
  eapply pres_of_installed; [intros; apply parse_stco_installed|].
  intros d d' Hd Hi.
  eapply (frozen_from_installed _ _ _ _ _ T d d'); [|exact Hd|exact Hi].
  frozen_installed.
Qed.

Lemma pres_frozen_co64 maxBytes track :
  pres (frozen_from T) (mp4_demux_parse_co64 maxBytes track).
Proof.
  eapply pres_of_installed; [intros; apply parse_co64_installed|].
  intros d d' Hd Hi.
  eapply (frozen_from_installed _ _ _ _ _ T d d'); [|exact Hd|exact Hi].
  frozen_installed.
Qed.

Lemma pres_frozen_parse_children fuel parent maxBytes track :
  pres (frozen_from T) (mp4_demux_parse_children fuel parent maxBytes track).
Proof.
  apply pres_parse_children; first
    [ apply _ | apply frozen_from_new_track | apply pres_frozen_stts
    | apply pres_frozen_stss | apply pres_frozen_stsz | apply pres_frozen_stsc
    | apply pres_frozen_stco | apply pres_frozen_co64 ].
Qed.
End frozen.

(** * The sample arrays built by [mp4_demux_build_tracks] *)

#[global] Instance derived_inv_file_indep (P : mp4_demux -> Prop) :
  DerivedInv P -> FileIndep P.
Proof. intros HP f d Hd. by apply (derived_inv d). Qed.

Lemma pres_modify_derived (P : mp4_demux -> Prop) `{!DerivedInv P}
    (f : mp4_demux -> mp4_demux) :
  (forall d, derived <$> dm_tracks (f d) = derived <$> dm_tracks d) ->
  pres P (modify f).
Proof. intros Hf. apply pres_modify. intros d Hd. by apply (derived_inv d). Qed.

Lemma pres_upd_track_derived (P : mp4_demux -> Prop) `{!DerivedInv P}
    (h : nat) (f : mp4_track -> mp4_track) :
  (forall tk, derived (f tk) = derived tk) -> pres P (upd_track h f).
Proof.
  intros Hf d a d' HP H. unfold upd_track in H.
  destruct (dm_tracks d !! h) as [tk|] eqn:Htk; [|done].
  injection H as _ <-. apply (derived_inv d); [|done].
  change (dm_tracks (set_dm_tracks ?x _)) with x.
  rewrite list_fmap_insert, Hf, list_insert_id; [done|].
  by rewrite list_lookup_fmap, Htk.
Qed.

Ltac pres_derived_step :=
  lazymatch goal with
  | |- pres _ (modify _) =>
      apply pres_modify_derived;
      [first [assumption | typeclasses eauto] | intros; reflexivity]
  | |- pres _ (upd_track _ _) =>
      apply pres_upd_track_derived;
      [first [assumption | typeclasses eauto] | intros; reflexivity]
  | |- _ => pres_step
  end.

Ltac pres_derived := repeat pres_derived_step.

Section links.
Context (P : mp4_demux -> Prop) `{!DerivedInv P}.

Lemma pres_link_track h loc : pres P (link_track h loc).
Proof. unfold link_track. pres_derived. Qed.

Lemma pres_link_single_metadata loc : pres P (link_single_metadata loc).
Proof. unfold link_single_metadata. pres_derived. Qed.

Lemma pres_build_chapter hChap i u : pres P (build_chapter hChap i u).
Proof. unfold build_chapter. pres_derived. Qed.

Lemma pres_build_chapters loc : pres P (build_chapters loc).
Proof.
  unfold build_chapters. pres_derived. apply pres_build_chapter.
Qed.
End links.

Lemma built_ext (tk tk' : mp4_track) :
  derived tk = derived tk' -> built tk -> built tk'.
Proof.
  unfold derived, tables, built. intros Heq.
  injection Heq as E1 E2 E3 E4 E5 E6 E7 E8 E9 E10 E11 E12 E13.
  unfold stsc_sample_count, fill_sample_offsets, fill_entry,
    stts_sample_count, fill_decoding_times.
  by rewrite E1, E2, E3, E4, E5, E6, E7, E8, E11, E12.
Qed.

(** The sample tables of one track. *)
Lemma build_track_tables_built (T : list mp4_track) (h : nat) :
  hoare (fun d => dm_tracks d = T) (build_track_tables h)
    (fun _ d' => exists tk tk',
       T !! h = Some tk /\ dm_tracks d' = <[h := tk']> T
       /\ tables tk' = tables tk /\ built tk').
Proof.
  intros d [] d' Hd H. unfold build_track_tables in H.
  apply bind_Ok in H as (tk & d1 & H1 & H).
  apply (hoare_get_track T h d) in H1 as [Htk Hd1]; [|done].
  assert (h < length T)%nat as Hh by (by eapply lookup_lt_Some).
  apply bind_Ok in H as (sc & ? & [Hsc ->]%defined_Ok & H).
  destruct (decide (sc <> tk_sampleCount tk)) as [|Hcount%dec_stable];
    [done|]. subst sc.
  apply bind_Ok in H as ([] & d2 & H2 & H).
  unfold upd_track in H2. rewrite Hd1, Htk in H2. injection H2 as <-.
  apply bind_Ok in H as (so & ? & [Hso ->]%defined_Ok & H).
  apply bind_Ok in H as ([] & d3 & H3 & H).
  unfold upd_track in H3.
  change (dm_tracks (set_dm_tracks ?x _)) with x in H3.
  rewrite list_lookup_insert_eq in H3 by done. injection H3 as <-.
  rewrite list_insert_insert_eq in H.
  apply bind_Ok in H as (sc & ? & [Hsc2 ->]%defined_Ok & H).
  destruct (decide (sc <> tk_sampleCount tk)) as [|Hcount%dec_stable];
    [done|]. subst sc.
  apply bind_Ok in H as ([] & d4 & H4 & H).
  unfold upd_track in H4.
  change (dm_tracks (set_dm_tracks ?x _)) with x in H4.
  rewrite list_lookup_insert_eq in H4 by done. injection H4 as <-.
  rewrite list_insert_insert_eq in H.
  apply bind_Ok in H as (dt & ? & [Hdt ->]%defined_Ok & H).
  unfold upd_track in H.
  change (dm_tracks (set_dm_tracks ?x _)) with x in H.
  rewrite list_lookup_insert_eq in H by done. injection H as <-.
  change (dm_tracks (set_dm_tracks ?x _)) with x.
  rewrite list_insert_insert_eq.
  eexists tk, _. split; [done|]. split; [done|]. split; [done|].
  split_and !; done.
Qed.


Lemma derived_tables (l l' : list mp4_track) :
  derived <$> l = derived <$> l' -> tables <$> l = tables <$> l'.
Proof.
  intros Heq.
  assert (forall tks : list mp4_track,
            tables <$> tks = (fun x => x.1.1.1) <$> (derived <$> tks)) as Htab.
  { intros tks. rewrite <- list_fmap_compose. by apply list_fmap_ext. }
  by rewrite !Htab, Heq.
Qed.

#[global] Instance built_from_derived_inv (T : list mp4_track) (n : nat) :
  DerivedInv (built_from T n).
Proof.
  intros d d' Heq [Htab Hbuilt]. split.
  - rewrite <- Htab. symmetry. by apply derived_tables.
  - intros h tk' Hn Htk'.
    assert ((derived <$> dm_tracks d) !! h = Some (derived tk')) as Hl.
    { by rewrite Heq, list_lookup_fmap, Htk'. }
    rewrite list_lookup_fmap in Hl.
    destruct (dm_tracks d !! h) as [tk|] eqn:Htk; [|done]. simpl in Hl.
    eapply (built_ext tk); [congruence|]. by eapply Hbuilt.
Qed.

Lemma build_track_built (T : list mp4_track) (h : nat) loc :
  hoare (built_from T (S h)) (build_track h loc) (fun _ => built_from T h).
Proof.
  intros d loc' d' [Htab Hbuilt] H. unfold build_track in H.
  apply bind_Ok in H as ([] & d1 & H1 & H).
  apply (build_track_tables_built (dm_tracks d) h d) in H1
    as (tk & tk' & Htk & Hd1 & Htables & Hb); [|done].
  eapply (pres_elim (built_from T h)); [| |exact H].
  - pres_derived. apply pres_link_track. apply _.
  - split.
    + rewrite Hd1, list_fmap_insert, Htables, list_insert_id; [done|].
      by rewrite list_lookup_fmap, Htk.
    + intros h' tk'' Hh'. rewrite Hd1.
      destruct (decide (h' = h)) as [->|Hne].
      * rewrite list_lookup_insert_eq by (by eapply lookup_lt_Some).
        by intros [= <-].
      * rewrite list_lookup_insert_ne by done. apply Hbuilt. lia.
Qed.

Lemma build_tracks_loop_built (T : list mp4_track) (n : nat) :
  forall loc,
  hoare (built_from T n) (build_tracks_loop n loc) (fun _ => built_from T 0).
Proof.
  induction n as [|n IH]; intros loc; simpl.
  - by apply hoare_ret.
  - eapply hoare_bind; [apply build_track_built|]. intros loc'. apply IH.
Qed.

(** After [mp4_demux_build_tracks] every track is built, on the tables
    that the parser has left. *)
Lemma build_tracks_built (d d' : mp4_demux) :
  mp4_demux_build_tracks d = Ok tt d' ->
  built_from (dm_tracks d) 0 d'.
Proof.
  unfold mp4_demux_build_tracks. intros H.
  apply bind_Ok in H as (n & ? & [-> ->]%gets_Ok & H).
  apply bind_Ok in H as (loc & d1 & H1 & H).
  apply (build_tracks_loop_built (dm_tracks d)) in H1.
  - eapply (pres_elim (built_from (dm_tracks d) 0)); [|exact H1|exact H].
    apply pres_bind; [apply pres_link_single_metadata; apply _|].
    intros _. apply pres_build_chapters. apply _.
  - split; [done|]. intros h tk Hh Htk.
    apply lookup_lt_Some in Htk. lia.
Qed.

(** * The errors of [mp4_demux_build_tracks] *)

Lemma errs_bind {A B : Type} (S : Z -> Prop) (m : M A) (k : A -> M B) :
  errs S m -> (forall a, errs S (k a)) -> errs S (bind m k).
Proof.
  intros Hm Hk d c d' [H|(a & d1 & _ & H)]%bind_Err; [by eapply Hm|].
  by eapply Hk.
Qed.

Lemma errs_ret {A : Type} (S : Z -> Prop) (x : A) : errs S (ret x).
Proof. by intros d c d'. Qed.

Lemma errs_fail {A : Type} (S : Z -> Prop) (c : Z) : S c -> errs S (@fail A c).
Proof. intros Hc d c' d' [= <- _]. done. Qed.

Lemma errs_undef {A : Type} (S : Z -> Prop) : errs S (@undef A).
Proof. by intros d c d'. Qed.

Lemma errs_gets {A : Type} (S : Z -> Prop) (f : mp4_demux -> A) :
  errs S (gets f).
Proof. by intros d c d'. Qed.

Lemma errs_modify (S : Z -> Prop) (f : mp4_demux -> mp4_demux) :
  errs S (modify f).
Proof. by intros d c d'. Qed.

Lemma errs_defined {A : Type} (S : Z -> Prop) (o : option A) :
  errs S (defined o).
Proof. destruct o; [apply errs_ret|apply errs_undef]. Qed.

Lemma errs_get_track (S : Z -> Prop) (h : nat) : errs S (get_track h).
Proof. intros d c d' H. unfold get_track in H. by destruct (_ !! _). Qed.

Lemma errs_upd_track (S : Z -> Prop) (h : nat) f : errs S (upd_track h f).
Proof. intros d c d' H. unfold upd_track in H. by destruct (_ !! _). Qed.

Lemma errs_fread (S : Z -> Prop) (size : Z) : errs S (fread size).
Proof. intros d c d' H. unfold fread in H. by destruct (fread_file _ _). Qed.

Lemma errs_forM {St : Type} (S : Z -> Prop) (n : nat) (i : Z)
    (body : Z -> St -> M St) (s : St) :
  (forall i s, errs S (body i s)) -> errs S (forM n i body s).
Proof.
  intros Hbody. revert i s. induction n as [|n IH]; intros i s; simpl.
  - apply errs_ret.
  - apply errs_bind; [apply Hbody|intros; apply IH].
Qed.

Lemma errs_seek_set (off : Z) :
  errs (fun c => c <> - EPROTO) (seek_or_fail (fseeko_set off)).
Proof.
  intros d c d' H. unfold seek_or_fail, bind, fseeko_set, fseeko_to in H.
  repeat destruct (decide _); simpl in H; try done;
    injection H as <- _; by vm_compute.
Qed.

Lemma errs_MP4_READ (size readBytes : Z) :
  errs (fun c => c <> - EPROTO) (MP4_READ size readBytes).
Proof.
  apply errs_bind; [apply errs_fread|].
  intros [bs|]; [apply errs_ret|by apply errs_fail].
Qed.

Ltac errs_step :=
  lazymatch goal with
  | |- errs _ (bind _ _) => apply errs_bind; [|intros]
  | |- errs _ (ret _) => apply errs_ret
  | |- errs _ undef => apply errs_undef
  | |- errs _ (fail _) => by apply errs_fail
  | |- errs _ (gets _) => apply errs_gets
  | |- errs _ (modify _) => apply errs_modify
  | |- errs _ (defined _) => apply errs_defined
  | |- errs _ (get_track _) => apply errs_get_track
  | |- errs _ (upd_track _ _) => apply errs_upd_track
  | |- errs _ (fread _) => apply errs_fread
  | |- errs _ (seek_or_fail (fseeko_set _)) => apply errs_seek_set
  | |- errs _ (MP4_READ_16 _) => apply errs_MP4_READ
  | |- errs _ (forM _ _ _ _) => apply errs_forM; intros
  | |- errs _ (match ?x with _ => _ end) => destruct x
  | |- errs _ (let '(_, _) := ?x in _) => destruct x
  end.

Lemma errs_link_track (S : Z -> Prop) h loc : errs S (link_track h loc).
Proof. unfold link_track. repeat errs_step. Qed.

Lemma errs_link_single_metadata (S : Z -> Prop) loc :
  errs S (link_single_metadata loc).
Proof. unfold link_single_metadata. repeat errs_step. Qed.

Lemma errs_build_chapters loc :
  errs (fun c => c <> - EPROTO) (build_chapters loc).
Proof. unfold build_chapters, build_chapter. repeat errs_step. Qed.

Lemma count_mismatch_ext (tk tk' : mp4_track) :
  tables tk = tables tk' -> count_mismatch tk -> count_mismatch tk'.
Proof.
  unfold tables, count_mismatch. intros Heq.
  injection Heq as E1 E2 E3 E4 E5 E6 E7 E8 E9 E10.
  unfold stsc_sample_count, stts_sample_count.
  by rewrite E1, E3, E5, E6, E7, E8.
Qed.

(** The sample tables of a track are refused with [-EPROTO], and only
    for a count that does not match. *)
Lemma build_track_tables_Err (h : nat) (d d' : mp4_demux) (c : Z) :
  build_track_tables h d = Err c d' ->
  c = - EPROTO /\ exists tk, dm_tracks d !! h = Some tk /\ count_mismatch tk.
Proof.
  unfold build_track_tables. intros H.
  apply bind_Err in H as [H|(tk & d1 & H1 & H)]; [by apply (errs_get_track (fun _ => False)) in H|].
  unfold get_track in H1.
  destruct (dm_tracks d !! h) as [tk'|] eqn:Htk; [|done].
  injection H1 as -> ->.
  apply bind_Err in H as [H|(sc & ? & [Hsc ->]%defined_Ok & H)];
    [by apply (errs_defined (fun _ => False)) in H|].
  destruct (decide (sc <> tk_sampleCount tk)) as [Hne|_].
  { injection H as <- _. split; [done|]. exists tk. split; [done|].
    left. by exists sc. }
  apply bind_Err in H as [H|([] & d2 & _ & H)];
    [by apply (errs_upd_track (fun _ => False)) in H|].
  apply bind_Err in H as [H|(so & ? & [_ ->]%defined_Ok & H)];
    [by apply (errs_defined (fun _ => False)) in H|].
  apply bind_Err in H as [H|([] & d3 & _ & H)];
    [by apply (errs_upd_track (fun _ => False)) in H|].
  apply bind_Err in H as [H|(sc2 & ? & [Hsc2 ->]%defined_Ok & H)];
    [by apply (errs_defined (fun _ => False)) in H|].
  destruct (decide (sc2 <> tk_sampleCount tk)) as [Hne|_].
  { injection H as <- _. split; [done|]. exists tk. split; [done|].
    right. by exists sc2. }
  apply bind_Err in H as [H|([] & d4 & _ & H)];
    [by apply (errs_upd_track (fun _ => False)) in H|].
  apply bind_Err in H as [H|(dt & ? & [_ ->]%defined_Ok & H)];
    [by apply (errs_defined (fun _ => False)) in H|].
  by apply (errs_upd_track (fun _ => False)) in H.
Qed.

Lemma build_tracks_loop_Err (T : list mp4_track) (n : nat) :
  forall loc d c d',
  built_from T n d -> build_tracks_loop n loc d = Err c d' ->
  c = - EPROTO /\ exists h tk, T !! h = Some tk /\ count_mismatch tk.
Proof.
  induction n as [|n IH]; intros loc d c d' Hd H; simpl in H; [done|].
  apply bind_Err in H as [H|(loc' & d1 & H1 & H)].
  - unfold build_track in H.
    apply bind_Err in H as [H|([] & d1 & _ & H)].
    + apply build_track_tables_Err in H as (-> & tk & Htk & Hmis).
      split; [done|]. destruct Hd as [Htab _].
      assert ((tables <$> T) !! n = Some (tables tk)) as Hl.
      { by rewrite <- Htab, list_lookup_fmap, Htk. }
      rewrite list_lookup_fmap in Hl.
      destruct (T !! n) as [tk0|] eqn:Htk0; [|done]. simpl in Hl.
      exists n, tk0. split; [done|].
      eapply (count_mismatch_ext tk); [congruence|done].
    + apply bind_Err in H as [H|(tk & d2 & _ & H)].
      * by apply (errs_get_track (fun _ => False)) in H.
      * by apply (errs_link_track (fun _ => False)) in H.
  - eapply IH; [|exact H]. by eapply build_track_built.
Qed.

(** [mp4_demux_build_tracks] returns [-EPROTO] only when one of its two
    checks fails for a track. *)
Lemma build_tracks_EPROTO (d d' : mp4_demux) :
  mp4_demux_build_tracks d = Err (- EPROTO) d' ->
  exists h tk, dm_tracks d !! h = Some tk /\ count_mismatch tk.
Proof.
  unfold mp4_demux_build_tracks. intros H.
  apply bind_Err in H as [H|(n & ? & [-> ->]%gets_Ok & H)]; [done|].
  apply bind_Err in H as [H|(loc & d1 & _ & H)].
  - eapply build_tracks_loop_Err in H as [_ H]; [done|].
    split; [done|]. intros h tk Hh Htk. apply lookup_lt_Some in Htk. lia.
  - apply bind_Err in H as [H|([] & d2 & _ & H)].
    + by apply (errs_link_single_metadata (fun _ => False)) in H.
    + by apply errs_build_chapters in H.
Qed.

(** * Samples and the end of their chunk *)

Lemma rank_ok_chunk_places (s c : Z) : rank_ok (chunk_places s c).
Proof.
  intros i c' k s' Hi. unfold chunk_places in Hi.
  apply list_lookup_fmap_Some in Hi as (k' & [= -> -> ->] & Hk').
  apply lookup_seqZ in Hk' as [-> Hlt]. lia.
Qed.

Lemma rank_ok_app (P Q : list (Z * Z * Z)) :
  rank_ok P -> rank_ok Q -> rank_ok (P ++ Q).
Proof.
  intros HP HQ i c k s [Hi|[Hlen Hi]]%lookup_app_Some.
  - by eapply HP.
  - apply HQ in Hi. lia.
Qed.

Lemma rank_ok_concat (L : list (list (Z * Z * Z))) :
  Forall rank_ok L -> rank_ok (concat L).
Proof.
  induction 1 as [|P L HP HL IH]; simpl.
  - by intros i c k s.
  - by apply rank_ok_app.
Qed.

Lemma rank_ok_run_places (run : Z * Z * Z) : rank_ok (run_places run).
Proof.
  destruct run as [[first n] s]. unfold run_places.
  apply rank_ok_concat, Forall_fmap, Forall_forall.
  intros c _. apply rank_ok_chunk_places.
Qed.

Lemma rank_ok_sample_places entries total :
  rank_ok (sample_places entries total).
Proof.
  unfold sample_places. apply rank_ok_concat, Forall_fmap, Forall_forall.
  intros run _. apply rank_ok_run_places.
Qed.

Lemma sumZ_nonneg (l : list Z) : Forall (fun x => 0 <= x) l -> 0 <= sumZ l.
Proof.
  induction 1 as [|x l Hx Hl IH]; [done|].
  change (sumZ (x :: l)) with (x + sumZ l). lia.
Qed.

(** The sizes that precede a sample in its chunk and its own size are
    part of the sizes of the chunk. *)
Lemma sumZ_take_le (l : list Z) (k s : nat) (x : Z) :
  Forall (fun x => 0 <= x) l -> (k < s)%nat -> l !! k = Some x ->
  sumZ (take k l) + x <= sumZ (take s l).
Proof.
  intros Hl Hks Hx.
  rewrite <- (take_drop (S k) (take s l)), take_take, sumZ_app.
  rewrite Nat.min_l by lia. rewrite (take_S_r _ _ x) by done.
  rewrite sumZ_app.
  assert (0 <= sumZ (drop (S k) (take s l))).
  { apply sumZ_nonneg, Forall_drop, Forall_take, Hl. }
  change (sumZ [x]) with (x + 0). lia.
Qed.

Lemma u64_le (x : Z) : 0 <= x -> u64 x <= x.
Proof. intros Hx. unfold u64. apply Z.mod_le; lia. Qed.

(** For a track with well-formed tables, a sample that the
    specification places in a chunk ends before the end of this chunk. *)
Lemma sample_end_le_chunk_end (tk : mp4_track) (i : nat) (place : Z * Z * Z)
    (e : Z) :
  wf_tables tk -> offsets_follow_chunks tk ->
  sample_places (olist (tk_sampleToChunkEntries tk)) (tk_chunkCount tk) !! i
  = Some place ->
  spec_chunk_end (olist (tk_chunkOffset tk)) (olist (tk_sampleSize tk)) i
    place = Some e ->
  exists off size,
    aget (tk_sampleOffset tk) (Z.of_nat i) = Some off
    /\ aget (tk_sampleSize tk) (Z.of_nat i) = Some size
    /\ 0 <= off /\ 0 <= size /\ off + size <= e.
Proof.
  intros Hwf (offsets & Hoff & Hlen & Hcount & Hplaces) Hplace Hend.
  destruct (Hplaces i place Hplace) as [Hi [off Hoffi]].
  destruct place as [[c k] s].
  destruct (rank_ok_sample_places _ _ i c k s Hplace) as [Hk Hki].
  rewrite Hoffi in Hi. symmetry in Hi.
  unfold spec_sample_offset in Hi. unfold spec_chunk_end in Hend.
  destruct (decide (1 <= c)) as [Hc|]; [|done].
  destruct (olist (tk_chunkOffset tk) !! Z.to_nat (c - 1)) as [o|] eqn:Ho;
    [|done].
  simpl in Hi, Hend. injection Hi as <-. injection Hend as <-.
  assert (i < length (olist (tk_sampleSize tk)))%nat as Hlt.
  { apply lookup_lt_Some in Hoffi.
    pose proof (wf_sampleCount _ Hwf). lia. }
  destruct (lookup_lt_is_Some_2 _ _ Hlt) as [size Hsize].
  assert (0 <= o) as Ho0.
  { by eapply (Forall_lookup_1 _ _ _ _ (wf_offsets _ Hwf)). }
  assert (0 <= size) as Hsize0.
  { by eapply (Forall_lookup_1 _ _ _ _ (wf_sizes _ Hwf)). }
  pose proof (wf_sizes _ Hwf) as Hsizes.
  set (D := drop (i - Z.to_nat k) (olist (tk_sampleSize tk))) in *.
  assert (D !! Z.to_nat k = Some size) as HD.
  { unfold D. rewrite lookup_drop. rewrite <- Hsize. f_equal. lia. }
  assert (sumZ (take (Z.to_nat k) D) + size <= sumZ (take (Z.to_nat s) D))
    as Hsum.
  { apply sumZ_take_le; [by apply Forall_drop|lia|done]. }
  assert (0 <= sumZ (preceding_sizes (olist (tk_sampleSize tk)) i k))
    as Hpre.
  { apply sumZ_nonneg, Forall_take, Forall_drop, Hsizes. }
  exists (u64 (o + sumZ (preceding_sizes (olist (tk_sampleSize tk)) i k))),
    size.
  split; [|split; [|split; [|split]]].
  - unfold aget. rewrite Hoff. rewrite decide_True by lia.
    by rewrite Nat2Z.id.
  - unfold aget. destruct (tk_sampleSize tk) as [sizes|]; [|done].
    rewrite decide_True by lia. by rewrite Nat2Z.id.
  - apply u64_range.
  - done.
  - pose proof (u64_le (o + sumZ (preceding_sizes
                                    (olist (tk_sampleSize tk)) i k))).
    unfold preceding_sizes in *. fold D in Hpre, H |- *. lia.
Qed.

(** * The steps of [mp4_demux_open] *)

(** [mp4_demux_close] returns 0 when its behaviour is defined. *)
Lemma close_outcome (d : mp4_demux) :
  mp4_demux_close d = Ok tt d \/ mp4_demux_close d = Undef.
Proof.
  unfold mp4_demux_close, bind, gets, defined, ret, undef.
  repeat match goal with
         | |- context [match ?o with Some _ => _ | None => _ end] =>
             destruct o as [[]|]
         end; auto.
Qed.

(** [mp4_demux_open] returns the demuxer when all its steps succeed. *)
Lemma open_from_Ok (contents : list Z) (d : mp4_demux) :
  mp4_demux_open contents = Ok tt d
  <-> mp4_demux_open_from (mp4_demux_zero (Build_FILE contents 0 false))
      = Ok tt d.
Proof.
  unfold mp4_demux_open.
  destruct (mp4_demux_open_from _) as [[] d1|c d1| |]; [done| |done..].
  unfold bind, fail. by destruct (close_outcome d1) as [-> | ->].
Qed.

(** It returns [NULL] when a step fails and the demuxer can be closed. *)
Lemma open_from_Err (contents : list Z) (c : Z) (d : mp4_demux) :
  mp4_demux_open contents = Err c d
  <-> mp4_demux_open_from (mp4_demux_zero (Build_FILE contents 0 false))
      = Err c d
      /\ mp4_demux_close d = Ok tt d.
Proof.
  unfold mp4_demux_open.
  destruct (mp4_demux_open_from _) as [[] d1|c1 d1| |];
    [by split; [|intros []]| |by split; [|intros []]..].
  unfold bind, fail. destruct (close_outcome d1) as [H|H]; rewrite H.
  - split; [intros [= <- <-]; done|]. by intros [[= <- <-] _].
  - split; [done|]. intros [[= <- <-] H']. congruence.
Qed.

(** The state in which [mp4_demux_open] starts to parse a file. *)
Lemma open_Ok (contents : list Z) (d : mp4_demux) :
  mp4_demux_open contents = Ok tt d ->
  let f := Build_FILE contents 0 false in
  exists d0 n d1,
    mp4_demux_parse_children (S (Z.to_nat (file_length f))) [0]
      (file_length f) None
      (set_dm_fileSize (file_length f) (mp4_demux_zero f)) = Ok n d0
    /\ mp4_demux_build_tracks (set_dm_readBytes (dm_readBytes d0 + n) d0)
       = Ok tt d1
    /\ mp4_demux_build_metadata d1 = Ok tt d.
Proof.
  intros H%open_from_Ok. unfold mp4_demux_open_from in H.
  apply bind_Ok in H as (fileSize & d1 & [-> ->]%gets_Ok & H).
  apply bind_Ok in H as ([] & d1 & ->%modify_Ok & H).
  apply bind_Ok in H as (n & d0 & Hparse%or_fail_Ok & H).
  apply bind_Ok in H as ([] & d1 & ->%modify_Ok & H).
  apply bind_Ok in H as ([] & d1 & Hbuild%or_fail_Ok & H).
  apply or_fail_Ok in H. simpl. eauto 10.
Qed.

(** Whatever step fails in [mp4_demux_open], the value of its variable
    [err] is [-EIO]. *)
Lemma open_Err (contents : list Z) (c : Z) (d : mp4_demux) :
  mp4_demux_open contents = Err c d -> c = - EIO.
Proof.
  intros [H _]%open_from_Err. unfold mp4_demux_open_from in H.
  apply bind_Err in H as [H|(? & ? & _ & H)]; [done|].
  apply bind_Err in H as [H|(? & ? & _ & H)]; [done|].
  apply bind_Err in H as [H|(? & ? & _ & H)]; [by eapply or_fail_Err|].
  apply bind_Err in H as [H|(? & ? & _ & H)]; [done|].
  apply bind_Err in H as [H|(? & ? & _ & H)]; by eapply or_fail_Err.
Qed.

(** * A second box of a sample table *)

(** The start of every handler of a sample table, on a track that holds
    the table already. *)
Lemma table_exists_error {A : Type} (get : mp4_track -> option (list A))
    (k : nat -> M Z) (h : nat) (tk : mp4_track) (d : mp4_demux) :
  dm_tracks d !! h = Some tk -> get tk <> None ->
  (let* h := require_track (Some h) in
   let* tk := get_track h in
   MP4_LOG_ERR_AND_RETURN_ERR_IF_FAILED (bool_decide (get tk = None))
     (- EEXIST);;;
   k h) d = Err (- EEXIST) d.
Proof.
  intros Htk Hset. unfold require_track.
  unfold bind at 1. unfold bind at 1. simpl.
  unfold bind at 1. unfold get_track. rewrite Htk.
  unfold bind at 1. by rewrite bool_decide_eq_false_2.
Qed.

(** The tests of the [switch] that do not match the type of the box. *)
Ltac skip_box_types :=
  repeat match goal with
  | |- context [decide (?x = ?y)] =>
      destruct (decide (x = y)) as [Heq|_]; [by vm_compute in Heq|]
  | |- context [decide (?x ∈ ?l)] =>
      destruct (decide (x ∈ l)) as [Hin|_];
      [exfalso;
       repeat (apply elem_of_cons in Hin as [Hin|Hin];
               [by vm_compute in Hin|]);
       by apply elem_of_nil in Hin|]
  end.

Lemma parse_box_table_exists pc parent type realBoxSize boxReadBytes
    (h : nat) (tk : mp4_track) (d : mp4_demux) :
  dm_tracks d !! h = Some tk ->
  - 2 ^ 63 <= realBoxSize - boxReadBytes < 2 ^ 63 ->
  box_table_set type tk ->
  parse_box pc parent type realBoxSize boxReadBytes (Some h) d
  = Err (- EEXIST) d.
Proof.
  intros Htk Hrange Hset. unfold parse_box, off_t_sub.
  destruct (decide (_ <= _ < _)) as [_|]; [|done].
  assert (forall m : M Z,
            m d = Err (- EEXIST) d ->
            (let* size := ret (realBoxSize - boxReadBytes) in
             add_ret boxReadBytes m) d = Err (- EEXIST) d) as Hadd.
  { intros m Hm. unfold add_ret, bind, ret. by rewrite Hm. }
  destruct Hset as [[-> Hne]|[[-> Hne]|[[-> Hne]|[[-> Hne]|[[-> Hne]|
                    [-> Hne]]]]]];
    skip_box_types; rewrite decide_True by done; apply Hadd.
  - unfold mp4_demux_parse_stts.
    by apply (table_exists_error tk_timeToSampleEntries _ h tk d).
  - unfold mp4_demux_parse_stss.
    by apply (table_exists_error tk_syncSampleEntries _ h tk d).
  - unfold mp4_demux_parse_stsz.
    by apply (table_exists_error tk_sampleSize _ h tk d).
  - unfold mp4_demux_parse_stsc.
    by apply (table_exists_error tk_sampleToChunkEntries _ h tk d).
  - unfold mp4_demux_parse_stco.
    by apply (table_exists_error tk_chunkOffset _ h tk d).
  - unfold mp4_demux_parse_co64.
    by apply (table_exists_error tk_chunkOffset _ h tk d).
Qed.

(** * The tracks of an opened file *)

Lemma build_metadata_tracks (d d' : mp4_demux) :
  mp4_demux_build_metadata d = Ok tt d' -> dm_tracks d' = dm_tracks d.
Proof.
  intros H.
  eapply (pres_elim (fun x => dm_tracks x = dm_tracks d)); [|done|exact H].
  unfold mp4_demux_build_metadata.
  repeat first [apply pres_modify; intros ? HP; exact HP | pres_step].
Qed.

(** Every track of an opened file has well-formed tables, and arrays
    that were built from them. *)
Lemma open_tracks (contents : list Z) (d : mp4_demux) (h : nat)
    (tk : mp4_track) :
  mp4_demux_open contents = Ok tt d -> dm_tracks d !! h = Some tk ->
  wf_tables tk /\ built tk.
Proof.
  intros (d0 & n & d1 & Hparse & Hbuild & Hmeta)%open_Ok Htk.
  apply build_metadata_tracks in Hmeta. rewrite Hmeta in Htk.
  apply build_tracks_built in Hbuild as [Htab Hbuilt].
  change (dm_tracks (set_dm_readBytes _ ?x)) with (dm_tracks x) in Htab.
  split; [|eapply Hbuilt; [lia|done]].
  assert (wf_all d1) as Hwf.
  { apply (tables_inv d0); [done|].
    eapply (pres_elim wf_all); [apply pres_wf_parse_children| |exact Hparse].
    constructor. }
  by eapply Forall_lookup_1.
Qed.

(** The array [sampleOffset] of a track that is built on well-formed
    tables follows the expansion of its sample-to-chunk table. *)
Lemma built_offsets_follow_chunks (tk : mp4_track) :
  wf_tables tk -> built tk -> tk_chunkCount tk < 0xFFFFFFFF ->
  offsets_follow_chunks tk.
Proof.
  intros Hwf (Hsc & Hfill & _ & _) Hchunks.
  destruct (fill_sample_offsets_placed tk (tk_sampleCount tk)
              (tk_sampleOffset tk) Hwf Hchunks Hsc Hfill)
    as (Hcount & offsets & Hoff & Hlen & Hplaces).
  exists offsets. split; [done|]. split; [|done].
  pose proof (wf_sampleCount _ Hwf). lia.
Qed.

(** C1, as the specification states it, fails: the cells of
    [sampleOffset] are 64-bit unsigned values, and the sum wraps around.
    In the example the only chunk is at the offset [2^64 - 5] and its
    first sample has 10 bytes; the second sample, which is in this chunk
    at rank 1, gets the offset 5, not [2^64 - 5 + 10]. *)
Lemma sample_offset_wraps_around :
  exists d : mp4_demux,
    mp4_demux_open ex_wrap = Ok tt d
    /\ tk_chunkOffset (first_track d) = Some [2 ^ 64 - 5]
    /\ tk_sampleSize (first_track d) = Some [10; 20; 30; 40]
    /\ sample_places (olist (tk_sampleToChunkEntries (first_track d)))
         (tk_chunkCount (first_track d)) !! 1%nat = Some (1, 1, 4)
    /\ aget (tk_sampleOffset (first_track d)) 1 = Some 5
    /\ 5 <> 2 ^ 64 - 5 + 10.
Proof.
  exists (opened ex_wrap).
  split; [by vm_compute|]. split; [by vm_compute|]. split; [by vm_compute|].
  split; [by vm_compute|]. split; by vm_compute.
Qed.

(** C1, amended.  For every file that [mp4_demux_open] opens and every
    track of fewer than [2^32 - 1] chunks, the array [sampleOffset] has
    one cell for each sample of the expansion of the sample-to-chunk
    table against the chunk count (each entry covers the chunks from its
    [first_chunk] up to that of the next entry, the last one all chunks
    through the chunk count), and the cell of a sample holds the offset
    of its chunk plus the sizes of the samples that precede it in this
    chunk, reduced modulo [2^64]: the cells are 64-bit unsigned values. *)
Theorem sample_offsets_follow_chunks (contents : list Z) (d : mp4_demux)
    (h : nat) (tk : mp4_track) :
  mp4_demux_open contents = Ok tt d ->
  dm_tracks d !! h = Some tk ->
  tk_chunkCount tk < 0xFFFFFFFF ->
  offsets_follow_chunks tk.
Proof.
  intros Hopen Htk Hchunks.
  destruct (open_tracks contents d h tk Hopen Htk) as [Hwf Hbuilt].
  by apply built_offsets_follow_chunks.
Qed.

Lemma sample_offsets_follow_chunks_example :
  tk_sampleOffset (first_track (opened ex_audio)) = Some [400; 410; 430]
  /\ sample_places
       (olist (tk_sampleToChunkEntries (first_track (opened ex_audio))))
       (tk_chunkCount (first_track (opened ex_audio)))
     = [(1, 0, 3); (1, 1, 3); (1, 2, 3)]
  /\ offsets_follow_chunks (first_track (opened ex_audio)).
Proof.
  split; [by vm_compute|]. split; [by vm_compute|].
  apply (sample_offsets_follow_chunks ex_audio (opened ex_audio) 0).
  - by vm_compute.
  - by vm_compute.
  - by vm_compute.
Defined.

(** * The recursion budget of the model is sufficient *)

Lemma file_le_refl (d : mp4_demux) : file_le d d.
Proof. split; [done|lia]. Qed.

Lemma file_le_trans (d1 d2 d3 : mp4_demux) :
  file_le d1 d2 -> file_le d2 d3 -> file_le d1 d3.
Proof. intros [Hb1 Hp1] [Hb2 Hp2]. split; [congruence|lia]. Qed.

Lemma file_le_left (d d' : mp4_demux) :
  file_le d d' -> bytes_left d' <= bytes_left d.
Proof. intros [Hb Hp]. unfold bytes_left, file_length. rewrite Hb. lia. Qed.

Lemma walks_weaken {A : Type} (F F' : Z) (m : M A) :
  F <= F' -> walks F' m -> walks F m.
Proof. intros HF Hm d Hpos Hleft. apply Hm; [done|lia]. Qed.

Lemma walks_bind {A B : Type} (F : Z) (m : M A) (k : A -> M B) :
  walks F m -> (forall a, walks F (k a)) -> walks F (bind m k).
Proof.
  intros Hm Hk d Hpos Hleft. specialize (Hm d Hpos Hleft). unfold bind.
  destruct (m d) as [a d1|c d1| |]; [|done..].
  pose proof (file_le_left _ _ Hm) as Hl. destruct Hm as [Hb Hp].
  assert (0 <= f_pos (dm_file d1)) as Hpos1 by lia.
  assert (bytes_left d1 < F) as Hleft1 by lia.
  specialize (Hk a d1 Hpos1 Hleft1).
  destruct (k a d1) as [b d2|c d2| |]; [| |done..];
    by apply (file_le_trans d d1 d2).
Qed.

Lemma walks_same {A : Type} (F : Z) (m : M A) :
  (forall d, match m d with
             | Ok _ d' | Err _ d' => dm_file d' = dm_file d
             | Undef => True
             | OutOfFuel => False
             end) ->
  walks F m.
Proof.
  intros Hm d _ _. specialize (Hm d).
  destruct (m d) as [a d'|c d'| |]; [| |done..];
    split; rewrite Hm; (done || lia).
Qed.

Lemma walks_ret {A : Type} F (x : A) : walks F (ret x).
Proof. by apply walks_same. Qed.

Lemma walks_fail {A : Type} F (c : Z) : walks F (@fail A c).
Proof. by apply walks_same. Qed.

Lemma walks_undef {A : Type} F : walks F (@undef A).
Proof. by apply walks_same. Qed.

Lemma walks_gets {A : Type} F (f : mp4_demux -> A) : walks F (gets f).
Proof. by apply walks_same. Qed.

Lemma walks_modify F (f : mp4_demux -> mp4_demux) :
  (forall d, dm_file (f d) = dm_file d) -> walks F (modify f).
Proof. intros Hf. apply walks_same. intros d. apply Hf. Qed.

Lemma walks_defined {A : Type} F (o : option A) : walks F (defined o).
Proof. destruct o; [apply walks_ret|apply walks_undef]. Qed.

Lemma walks_get_track F h : walks F (get_track h).
Proof.
  apply walks_same. intros d. unfold get_track. by destruct (_ !! _).
Qed.

Lemma walks_upd_track F h f : walks F (upd_track h f).
Proof.
  apply walks_same. intros d. unfold upd_track. by destruct (_ !! _).
Qed.

Lemma walks_macro F cond err :
  walks F (MP4_RETURN_ERR_IF_FAILED cond err).
Proof. destruct cond; [apply walks_ret|apply walks_fail]. Qed.

Lemma walks_log_macro F cond err :
  walks F (MP4_LOG_ERR_AND_RETURN_ERR_IF_FAILED cond err).
Proof. apply walks_macro. Qed.

(** What [fread] does to the byte source. *)
Lemma fread_file_spec (size : Z) (f : FILE) :
  f_bytes (fread_file size f).2 = f_bytes f
  /\ f_pos f <= f_pos (fread_file size f).2
  /\ (is_Some (fread_file size f).1 ->
      0 < size /\ f_pos (fread_file size f).2 = f_pos f + size
      /\ f_pos f + size <= file_length f).
Proof.
  unfold fread_file. repeat destruct (decide _); simpl.
  - split; [done|]. split; [lia|]. by intros [? ?].
  - split; [done|]. split; [lia|]. intros _. lia.
  - split; [done|]. split; [lia|]. by intros [? ?].
Qed.

Lemma walks_fread F size : walks F (fread size).
Proof.
  intros d _ _. unfold fread.
  pose proof (fread_file_spec size (dm_file d)) as (Hb & Hp & _).
  destruct (fread_file size (dm_file d)) as [r f]. by split.
Qed.

Lemma walks_fseeko_cur F off : 0 <= off -> walks F (fseeko_cur off).
Proof.
  intros Hoff d _ _. unfold fseeko_cur, fseeko_to.
  repeat destruct (decide _); simpl; split; simpl; (done || lia).
Qed.

Lemma walks_seek_or_fail F m : walks F m -> walks F (seek_or_fail m).
Proof.
  intros Hm. apply walks_bind; [done|].
  intros [e|]; [apply walks_fail|apply walks_ret].
Qed.

Lemma walks_MP4_READ F size readBytes : walks F (MP4_READ size readBytes).
Proof.
  apply walks_bind; [apply walks_fread|].
  intros [bs|]; [apply walks_ret|apply walks_fail].
Qed.

Lemma walks_MP4_SKIP F readBytes maxBytes :
  walks F (MP4_SKIP readBytes maxBytes).
Proof.
  unfold MP4_SKIP. destruct (decide _); [|apply walks_ret].
  apply walks_bind; [|intros; apply walks_ret].
  apply walks_seek_or_fail, walks_fseeko_cur. lia.
Qed.

Lemma walks_forM {S : Type} F (n : nat) (i : Z) (body : Z -> S -> M S) s :
  (forall i s, walks F (body i s)) -> walks F (forM n i body s).
Proof.
  intros Hbody. revert i s. induction n as [|n IH]; intros i s; simpl.
  - apply walks_ret.
  - apply walks_bind; [apply Hbody|intros; apply IH].
Qed.

Lemma walks_int_value F (m : M Z) : walks F m -> walks F (int_value m).
Proof.
  intros Hm d Hpos Hleft. specialize (Hm d Hpos Hleft).
  unfold int_value. by destruct (m d).
Qed.

Lemma walks_off_t_sub F a b : walks F (off_t_sub a b).
Proof.
  unfold off_t_sub. destruct (decide _); [apply walks_ret|apply walks_undef].
Qed.

Lemma walks_off_t_add F a b : walks F (off_t_add a b).
Proof.
  unfold off_t_add. destruct (decide _); [apply walks_ret|apply walks_undef].
Qed.

Lemma walks_int_succ F count : walks F (int_succ count).
Proof.
  unfold int_succ. destruct (decide _); [apply walks_ret|apply walks_undef].
Qed.

Lemma walks_log_duration F timescale : walks F (log_duration timescale).
Proof.
  unfold log_duration. destruct (decide _); [apply walks_undef|apply walks_ret].
Qed.

Ltac walks_step :=
  lazymatch goal with
  | |- walks _ (bind _ _) => apply walks_bind; [|intros]
  | |- walks _ (ret _) => apply walks_ret
  | |- walks _ (fail _) => apply walks_fail
  | |- walks _ undef => apply walks_undef
  | |- walks _ (defined _) => apply walks_defined
  | |- walks _ (gets _) => apply walks_gets
  | |- walks _ ftello => apply walks_gets
  | |- walks _ feof => apply walks_gets
  | |- walks _ (modify _) => apply walks_modify; intros; reflexivity
  | |- walks _ (get_track _) => apply walks_get_track
  | |- walks _ (upd_track _ _) => apply walks_upd_track
  | |- walks _ (upd_table _ _ _ _ _) => unfold upd_table
  | |- walks _ (require_track _) => unfold require_track
  | |- walks _ (add_ret _ _) => unfold add_ret
  | |- walks _ (read_64 _) => unfold read_64
  | |- walks _ (skip_words _ _) => unfold skip_words
  | |- walks _ (MP4_RETURN_ERR_IF_FAILED _ _) => apply walks_macro
  | |- walks _ (MP4_LOG_ERR_AND_RETURN_ERR_IF_FAILED _ _) =>
      apply walks_log_macro
  | |- walks _ (fread _) => apply walks_fread
  | |- walks _ (MP4_READ _ _) => apply walks_MP4_READ
  | |- walks _ (MP4_READ_32 _) => apply walks_MP4_READ
  | |- walks _ (MP4_READ_16 _) => apply walks_MP4_READ
  | |- walks _ (MP4_READ_8 _) => apply walks_MP4_READ
  | |- walks _ (MP4_SKIP _ _) => apply walks_MP4_SKIP
  | |- walks _ (off_t_sub _ _) => apply walks_off_t_sub
  | |- walks _ (off_t_add _ _) => apply walks_off_t_add
  | |- walks _ (int_succ _) => apply walks_int_succ
  | |- walks _ (seek_or_fail _) => apply walks_seek_or_fail
  | |- walks _ (if decide _ then _ else _) => destruct (decide _)
  | |- walks _ (log_duration _) => apply walks_log_duration
  | |- walks _ (forM _ _ _ _) => apply walks_forM; intros
  | |- walks _ (match ?x with _ => _ end) => destruct x
  | |- walks _ (let '(_, _) := ?x in _) => destruct x
  end.

Ltac walks_auto := repeat walks_step.

Section handlers_walk.
Context (F : Z).

Lemma walks_parse_ftyp maxBytes : walks F (mp4_demux_parse_ftyp maxBytes).
Proof. unfold mp4_demux_parse_ftyp. walks_auto. Qed.

Lemma walks_parse_mvhd maxBytes : walks F (mp4_demux_parse_mvhd maxBytes).
Proof. unfold mp4_demux_parse_mvhd. walks_auto. Qed.

Lemma walks_parse_tkhd maxBytes track :
  walks F (mp4_demux_parse_tkhd maxBytes track).
Proof. unfold mp4_demux_parse_tkhd. walks_auto. Qed.

Lemma walks_parse_tref maxBytes track :
  walks F (mp4_demux_parse_tref maxBytes track).
Proof. unfold mp4_demux_parse_tref. walks_auto. Qed.

Lemma walks_parse_mdhd maxBytes track :
  walks F (mp4_demux_parse_mdhd maxBytes track).
Proof. unfold mp4_demux_parse_mdhd. walks_auto. Qed.

Lemma walks_parse_vmhd maxBytes : walks F (mp4_demux_parse_vmhd maxBytes).
Proof. unfold mp4_demux_parse_vmhd. walks_auto. Qed.

Lemma walks_parse_smhd maxBytes : walks F (mp4_demux_parse_smhd maxBytes).
Proof. unfold mp4_demux_parse_smhd. walks_auto. Qed.

Lemma walks_parse_hmhd maxBytes : walks F (mp4_demux_parse_hmhd maxBytes).
Proof. unfold mp4_demux_parse_hmhd. walks_auto. Qed.

Lemma walks_parse_nmhd maxBytes : walks F (mp4_demux_parse_nmhd maxBytes).
Proof. unfold mp4_demux_parse_nmhd. walks_auto. Qed.

Lemma walks_read_string_loop fuel k maxBytes st :
  walks F (read_string_loop fuel k maxBytes st).
Proof.
  revert k st. induction fuel as [|fuel IH]; intros k [b str]; simpl.
  - apply walks_ret.
  - walks_auto. apply IH.
Qed.

Lemma walks_read_string maxBytes st : walks F (read_string maxBytes st).
Proof.
  unfold read_string. apply walks_bind; [apply walks_read_string_loop|].
  intros. walks_auto.
Qed.

Lemma walks_parse_hdlr ancestors maxBytes track :
  walks F (mp4_demux_parse_hdlr ancestors maxBytes track).
Proof.
  unfold mp4_demux_parse_hdlr.
  walks_auto; try apply walks_read_string; walks_auto.
Qed.
End handlers_walk.

Lemma ntohs_nonneg (v : Z) : 0 <= ntohs v.
Proof.
  unfold ntohs. apply Z.lor_nonneg. split.
  - apply Z.shiftl_nonneg, Z.land_nonneg. by right.
  - apply Z.land_nonneg. by right.
Qed.

Section handlers_walk_more.
Context (F : Z).

Lemma walks_parse_avcc_nalu maxBytes h stored store i st :
  walks F (parse_avcc_nalu maxBytes h stored store i st).
Proof.
  unfold parse_avcc_nalu. walks_auto;
    apply walks_fseeko_cur, ntohs_nonneg.
Qed.

Lemma walks_parse_avcc maxBytes track :
  walks F (mp4_demux_parse_avcc maxBytes track).
Proof.
  unfold mp4_demux_parse_avcc. walks_auto; apply walks_parse_avcc_nalu.
Qed.

Lemma walks_parse_stsd_video maxBytes h boxReadBytes :
  walks F (parse_stsd_video maxBytes h boxReadBytes).
Proof.
  unfold parse_stsd_video. walks_auto. apply walks_parse_avcc.
Qed.

Lemma walks_parse_stsd_audio maxBytes h boxReadBytes :
  walks F (parse_stsd_audio maxBytes h boxReadBytes).
Proof. unfold parse_stsd_audio. walks_auto. Qed.

Lemma walks_parse_stsd_metadata maxBytes h boxReadBytes :
  walks F (parse_stsd_metadata maxBytes h boxReadBytes).
Proof.
  unfold parse_stsd_metadata.
  walks_auto; try apply walks_read_string; walks_auto.
Qed.

Lemma walks_parse_stsd maxBytes track :
  walks F (mp4_demux_parse_stsd maxBytes track).
Proof.
  unfold mp4_demux_parse_stsd. walks_auto;
    first [apply walks_parse_stsd_video | apply walks_parse_stsd_audio
          | apply walks_parse_stsd_metadata].
Qed.

Lemma walks_parse_stts maxBytes track :
  walks F (mp4_demux_parse_stts maxBytes track).
Proof. unfold mp4_demux_parse_stts. walks_auto. Qed.

Lemma walks_parse_stss maxBytes track :
  walks F (mp4_demux_parse_stss maxBytes track).
Proof. unfold mp4_demux_parse_stss. walks_auto. Qed.

Lemma walks_parse_stsz maxBytes track :
  walks F (mp4_demux_parse_stsz maxBytes track).
Proof. unfold mp4_demux_parse_stsz. walks_auto. Qed.

Lemma walks_parse_stsc maxBytes track :
  walks F (mp4_demux_parse_stsc maxBytes track).
Proof. unfold mp4_demux_parse_stsc. walks_auto. Qed.

Lemma walks_parse_stco maxBytes track :
  walks F (mp4_demux_parse_stco maxBytes track).
Proof. unfold mp4_demux_parse_stco. walks_auto. Qed.

Lemma walks_parse_co64 maxBytes track :
  walks F (mp4_demux_parse_co64 maxBytes track).
Proof. unfold mp4_demux_parse_co64. walks_auto. Qed.

Lemma walks_read_value len : walks F (read_value len).
Proof. unfold read_value. walks_auto. Qed.

Lemma walks_parse_xyz type maxBytes :
  walks F (mp4_demux_parse_xyz type maxBytes).
Proof.
  unfold mp4_demux_parse_xyz. walks_auto; apply walks_read_value.
Qed.

Lemma walks_parse_meta_keys maxBytes :
  walks F (mp4_demux_parse_meta_keys maxBytes).
Proof.
  unfold mp4_demux_parse_meta_keys.
  walks_auto; try apply walks_read_value; walks_auto.
Qed.

Lemma walks_parse_meta_data ancestors maxBytes :
  walks F (mp4_demux_parse_meta_data ancestors maxBytes).
Proof.
  unfold mp4_demux_parse_meta_data.
  walks_auto; try apply walks_read_value; walks_auto.
Qed.
End handlers_walk_more.

(** A successful read moves on by the number of bytes read. *)
Lemma MP4_READ_Ok size readBytes d v b d' :
  MP4_READ size readBytes d = Ok (v, b) d' ->
  f_bytes (dm_file d') = f_bytes (dm_file d)
  /\ f_pos (dm_file d') = f_pos (dm_file d) + size
  /\ 0 < size /\ b = readBytes + size
  /\ f_pos (dm_file d') <= file_length (dm_file d).
Proof.
  unfold MP4_READ, bind, fread.
  pose proof (fread_file_spec size (dm_file d)) as (Hb & _ & Hr).
  destruct (fread_file size (dm_file d)) as [[bs|] f]; simpl in *; [|done].
  intros [= _ <- <-]. simpl. destruct Hr as (? & ? & ?); [done|].
  repeat split; (done || lia).
Qed.

Lemma walks_Err {A : Type} (m : M A) d c d' :
  (forall F, walks F m) -> 0 <= f_pos (dm_file d) ->
  m d = Err c d' -> file_le d d'.
Proof.
  intros Hm Hpos Hrun.
  specialize (Hm (bytes_left d + 1) d Hpos ltac:(lia)). by rewrite Hrun in Hm.
Qed.

Lemma walks_Ok {A : Type} (m : M A) d a d' :
  (forall F, walks F m) -> 0 <= f_pos (dm_file d) ->
  m d = Ok a d' -> file_le d d'.
Proof.
  intros Hm Hpos Hrun.
  specialize (Hm (bytes_left d + 1) d Hpos ltac:(lia)). by rewrite Hrun in Hm.
Qed.

Lemma walks_fueled {A : Type} (m : M A) d :
  (forall F, walks F m) -> 0 <= f_pos (dm_file d) -> m d <> OutOfFuel.
Proof.
  intros Hm Hpos Hrun.
  specialize (Hm (bytes_left d + 1) d Hpos ltac:(lia)). by rewrite Hrun in Hm.
Qed.

Lemma read_64_Ok readBytes d v b d' :
  read_64 readBytes d = Ok (v, b) d' ->
  f_bytes (dm_file d') = f_bytes (dm_file d)
  /\ f_pos (dm_file d') = f_pos (dm_file d) + 8
  /\ b = readBytes + 8
  /\ f_pos (dm_file d') <= file_length (dm_file d).
Proof.
  unfold read_64, bind.
  destruct (MP4_READ_32 readBytes d) as [[v1 b1] d1| | |] eqn:H1; [|done..].
  apply MP4_READ_Ok in H1 as (Hb1 & Hp1 & _ & -> & Hl1).
  destruct (MP4_READ_32 _ d1) as [[v2 b2] d2| | |] eqn:H2; [|done..].
  apply MP4_READ_Ok in H2 as (Hb2 & Hp2 & _ & -> & Hl2).
  intros [= _ <- <-]. unfold file_length in *. rewrite Hb1 in Hl2.
  repeat split; (congruence || lia).
Qed.

Lemma walks_read_64 F readBytes : walks F (read_64 readBytes).
Proof. unfold read_64. walks_auto. Qed.

Lemma MP4_SKIP_Ok readBytes maxBytes d b d' :
  MP4_SKIP readBytes maxBytes d = Ok b d' ->
  f_bytes (dm_file d') = f_bytes (dm_file d)
  /\ f_pos (dm_file d') = f_pos (dm_file d) + Z.max 0 (maxBytes - readBytes).
Proof.
  unfold MP4_SKIP. destruct (decide _).
  - unfold bind, seek_or_fail, bind, fseeko_cur, fseeko_to.
    repeat destruct (decide _); simpl; try done.
    intros [= _ <-]. simpl. split; [done|lia].
  - intros [= _ <-]. split; [done|lia].
Qed.

(** The loop of [mp4_demux_count_ilst_sub_box] has moved forward by
    the bytes it has counted, or by more. *)
Lemma count_ilst_loop_walks fuel maxBytes t c d :
  0 <= f_pos (dm_file d) -> bytes_left d < Z.of_nat fuel ->
  (0 < fuel)%nat ->
  match count_ilst_loop fuel maxBytes (t, c) d with
  | Ok (t', _) d' =>
      f_bytes (dm_file d') = f_bytes (dm_file d)
      /\ f_pos (dm_file d) <= f_pos (dm_file d')
      /\ f_pos (dm_file d) + (t' - t) <= f_pos (dm_file d')
  | Err _ d' => file_le d d'
  | Undef => True
  | OutOfFuel => False
  end.
Proof.
  revert t c d. induction fuel as [|fuel IH]; intros t c d Hpos Hleft Hfuel;
    [lia|].
  simpl. destruct (decide _); [|simpl; split; [done|lia]].
  unfold bind at 1.
  destruct (MP4_READ_32 0 d) as [[v1 b1] d1|ec d1| |] eqn:H1;
    [|by apply (walks_Err _ _ _ _ (fun F => walks_MP4_READ F _ _) Hpos H1)
     |done|by apply (walks_fueled _ _ (fun F => walks_MP4_READ F _ _) Hpos) in H1].
  apply MP4_READ_Ok in H1 as (Hb1 & Hp1 & _ & -> & Hl1).
  assert (0 <= f_pos (dm_file d1)) as Hpos1 by lia.
  unfold bind at 1.
  destruct (MP4_READ_32 _ d1) as [[v2 b2] d2|ec d2| |] eqn:H2;
    [|apply (walks_Err _ _ _ _ (fun F => walks_MP4_READ F _ _) Hpos1) in H2;
      destruct H2; split; [congruence|lia]
     |done|by apply (walks_fueled _ _ (fun F => walks_MP4_READ F _ _) Hpos1) in H2].
  apply MP4_READ_Ok in H2 as (Hb2 & Hp2 & _ & -> & Hl2).
  assert (0 <= f_pos (dm_file d2)) as Hpos2 by lia.
  assert (file_length (dm_file d2) = file_length (dm_file d)) as Hlen
    by (unfold file_length; congruence).
  assert (file_length (dm_file d1) = file_length (dm_file d)) as Hlen1
    by (unfold file_length; congruence).
  unfold bind at 1.
  match goal with
  | |- match match ?m d2 with _ => _ end with _ => _ end =>
      assert (match m d2 with
              | Ok (r, b) d3 =>
                  f_bytes (dm_file d3) = f_bytes (dm_file d2)
                  /\ f_pos (dm_file d3) = f_pos (dm_file d2) + (b - 8)
                  /\ 8 <= b
                  /\ f_pos (dm_file d3) <= file_length (dm_file d2)
              | Err _ d3 => file_le d2 d3
              | Undef => True
              | OutOfFuel => False
              end) as H3; [|destruct (m d2) as [[r b] d3|ec d3| |]]
  end.
  { destruct (decide (ntohl v1 = 0)); [done|].
    destruct (decide (ntohl v1 = 1)).
    - unfold bind at 1.
      destruct (MP4_LOG_ERR_AND_RETURN_ERR_IF_FAILED _ _ d2)
        as [[] d2'|ec d2'| |] eqn:Hm.
      + assert (d2' = d2) as ->.
        { revert Hm. unfold MP4_LOG_ERR_AND_RETURN_ERR_IF_FAILED,
            MP4_RETURN_ERR_IF_FAILED. destruct (bool_decide _); [|done].
          by intros [= ->]. }
        unfold bind.
        destruct (read_64 _ d2) as [[v3 b3] d3|ec d3| |] eqn:H3.
        * apply read_64_Ok in H3 as (Hb3 & Hp3 & -> & Hl3).
          simpl. repeat split; (done || lia).
        * by apply (walks_Err _ _ _ _ (fun F => walks_read_64 F _) Hpos2 H3).
        * done.
        * by apply (walks_fueled _ _ (fun F => walks_read_64 F _) Hpos2) in H3.
      + by apply (walks_Err _ _ _ _ (fun F => walks_log_macro F _ _) Hpos2 Hm).
      + done.
      + by apply (walks_fueled _ _ (fun F => walks_log_macro F _ _) Hpos2)
          in Hm.
    - simpl. repeat split; (done || lia). }
  2:{ destruct H3 as [Hb3 Hp3]. split; [congruence|lia]. }
  2:{ done. }
  2:{ done. }
  destruct H3 as (Hb3 & Hp3 & Hb & Hl3).
  unfold bind at 1. unfold int_succ. destruct (decide _); [|done].
  simpl. unfold bind at 1.
  destruct (MP4_SKIP b r d3) as [b' d4|ec d4| |] eqn:H4.
  - apply MP4_SKIP_Ok in H4 as (Hb4 & Hp4).
    unfold bind at 1. unfold off_t_add. destruct (decide _); [|done].
    simpl.
    assert (bytes_left d4 < Z.of_nat fuel) as Hleft4.
    { unfold bytes_left, file_length in *. rewrite Hb4, Hb3, Hb2, Hb1. lia. }
    assert (0 < fuel)%nat as Hfuel'.
    { unfold bytes_left, file_length in *. rewrite Hb2, Hb1 in Hl3. lia. }
    specialize (IH (t + r) (c + 1) d4 ltac:(lia) Hleft4 Hfuel').
    destruct (count_ilst_loop fuel maxBytes _ d4) as [[t' c'] d5|ec d5| |];
      [| |done..].
    + destruct IH as (Hb5 & Hp5 & Ht5).
      split; [congruence|]. split; lia.
    + destruct IH as [Hb5 Hp5]. split; [congruence|lia].
  - assert (0 <= f_pos (dm_file d3)) as Hpos3 by lia.
    apply (walks_Err _ _ _ _ (fun F => walks_MP4_SKIP F _ _) Hpos3) in H4.
    destruct H4 as [Hb4 Hp4]. split; [congruence|lia].
  - done.
  - assert (0 <= f_pos (dm_file d3)) as Hpos3 by lia.
    by apply (walks_fueled _ _ (fun F => walks_MP4_SKIP F _ _) Hpos3) in H4.
Qed.

Lemma walks_count_ilst_sub_box F maxBytes :
  walks F (mp4_demux_count_ilst_sub_box maxBytes).
Proof.
  unfold mp4_demux_count_ilst_sub_box.
  apply walks_bind; [apply walks_log_macro|]. intros _.
  intros d Hpos _. unfold bind at 1, gets. unfold bind at 1.
  pose proof (count_ilst_loop_walks (S (length (f_bytes (dm_file d))))
                maxBytes 0 0 d Hpos) as Hloop.
  destruct (count_ilst_loop _ _ _ d) as [[t c] d1|ec d1| |].
  - destruct Hloop as (Hb1 & Hp1 & Ht1);
      [unfold bytes_left, file_length; lia|lia|].
    unfold bind at 1, off_t_sub. destruct (decide _); [|exact I].
    unfold ret at 1.
    unfold bind, seek_or_fail, bind, fseeko_cur, fseeko_to.
    repeat destruct (decide _); simpl; split; simpl; (done || lia).
  - apply Hloop; [unfold bytes_left, file_length; lia|lia].
  - done.
  - apply Hloop; [unfold bytes_left, file_length; lia|lia].
Qed.

Lemma walks_add_ret F boxReadBytes handler :
  walks F handler -> walks F (add_ret boxReadBytes handler).
Proof. intros Hh. unfold add_ret. walks_auto. done. Qed.

(** The [switch] of the box walker moves forward when the walk of the
    children does. *)
Lemma walks_parse_box F parse_children parent type realBoxSize boxReadBytes
    track :
  (forall item maxBytes track, walks F (parse_children item maxBytes track)) ->
  walks F (parse_box parse_children parent type realBoxSize boxReadBytes
             track).
Proof.
  intros Hpc. unfold parse_box.
  repeat lazymatch goal with
  | |- walks _ (add_ret _ _) => apply walks_add_ret
  | |- walks _ (int_value _) => apply walks_int_value
  | |- walks _ (parse_children _ _ _) => apply Hpc
  | |- walks _ (mp4_demux_count_ilst_sub_box _) =>
      apply walks_count_ilst_sub_box
  | |- walks _ (mp4_demux_parse_ftyp _) => apply walks_parse_ftyp
  | |- walks _ (mp4_demux_parse_mvhd _) => apply walks_parse_mvhd
  | |- walks _ (mp4_demux_parse_tkhd _ _) => apply walks_parse_tkhd
  | |- walks _ (mp4_demux_parse_tref _ _) => apply walks_parse_tref
  | |- walks _ (mp4_demux_parse_hdlr _ _ _) => apply walks_parse_hdlr
  | |- walks _ (mp4_demux_parse_mdhd _ _) => apply walks_parse_mdhd
  | |- walks _ (mp4_demux_parse_vmhd _) => apply walks_parse_vmhd
  | |- walks _ (mp4_demux_parse_smhd _) => apply walks_parse_smhd
  | |- walks _ (mp4_demux_parse_hmhd _) => apply walks_parse_hmhd
  | |- walks _ (mp4_demux_parse_nmhd _) => apply walks_parse_nmhd
  | |- walks _ (mp4_demux_parse_stsd _ _) => apply walks_parse_stsd
  | |- walks _ (mp4_demux_parse_stts _ _) => apply walks_parse_stts
  | |- walks _ (mp4_demux_parse_stss _ _) => apply walks_parse_stss
  | |- walks _ (mp4_demux_parse_stsz _ _) => apply walks_parse_stsz
  | |- walks _ (mp4_demux_parse_stsc _ _) => apply walks_parse_stsc
  | |- walks _ (mp4_demux_parse_stco _ _) => apply walks_parse_stco
  | |- walks _ (mp4_demux_parse_co64 _ _) => apply walks_parse_co64
  | |- walks _ (mp4_demux_parse_meta_data _ _) =>
      apply walks_parse_meta_data
  | |- walks _ (mp4_demux_parse_xyz _ _) => apply walks_parse_xyz
  | |- walks _ (mp4_demux_parse_meta_keys _) => apply walks_parse_meta_keys
  | |- _ => walks_step
  end.
Qed.

(** After a successful read of [size] bytes, what follows runs with
    [size] bytes less. *)
Lemma walks_bind_read {B : Type} F size readBytes (k : Z * Z -> M B) :
  (0 < F - size -> forall a, walks (F - size) (k a)) ->
  walks F (bind (MP4_READ size readBytes) k).
Proof.
  intros Hk d Hpos Hleft. unfold bind.
  destruct (MP4_READ size readBytes d) as [[v b] d1|ec d1| |] eqn:Hread.
  - apply MP4_READ_Ok in Hread as (Hb & Hp & Hsize & -> & Hl).
    assert (0 <= bytes_left d1 < F - size) as Hleft1.
    { unfold bytes_left, file_length in *. rewrite Hb. lia. }
    specialize (Hk ltac:(lia) (v, readBytes + size) d1 ltac:(lia) ltac:(lia)).
    destruct (k _ d1) as [r d2|ec d2| |]; [| |done..];
      destruct Hk as [Hb2 Hp2]; split; (congruence || lia).
  - by apply (walks_Err _ _ _ _ (fun F => walks_MP4_READ F _ _) Hpos Hread).
  - done.
  - by apply (walks_fueled _ _ (fun F => walks_MP4_READ F _ _) Hpos) in Hread.
Qed.

(** The walk of the boxes of a container does not run out of fuel when
    the fuel exceeds the number of bytes that are left. *)
Lemma walks_parse_children_from fuel parent maxBytes track parentReadBytes
    lastBox :
  (0 < fuel)%nat ->
  walks (Z.of_nat fuel)
    (mp4_demux_parse_children_from fuel parent maxBytes track parentReadBytes
       lastBox).
Proof.
  revert parent maxBytes track parentReadBytes lastBox.
  induction fuel as [|fuel IH]; intros parent maxBytes track prb lastBox Hfuel;
    [lia|].
  simpl. apply walks_bind; [apply walks_gets|]. intros eof.
  destruct (_ && _); [|apply walks_ret].
  apply walks_bind_read. intros Hfour [v1 b1].
  assert (0 < fuel)%nat as Hfuel' by lia.
  apply (walks_weaken _ (Z.of_nat fuel)); [lia|].
  repeat lazymatch goal with
  | |- walks _ (parse_box _ _ _ _ _ _) =>
      apply walks_parse_box; intros; by apply IH
  | |- walks _ (mp4_demux_parse_children_from _ _ _ _ _ _) => by apply IH
  | |- walks _ (bind (fseeko_cur _) _) =>
      apply walks_bind; [apply walks_fseeko_cur; lia|intros]
  | |- walks _ (read_64 _) => apply walks_read_64
  | |- _ => walks_step
  end.
Qed.

(** ** The functions that have no budget *)

Lemma fueled_bind {A B : Type} (m : M A) (k : A -> M B) :
  fueled m -> (forall a, fueled (k a)) -> fueled (bind m k).
Proof.
  intros Hm Hk d. unfold bind. specialize (Hm d).
  destruct (m d); [apply Hk|done..].
Qed.

Lemma fueled_or_fail {A : Type} code (m : M A) :
  fueled m -> fueled (or_fail code m).
Proof. intros Hm d. unfold or_fail. specialize (Hm d). by destruct (m d). Qed.

Lemma fueled_defined {A : Type} (o : option A) : fueled (defined o).
Proof. by destruct o. Qed.

Lemma fueled_get_track h : fueled (get_track h).
Proof. intros d. unfold get_track. by destruct (_ !! _). Qed.

Lemma fueled_upd_track h f : fueled (upd_track h f).
Proof. intros d. unfold upd_track. by destruct (_ !! _). Qed.

Lemma fueled_macro cond err : fueled (MP4_RETURN_ERR_IF_FAILED cond err).
Proof. by destruct cond. Qed.

Lemma fueled_fread size : fueled (fread size).
Proof. intros d. unfold fread. by destruct (fread_file _ _). Qed.

Lemma fueled_fseeko_set off : fueled (fseeko_set off).
Proof. intros d. unfold fseeko_set. by destruct (fseeko_to _ _). Qed.

Lemma fueled_forM {S : Type} (n : nat) (i : Z) (body : Z -> S -> M S) s :
  (forall i s, fueled (body i s)) -> fueled (forM n i body s).
Proof.
  intros Hbody. revert i s. induction n as [|n IH]; intros i s; simpl.
  - done.
  - apply fueled_bind; [apply Hbody|intros; apply IH].
Qed.

Ltac fueled_step :=
  lazymatch goal with
  | |- fueled (bind _ _) => apply fueled_bind; [|intros]
  | |- fueled (ret _) => done
  | |- fueled (fail _) => done
  | |- fueled undef => done
  | |- fueled (gets _) => done
  | |- fueled (modify _) => done
  | |- fueled ftello => done
  | |- fueled (defined _) => apply fueled_defined
  | |- fueled (get_track _) => apply fueled_get_track
  | |- fueled (upd_track _ _) => apply fueled_upd_track
  | |- fueled (MP4_RETURN_ERR_IF_FAILED _ _) => apply fueled_macro
  | |- fueled (MP4_LOG_ERR_AND_RETURN_ERR_IF_FAILED _ _) =>
      apply fueled_macro
  | |- fueled (fread _) => apply fueled_fread
  | |- fueled (fseeko_set _) => apply fueled_fseeko_set
  | |- fueled (seek_or_fail _) => unfold seek_or_fail
  | |- fueled (MP4_READ _ _) => unfold MP4_READ
  | |- fueled (MP4_READ_16 _) => unfold MP4_READ_16, MP4_READ
  | |- fueled (MP4_READ_8 _) => unfold MP4_READ_8, MP4_READ
  | |- fueled (forM _ _ _ _) => apply fueled_forM; intros
  | |- fueled (if decide _ then _ else _) => destruct (decide _)
  | |- fueled (match ?x with _ => _ end) => destruct x
  | |- fueled (let '(_, _) := ?x in _) => destruct x
  end.

Ltac fueled_auto := repeat fueled_step.

Lemma fueled_build_tracks_loop n loc : fueled (build_tracks_loop n loc).
Proof.
  revert loc. induction n as [|n IH]; intros loc; simpl; [done|].
  apply fueled_bind; [|intros; apply IH].
  unfold build_track. apply fueled_bind.
  - unfold build_track_tables. fueled_auto.
  - intros _. unfold link_track. fueled_auto.
Qed.

Lemma fueled_build_tracks : fueled mp4_demux_build_tracks.
Proof.
  unfold mp4_demux_build_tracks. fueled_auto.
  - apply fueled_build_tracks_loop.
  - unfold link_single_metadata. fueled_auto.
  - unfold build_chapters. fueled_auto. unfold build_chapter. fueled_auto.
Qed.

Lemma fueled_build_metadata : fueled mp4_demux_build_metadata.
Proof. unfold mp4_demux_build_metadata. fueled_auto. Qed.

(** The budget that [mp4_demux_open] gives to the box walker is
    sufficient: for no file does the model of [mp4_demux_open] run out
    of fuel. *)
Lemma mp4_demux_open_from_fuel (contents : list Z) :
  mp4_demux_open_from (mp4_demux_zero (Build_FILE contents 0 false))
  <> OutOfFuel.
Proof.
  unfold mp4_demux_open_from.
  set (d0 := mp4_demux_zero _).
  unfold bind at 1, gets. unfold bind at 1, modify.
  set (d1 := set_dm_fileSize _ d0).
  pose proof (walks_parse_children_from (S (Z.to_nat (file_length (dm_file d0))))
                [0] (file_length (dm_file d0)) None 0 false ltac:(lia) d1)
    as Hparse.
  unfold bind at 1, or_fail at 1, mp4_demux_parse_children.
  destruct (mp4_demux_parse_children_from _ _ _ _ _ _ d1)
    as [retBytes d2|ec d2| |].
  - unfold bind at 1. unfold bind at 1.
    pose proof fueled_build_tracks as Hbuild.
    pose proof fueled_build_metadata as Hmeta.
    match goal with
    | |- match or_fail _ _ ?d with _ => _ end <> _ =>
        specialize (Hbuild d); unfold or_fail at 1;
        destruct (mp4_demux_build_tracks d) as [[] d3|ec d3| |]; try done
    end.
    unfold or_fail. specialize (Hmeta d3).
    by destruct (mp4_demux_build_metadata d3).
  - done.
  - done.
  - exfalso. apply Hparse; [done|].
    unfold bytes_left, file_length, d1, d0. simpl. lia.
Qed.

Theorem mp4_demux_open_fuel (contents : list Z) :
  mp4_demux_open contents <> OutOfFuel.
Proof.
  pose proof (mp4_demux_open_from_fuel contents) as Hfrom.
  unfold mp4_demux_open.
  destruct (mp4_demux_open_from _) as [[] d1|c d1| |]; [done| |done..].
  unfold bind, fail. by destruct (close_outcome d1) as [-> | ->].
Qed.

(** * The claims of the specification about the query functions *)

(** ** Times of the movie *)

(** C4.  The specification asks [media_info] to return the parsed
    modification time of the movie, converted to Unix seconds.
    [mp4_demux_get_media_info] returns the creation time in its place:
    for the example file, whose [mvhd] box holds the modification time
    [0x7C25B080 + 2000], it reports 1000, the creation time, and not
    2000. *)
Theorem media_info_modification_time_is_creation_time :
  exists (d : mp4_demux) (info : mp4_media_info),
    mp4_demux_open ex_audio = Ok tt d
    /\ dm_creationTime d = MP4_MAC_TO_UNIX_EPOCH_OFFSET + 1000
    /\ dm_modificationTime d = MP4_MAC_TO_UNIX_EPOCH_OFFSET + 2000
    /\ mp4_demux_get_media_info d = Ok info d
    /\ mi_modification_time info = 1000
    /\ mi_modification_time info
       <> dm_modificationTime d - MP4_MAC_TO_UNIX_EPOCH_OFFSET.
Proof.
  exists (opened ex_audio). eexists.
  split; [by vm_compute|]. split; [by vm_compute|]. split; [by vm_compute|].
  split; [by vm_compute|]. split; by vm_compute.
Qed.

(** ** Track information *)

(** C5, as the specification states it, fails: for the example file of
    one track, [track_info(1)] fails with [-EINVAL], which is not the
    error of a track that is not found. *)
Lemma track_info_error_is_not_ENOENT :
  exists d : mp4_demux,
    mp4_demux_open ex_audio = Ok tt d
    /\ dm_trackCount d <= 1
    /\ mp4_demux_get_track_info 1 d = Err (- EINVAL) d
    /\ - EINVAL <> - ENOENT.
Proof.
  exists (opened ex_audio).
  split; [by vm_compute|]. split; [by vm_compute|]. split; by vm_compute.
Qed.

(** C5, amended.  For every demuxer and every index that is not below
    its track count, [mp4_demux_get_track_info] fails with [-EINVAL] and
    leaves the demuxer as it was. *)
Theorem get_track_info_out_of_range (d : mp4_demux) (track_idx : Z) :
  dm_trackCount d <= track_idx ->
  mp4_demux_get_track_info track_idx d = Err (- EINVAL) d.
Proof.
  intros Hidx. unfold mp4_demux_get_track_info.
  unfold bind at 1. unfold gets at 1.
  unfold bind at 1. rewrite bool_decide_eq_false_2 by lia. reflexivity.
Qed.

Lemma get_track_info_out_of_range_example :
  mp4_demux_get_track_info 5 (opened ex_audio)
  = Err (- EINVAL) (opened ex_audio).
Proof.
  apply (get_track_info_out_of_range (opened ex_audio) 5).
  vm_compute. intros H. discriminate H.
Defined.

(** ** Buffers that are too small *)

(** C10.  The specification asks [next_sample] to fail when the sample
    buffer is smaller than the sample.  The code calls
    [MP4_LOG_ERR_AND_RETURN_ERR_IF_FAILED(1, -ENOBUFS, ...)], which never
    returns since its condition holds: for the example file, whose first
    sample has 10 bytes, the call with a buffer of 5 bytes returns 0,
    reports the size, copies nothing and moves the cursor to the second
    sample. *)
Theorem next_sample_small_buffer_succeeds :
  exists (d d' : mp4_demux) (sample : mp4_track_sample),
    mp4_demux_open ex_audio = Ok tt d
    /\ tk_currentSample <$> dm_tracks d = [0]
    /\ mp4_demux_get_track_next_sample 7 true 5 false 0 d
       = Ok (sample, None, None) d'
    /\ sample_size sample = 10
    /\ tk_currentSample <$> dm_tracks d' = [1].
Proof.
  exists (opened ex_audio). do 2 eexists.
  split; [by vm_compute|]. split; [by vm_compute|].
  split; [by vm_compute|]. split; by vm_compute.
Qed.

(** ** Chapters *)

(** C6.  The specification caps the chapter list at 100 entries and lets
    [open] succeed on longer chapter tracks.  The loop of
    [mp4_demux_build_tracks] has no such test: a chapter track of 100
    samples fills the two arrays of [MP4_CHAPTERS_MAX] cells, and with
    101 samples the last name is stored into [chaptersName[100]], outside
    the array, which is undefined behaviour. *)
Theorem chapters_beyond_100_overflow :
  MP4_CHAPTERS_MAX = 100
  /\ (exists d : mp4_demux,
        mp4_demux_open (ex_chapters 100) = Ok tt d
        /\ dm_chaptersCount d = 100
        /\ length (dm_chaptersName d) = 100%nat)
  /\ mp4_demux_open (ex_chapters 101) = Undef.
Proof.
  split; [done|]. split.
  - exists (opened (ex_chapters 100)).
    split; [by vm_compute|]. split; by vm_compute.
  - by vm_compute.
Qed.

(** ** The cursor of a track *)

(** The search of the track and the test that it was found, in
    [mp4_demux_get_track_next_sample]. *)
Ltac next_sample_enter Hfound Htk :=
  unfold mp4_demux_get_track_next_sample;
  unfold bind at 1; unfold gets at 1; rewrite Hfound;
  unfold bind at 1; unfold ret at 1;
  unfold bind at 1; unfold defined at 1; unfold ret at 1;
  unfold bind at 1; unfold get_track at 1; rewrite Htk.

Section next_sample.
Context (d : mp4_demux) (track_id : Z) (h : nat) (tk : mp4_track).
Context (sample_buffer : bool) (sample_buffer_size : Z).
Context (metadata_buffer : bool) (metadata_buffer_size : Z).
Hypothesis Hfound : find_track d track_id = Some h.
Hypothesis Htk : dm_tracks d !! h = Some tk.

Let call := mp4_demux_get_track_next_sample track_id sample_buffer
              sample_buffer_size metadata_buffer metadata_buffer_size d.

Lemma next_sample_end :
  tk_sampleCount tk <= tk_currentSample tk ->
  call = Ok (mp4_track_sample_zero, None, None) d.
Proof.
  intros Hend. unfold call. next_sample_enter Hfound Htk.
  rewrite decide_False by lia. reflexivity.
Qed.
End next_sample.

(** ** The outcome of [mp4_demux_get_track_next_sample] *)

Lemma s64_range (x : Z) : - 2 ^ 63 <= s64 x < 2 ^ 63.
Proof. unfold s64. Z.div_mod_to_equations. lia. Qed.

(** [read_sample] does what [read_of] says, and leaves the tracks and
    the bytes of the file as they are. *)
Lemma read_sample_read_of (off size : Z) (d : mp4_demux) :
  exists d',
    dm_tracks d' = dm_tracks d
    /\ f_bytes (dm_file d') = f_bytes (dm_file d)
    /\ match read_of (f_bytes (dm_file d)) off size with
       | Copied bytes => read_sample off size d = Ok bytes d'
       | CopyFails c => read_sample off size d = Err c d'
       | NoCopy => False
       end.
Proof.
  pose proof (s64_range off) as Hr.
  unfold read_of, read_sample, bind, seek_or_fail, fseeko_set, fseeko_to,
    fread, fread_file, ret, fail, file_length.
  destruct (decide (s64 off < 0)) as [Hneg|Hpos].
  { eexists. split; [|split; [|reflexivity]]; done. }
  destruct (decide (2 ^ 63 <= s64 off)) as [?|_]; [lia|]. cbn.
  repeat destruct (decide _);
    first [ lia
          | eexists; split; [|split; [|reflexivity]]; done ].
Qed.

Section next_sample_outcome.
Context (d : mp4_demux) (track_id : Z) (h : nat) (tk : mp4_track).
Context (sample_buffer : bool) (sample_buffer_size : Z).
Context (metadata_buffer : bool) (metadata_buffer_size : Z).
Context (size off dts next msize moff : Z).
Hypothesis Hfound : find_track d track_id = Some h.
Hypothesis Htk : dm_tracks d !! h = Some tk.
Hypothesis Hcur : 0 <= tk_currentSample tk < tk_sampleCount tk.
Hypothesis Hcount : tk_sampleCount tk < 2 ^ 32.
Hypothesis Hts : tk_timescale tk <> 0.
Hypothesis Hsize : aget (tk_sampleSize tk) (tk_currentSample tk) = Some size.
Hypothesis Hoff : aget (tk_sampleOffset tk) (tk_currentSample tk) = Some off.
Hypothesis Hdts :
  aget (tk_sampleDecodingTime tk) (tk_currentSample tk) = Some dts.
Hypothesis Hnext :
  tk_currentSample tk + 1 < tk_sampleCount tk ->
  aget (tk_sampleDecodingTime tk) (tk_currentSample tk + 1) = Some next.
Hypothesis Hmeta : metadata_cells d tk msize moff.

(** The copy of the sample. *)
Lemma next_sample_copy :
  exists d1,
    dm_tracks d1 = dm_tracks d
    /\ f_bytes (dm_file d1) = f_bytes (dm_file d)
    /\ (if sample_buffer && bool_decide (size <= sample_buffer_size) then
          let* offset :=
            defined (aget (tk_sampleOffset tk) (tk_currentSample tk)) in
          let* bytes := read_sample offset size in
          ret (Some bytes)
        else if sample_buffer then
          MP4_LOG_ERR_AND_RETURN_ERR_IF_FAILED true (- ENOBUFS);;;
          ret None
        else ret None) d
       = match copy_of (f_bytes (dm_file d)) sample_buffer
                 sample_buffer_size off size with
         | CopyFails c => Err c d1
         | cs => Ok (copied_bytes cs) d1
         end.
Proof.
  unfold copy_of.
  destruct (sample_buffer && bool_decide (size <= sample_buffer_size))
    eqn:Hwants.
  - rewrite Hoff.
    destruct (read_sample_read_of off size d) as (d1 & Ht & Hb & Hread).
    exists d1. split; [done|]. split; [done|].
    unfold bind, defined, ret.
    destruct (read_of _ _ _); [done| |]; by rewrite Hread.
  - exists d. split; [done|]. split; [done|]. by destruct sample_buffer.
Qed.

(** The copy of the sample of the linked metadata track, if any. *)
Lemma next_sample_metadata_copy (d1 : mp4_demux) :
  dm_tracks d1 = dm_tracks d ->
  f_bytes (dm_file d1) = f_bytes (dm_file d) ->
  exists d2,
    dm_tracks d2 = dm_tracks d
    /\ (match tk_metadata tk with
        | Some hm =>
            let* metatk := get_track hm in
            let* msize :=
              defined (aget (tk_sampleSize metatk) (tk_currentSample tk)) in
            if metadata_buffer && bool_decide (msize <= metadata_buffer_size)
            then
              let* offset :=
                defined (aget (tk_sampleOffset metatk)
                           (tk_currentSample tk)) in
              let* bytes := read_sample offset msize in
              ret (msize, Some bytes)
            else ret (msize, None)
        | None => ret (0, None)
        end) d1
       = match metadata_copy d tk metadata_buffer metadata_buffer_size
                 msize moff with
         | CopyFails c => Err c d2
         | cm => Ok (msize, copied_bytes cm) d2
         end.
Proof.
  intros Ht1 Hb1. unfold metadata_copy, metadata_cells in *.
  destruct (tk_metadata tk) as [hm|].
  - destruct Hmeta as (metatk & Hmtk & Hmsize & Hmoff).
    unfold bind at 1, get_track at 1. rewrite Ht1, Hmtk.
    rewrite Hmsize. unfold bind at 1, defined at 1, ret at 1.
    unfold copy_of.
    destruct (metadata_buffer && bool_decide (msize <= metadata_buffer_size)).
    + rewrite Hmoff.
      destruct (read_sample_read_of moff msize d1) as (d2 & Ht & Hb & Hread).
      rewrite Hb1 in Hread.
      exists d2. split; [congruence|].
      unfold bind, defined, ret.
      destruct (read_of _ _ _); [done| |]; by rewrite Hread.
    + exists d1. by split.
  - subst msize. exists d1. by split.
Qed.

(** The call before the end of the track. *)
Lemma next_sample_before_end :
  match copy_of (f_bytes (dm_file d)) sample_buffer sample_buffer_size
          off size,
        metadata_copy d tk metadata_buffer metadata_buffer_size msize moff
  with
  | CopyFails c, _ | _, CopyFails c =>
      exists d',
        mp4_demux_get_track_next_sample track_id sample_buffer
          sample_buffer_size metadata_buffer metadata_buffer_size d
        = Err c d'
        /\ dm_tracks d' = dm_tracks d
  | cs, cm =>
      exists r d',
        mp4_demux_get_track_next_sample track_id sample_buffer
          sample_buffer_size metadata_buffer metadata_buffer_size d
        = Ok (r, copied_bytes cs, copied_bytes cm) d'
        /\ sample_size r = size /\ metadata_size r = msize
        /\ ticks_to_us dts (tk_timescale tk) = Some (sample_dts r)
        /\ (if decide (tk_currentSample tk + 1 < tk_sampleCount tk) then
              ticks_to_us next (tk_timescale tk) = Some (next_sample_dts r)
            else next_sample_dts r = 0)
        /\ dm_tracks d'
           = <[h := set_tk_currentSample (tk_currentSample tk + 1) tk]>
               (dm_tracks d)
  end.
Proof.
  destruct next_sample_copy as (d1 & Ht1 & Hb1 & Hcopy).
  destruct (next_sample_metadata_copy d1 Ht1 Hb1) as (d2 & Ht2 & Hmcopy).
  assert (forall cs cm,
            (match cs with CopyFails _ => False | _ => True end) ->
            (match cm with CopyFails _ => False | _ => True end) ->
            copy_of (f_bytes (dm_file d)) sample_buffer sample_buffer_size
              off size = cs ->
            metadata_copy d tk metadata_buffer metadata_buffer_size msize
              moff = cm ->
            exists r d',
              mp4_demux_get_track_next_sample track_id sample_buffer
                sample_buffer_size metadata_buffer metadata_buffer_size d
              = Ok (r, copied_bytes cs, copied_bytes cm) d'
              /\ sample_size r = size /\ metadata_size r = msize
              /\ ticks_to_us dts (tk_timescale tk) = Some (sample_dts r)
              /\ (if decide (tk_currentSample tk + 1 < tk_sampleCount tk) then
                    ticks_to_us next (tk_timescale tk)
                    = Some (next_sample_dts r)
                  else next_sample_dts r = 0)
              /\ dm_tracks d'
                 = <[h := set_tk_currentSample (tk_currentSample tk + 1) tk]>
                     (dm_tracks d)) as Hok.
  { intros cs cm Hcs Hcm Ecs Ecm. rewrite Ecs in Hcopy. rewrite Ecm in Hmcopy.
    assert (Htk2 : dm_tracks d2 !! h = Some tk) by (by rewrite Ht2).
    destruct cs as [|bs|c]; [| |done];
      (destruct cm as [|bm|c]; [| |done]);
    next_sample_enter Hfound Htk;
    rewrite decide_True by lia; rewrite Hsize;
    unfold bind at 1, defined at 1, ret at 1;
    unfold bind at 1; rewrite Hcopy; unfold bind at 1; rewrite Hmcopy;
    rewrite Hdts; unfold bind at 1, defined at 1, ret at 1;
    unfold ticks_to_us; rewrite decide_False by done;
    unfold bind at 1, defined at 1, ret at 1;
    rewrite (u32_small (tk_sampleCount tk - 1)) by lia;
    rewrite (u32_small (tk_currentSample tk + 1)) by lia;
    (destruct (decide (tk_currentSample tk < tk_sampleCount tk - 1))
       as [Hlt|Hlast];
     [ rewrite Hnext by lia; unfold bind at 1; unfold bind at 1;
       unfold defined at 1, ret at 1; rewrite decide_False by done;
       unfold defined at 1, ret at 1;
       unfold bind, upd_track, ret; rewrite Htk2;
       eexists _, _; split; [reflexivity|]; cbn;
       split; [done|]; split; [done|]; split; [done|];
       rewrite decide_True by lia; split; [done|]; by rewrite Ht2
     | unfold bind at 1, ret at 1;
       unfold bind, upd_track, ret; rewrite Htk2;
       eexists _, _; split; [reflexivity|]; cbn;
       split; [done|]; split; [done|]; split; [done|];
       rewrite decide_False by lia; split; [done|]; by rewrite Ht2 ]). }
  destruct (copy_of _ _ _ _ _) as [|bs|c] eqn:Ecs.
  - destruct (metadata_copy _ _ _ _ _ _) as [|bm|c] eqn:Ecm;
      [by apply Hok|by apply Hok|].
    exists d2. split; [|done].
    next_sample_enter Hfound Htk.
    rewrite decide_True by lia. rewrite Hsize.
    unfold bind at 1, defined at 1, ret at 1.
    unfold bind at 1. rewrite Hcopy. unfold bind at 1. by rewrite Hmcopy.
  - destruct (metadata_copy _ _ _ _ _ _) as [|bm|c] eqn:Ecm;
      [by apply Hok|by apply Hok|].
    exists d2. split; [|done].
    next_sample_enter Hfound Htk.
    rewrite decide_True by lia. rewrite Hsize.
    unfold bind at 1, defined at 1, ret at 1.
    unfold bind at 1. rewrite Hcopy. unfold bind at 1. by rewrite Hmcopy.
  - exists d1. split; [|done].
    next_sample_enter Hfound Htk.
    rewrite decide_True by lia. rewrite Hsize.
    unfold bind at 1, defined at 1, ret at 1.
    unfold bind at 1. by rewrite Hcopy.
Qed.
End next_sample_outcome.

Lemma aget_lt {A : Type} (a : option (list A)) (i : Z) (x : A) :
  aget a i = Some x -> 0 <= i < Z.of_nat (length (olist a)).
Proof.
  unfold aget. destruct a as [l|]; [|done].
  destruct (decide (0 <= i)); [|done]. intros Hx%lookup_lt_Some.
  simpl. lia.
Qed.




(** ** The cover *)

(** [mp4_demux_build_metadata] keeps the covers that the parser recorded
    and selects the final one. *)
Lemma build_metadata_cover (d d' : mp4_demux) :
  mp4_demux_build_metadata d = Ok tt d' ->
  meta_cover d' = meta_cover d /\ udta_cover d' = udta_cover d
  /\ final_cover d' =
       (if decide (dm_metaCoverSize d > 0) then meta_cover d
        else if decide (dm_udtaCoverSize d > 0) then udta_cover d
        else final_cover d).
Proof.
  unfold mp4_demux_build_metadata. intros H.
  apply bind_Ok in H as (d0 & ? & [-> ->]%gets_Ok & H).
  apply bind_Ok in H as (metaCount & ? & [_ ->]%defined_Ok & H).
  apply bind_Ok in H as (udtaCount & ? & [_ ->]%defined_Ok & H).
  apply bind_Ok in H as ([] & ? & ->%modify_Ok & H).
  apply bind_Ok in H as ([] & ? & ->%modify_Ok & H).
  apply bind_Ok in H as ([] & ? & ->%modify_Ok & H).
  apply bind_Ok in H as (st1 & ? & [_ ->]%defined_Ok & H).
  apply bind_Ok in H as ([[k fkeys] fvalues] & ? & [_ ->]%defined_Ok & H).
  apply bind_Ok in H as (st & d1 & Hst & H).
  match type of Hst with _ ?d2 = _ => assert (d1 = d2) as -> end.
  { destruct (location_set d).
    - apply bind_Ok in Hst as (? & ? & [_ ->]%defined_Ok & Hst).
      apply bind_Ok in Hst as (? & ? & [_ ->]%defined_Ok & Hst).
      by apply ret_Ok in Hst as [_ ->].
    - by apply ret_Ok in Hst as [_ ->]. }
  apply bind_Ok in H as ([] & ? & ->%modify_Ok & H).
  apply bind_Ok in H as ([] & ? & ->%modify_Ok & H).
  destruct (decide (dm_metaCoverSize d > 0)).
  - apply bind_Ok in H as ([] & ? & ->%modify_Ok & H).
    apply bind_Ok in H as ([] & ? & ->%modify_Ok & H).
    by apply modify_Ok in H as ->.
  - destruct (decide (dm_udtaCoverSize d > 0)).
    + apply bind_Ok in H as ([] & ? & ->%modify_Ok & H).
      apply bind_Ok in H as ([] & ? & ->%modify_Ok & H).
      by apply modify_Ok in H as ->.
    + by apply ret_Ok in H as [_ ->].
Qed.

(** C7.  After a successful [open], when a cover was recorded from
    [meta] (its size is not zero) the final cover is this one, with its
    offset, size and type, whether or not [udta] holds a cover too; the
    cover of [udta] is the final one when there is none in [meta]; and
    [mp4_demux_get_metadata_cover] reports the size and the type of the
    final cover. *)
Theorem final_cover_prefers_meta (contents : list Z) (d : mp4_demux) :
  mp4_demux_open contents = Ok tt d ->
  (dm_metaCoverSize d > 0 -> final_cover d = meta_cover d)
  /\ (dm_metaCoverSize d <= 0 -> dm_udtaCoverSize d > 0 ->
      final_cover d = udta_cover d)
  /\ (dm_finalCoverSize d > 0 ->
      mp4_demux_get_metadata_cover false 0 true true d
      = Ok (Some (dm_finalCoverSize d), Some (dm_finalCoverType d), None) d).
Proof.
  intros (d0 & n & d1 & _ & _ & Hmeta)%open_Ok.
  apply build_metadata_cover in Hmeta as (Hm & Hu & Hf).
  injection Hm as Hmo Hms Hmt. injection Hu as Huo Hus Hut.
  rewrite <- Hms, <- Hus in Hf. split; [|split].
  - intros Hsize. rewrite decide_True in Hf by done.
    rewrite Hf. unfold meta_cover. congruence.
  - intros Hno Hsize. rewrite decide_False, decide_True in Hf by lia.
    rewrite Hf. unfold udta_cover. congruence.
  - intros Hsize. unfold mp4_demux_get_metadata_cover.
    unfold bind, gets. by rewrite decide_True.
Qed.

Lemma final_cover_prefers_meta_example :
  udta_cover (opened (ex_covers true true))
  = (188, 5, MP4_METADATA_COVER_TYPE_PNG)
  /\ meta_cover (opened (ex_covers true true))
     = (284, 7, MP4_METADATA_COVER_TYPE_JPEG)
  /\ final_cover (opened (ex_covers true true))
     = meta_cover (opened (ex_covers true true))
  /\ final_cover (opened (ex_covers true false))
     = udta_cover (opened (ex_covers true false)).
Proof.
  split; [by vm_compute|]. split; [by vm_compute|]. split.
  - apply (final_cover_prefers_meta (ex_covers true true)
             (opened (ex_covers true true))); by vm_compute.
  - apply (final_cover_prefers_meta (ex_covers true false)
             (opened (ex_covers true false))); by vm_compute.
Defined.
(** * The claims about the checks of [open] *)

Lemma stts_count_fold (l : list mp4_time_to_sample_entry) :
  forall sc,
  fold_opt (fun e sc => Some (u32 (sc + sampleCount e))) l (u32 sc)
  = Some (u32 (sc + spec_stts_count l)).
Proof.
  unfold spec_stts_count.
  induction l as [|e l IH]; intros sc.
  - simpl. by rewrite Z.add_0_r.
  - rewrite fmap_cons. change (sumZ (?x :: ?xs)) with (x + sumZ xs).
    simpl. rewrite u32_add_l, IH. do 2 f_equal. lia.
Qed.

Lemma stts_sample_count_sum (tk : mp4_track) :
  wf_tables tk ->
  stts_sample_count tk
  = Some (u32 (spec_stts_count (olist (tk_timeToSampleEntries tk)))).
Proof.
  intros Hwf. unfold stts_sample_count.
  rewrite (wf_timeCount _ Hwf), Nat2Z.id.
  destruct (tk_timeToSampleEntries tk) as [l|]; [|done]. simpl.
  rewrite (for_opt_ext _ _ _
             (fun i st => e ← aget (Some l) i;
                          (fun e sc => Some (u32 (sc + sampleCount e))) e st))
    by done.
  rewrite (for_opt_aget_fold _ l []).
  apply (stts_count_fold l 0).
Qed.

(** The tables that the box walker leaves are well formed. *)
Lemma parsed_wf (contents : list Z) : wf_all (parsed contents).
Proof.
  unfold parsed.
  destruct (mp4_demux_parse_children _ _ _ _ _) as [n d| | |] eqn:Hparse;
    try by constructor.
  apply (tables_inv d); [done|].
  eapply (pres_elim wf_all); [apply pres_wf_parse_children| |exact Hparse].
  constructor.
Qed.

(** On an ordered table the count of the code is the number of samples
    of the expansion. *)
Lemma count_runs_ordered (total : Z) (rest : list mp4_sample_to_chunk_entry) :
  forall e,
  0 <= total < 0xFFFFFFFF ->
  Forall stsc_entry_ok (e :: rest) ->
  stsc_ordered (e :: rest) total ->
  count_runs (firstChunk e) (samplesPerChunk e) rest total
  = spec_sample_count (e :: rest) total.
Proof.
  unfold spec_sample_count, sample_places, stsc_ordered.
  induction rest as [|e' rest IH]; intros e Htotal Hok Hord.
  - apply Forall_cons_1 in Hok as [[He Hs] _].
    apply Forall_cons_1 in Hord as [Hspan _]. simpl in *.
    rewrite app_nil_r, length_run_places by lia.
    rewrite u32_small by lia. done.
  - apply Forall_cons_1 in Hok as [[He Hs] Hok].
    pose proof Hok as Hok'.
    apply Forall_cons_1 in Hok' as [[He' Hs'] _].
    apply Forall_cons_1 in Hord as [Hspan Hord].
    cbn [count_runs]. rewrite IH by done.
    cbn [stsc_runs fmap list_fmap concat] in *.
    rewrite !length_app, !Nat2Z.inj_add. simpl in Hspan.
    rewrite (length_run_places (firstChunk e)) by lia.
    rewrite u32_small by lia. done.
Qed.

Lemma stsc_sample_count_spec (tk : mp4_track) :
  wf_tables tk ->
  stsc_ordered (olist (tk_sampleToChunkEntries tk)) (tk_chunkCount tk) ->
  tk_chunkCount tk < 0xFFFFFFFF ->
  stsc_sample_count tk
  = Some (u32 (spec_sample_count (olist (tk_sampleToChunkEntries tk))
                 (tk_chunkCount tk))).
Proof.
  intros Hwf Hord Hchunks. rewrite stsc_sample_count_runs by done.
  pose proof (wf_chunkCount _ Hwf) as HC.
  pose proof (wf_entries _ Hwf) as Hok.
  destruct (olist (tk_sampleToChunkEntries tk)) as [|e rest] eqn:Hl.
  - simpl. by rewrite Z.mul_0_r.
  - cbn [count_runs]. rewrite Z.mul_0_r, Z.add_0_l.
    by rewrite count_runs_ordered by (done || lia).
Qed.

(** For an ordered table the tests of the code are the comparisons of
    the specification. *)
Lemma count_mismatch_spec (tk : mp4_track) :
  wf_tables tk ->
  stsc_ordered (olist (tk_sampleToChunkEntries tk)) (tk_chunkCount tk) ->
  tk_chunkCount tk < 0xFFFFFFFF ->
  count_mismatch tk <-> spec_count_mismatch tk.
Proof.
  intros Hwf Hord Hchunks. unfold count_mismatch, spec_count_mismatch.
  rewrite stsc_sample_count_spec, stts_sample_count_sum by done.
  split.
  - intros [(sc & [= <-] & Hne)|(sc & [= <-] & Hne)]; [by left|by right].
  - intros [Hne|Hne]; [left|right]; eauto.
Qed.

(** A track that is built passes the two tests. *)
Lemma built_no_mismatch (tk : mp4_track) : built tk -> ~ count_mismatch tk.
Proof.
  intros (Hsc & _ & Hstts & _) [(sc & Hsc' & Hne)|(sc & Hsc' & Hne)];
    congruence.
Qed.

(** When the test of a track fails, [mp4_demux_build_tracks] does not
    get through its loop. *)
Lemma build_tracks_mismatch (d : mp4_demux) (h : nat) (tk : mp4_track) :
  dm_tracks d !! h = Some tk -> count_mismatch tk ->
  (exists d', mp4_demux_build_tracks d = Err (- EPROTO) d')
  \/ mp4_demux_build_tracks d = Undef.
Proof.
  intros Htk Hmis.
  assert (forall loc loc' d1,
            build_tracks_loop (length (dm_tracks d)) loc d = Ok loc' d1 ->
            False) as Hloop.
  { intros loc loc' d1 H.
    apply (build_tracks_loop_built (dm_tracks d)) in H as [Htab Hbuilt].
    - assert ((tables <$> dm_tracks d1) !! h = Some (tables tk)) as Hl.
      { by rewrite Htab, list_lookup_fmap, Htk. }
      rewrite list_lookup_fmap in Hl.
      destruct (dm_tracks d1 !! h) as [tk1|] eqn:Htk1; [|done].
      simpl in Hl. apply (inj Some) in Hl.
      apply (built_no_mismatch tk1); [by eapply Hbuilt; [lia|]|].
      by eapply (count_mismatch_ext tk); [symmetry|].
    - split; [done|]. intros h' tk' Hh' Htk'.
      apply lookup_lt_Some in Htk'. lia. }
  pose proof (fueled_build_tracks d) as Hfuel.
  destruct (mp4_demux_build_tracks d) as [[] d'|c d'| |] eqn:Hbuild;
    [| |by right|congruence].
  - exfalso. unfold mp4_demux_build_tracks in Hbuild.
    apply bind_Ok in Hbuild as (n & ? & [-> ->]%gets_Ok & H).
    apply bind_Ok in H as (loc & d1 & H1 & _).
    by eapply Hloop.
  - left. exists d'. f_equal.
    unfold mp4_demux_build_tracks in Hbuild.
    apply bind_Err in Hbuild as [H|(n & ? & [-> ->]%gets_Ok & H)]; [done|].
    apply bind_Err in H as [H|(loc & d1 & H1 & _)].
    + eapply build_tracks_loop_Err in H as [-> _]; [done|].
      split; [done|]. intros h' tk' Hh' Htk'.
      apply lookup_lt_Some in Htk'. lia.
    + exfalso. by eapply Hloop.
Qed.

(** A failure of [mp4_demux_build_tracks] makes [mp4_demux_open] return
    [NULL], unless the behaviour of [mp4_demux_close] is undefined. *)
Lemma open_build_tracks_Err (contents : list Z) (c : Z) (d' : mp4_demux) :
  mp4_demux_build_tracks (parsed contents) = Err c d' ->
  mp4_demux_open contents = Err (- EIO) d'
  \/ mp4_demux_open contents = Undef.
Proof.
  intros Hbuild.
  assert (mp4_demux_open_from (mp4_demux_zero (Build_FILE contents 0 false))
          = Err (- EIO) d') as Hfrom.
  { unfold mp4_demux_open_from. unfold parsed in Hbuild.
    unfold bind at 1, gets at 1. unfold bind at 1, modify at 1.
    unfold bind at 1, or_fail at 1.
    change (file_length (dm_file (mp4_demux_zero ?f))) with (file_length f).
    destruct (mp4_demux_parse_children _ _ _ _ _) as [n d| | |];
      [|by vm_compute in Hbuild..].
    unfold bind at 1, modify at 1. unfold bind at 1, or_fail at 1.
    by rewrite Hbuild. }
  unfold mp4_demux_open. rewrite Hfrom. unfold bind, fail.
  destruct (close_outcome d') as [-> | ->]; auto.
Qed.

(** C2, as the specification states it, fails, in two ways.  On example
    B of the specification (the sample-to-chunk table expands to 16
    samples, the sample size box announces 15)
    [mp4_demux_build_tracks] returns [-EPROTO], but [mp4_demux_open] has
    no error code to return: it sets its variable [err] to [-EIO] and
    returns [NULL].  And on the track of two chunks whose table has the
    entries (3, 1) and (2, 1), the expansion has one sample and the sum
    of the time-to-sample table is 1, as the sample size box announces;
    yet [mp4_demux_build_tracks] returns [-EPROTO], for the 32-bit count
    of the code is 0. *)
Lemma protocol_error_is_not_the_mismatch :
  (exists d1 d2 : mp4_demux,
     spec_sample_count
       (olist (tk_sampleToChunkEntries (first_track (parsed ex_mismatch))))
       (tk_chunkCount (first_track (parsed ex_mismatch))) = 16
     /\ tk_sampleCount (first_track (parsed ex_mismatch)) = 15
     /\ mp4_demux_build_tracks (parsed ex_mismatch) = Err (- EPROTO) d1
     /\ mp4_demux_open ex_mismatch = Err (- EIO) d2
     /\ - EIO <> - EPROTO)
  /\ (exists d1 d2 : mp4_demux,
        spec_sample_count
          (olist (tk_sampleToChunkEntries
                    (first_track (parsed ex_unordered))))
          (tk_chunkCount (first_track (parsed ex_unordered))) = 1
        /\ spec_stts_count
             (olist (tk_timeToSampleEntries
                       (first_track (parsed ex_unordered)))) = 1
        /\ tk_sampleCount (first_track (parsed ex_unordered)) = 1
        /\ length (dm_tracks (parsed ex_unordered)) = 1%nat
        /\ stsc_sample_count (first_track (parsed ex_unordered)) = Some 0
        /\ mp4_demux_build_tracks (parsed ex_unordered) = Err (- EPROTO) d1
        /\ mp4_demux_open ex_unordered = Err (- EIO) d2).
Proof.
  split.
  - do 2 eexists.
    split; [by vm_compute|]. split; [by vm_compute|].
    split; [by vm_compute|]. split; by vm_compute.
  - do 2 eexists.
    split; [by vm_compute|]. split; [by vm_compute|].
    split; [by vm_compute|]. split; [by vm_compute|].
    split; [by vm_compute|]. split; by vm_compute.
Qed.

(** C2, amended.  [mp4_demux_open] opens a file only if, for every
    track, the sum of the sample counts of the time-to-sample table (as a
    32-bit unsigned value) and, for a track of fewer than [2^32 - 1]
    chunks, the number of samples of the expansion of the
    sample-to-chunk table against the chunk count are the sample count
    of the sample size box.  When, in the state that the box walker
    leaves, all sample-to-chunk tables are ordered (the first chunks of
    the entries do not decrease and do not exceed the chunk count plus
    one) and all tracks have fewer than [2^32 - 1] chunks:
    [mp4_demux_build_tracks] returns [-EPROTO] only if, for some track,
    the number of samples of the expansion or the sum of the
    time-to-sample table, as 32-bit unsigned values, is not the sample
    count; and if it is not for some track, [mp4_demux_build_tracks]
    returns [-EPROTO] unless its behaviour is undefined.  Whatever the
    error of [mp4_demux_build_tracks], [mp4_demux_open] then closes the
    demuxer and returns [NULL] (its variable [err] holds [-EIO]), unless
    the behaviour of [mp4_demux_close] is undefined. *)
Theorem open_checks_sample_counts (contents : list Z) :
  (forall d h tk,
     mp4_demux_open contents = Ok tt d -> dm_tracks d !! h = Some tk ->
     u32 (spec_stts_count (olist (tk_timeToSampleEntries tk)))
     = tk_sampleCount tk
     /\ (tk_chunkCount tk < 0xFFFFFFFF ->
         spec_sample_count (olist (tk_sampleToChunkEntries tk))
           (tk_chunkCount tk)
         = tk_sampleCount tk))
  /\ ((forall h tk,
         dm_tracks (parsed contents) !! h = Some tk ->
         stsc_ordered (olist (tk_sampleToChunkEntries tk)) (tk_chunkCount tk)
         /\ tk_chunkCount tk < 0xFFFFFFFF) ->
      (forall d',
         mp4_demux_build_tracks (parsed contents) = Err (- EPROTO) d' ->
         exists h tk,
           dm_tracks (parsed contents) !! h = Some tk
           /\ spec_count_mismatch tk)
      /\ (forall h tk,
            dm_tracks (parsed contents) !! h = Some tk ->
            spec_count_mismatch tk ->
            (exists d',
               mp4_demux_build_tracks (parsed contents) = Err (- EPROTO) d')
            \/ mp4_demux_build_tracks (parsed contents) = Undef))
  /\ (forall c d',
        mp4_demux_build_tracks (parsed contents) = Err c d' ->
        mp4_demux_open contents = Err (- EIO) d'
        \/ mp4_demux_open contents = Undef).
Proof.
  split; [|split].
  - intros d h tk Hopen Htk.
    destruct (open_tracks contents d h tk Hopen Htk)
      as [Hwf (Hsc & Hfill & Hstts & _)].
    split.
    + rewrite stts_sample_count_sum in Hstts by done. by injection Hstts.
    + intros Hchunks.
      by destruct (fill_sample_offsets_placed tk (tk_sampleCount tk)
                     (tk_sampleOffset tk) Hwf Hchunks Hsc Hfill)
        as [<- _].
  - intros Hord.
    assert (forall h tk, dm_tracks (parsed contents) !! h = Some tk ->
                         count_mismatch tk <-> spec_count_mismatch tk) as Hspec.
    { intros h tk Htk. destruct (Hord h tk Htk) as [Ho Hc].
      apply count_mismatch_spec; [|done..].
      by eapply (Forall_lookup_1 _ _ _ _ (parsed_wf contents)). }
    split.
    + intros d' (h & tk & Htk & Hmis)%build_tracks_EPROTO.
      exists h, tk. split; [done|]. by apply (Hspec h).
    + intros h tk Htk Hmis.
      apply (build_tracks_mismatch _ h tk); [done|]. by apply (Hspec h).
  - apply open_build_tracks_Err.
Qed.

Lemma open_checks_sample_counts_example :
  (u32 (spec_stts_count
          (olist (tk_timeToSampleEntries (first_track (opened ex_audio)))))
   = tk_sampleCount (first_track (opened ex_audio))
   /\ spec_sample_count
        (olist (tk_sampleToChunkEntries (first_track (opened ex_audio))))
        (tk_chunkCount (first_track (opened ex_audio)))
      = tk_sampleCount (first_track (opened ex_audio)))
  /\ ((exists d',
         mp4_demux_build_tracks (parsed ex_mismatch) = Err (- EPROTO) d')
      \/ mp4_demux_build_tracks (parsed ex_mismatch) = Undef).
Proof.
  split.
  - destruct (open_checks_sample_counts ex_audio) as [Hok _].
    destruct (Hok (opened ex_audio) 0%nat (first_track (opened ex_audio)))
      as [Hstts Hstsc].
    + by vm_compute.
    + by vm_compute.
    + split; [exact Hstts|]. apply Hstsc. by vm_compute.
  - destruct (open_checks_sample_counts ex_mismatch) as (_ & Hbuild & _).
    destruct Hbuild as [_ Hmis].
    + intros h tk Htk.
      assert (h = 0%nat /\ tk = first_track (parsed ex_mismatch)) as [-> ->].
      { destruct h as [|h]; [|by vm_compute in Htk].
        split; [done|]. unfold first_track. by rewrite Htk. }
      split; [|by vm_compute].
      unfold stsc_ordered. vm_compute. repeat constructor; done.
    + apply (Hmis 0%nat (first_track (parsed ex_mismatch))).
      * by vm_compute.
      * left. by vm_compute.
Defined.

(** C3, as the specification states it, fails: [mp4_demux_open] opens
    the example file whose chunk offset is 4000 although the file has 538
    bytes, and the first sample of its track then lies beyond the end of
    the file. *)
Lemma sample_beyond_end_of_file :
  exists d : mp4_demux,
    mp4_demux_open ex_audio_beyond = Ok tt d
    /\ dm_fileSize d = 538
    /\ aget (tk_sampleOffset (first_track d)) 0 = Some 4000
    /\ aget (tk_sampleSize (first_track d)) 0 = Some 10
    /\ 4000 + 10 > dm_fileSize d.
Proof.
  exists (opened ex_audio_beyond).
  split; [by vm_compute|]. split; [by vm_compute|].
  split; [by vm_compute|]. split; by vm_compute.
Qed.

(** C3, amended.  There is no check of the sample ranges in
    [mp4_demux_open].  For every file that it opens, every track of
    fewer than [2^32 - 1] chunks and every sample [i]: if the chunk of
    the sample ends within the file (the offset of the chunk plus the
    sizes of its samples is at most the size of the file), then
    [sampleOffset[i] + sampleSize[i]] is at most the size of the
    file. *)
Theorem sample_within_file_when_chunk_is (contents : list Z)
    (d : mp4_demux) (h : nat) (tk : mp4_track) (i : nat)
    (place : Z * Z * Z) (e : Z) :
  mp4_demux_open contents = Ok tt d ->
  dm_tracks d !! h = Some tk ->
  tk_chunkCount tk < 0xFFFFFFFF ->
  sample_places (olist (tk_sampleToChunkEntries tk)) (tk_chunkCount tk) !! i
  = Some place ->
  spec_chunk_end (olist (tk_chunkOffset tk)) (olist (tk_sampleSize tk)) i
    place = Some e ->
  e <= Z.of_nat (length contents) ->
  exists off size,
    aget (tk_sampleOffset tk) (Z.of_nat i) = Some off
    /\ aget (tk_sampleSize tk) (Z.of_nat i) = Some size
    /\ off + size <= Z.of_nat (length contents).
Proof.
  intros Hopen Htk Hchunks Hplace Hend He.
  destruct (open_tracks contents d h tk Hopen Htk) as [Hwf Hbuilt].
  pose proof (built_offsets_follow_chunks tk Hwf Hbuilt Hchunks) as Hfollow.
  destruct (sample_end_le_chunk_end tk i place e Hwf Hfollow Hplace Hend)
    as (off & size & Hoff & Hsize & _ & _ & Hle).
  exists off, size. split; [done|]. split; [done|]. lia.
Qed.

Lemma sample_within_file_when_chunk_is_example :
  exists off size,
    aget (tk_sampleOffset (first_track (opened ex_audio))) 1 = Some off
    /\ aget (tk_sampleSize (first_track (opened ex_audio))) 1 = Some size
    /\ off + size <= Z.of_nat (length ex_audio).
Proof.
  apply (sample_within_file_when_chunk_is ex_audio (opened ex_audio) 0
           (first_track (opened ex_audio)) 1 (1, 1, 3) 460).
  - by vm_compute.
  - by vm_compute.
  - by vm_compute.
  - by vm_compute.
  - by vm_compute.
  - by vm_compute.
Defined.


(** * Seeking *)

Lemma sorted_lookup {R : relation Z} (l : list Z) :
  StronglySorted R l ->
  forall i j a b, (i < j)%nat -> l !! i = Some a -> l !! j = Some b -> R a b.
Proof.
  induction 1 as [|x l _ IH Hx]; intros i j a b Hij Ha Hb; [done|].
  destruct j as [|j]; [lia|]. destruct i as [|i].
  - injection Ha as <-. simpl in Hb.
    by apply (Forall_lookup_1 _ _ _ _ Hx Hb).
  - apply (IH i j); [lia|done..].
Qed.

Lemma times_sorted_lookup (times : list Z) :
  times_sorted times ->
  forall i j a b, (i <= j)%nat ->
    times !! i = Some a -> times !! j = Some b -> a <= b.
Proof.
  intros Hsorted i j a b Hij Ha Hb.
  destruct (decide (i = j)) as [->|]; [assert (a = b) by congruence; lia|].
  apply (sorted_lookup times Hsorted i j); [lia|done..].
Qed.

Lemma s32_small (x : Z) : - 2 ^ 31 <= x < 2 ^ 31 -> s32 x = x.
Proof. intros H. unfold s32. rewrite Z.mod_small; lia. Qed.

Lemma s32_range (x : Z) : - 2 ^ 31 <= s32 x < 2 ^ 31.
Proof.
  unfold s32. pose proof (Z.mod_pos_bound (x + 2 ^ 31) (2 ^ 32)). lia.
Qed.

Lemma aget_lookup {A : Type} (l : list A) (i : Z) :
  0 <= i -> aget (Some l) i = l !! Z.to_nat i.
Proof. intros Hi. unfold aget. by rewrite decide_True. Qed.

Lemma aget_beyond {A : Type} (l : list A) (i : Z) :
  Z.of_nat (length l) <= i -> aget (Some l) i = None.
Proof.
  intros Hi. unfold aget. destruct (decide (0 <= i)); [|done].
  apply lookup_ge_None. lia.
Qed.

(** The estimate of [mp4_demux_seek] is the index of a sample. *)
Lemma seek_start_range (tk : mp4_track) (ts s : Z) :
  0 < tk_sampleCount tk < 2 ^ 31 ->
  seek_start tk ts = Some s -> 0 <= s < tk_sampleCount tk.
Proof.
  intros Hcount. unfold seek_start.
  destruct (decide (tk_duration tk = 0)); [done|].
  set (raw := s32 _). intros [= <-].
  pose proof (s32_range
    (u32 (u64 (u64 (u64 (tk_sampleCount tk * ts) + tk_duration tk) - 1)
          / tk_duration tk))) as Hraw. fold raw in Hraw.
  destruct (decide (raw < 0)).
  - rewrite (u32_small 0) by lia.
    destruct (decide (0 >= _)); [lia|lia].
  - rewrite (u32_small raw) by lia.
    destruct (decide (raw >= _)); [|lia].
    rewrite u32_small, s32_small by lia. lia.
Qed.

(** The loop [while] stops at the first sample from [start] on whose
    decoding time is not below [ts], or after the last sample. *)
Lemma seek_forward_spec (times : list Z) (ts count : Z) (n : nat) (s0 : Z) :
  Z.of_nat (length times) = count -> count < 2 ^ 31 ->
  0 <= s0 <= count -> count - s0 <= Z.of_nat n ->
  exists s,
    seek_forward (Some times) ts count n s0 = Some s
    /\ s0 <= s <= count
    /\ (forall k a, s0 <= k < s -> times !! Z.to_nat k = Some a -> a < ts)
    /\ (forall a, times !! Z.to_nat s = Some a -> ts <= a).
Proof.
  intros Hlen Hcount. revert s0.
  induction n as [|n IH]; intros s0 Hs0 Hn.
  - exists s0. simpl. split; [done|]. split; [lia|]. split; [lia|].
    intros a Ha. apply lookup_lt_Some in Ha. lia.
  - cbn [seek_forward]. rewrite u32_small by lia.
    destruct (decide (s0 < count)) as [Hlt|Hge].
    + destruct (lookup_lt_is_Some_2 times (Z.to_nat s0)) as [t Ht]; [lia|].
      rewrite aget_lookup, Ht by lia. simpl.
      destruct (decide (t < ts)) as [Hts|Hts].
      * rewrite decide_True by lia.
        destruct (IH (s0 + 1)) as (s & Hrun & Hrange & Hbelow & Hstop);
          [lia|lia|].
        exists s. split; [done|]. split; [lia|]. split; [|done].
        intros k a Hk Ha.
        destruct (decide (k = s0)) as [->|]; [congruence|].
        apply (Hbelow k); [lia|done].
      * exists s0. split; [done|]. split; [lia|]. split; [lia|].
        intros a Ha. assert (a = t) by congruence. lia.
    + exists s0. split; [done|]. split; [lia|]. split; [lia|].
      intros a Ha. apply lookup_lt_Some in Ha. lia.
Qed.

(** ** Sync samples *)

(** A step of the option monad whose first computation is known. *)
Ltac option_step :=
  match goal with
  | |- context [Some ?x ≫= ?f] => change (Some x ≫= f) with (f x); cbv beta
  end.

Lemma filter_none (P : Z -> Prop) `{!forall x, Decision (P x)}
    (l : list Z) :
  Forall (fun x => ~ P x) l -> filter P l = [].
Proof.
  induction 1 as [|x l Hx _ IH]; [done|].
  by rewrite filter_cons_False.
Qed.

Lemma set_prev_sync_last (entries : list Z) (pre suf : list Z) (p : Z) :
  entries = pre ++ suf -> Forall (fun e => 1 <= e <= 2 ^ 31) pre ->
  set_prev_sync (Some entries) (Z.of_nat (length pre)) (Some p)
  = Some (Some (match list.last pre with Some e => e - 1 | None => p end)).
Proof.
  intros -> Hpre. unfold set_prev_sync.
  destruct pre as [|x pre'] using rev_ind.
  - by rewrite decide_False by (simpl; lia).
  - clear IHpre'. rewrite length_app. cbn [length].
    rewrite decide_True by lia.
    rewrite aget_lookup by lia.
    replace (Z.to_nat (Z.of_nat (length pre' + 1) - 1)) with (length pre')
      by lia.
    rewrite <- app_assoc. rewrite lookup_app_r by lia.
    rewrite Nat.sub_diag. simpl. rewrite last_snoc.
    rewrite Forall_app, Forall_singleton in Hpre. destruct Hpre as [_ Hx].
    by rewrite u32_small, s32_small by lia.
Qed.

Lemma is_sync_loop_spec (entries pre suf : list Z) (idx p : Z) :
  entries = pre ++ suf -> stss_sorted entries -> 0 <= idx < 2 ^ 32 ->
  Forall (fun e => e - 1 < idx) pre ->
  is_sync_loop (Some entries) idx (Some p) (length suf)
    (Z.of_nat (length pre))
  = Some (if bool_decide (idx + 1 ∈ suf) then (1, Some p)
          else (0, Some (match list.last (pre ++ filter (fun e => e - 1 < idx) suf)
                         with Some e => e - 1 | None => p end))).
Proof.
  intros Heq [Hrange Hss] Hidx.
  pose proof (sorted_lookup _ Hss) as Hsorted. revert pre Heq.
  induction suf as [|e suf IH]; intros pre Heq Hpre.
  - cbn [is_sync_loop length].
    rewrite (set_prev_sync_last entries pre [] p); [|done|].
    + rewrite bool_decide_eq_false_2 by apply not_elem_of_nil.
      by rewrite filter_nil, app_nil_r.
    + rewrite Heq, Forall_app in Hrange. by destruct Hrange.
  - cbn [is_sync_loop length].
    assert (entries !! length pre = Some e) as He.
    { rewrite Heq, lookup_app_r by lia. by rewrite Nat.sub_diag. }
    assert (1 <= e <= 2 ^ 31) as Hre.
    { by apply (Forall_lookup_1 _ _ _ _ Hrange He). }
    assert (forall x, x ∈ suf -> e < x) as Hlater.
    { intros x [k Hk]%list_elem_of_lookup.
      apply (Hsorted (length pre) (length pre + S k)%nat); [lia|done|].
      rewrite Heq, lookup_app_r by lia.
      replace (length pre + S k - length pre)%nat with (S k) by lia. done. }
    rewrite aget_lookup, Nat2Z.id, He by lia. option_step.
    rewrite u32_small by lia.
    destruct (decide (e - 1 = idx)) as [Heidx|Hne].
    + rewrite bool_decide_eq_true_2; [done|]. apply elem_of_cons. left. lia.
    + destruct (decide (e - 1 > idx)) as [Hgt|Hle].
      * rewrite (set_prev_sync_last entries pre (e :: suf) p); [|done|].
        2:{ rewrite Heq, Forall_app in Hrange. by destruct Hrange. }
        rewrite bool_decide_eq_false_2.
        2:{ intros [Hx|Hx]%elem_of_cons; [lia|]. apply Hlater in Hx. lia. }
        rewrite filter_cons_False by lia.
        replace (filter (fun e0 => e0 - 1 < idx) suf) with (@nil Z).
        { by rewrite app_nil_r. }
        symmetry. apply filter_none, list.Forall_forall.
        intros x Hx. apply Hlater in Hx. lia.
      * specialize (IH (pre ++ [e])).
        rewrite length_app in IH. simpl in IH.
        replace (Z.of_nat (length pre) + 1)
          with (Z.of_nat (length pre + 1)) by lia.
        rewrite IH.
        -- rewrite filter_cons_True by lia.
           rewrite <- app_assoc. simpl.
           destruct (decide (idx + 1 ∈ suf)) as [Hin|Hnin].
           ++ rewrite !bool_decide_eq_true_2; [done| |done].
              apply elem_of_cons. by right.
           ++ rewrite !bool_decide_eq_false_2; [done| |done].
              intros [Hx|Hx]%elem_of_cons; [lia|done].
        -- by rewrite <- app_assoc.
        -- apply Forall_app. split; [done|]. apply Forall_singleton. lia.
Qed.

Lemma is_sync_loop_defined (entries : list Z) (idx : Z) (p : Z) (n : nat)
    (i : Z) :
  0 <= i -> Z.of_nat n + i <= Z.of_nat (length entries) ->
  exists r q, is_sync_loop (Some entries) idx (Some p) n i = Some (r, Some q).
Proof.
  assert (forall k, 0 <= k <= Z.of_nat (length entries) ->
            exists q, set_prev_sync (Some entries) k (Some p)
                      = Some (Some q)) as Hprev.
  { intros k Hk. unfold set_prev_sync.
    destruct (decide (k > 0)); [|eauto].
    destruct (lookup_lt_is_Some_2 entries (Z.to_nat (k - 1))) as [e He];
      [lia|].
    rewrite aget_lookup, He by lia. simpl. eauto. }
  revert i. induction n as [|n IH]; intros i Hi Hn; cbn [is_sync_loop].
  - destruct (Hprev i) as [q ->]; [lia|]. simpl. eauto.
  - destruct (lookup_lt_is_Some_2 entries (Z.to_nat i)) as [e He]; [lia|].
    rewrite aget_lookup, He by lia. option_step.
    destruct (decide _); [eauto|].
    destruct (decide _); [|apply IH; lia].
    destruct (Hprev i) as [q ->]; [lia|]. simpl. eauto.
Qed.

(** On a table that is complete, [mp4_demux_is_sync_sample] returns. *)
Lemma is_sync_sample_defined (tk : mp4_track) (idx p : Z) :
  stss_complete tk ->
  exists r q, mp4_demux_is_sync_sample tk idx (Some p) = Some (r, Some q).
Proof.
  unfold stss_complete, mp4_demux_is_sync_sample.
  destruct (tk_syncSampleEntries tk) as [entries|]; [|eauto].
  intros ->. rewrite Nat2Z.id. apply is_sync_loop_defined; lia.
Qed.

Lemma stss_sorted_app (l1 l2 : list Z) :
  stss_sorted (l1 ++ l2) -> stss_sorted l1.
Proof.
  intros [Hrange Hsorted]. split.
  - rewrite Forall_app in Hrange. by destruct Hrange.
  - by apply StronglySorted_app_1_l in Hsorted.
Qed.

(** In a sorted table, the last entry that satisfies [P] is the largest
    one. *)
Lemma last_filter_max (P : Z -> Prop) `{!forall x, Decision (P x)}
    (entries : list Z) (e : Z) :
  stss_sorted entries -> list.last (filter P entries) = Some e ->
  e ∈ entries /\ P e /\ forall x, x ∈ entries -> P x -> x <= e.
Proof.
  induction entries as [|x l IH] using rev_ind; [done|].
  intros Hsorted. pose proof (stss_sorted_app _ _ Hsorted) as Hl.
  rewrite list.filter_app. destruct (decide (P x)) as [HP|HP].
  - rewrite (filter_cons_True P x []) by done. rewrite filter_nil.
    rewrite last_snoc. intros [= <-]. split; [|split; [done|]].
    + apply elem_of_app. right. by apply list_elem_of_singleton.
    + intros y [Hy|Hy%list_elem_of_singleton]%elem_of_app _; [|lia].
      apply list_elem_of_lookup in Hy as [i Hi].
      destruct Hsorted as [_ Hss].
      pose proof (sorted_lookup _ Hss) as Hsorted.
      pose proof (lookup_lt_Some _ _ _ Hi) as Hlt.
      assert (y < x); [|lia].
      apply (Hsorted i (length l)); [done|by apply lookup_app_l_Some|].
      by rewrite lookup_app_r, Nat.sub_diag by lia.
  - rewrite (filter_cons_False P x []) by done. rewrite filter_nil, app_nil_r.
    intros Hlast. destruct (IH Hl Hlast) as (He & HPe & Hmax).
    split; [|split; [done|]].
    + apply elem_of_app. by left.
    + intros y [Hy|Hy%list_elem_of_singleton]%elem_of_app HPy;
        [by apply Hmax|by subst].
Qed.

Lemma last_filter_none (P : Z -> Prop) `{!forall x, Decision (P x)}
    (entries : list Z) :
  list.last (filter P entries) = None -> forall x, x ∈ entries -> ~ P x.
Proof.
  intros Hlast x Hx HP.
  assert (x ∈ filter P entries) as Hin by (by apply list_elem_of_filter).
  destruct (filter P entries) as [|y l] using rev_ind.
  - by apply not_elem_of_nil in Hin.
  - by rewrite last_snoc in Hlast.
Qed.

(** ** The backward scan *)

Section backward.
Context (tk : mp4_track) (times : list Z) (ts : Z) (sync : bool).
Hypothesis Htimes : tk_sampleDecodingTime tk = Some times.

(** The samples whose decoding time is above [ts] are passed. *)
Lemma seek_backward_skip (k c0 : nat) :
  (c0 < k <= length times)%nat ->
  (forall j a, (c0 < j < k)%nat -> times !! j = Some a -> ts < a) ->
  seek_backward tk ts sync k = seek_backward tk ts sync (S c0).
Proof.
  intros Hk Habove. induction k as [|k IH]; [lia|].
  destruct (decide (k = c0)) as [->|Hne]; [done|].
  rewrite <- IH; [|lia|intros j a Hj; apply Habove; lia].
  cbn [seek_backward]. rewrite Htimes.
  destruct (lookup_lt_is_Some_2 times k) as [a Ha]; [lia|].
  rewrite aget_lookup, Nat2Z.id, Ha by lia. option_step.
  rewrite decide_False; [done|].
  specialize (Habove k a ltac:(lia) Ha). lia.
Qed.

(** The sample on which the scan lands: the last one before [k] whose
    decoding time is not above [ts]. *)
Lemma landing_exists (k : nat) :
  (k <= length times)%nat ->
  (exists i a, (i < k)%nat /\ times !! i = Some a /\ a <= ts) ->
  exists c0 a, (c0 < k)%nat /\ times !! c0 = Some a /\ a <= ts
    /\ forall j b, (c0 < j < k)%nat -> times !! j = Some b -> ts < b.
Proof.
  induction k as [|k IH]; intros Hk (i & a & Hi & Ha & Hle); [lia|].
  destruct (lookup_lt_is_Some_2 times k) as [b Hb]; [lia|].
  destruct (decide (b <= ts)) as [Hbts|Hbts].
  - exists k, b. split; [lia|]. split; [done|]. split; [done|]. lia.
  - destruct IH as (c0 & a0 & Hc0 & Ha0 & Hle0 & Habove); [lia| |].
    + exists i, a. split; [|done].
      destruct (decide (i = k)) as [->|]; [|lia].
      assert (a = b) by congruence. lia.
    + exists c0, a0. split; [lia|]. split; [done|]. split; [done|].
      intros j c Hj Hc. destruct (decide (j = k)) as [->|].
      * assert (c = b) by congruence. lia.
      * apply (Habove j); [lia|done].
Qed.

(** What the scan does on the landing sample. *)
Lemma seek_backward_at (c0 : nat) (a : Z) :
  times !! c0 = Some a -> a <= ts ->
  seek_backward tk ts sync (S c0)
  = r ← mp4_demux_is_sync_sample tk (Z.of_nat c0) (Some (-1));
    if bool_decide (r.1 <> 0) || negb sync then Some (Some (Z.of_nat c0))
    else if decide (default (-1) r.2 >= 0)
         then Some (Some (default (-1) r.2))
         else seek_backward tk ts sync c0.
Proof.
  intros Ha Hle. cbn [seek_backward]. rewrite Htimes.
  rewrite aget_lookup, Nat2Z.id, Ha by lia. option_step.
  by rewrite decide_True.
Qed.
End backward.

(** ** One track *)

Section seek_track.
Context (logs : bool) (time_offset : Z) (sync : bool) (h : nat).
Context (d : mp4_demux) (tk : mp4_track) (times : list Z).
Hypothesis Htk : dm_tracks d !! h = Some tk.
Hypothesis Hseekable : seekable tk.
Hypothesis Htimes : tk_sampleDecodingTime tk = Some times.
Hypothesis Hlen : Z.of_nat (length times) = tk_sampleCount tk.
Hypothesis Hcount : 0 < tk_sampleCount tk < 2 ^ 31.

Local Abbreviation ts := (seek_ts time_offset (tk_timescale tk)).

(** The track is not skipped: what [seek_track] does on it. *)
Lemma seek_track_enter :
  seek_track logs time_offset sync h d
  = (let* start := defined (seek_start tk ts) in
     let* start :=
       defined (seek_forward (tk_sampleDecodingTime tk) ts (tk_sampleCount tk)
                  (Z.to_nat (tk_sampleCount tk)) start) in
     let* found :=
       defined (seek_backward tk ts sync (Z.to_nat (start + 1))) in
     match found with
     | Some start =>
         upd_track h (set_tk_currentSample (u32 start));;;
         (if logs then
            let* dts := defined (aget (tk_sampleDecodingTime tk) start) in
            let* _ := defined (ticks_to_us dts (tk_timescale tk)) in
            ret tt
          else ret tt);;;
         match tk_metadata tk with
         | Some hm =>
             let* metatk := get_track hm in
             if decide (u32 start < tk_sampleCount metatk) then
               let* dts :=
                 defined (aget (tk_sampleDecodingTime tk) start) in
               let* mdts :=
                 defined (aget (tk_sampleDecodingTime metatk) start) in
               if decide (dts = mdts)
               then upd_track hm (set_tk_currentSample (u32 start))
               else ret tt
             else ret tt
         | None => ret tt
         end
     | None => MP4_LOG_ERR_AND_RETURN_ERR_IF_FAILED true (- ENOENT)
     end) d.
Proof.
  destruct Hseekable as [Hchap Hmeta].
  unfold seek_track. unfold bind at 1, get_track at 1. rewrite Htk.
  by rewrite !decide_False.
Qed.

(** All decoding times are below the target: the scan starts after the
    last sample. *)
Lemma seek_track_past_end :
  tk_duration tk <> 0 ->
  Forall (fun a => a < ts) times ->
  seek_track logs time_offset sync h d = Undef.
Proof.
  intros Hduration Hbelow. rewrite seek_track_enter.
  destruct (seek_start tk ts) as [s0|] eqn:Hstart; [|done].
  pose proof (seek_start_range tk ts s0 Hcount Hstart) as Hs0.
  destruct (seek_forward_spec times ts (tk_sampleCount tk)
              (Z.to_nat (tk_sampleCount tk)) s0)
    as (s & Hfwd & Hs & _ & Hstop); [done|lia|lia|lia|].
  assert (s = tk_sampleCount tk) as ->.
  { destruct (decide (s = tk_sampleCount tk)) as [|Hne]; [done|].
    destruct (lookup_lt_is_Some_2 times (Z.to_nat s)) as [a Ha]; [lia|].
    pose proof (Forall_lookup_1 _ _ _ _ Hbelow Ha) as Hlt.
    specialize (Hstop a Ha). simpl in Hlt. lia. }
  unfold bind at 1. unfold defined at 1, ret at 1.
  unfold bind at 1. rewrite Htimes, Hfwd. unfold defined at 1, ret at 1.
  unfold bind at 1.
  replace (Z.to_nat (tk_sampleCount tk + 1))
    with (S (Z.to_nat (tk_sampleCount tk))) by lia.
  cbn [seek_backward]. rewrite Htimes, aget_beyond by lia. done.
Qed.

(** The scan lands on a sample when the target lies between the first
    and the last decoding time. *)
Lemma seek_track_landing (first final : Z) :
  tk_duration tk <> 0 ->
  times_sorted times ->
  times !! 0%nat = Some first -> first <= ts ->
  list.last times = Some final -> ts <= final ->
  exists (c0 : nat) (a : Z),
    Z.of_nat c0 < tk_sampleCount tk
    /\ times !! c0 = Some a /\ a <= ts
    /\ (forall j b, (c0 < j)%nat -> times !! j = Some b -> ts <= b)
    /\ seek_track logs time_offset sync h d
       = (let* found := defined (seek_backward tk ts sync (S c0)) in
          match found with
          | Some start =>
              upd_track h (set_tk_currentSample (u32 start));;;
              (if logs then
                 let* dts :=
                   defined (aget (tk_sampleDecodingTime tk) start) in
                 let* _ := defined (ticks_to_us dts (tk_timescale tk)) in
                 ret tt
               else ret tt);;;
              match tk_metadata tk with
              | Some hm =>
                  let* metatk := get_track hm in
                  if decide (u32 start < tk_sampleCount metatk) then
                    let* dts :=
                      defined (aget (tk_sampleDecodingTime tk) start) in
                    let* mdts :=
                      defined (aget (tk_sampleDecodingTime metatk) start) in
                    if decide (dts = mdts)
                    then upd_track hm (set_tk_currentSample (u32 start))
                    else ret tt
                  else ret tt
              | None => ret tt
              end
          | None => MP4_LOG_ERR_AND_RETURN_ERR_IF_FAILED true (- ENOENT)
          end) d.
Proof.
  intros Hduration Hss Hfirst Hfirst_le Hfinal Hfinal_le.
  pose proof (times_sorted_lookup _ Hss) as Hsorted.
  rewrite seek_track_enter.
  unfold seek_start. rewrite decide_False by done.
  match goal with
  | |- context [defined (Some ?x)] =>
      pose proof (seek_start_range tk ts x Hcount) as Hs0;
      unfold seek_start in Hs0; rewrite decide_False in Hs0 by done;
      specialize (Hs0 eq_refl); set (s0 := x) in *
  end.
  destruct (seek_forward_spec times ts (tk_sampleCount tk)
              (Z.to_nat (tk_sampleCount tk)) s0)
    as (s & Hfwd & Hs & Hbelow & Hstop); [done|lia|lia|lia|].
  rewrite last_lookup in Hfinal.
  assert (s < tk_sampleCount tk) as Hslt.
  { destruct (decide (s = tk_sampleCount tk)) as [->|]; [|lia].
    assert (final < ts); [|lia].
    apply (Hbelow (tk_sampleCount tk - 1)); [lia|].
    rewrite <- Hfinal. f_equal. lia. }
  destruct (lookup_lt_is_Some_2 times (Z.to_nat s)) as [b Hb]; [lia|].
  pose proof (Hstop b Hb) as Hble.
  destruct (landing_exists times ts (S (Z.to_nat s)))
    as (c0 & a & Hc0 & Ha & Hale & Habove); [lia| |].
  { exists 0%nat, first. split; [lia|]. done. }
  exists c0, a. split; [lia|]. split; [done|]. split; [done|]. split.
  - intros j c Hj Hc. destruct (decide (j <= Z.to_nat s)%nat).
    + specialize (Habove j c ltac:(lia) Hc). lia.
    + pose proof (Hsorted (Z.to_nat s) j b c ltac:(lia) Hb Hc). lia.
  - unfold bind at 1. unfold defined at 1, ret at 1.
    unfold bind at 1. rewrite Htimes, Hfwd. unfold defined at 1, ret at 1.
    replace (Z.to_nat (s + 1)) with (S (Z.to_nat s)) by lia.
    rewrite (seek_backward_skip tk times ts sync Htimes (S (Z.to_nat s)) c0);
      [done|lia|].
    intros j c Hj. by apply Habove.
Qed.

(** The cursor is set on the sample found, when the track has no linked
    metadata track. *)
Lemma seek_track_found (c : Z) :
  0 <= c < tk_sampleCount tk -> tk_metadata tk = None ->
  tk_timescale tk <> 0 ->
  (let* _ := upd_track h (set_tk_currentSample (u32 c)) in
   let* _ :=
     (if logs then
        let* dts := defined (aget (tk_sampleDecodingTime tk) c) in
        let* _ := defined (ticks_to_us dts (tk_timescale tk)) in
        ret tt
      else ret tt) in
   match tk_metadata tk with
   | Some hm =>
       let* metatk := get_track hm in
       if decide (u32 c < tk_sampleCount metatk) then
         let* dts := defined (aget (tk_sampleDecodingTime tk) c) in
         let* mdts := defined (aget (tk_sampleDecodingTime metatk) c) in
         if decide (dts = mdts)
         then upd_track hm (set_tk_currentSample (u32 c))
         else ret tt
       else ret tt
   | None => ret tt
   end) d
  = Ok tt (set_dm_tracks (<[h := set_tk_currentSample c tk]> (dm_tracks d))
             d).
Proof.
  intros Hc Hmeta Hscale. rewrite Hmeta, Htimes.
  destruct (lookup_lt_is_Some_2 times (Z.to_nat c)) as [a Ha]; [lia|].
  rewrite aget_lookup, Ha by lia. rewrite u32_small by lia.
  unfold bind at 1, upd_track. rewrite Htk.
  destruct logs; [|done].
  unfold bind, defined, ret, ticks_to_us. by rewrite decide_False.
Qed.
End seek_track.

(** ** Properties of [mp4_demux_is_sync_sample] and [mp4_demux_seek] *)

Lemma is_sync_sample_sorted (tk : mp4_track) (entries : list Z)
    (idx p : Z) :
  tk_syncSampleEntries tk = Some entries ->
  tk_syncSampleEntryCount tk = Z.of_nat (length entries) ->
  stss_sorted entries -> 0 <= idx < 2 ^ 32 ->
  mp4_demux_is_sync_sample tk idx (Some p)
  = Some (if bool_decide (idx + 1 ∈ entries) then (1, Some p)
          else (0, Some (sync_before entries idx p))).
Proof.
  intros Htable Hcount Hsorted Hidx.
  unfold mp4_demux_is_sync_sample. rewrite Htable, Hcount, Nat2Z.id.
  exact (is_sync_loop_spec entries [] entries idx p eq_refl Hsorted Hidx
           (Forall_nil_2 _)).
Qed.

(** X2.  On a sync sample table that lists sample numbers in increasing
    order, [mp4_demux_is_sync_sample] returns 1 exactly when the number
    of the sample (its index plus one) is listed, and leaves
    [*prevSyncSampleIdx] as it is; otherwise it returns 0 and stores the
    index of the last sync sample before the sample there, if there is
    one. *)
Theorem sync_sample_is_listed (tk : mp4_track) (entries : list Z)
    (idx p : Z) :
  tk_syncSampleEntries tk = Some entries ->
  tk_syncSampleEntryCount tk = Z.of_nat (length entries) ->
  stss_sorted entries -> 0 <= idx < 2 ^ 32 ->
  mp4_demux_is_sync_sample tk idx (Some p)
  = Some (if bool_decide (idx + 1 ∈ entries) then (1, Some p)
          else (0, Some (sync_before entries idx p))).
Proof.
  intros Htable Hcount Hsorted Hidx. by apply is_sync_sample_sorted.
Qed.

Lemma sync_sample_is_listed_example :
  tk_syncSampleEntries (first_track (opened ex_sync)) = Some [1; 3]
  /\ mp4_demux_is_sync_sample (first_track (opened ex_sync)) 2 (Some (-1))
     = Some (1, Some (-1))
  /\ mp4_demux_is_sync_sample (first_track (opened ex_sync)) 3 (Some (-1))
     = Some (0, Some 2).
Proof.
  assert (stss_sorted [1; 3]) as Hsorted.
  { split; [repeat constructor; lia|]. repeat constructor. }
  split; [by vm_compute|]. split.
  - rewrite (sync_sample_is_listed (first_track (opened ex_sync)) [1; 3] 2
               (-1)); [by vm_compute|by vm_compute|by vm_compute|done|lia].
  - rewrite (sync_sample_is_listed (first_track (opened ex_sync)) [1; 3] 3
               (-1)); [by vm_compute|by vm_compute|by vm_compute|done|lia].
Defined.

(** X3.  One iteration of the loop of [mp4_demux_seek] over the
    tracks, whether or not [MP4_LOGI] evaluates its arguments.  For a
    track that the loop does not skip (it is no chapters track, and no
    metadata track with a reference), that has no linked metadata
    track, whose duration and timescale are not zero, that has between
    1 and [2^31 - 1] samples, whose array [sampleDecodingTime] has
    [sampleCount] cells with values that do not decrease, whose sync
    sample table, if any, has [syncSampleEntryCount] cells, and for a
    target [ts] (the time in ticks of the timescale) between the first
    and the last decoding time: when [sync] is 0 or the track has no
    sync sample table, the iteration returns no error and changes
    nothing but the cursor of the track, which it sets on a sample whose
    decoding time is not above [ts], such that no later sample has a
    decoding time below [ts]. *)
Theorem seek_lands (logs : bool) (time_offset : Z) (sync : bool) (h : nat)
    (d : mp4_demux) (tk : mp4_track) (times : list Z) (first final : Z) :
  dm_tracks d !! h = Some tk -> seekable tk ->
  tk_sampleDecodingTime tk = Some times ->
  Z.of_nat (length times) = tk_sampleCount tk ->
  0 < tk_sampleCount tk < 2 ^ 31 ->
  tk_duration tk <> 0 -> tk_timescale tk <> 0 -> tk_metadata tk = None ->
  stss_complete tk -> sync = false \/ tk_syncSampleEntries tk = None ->
  times_sorted times ->
  times !! 0%nat = Some first ->
  first <= seek_ts time_offset (tk_timescale tk) ->
  list.last times = Some final ->
  seek_ts time_offset (tk_timescale tk) <= final ->
  exists (c : nat) (a : Z),
    Z.of_nat c < tk_sampleCount tk
    /\ times !! c = Some a /\ a <= seek_ts time_offset (tk_timescale tk)
    /\ (forall j b, (c < j)%nat -> times !! j = Some b ->
        seek_ts time_offset (tk_timescale tk) <= b)
    /\ seek_track logs time_offset sync h d
       = Ok tt (set_dm_tracks
                  (<[h := set_tk_currentSample (Z.of_nat c) tk]>
                     (dm_tracks d)) d).
Proof.
  intros Htk Hseekable Htimes Hlen Hcount Hduration Hscale Hmeta Hstss Hsync
    Hsorted Hfirst Hfirst_le Hfinal Hfinal_le.
  destruct (seek_track_landing logs time_offset sync h d tk times Htk
              Hseekable Htimes Hlen Hcount first final)
    as (c0 & a & Hc0 & Ha & Hale & Habove & Hrun); [done..|].
  exists c0, a. split; [done|]. split; [done|]. split; [done|].
  split; [done|]. rewrite Hrun.
  rewrite (seek_backward_at tk times _ sync Htimes c0 a Ha Hale).
  destruct (is_sync_sample_defined tk (Z.of_nat c0) (-1) Hstss)
    as (r & q & Hr).
  assert (bool_decide (r <> 0) || negb sync = true) as Hcond.
  { destruct Hsync as [->|Hnone]; [by rewrite orb_true_r|].
    unfold mp4_demux_is_sync_sample in Hr. rewrite Hnone in Hr.
    injection Hr as <- _. by rewrite bool_decide_eq_true_2. }
  rewrite Hr. option_step. cbn [fst]. rewrite Hcond.
  unfold bind at 1. unfold defined at 1, ret at 1.
  apply (seek_track_found logs h d tk times Htk Htimes Hlen Hcount);
    [lia|done..].
Qed.

Lemma seek_lands_example :
  tk_sampleDecodingTime <$> dm_tracks (opened ex_audio)
  = [Some [0; 3000; 6000]]
  /\ seek_ts 40000 90000 = 3600
  /\ exists (c : nat) (a : Z),
       Z.of_nat c < 3 /\ [0; 3000; 6000] !! c = Some a /\ a <= 3600
       /\ (forall j b, (c < j)%nat -> [0; 3000; 6000] !! j = Some b ->
           3600 <= b)
       /\ seek_track true 40000 false 0 (opened ex_audio)
          = Ok tt (set_dm_tracks
                     (<[0%nat := set_tk_currentSample (Z.of_nat c)
                                   (first_track (opened ex_audio))]>
                        (dm_tracks (opened ex_audio)))
                     (opened ex_audio)).
Proof.
  split; [by vm_compute|]. split; [by vm_compute|].
  apply (seek_lands true 40000 false 0 (opened ex_audio)
           (first_track (opened ex_audio)) [0; 3000; 6000] 0 6000).
  - by vm_compute.
  - split; [by vm_compute|]. intros [H _]. by vm_compute in H.
  - by vm_compute.
  - by vm_compute.
  - by vm_compute.
  - by vm_compute.
  - by vm_compute.
  - by vm_compute.
  - by vm_compute.
  - by left.
  - repeat constructor; lia.
  - done.
  - by vm_compute.
  - done.
  - by vm_compute.
Defined.

(** The sync sample that [mp4_demux_seek] finds from a sync sample. *)
Lemma sync_at_listed (entries : list Z) (c0 : Z) :
  stss_sorted entries -> c0 + 1 ∈ entries ->
  sync_at entries c0 = Some (c0 + 1).
Proof.
  intros Hsorted Hin. unfold sync_at.
  destruct (list.last (filter (fun e => e - 1 <= c0) entries)) as [e|]
    eqn:Hlast.
  - apply last_filter_max in Hlast as (_ & He & Hmax); [|done].
    specialize (Hmax (c0 + 1) Hin ltac:(simpl in *; lia)).
    simpl in He. f_equal. lia.
  - by destruct (last_filter_none _ _ Hlast (c0 + 1) Hin ltac:(simpl in *; lia)).
Qed.

(** The sync sample that it finds from another sample. *)
Lemma sync_at_before (entries : list Z) (c0 : Z) :
  stss_sorted entries -> c0 + 1 ∉ entries ->
  sync_at entries c0 = list.last (filter (fun e => e - 1 < c0) entries).
Proof.
  intros Hsorted Hnin. unfold sync_at.
  destruct (list.last (filter (fun e => e - 1 < c0) entries)) as [e|]
    eqn:Hlt;
    destruct (list.last (filter (fun e => e - 1 <= c0) entries)) as [e'|]
      eqn:Hle; [| | |done].
  - apply last_filter_max in Hlt as (He & Hc & Hmax); [|done].
    apply last_filter_max in Hle as (He' & Hc' & Hmax'); [|done].
    assert (e' - 1 <> c0).
    { intros Heq. apply Hnin. by replace (c0 + 1) with e' by lia. }
    specialize (Hmax e' He' ltac:(simpl in *; lia)).
    specialize (Hmax' e He ltac:(simpl in *; lia)).
    simpl in *. f_equal. lia.
  - apply last_filter_max in Hlt as (He & Hc & _); [|done].
    by destruct (last_filter_none _ _ Hle e He ltac:(simpl in *; lia)).
  - apply last_filter_max in Hle as (He' & Hc' & _); [|done].
    assert (e' - 1 <> c0).
    { intros Heq. apply Hnin. by replace (c0 + 1) with e' by lia. }
    by destruct (last_filter_none _ _ Hlt e' He' ltac:(simpl in *; lia)).
Qed.

(** No sample is found below the first sync sample. *)
Lemma seek_backward_none (tk : mp4_track) (times entries : list Z) (ts : Z)
    (c0 k : nat) :
  tk_sampleDecodingTime tk = Some times ->
  tk_syncSampleEntries tk = Some entries ->
  tk_syncSampleEntryCount tk = Z.of_nat (length entries) ->
  stss_sorted entries ->
  (forall e, e ∈ entries -> Z.of_nat c0 <= e - 1) ->
  (k <= c0)%nat -> (k <= length times)%nat -> Z.of_nat c0 < 2 ^ 32 ->
  seek_backward tk ts true k = Some None.
Proof.
  intros Htimes Htable Hcount Hsorted Hall Hk Hlen Hc0.
  induction k as [|k IH]; [done|].
  cbn [seek_backward]. rewrite Htimes.
  destruct (lookup_lt_is_Some_2 times k) as [a Ha]; [lia|].
  rewrite aget_lookup, Nat2Z.id, Ha by lia. option_step.
  destruct (decide (a <= ts)); [|apply IH; lia].
  rewrite (is_sync_sample_sorted tk entries (Z.of_nat k) (-1)) by
    (done || lia).
  rewrite bool_decide_eq_false_2.
  2:{ intros Hin. apply Hall in Hin. lia. }
  option_step. cbn [fst snd]. rewrite bool_decide_eq_false_2 by lia.
  unfold sync_before. rewrite filter_none.
  2:{ apply list.Forall_forall. intros e He. apply Hall in He. lia. }
  cbn. apply IH; lia.
Qed.

(** X4.  One iteration of the loop of [mp4_demux_seek] over the
    tracks, with [sync] set, whether or not [MP4_LOGI] evaluates its
    arguments.  For a track that the loop does not skip (it is no
    chapters track, and no metadata track with a reference), that has
    no linked metadata track, whose duration and timescale are not
    zero, that has between 1 and [2^31 - 1] samples, whose array
    [sampleDecodingTime] has [sampleCount] cells with values that do not
    decrease, whose sync sample table has [syncSampleEntryCount] cells
    and lists sample numbers between 1 and [2^31] in increasing order,
    and for a target [ts] (the time in ticks of the timescale) between
    the first and the last decoding time: the scan lands on a sample
    [c0] whose decoding time is not above [ts], such that no later
    sample has a decoding time below [ts]; the iteration returns no
    error and sets the cursor of the track, and nothing else, on the
    last sample listed in the table that is not after [c0]; when the
    table lists no such sample, it changes nothing at all. *)
Theorem seek_sync_lands (logs : bool) (time_offset : Z) (h : nat)
    (d : mp4_demux) (tk : mp4_track) (times entries : list Z)
    (first final : Z) :
  dm_tracks d !! h = Some tk -> seekable tk ->
  tk_sampleDecodingTime tk = Some times ->
  Z.of_nat (length times) = tk_sampleCount tk ->
  0 < tk_sampleCount tk < 2 ^ 31 ->
  tk_duration tk <> 0 -> tk_timescale tk <> 0 -> tk_metadata tk = None ->
  tk_syncSampleEntries tk = Some entries ->
  tk_syncSampleEntryCount tk = Z.of_nat (length entries) ->
  stss_sorted entries ->
  times_sorted times ->
  times !! 0%nat = Some first ->
  first <= seek_ts time_offset (tk_timescale tk) ->
  list.last times = Some final ->
  seek_ts time_offset (tk_timescale tk) <= final ->
  exists (c0 : nat) (a : Z),
    Z.of_nat c0 < tk_sampleCount tk
    /\ times !! c0 = Some a /\ a <= seek_ts time_offset (tk_timescale tk)
    /\ (forall j b, (c0 < j)%nat -> times !! j = Some b ->
        seek_ts time_offset (tk_timescale tk) <= b)
    /\ seek_track logs time_offset true h d
       = Ok tt (match sync_at entries (Z.of_nat c0) with
                | Some e =>
                    set_dm_tracks
                      (<[h := set_tk_currentSample (e - 1) tk]>
                         (dm_tracks d)) d
                | None => d
                end).
Proof.
  intros Htk Hseekable Htimes Hlen Hcount Hduration Hscale Hmeta Htable
    Hecount Hstss Hsorted Hfirst Hfirst_le Hfinal Hfinal_le.
  destruct (seek_track_landing logs time_offset true h d tk times Htk
              Hseekable Htimes Hlen Hcount first final)
    as (c0 & a & Hc0 & Ha & Hale & Habove & Hrun); [done..|].
  exists c0, a. split; [done|]. split; [done|]. split; [done|].
  split; [done|]. rewrite Hrun.
  rewrite (seek_backward_at tk times _ true Htimes c0 a Ha Hale).
  rewrite (is_sync_sample_sorted tk entries (Z.of_nat c0) (-1)) by
    (done || lia).
  destruct (decide (Z.of_nat c0 + 1 ∈ entries)) as [Hin|Hnin].
  - rewrite bool_decide_eq_true_2 by done. option_step. cbn [fst].
    rewrite bool_decide_eq_true_2 by lia. cbn [orb].
    rewrite sync_at_listed by done.
    unfold bind at 1. unfold defined at 1, ret at 1.
    replace (Z.of_nat c0 + 1 - 1) with (Z.of_nat c0) by lia.
    apply (seek_track_found logs h d tk times Htk Htimes Hlen Hcount);
      [lia|done..].
  - rewrite bool_decide_eq_false_2 by done. option_step. cbn [fst snd].
    rewrite bool_decide_eq_false_2 by lia. cbn [orb negb default].
    rewrite sync_at_before by done. unfold sync_before.
    destruct (list.last (filter (fun e => e - 1 < Z.of_nat c0) entries))
      as [e|] eqn:Hlast.
    + apply last_filter_max in Hlast as (He & Hlt & _); [|done].
      destruct Hstss as [Hrange _].
      pose proof (proj1 (list.Forall_forall _ _) Hrange e He) as Hre.
      cbv beta in Hre. unfold id. rewrite decide_True by lia.
      unfold bind at 1. unfold defined at 1, ret at 1.
      apply (seek_track_found logs h d tk times Htk Htimes Hlen Hcount);
        [lia|done..].
    + unfold id. rewrite decide_False by lia.
      rewrite (seek_backward_none tk times entries _ c0 c0); try done; try lia.
      intros e He.
      pose proof (last_filter_none _ _ Hlast e He) as Hno.
      simpl in Hno. lia.
Qed.

Lemma seek_sync_lands_example :
  tk_sampleDecodingTime <$> dm_tracks (opened ex_sync)
  = [Some [0; 3000; 6000; 9000]]
  /\ seek_ts 100000 90000 = 9000 /\ sync_at [1; 3] 3 = Some 3
  /\ (exists (c0 : nat) (a : Z),
        Z.of_nat c0 < 4
        /\ [0; 3000; 6000; 9000] !! c0 = Some a /\ a <= 9000
        /\ (forall j b, (c0 < j)%nat ->
            [0; 3000; 6000; 9000] !! j = Some b -> 9000 <= b)
        /\ seek_track true 100000 true 0 (opened ex_sync)
           = Ok tt (match sync_at [1; 3] (Z.of_nat c0) with
                    | Some e =>
                        set_dm_tracks
                          (<[0%nat := set_tk_currentSample (e - 1)
                                        (first_track (opened ex_sync))]>
                             (dm_tracks (opened ex_sync)))
                          (opened ex_sync)
                    | None => opened ex_sync
                    end))
  /\ sync_at [3] 1 = None
  /\ (exists (c0 : nat) (a : Z),
        Z.of_nat c0 < 4
        /\ [0; 3000; 6000; 9000] !! c0 = Some a /\ a <= 3000
        /\ (forall j b, (c0 < j)%nat ->
            [0; 3000; 6000; 9000] !! j = Some b -> 3000 <= b)
        /\ seek_track true 33334 true 0 (opened (ex_sync_with [3]))
           = Ok tt (match sync_at [3] (Z.of_nat c0) with
                    | Some e =>
                        set_dm_tracks
                          (<[0%nat := set_tk_currentSample (e - 1)
                                        (first_track
                                           (opened (ex_sync_with [3])))]>
                             (dm_tracks (opened (ex_sync_with [3]))))
                          (opened (ex_sync_with [3]))
                    | None => opened (ex_sync_with [3])
                    end)).
Proof.
  split; [by vm_compute|]. split; [by vm_compute|]. split; [by vm_compute|].
  split; [|split; [by vm_compute|]].
  - apply (seek_sync_lands true 100000 0 (opened ex_sync)
             (first_track (opened ex_sync)) [0; 3000; 6000; 9000] [1; 3]
             0 9000).
    + by vm_compute.
    + split; [by vm_compute|]. intros [H _]. by vm_compute in H.
    + by vm_compute.
    + by vm_compute.
    + by vm_compute.
    + by vm_compute.
    + by vm_compute.
    + by vm_compute.
    + by vm_compute.
    + by vm_compute.
    + split; [repeat constructor; lia|]. repeat constructor.
    + repeat constructor; lia.
    + done.
    + by vm_compute.
    + done.
    + by vm_compute.
  - apply (seek_sync_lands true 33334 0 (opened (ex_sync_with [3]))
             (first_track (opened (ex_sync_with [3])))
             [0; 3000; 6000; 9000] [3] 0 9000).
    + by vm_compute.
    + split; [by vm_compute|]. intros [H _]. by vm_compute in H.
    + by vm_compute.
    + by vm_compute.
    + by vm_compute.
    + by vm_compute.
    + by vm_compute.
    + by vm_compute.
    + by vm_compute.
    + by vm_compute.
    + split; [repeat constructor; lia|]. repeat constructor.
    + repeat constructor; lia.
    + done.
    + by vm_compute.
    + done.
    + by vm_compute.
Defined.

(** X5.  Seeking to a time after the decoding time of the last sample
    of the first track that [mp4_demux_seek] visits: the loop [while]
    leaves [start] equal to [sampleCount], and the scan that follows
    reads [tk->sampleDecodingTime[sampleCount]], outside the array; the
    behaviour is undefined. *)
Theorem seek_past_last_sample_undefined (logs : bool) (time_offset : Z)
    (sync : bool) (d : mp4_demux) (h : nat) (tk : mp4_track)
    (times : list Z) :
  length (dm_tracks d) = S h ->
  dm_tracks d !! h = Some tk -> seekable tk ->
  tk_sampleDecodingTime tk = Some times ->
  Z.of_nat (length times) = tk_sampleCount tk ->
  0 < tk_sampleCount tk < 2 ^ 31 ->
  tk_duration tk <> 0 ->
  Forall (fun a => a < seek_ts time_offset (tk_timescale tk)) times ->
  mp4_demux_seek logs time_offset sync d = Undef.
Proof.
  intros Hn Htk Hseekable Htimes Hlen Hcount Hduration Hbelow.
  unfold mp4_demux_seek. unfold bind at 1, gets at 1. rewrite Hn.
  cbn [seek_loop]. unfold bind at 1.
  by rewrite (seek_track_past_end logs time_offset sync h d tk times).
Qed.

Lemma seek_past_last_sample_undefined_example :
  tk_sampleDecodingTime <$> dm_tracks (opened ex_audio)
  = [Some [0; 3000; 6000]]
  /\ tk_duration <$> dm_tracks (opened ex_audio) = [9000]
  /\ seek_ts 70000 90000 = 6300
  /\ mp4_demux_seek false 70000 false (opened ex_audio) = Undef.
Proof.
  split; [by vm_compute|]. split; [by vm_compute|]. split; [by vm_compute|].
  apply (seek_past_last_sample_undefined false 70000 false
           (opened ex_audio) 0 (first_track (opened ex_audio))
           [0; 3000; 6000]).
  - by vm_compute.
  - by vm_compute.
  - split; [by vm_compute|]. intros [H _]. by vm_compute in H.
  - by vm_compute.
  - by vm_compute.
  - by vm_compute.
  - by vm_compute.
  - repeat constructor; by vm_compute.
Defined.

Lemma errs_macro_true (S : Z -> Prop) (err : Z) :
  errs S (MP4_LOG_ERR_AND_RETURN_ERR_IF_FAILED true err).
Proof. apply errs_ret. Qed.

Lemma errs_seek_track (logs : bool) (time_offset : Z) (sync : bool)
    (h : nat) :
  errs (fun _ => False) (seek_track logs time_offset sync h).
Proof.
  unfold seek_track.
  repeat lazymatch goal with
  | |- errs _ (MP4_LOG_ERR_AND_RETURN_ERR_IF_FAILED true _) =>
      apply errs_macro_true
  | |- errs _ (if decide _ then _ else _) => destruct (decide _)
  | |- _ => errs_step
  end.
Qed.

Lemma errs_seek_loop (logs : bool) (time_offset : Z) (sync : bool)
    (n : nat) :
  errs (fun _ => False) (seek_loop logs time_offset sync n).
Proof.
  induction n as [|n IH]; cbn [seek_loop]; [apply errs_ret|].
  apply errs_bind; [apply errs_seek_track|done].
Qed.

(** X6.  [mp4_demux_seek] never returns an error: when no sample is
    found in a track, the test that should return [-ENOENT] is
    [MP4_LOG_ERR_AND_RETURN_ERR_IF_FAILED(1, ...)], which does not fire,
    and the loop goes on with the next track. *)
Theorem seek_never_fails (logs : bool) (time_offset : Z) (sync : bool)
    (d : mp4_demux) :
  failed (mp4_demux_seek logs time_offset sync d) = false.
Proof.
  destruct (mp4_demux_seek logs time_offset sync d) as [[] d'|c d'| |]
    eqn:Hrun; try done.
  exfalso. revert Hrun. unfold mp4_demux_seek.
  apply (errs_bind (fun _ => False)); [apply errs_gets|].
  intros n. apply errs_seek_loop.
Qed.

(** * More properties of [mp4_demux_open] and of the query functions *)

(** X1.  For no file does the walk of the boxes in [mp4_demux_open] need
    more steps than the file has bytes: every iteration of
    [mp4_demux_parse_children] reads the 8 bytes of a box header or
    returns, so that [mp4_demux_open] comes to an end on every file. *)
Theorem open_terminates (contents : list Z) :
  out_of_fuel (mp4_demux_open contents) = false.
Proof.
  pose proof (mp4_demux_open_fuel contents) as Hfuel.
  by destruct (mp4_demux_open contents).
Qed.

(** ** Track identifiers *)

Lemma find_track_from_None (tracks : list mp4_track) (n : nat) (id : Z) :
  (forall tk, tk ∈ tracks -> tk_id tk <> id) ->
  find_track_from tracks n id = None.
Proof.
  intros Hall. induction n as [|n IH]; [done|].
  cbn [find_track_from]. destruct (tracks !! n) as [tk|] eqn:Htk; [|done].
  rewrite decide_False; [done|].
  apply Hall. by eapply list_elem_of_lookup_2.
Qed.

(** The search finds the track of this identifier that was created
    last. *)
Lemma find_track_from_Some (tracks : list mp4_track) (n h : nat)
    (tk : mp4_track) (id : Z) :
  (n <= length tracks)%nat -> (h < n)%nat ->
  tracks !! h = Some tk -> tk_id tk = id ->
  (forall h' tk', (h < h' < n)%nat -> tracks !! h' = Some tk' ->
     tk_id tk' <> id) ->
  find_track_from tracks n id = Some h.
Proof.
  intros Hn Hh Htk Hid Hlater. induction n as [|n IH]; [lia|].
  cbn [find_track_from].
  destruct (lookup_lt_is_Some_2 tracks n) as [tk' Htk']; [lia|].
  rewrite Htk'. destruct (decide (n = h)) as [->|Hne].
  - assert (tk' = tk) as -> by congruence. by rewrite decide_True.
  - rewrite decide_False by (apply (Hlater n); [lia|done]).
    apply IH; [lia|lia|]. intros h' tk'' Hh'. apply Hlater. lia.
Qed.

(** X7.  When no track has the identifier [track_id],
    [mp4_demux_get_track_avc_decoder_config] and
    [mp4_demux_get_track_next_sample] do not fail with [-ENOENT]: the
    test [MP4_LOG_ERR_AND_RETURN_ERR_IF_FAILED(1, -ENOENT, ...)] does not
    fire, and the members of the track are read through [tk], which is
    [NULL]; the behaviour is undefined. *)
Theorem unknown_track_id_undefined (d : mp4_demux) (track_id : Z)
    (out : (option (list Z) * Z) * (option (list Z) * Z))
    (sample_buffer : bool) (sample_buffer_size : Z)
    (metadata_buffer : bool) (metadata_buffer_size : Z) :
  (forall tk, tk ∈ dm_tracks d -> tk_id tk <> track_id) ->
  mp4_demux_get_track_avc_decoder_config track_id out d = Undef
  /\ mp4_demux_get_track_next_sample track_id sample_buffer
       sample_buffer_size metadata_buffer metadata_buffer_size d = Undef.
Proof.
  intros Hall.
  pose proof (find_track_from_None (dm_tracks d) (length (dm_tracks d))
                track_id Hall) as Hfind.
  split.
  - unfold mp4_demux_get_track_avc_decoder_config.
    unfold bind at 1, gets at 1. fold (find_track d track_id).
    unfold find_track. by rewrite Hfind.
  - unfold mp4_demux_get_track_next_sample.
    unfold bind at 1, gets at 1. unfold find_track. by rewrite Hfind.
Qed.

Lemma unknown_track_id_undefined_example :
  tk_id <$> dm_tracks (opened ex_audio) = [7]
  /\ mp4_demux_get_track_avc_decoder_config 9 ((None, 0), (None, 0))
       (opened ex_audio) = Undef
  /\ mp4_demux_get_track_next_sample 9 false 0 false 0 (opened ex_audio)
     = Undef.
Proof.
  split; [by vm_compute|].
  apply (unknown_track_id_undefined (opened ex_audio) 9).
  intros tk Htk.
  assert (tk_id tk ∈ tk_id <$> dm_tracks (opened ex_audio)) as Hin
    by (by apply list_elem_of_fmap_2).
  intros Hid. rewrite Hid in Hin. vm_compute in Hin.
  apply list_elem_of_singleton in Hin. discriminate Hin.
Defined.

(** X8.  [mp4_demux_get_track_avc_decoder_config] finds the track of
    the identifier [track_id] that was created last (the list of the
    tracks is searched from its head), returns 0 and leaves the demuxer
    as it is; it stores the SPS and the PPS of this track and their
    sizes, and leaves alone the outputs of a parameter set that the
    track does not have. *)
Theorem avc_decoder_config_of_last_track (d : mp4_demux) (track_id : Z)
    (h : nat) (tk : mp4_track)
    (out : (option (list Z) * Z) * (option (list Z) * Z)) :
  dm_tracks d !! h = Some tk -> tk_id tk = track_id ->
  (forall h' tk', (h < h')%nat -> dm_tracks d !! h' = Some tk' ->
     tk_id tk' <> track_id) ->
  mp4_demux_get_track_avc_decoder_config track_id out d
  = Ok (match tk_videoSps tk with
        | Some sps => (Some sps, tk_videoSpsSize tk)
        | None => out.1
        end,
        match tk_videoPps tk with
        | Some pps => (Some pps, tk_videoPpsSize tk)
        | None => out.2
        end) d.
Proof.
  intros Htk Hid Hlater.
  pose proof (lookup_lt_Some _ _ _ Htk) as Hh.
  assert (find_track d track_id = Some h) as Hfind.
  { apply (find_track_from_Some _ _ h tk); [done..|].
    intros h' tk' Hh'. apply Hlater. lia. }
  unfold mp4_demux_get_track_avc_decoder_config.
  unfold bind at 1, gets at 1. rewrite Hfind.
  unfold bind at 1. unfold ret at 1.
  unfold bind at 1. unfold defined at 1, ret at 1.
  unfold bind at 1, get_track at 1. rewrite Htk. unfold ret.
  by destruct (tk_videoSps tk), (tk_videoPps tk).
Qed.

Lemma avc_decoder_config_of_last_track_example :
  mp4_demux_get_track_avc_decoder_config 1 ((None, 0), (None, 0))
    (opened ex_avc)
  = Ok ((Some [103; 1; 2], 3), (Some [104; 3], 2)) (opened ex_avc).
Proof.
  rewrite (avc_decoder_config_of_last_track (opened ex_avc) 1 0
             (first_track (opened ex_avc)) ((None, 0), (None, 0))).
  - by vm_compute.
  - by vm_compute.
  - by vm_compute.
  - intros h' tk' Hh' Htk'. apply lookup_lt_Some in Htk'.
    vm_compute in Htk'. lia.
Defined.

(** ** Files without boxes *)

(** X9.  A file of at most 8 bytes holds no box that the walker would
    read: [mp4_demux_open] succeeds on it, with no track.  The timescale
    of the movie is then 0, by which [mp4_demux_get_media_info]
    divides: its behaviour is undefined.  [mp4_demux_get_track_info]
    fails with [-EINVAL] for every index. *)
Theorem open_without_boxes (contents : list Z) (track_idx : Z) :
  (length contents <= 8)%nat -> 0 <= track_idx ->
  exists d : mp4_demux,
    mp4_demux_open contents = Ok tt d
    /\ dm_tracks d = [] /\ dm_trackCount d = 0 /\ dm_timescale d = 0
    /\ mp4_demux_get_media_info d = Undef
    /\ mp4_demux_get_track_info track_idx d = Err (- EINVAL) d.
Proof.
  intros Hlen Hidx.
  eexists. split.
  { apply open_from_Ok. unfold mp4_demux_open_from.
    unfold bind at 1, gets at 1. unfold bind at 1, modify at 1.
    unfold bind at 1, or_fail at 1, mp4_demux_parse_children.
    cbn [mp4_demux_parse_children_from].
    unfold bind at 1, feof at 1, gets at 1.
    cbn [dm_file set_dm_fileSize mp4_demux_zero f_eof negb andb].
    rewrite bool_decide_eq_false_2
      by (unfold file_length; cbn [f_bytes]; lia).
    reflexivity. }
  split; [reflexivity|]. split; [reflexivity|]. split; [reflexivity|].
  split; [reflexivity|].
  unfold mp4_demux_get_track_info. unfold bind at 1, gets at 1.
  unfold bind at 1. cbn -[Z.ltb]. rewrite bool_decide_eq_false_2 by lia.
  reflexivity.
Qed.

Lemma open_without_boxes_example :
  exists d : mp4_demux,
    mp4_demux_open [0; 0; 0; 8; 102; 114; 101; 101] = Ok tt d
    /\ dm_tracks d = [] /\ dm_trackCount d = 0 /\ dm_timescale d = 0
    /\ mp4_demux_get_media_info d = Undef
    /\ mp4_demux_get_track_info 0 d = Err (- EINVAL) d.
Proof.
  apply (open_without_boxes [0; 0; 0; 8; 102; 114; 101; 101] 0).
  - simpl. lia.
  - lia.
Defined.

(** * The time-to-sample and sync sample tables of an opened file *)

Lemma parse_stts_ranges T maxBytes track :
  hoare (fun d => dm_tracks d = T) (mp4_demux_parse_stts maxBytes track)
    (fun _ => table_installed tk_timeToSampleEntries
                set_tk_timeToSampleEntries set_tk_timeToSampleEntryCount
                stts_entry_ok T track).
Proof.
  unfold mp4_demux_parse_stts.
  apply (hoare_table_head tk_timeToSampleEntries). intros h tk ? ? ?.
  hoare_keep. intros _. hoare_keep. intros [_ b1]. hoare_keep.
  intros [v b2].
  hoare_installs tk_timeToSampleEntries; try done;
    intros e [He Hs]; split; simpl; first [done | apply ntohl_range].
Qed.

Lemma parse_stss_ranges T maxBytes track :
  hoare (fun d => dm_tracks d = T) (mp4_demux_parse_stss maxBytes track)
    (fun _ => table_installed tk_syncSampleEntries
                set_tk_syncSampleEntries set_tk_syncSampleEntryCount
                (fun e => 0 <= e < 2 ^ 32) T track).
Proof.
  unfold mp4_demux_parse_stss.
  apply (hoare_table_head tk_syncSampleEntries). intros h tk ? ? ?.
  hoare_keep. intros _. hoare_keep. intros [_ b1]. hoare_keep.
  intros [v b2].
  hoare_installs tk_syncSampleEntries; try done; intros; apply ntohl_range.
Qed.

Lemma wf_times_ext (tk tk' : mp4_track) :
  tables tk = tables tk' -> wf_times tk -> wf_times tk'.
Proof.
  intros Heq [H1 H2 H3]. unfold tables in Heq.
  injection Heq as E1 E2 E3 E4 E5 E6 E7 E8 E9 E10.
  constructor; congruence.
Qed.

#[global] Instance wf_times_all_tables_inv : TablesInv wf_times_all.
Proof.
  intros d d' Heq. unfold wf_times_all.
  eapply Forall_tables; [apply wf_times_ext|done].
Qed.

Lemma wf_times_all_new_track (d : mp4_demux) :
  wf_times_all d ->
  wf_times_all (set_dm_tracks (dm_tracks d ++ [mp4_track_zero]) d).
Proof.
  unfold wf_times_all. intros Hd.
  change (dm_tracks (set_dm_tracks ?x _)) with x.
  apply Forall_app. split; [done|].
  constructor; [|constructor]. constructor; simpl; by try constructor.
Qed.

Lemma wf_times_all_installed {A : Type} (get : mp4_track -> option (list A))
    set setc ok track (d d' : mp4_demux) :
  (forall tk l n, wf_times tk -> get tk = None -> 0 <= n < 2 ^ 32 ->
     length l = Z.to_nat n -> Forall ok l ->
     wf_times (set (Some l) (setc n tk))) ->
  wf_times_all d ->
  table_installed get set setc ok (dm_tracks d) track d' -> wf_times_all d'.
Proof.
  intros Hwf Hd (h & tk & n & _ & Htk & Hnone & Hn & l & Heq & Hlen & Hok).
  unfold wf_times_all in *. rewrite Heq. apply Forall_insert; [done|].
  apply Hwf; try done. by eapply Forall_lookup_1.
Qed.

Lemma pres_wt_stts maxBytes track :
  pres wf_times_all (mp4_demux_parse_stts maxBytes track).
Proof.
  eapply pres_of_installed; [intros; apply parse_stts_ranges|].
  intros d d'. apply wf_times_all_installed.
  intros tk l n [] ? ? Hlen ?. by constructor.
Qed.

Lemma pres_wt_stss maxBytes track :
  pres wf_times_all (mp4_demux_parse_stss maxBytes track).
Proof.
  eapply pres_of_installed; [intros; apply parse_stss_ranges|].
  intros d d'. apply wf_times_all_installed.
  intros tk l n [] ? ? Hlen ?. constructor; try done. simpl. lia.
Qed.

Lemma pres_wt_stsz maxBytes track :
  pres wf_times_all (mp4_demux_parse_stsz maxBytes track).
Proof.
  eapply pres_of_installed; [intros; apply parse_stsz_installed|].
  intros d d'. apply wf_times_all_installed.
  intros tk l n [] ? ? Hlen ?. by constructor.
Qed.

Lemma pres_wt_stsc maxBytes track :
  pres wf_times_all (mp4_demux_parse_stsc maxBytes track).
Proof.
  eapply pres_of_installed; [intros; apply parse_stsc_installed|].
  intros d d'. apply wf_times_all_installed.
  intros tk l n [] ? ? Hlen ?. by constructor.
Qed.

Lemma pres_wt_stco maxBytes track :
  pres wf_times_all (mp4_demux_parse_stco maxBytes track).
Proof.
  eapply pres_of_installed; [intros; apply parse_stco_installed|].
  intros d d'. apply wf_times_all_installed.
  intros tk l n [] ? ? Hlen ?. by constructor.
Qed.

Lemma pres_wt_co64 maxBytes track :
  pres wf_times_all (mp4_demux_parse_co64 maxBytes track).
Proof.
  eapply pres_of_installed; [intros; apply parse_co64_installed|].
  intros d d'. apply wf_times_all_installed.
  intros tk l n [] ? ? Hlen ?. by constructor.
Qed.

Lemma pres_wt_parse_children fuel parent maxBytes track :
  pres wf_times_all (mp4_demux_parse_children fuel parent maxBytes track).
Proof.
  apply pres_parse_children; first
    [ apply _ | apply wf_times_all_new_track | apply pres_wt_stts
    | apply pres_wt_stss | apply pres_wt_stsz | apply pres_wt_stsc
    | apply pres_wt_stco | apply pres_wt_co64 ].
Qed.

(** The time-to-sample and sync sample tables of every track of an
    opened file are well formed. *)
Lemma open_times (contents : list Z) (d : mp4_demux) (h : nat)
    (tk : mp4_track) :
  mp4_demux_open contents = Ok tt d -> dm_tracks d !! h = Some tk ->
  wf_times tk.
Proof.
  intros (d0 & n & d1 & Hparse & Hbuild & Hmeta)%open_Ok Htk.
  apply build_metadata_tracks in Hmeta. rewrite Hmeta in Htk.
  apply build_tracks_built in Hbuild as [Htab Hbuilt].
  change (dm_tracks (set_dm_readBytes _ ?x)) with (dm_tracks x) in Htab.
  assert (wf_times_all d1) as Hwf.
  { apply (tables_inv d0); [done|].
    eapply (pres_elim wf_times_all);
      [apply pres_wt_parse_children| |exact Hparse].
    constructor. }
  by eapply Forall_lookup_1.
Qed.

(** ** The decoding times *)

Lemma fill_time_timed (D : list Z) (k ts : Z) (arr : option (list Z))
    (N : nat) (delta j : Z) (st' : Z * Z * option (list Z)) :
  timed D k ts arr N -> Z.of_nat N < 2 ^ 32 ->
  fill_time delta j (k, ts, arr) = Some st' ->
  timed (D ++ [delta]) st'.1.1 st'.1.2 st'.2 N.
Proof.
  intros (-> & -> & l & -> & Hlen & Hl) HN Hfill.
  unfold fill_time in Hfill.
  destruct (aset (Some l) _ _) as [l'|] eqn:Hset; [|done].
  apply aset_Some in Hset as (? & [= <-] & Hk & ->).
  simpl in Hfill. injection Hfill as <-. cbn [fst snd].
  split; [|split].
  - rewrite length_app. simpl. rewrite u32_small; lia.
  - rewrite sumZ_app, u64_add_l. f_equal. unfold sumZ. simpl. lia.
  - exists (<[Z.to_nat (Z.of_nat (length D)) := u64 (sumZ D)]> l).
    split; [done|]. split; [by rewrite length_insert|].
    intros i Hi. rewrite length_app in Hi. simpl in Hi.
    rewrite Nat2Z.id. destruct (decide (i = length D)) as [->|Hne].
    + rewrite list_lookup_insert_eq by lia.
      by rewrite take_app_length.
    + rewrite list_lookup_insert_ne by done.
      rewrite take_app_le by lia. apply Hl. lia.
Qed.

Lemma fill_times_run (n : nat) (D : list Z) (k ts : Z)
    (arr : option (list Z)) (N : nat) (delta j : Z)
    (st' : Z * Z * option (list Z)) :
  timed D k ts arr N -> Z.of_nat N < 2 ^ 32 ->
  for_opt n j (fill_time delta) (k, ts, arr) = Some st' ->
  timed (D ++ replicate n delta) st'.1.1 st'.1.2 st'.2 N.
Proof.
  revert D k ts arr j. induction n as [|n IH]; intros D k ts arr j Ht HN Hrun.
  - simpl in Hrun. injection Hrun as <-. by rewrite app_nil_r.
  - rewrite for_opt_S in Hrun.
    destruct (fill_time delta j (k, ts, arr)) as [[[k1 ts1] arr1]|] eqn:Hstep;
      [|done].
    simpl in Hrun. apply (fill_time_timed D k ts arr N) in Hstep; [|done..].
    apply (IH (D ++ [delta]) k1 ts1 arr1) in Hrun; [|done..].
    by rewrite <- app_assoc in Hrun.
Qed.

Lemma fill_times_entries (entries : list mp4_time_to_sample_entry)
    (D : list Z) (st st' : Z * Z * option (list Z)) (N : nat) :
  timed D st.1.1 st.1.2 st.2 N -> Z.of_nat N < 2 ^ 32 ->
  fold_opt (fun e st =>
              for_opt (Z.to_nat (sampleCount e)) 0
                (fill_time (sampleDelta e)) st) entries st = Some st' ->
  timed (D ++ stts_deltas entries) st'.1.1 st'.1.2 st'.2 N.
Proof.
  revert D st. induction entries as [|e entries IH]; intros D st Ht HN Hrun.
  - simpl in Hrun. injection Hrun as <-.
    unfold stts_deltas. simpl. by rewrite app_nil_r.
  - cbn [fold_opt] in Hrun.
    destruct (for_opt _ _ _ st) as [st1|] eqn:Hstep; [|done].
    simpl in Hrun. destruct st as [[k ts] arr].
    apply (fill_times_run _ D k ts arr N) in Hstep; [|done..].
    apply (IH (D ++ replicate (Z.to_nat (sampleCount e)) (sampleDelta e)) st1)
      in Hrun; [|done..].
    unfold stts_deltas. rewrite fmap_cons. cbn [concat].
    by rewrite app_assoc.
Qed.

Lemma stts_deltas_length (entries : list mp4_time_to_sample_entry) :
  Forall stts_entry_ok entries ->
  Z.of_nat (length (stts_deltas entries)) = spec_stts_count entries.
Proof.
  unfold stts_deltas, spec_stts_count.
  induction 1 as [|e entries [He _] _ IH]; [done|].
  rewrite !fmap_cons. cbn [concat].
  change (sumZ (?x :: ?xs)) with (x + sumZ xs).
  rewrite length_app, length_replicate. lia.
Qed.

(** The array [sampleDecodingTime] of a track that is built on well
    formed tables follows its time-to-sample table. *)
Lemma built_times_follow_stts (tk : mp4_track) :
  wf_tables tk -> wf_times tk -> built tk -> times_follow_stts tk.
Proof.
  intros Hwf Hwt (_ & _ & Hcount & Hfill).
  pose proof (stts_sample_count_sum tk Hwf) as Hsum.
  rewrite Hcount in Hsum. injection Hsum as Hsum.
  pose proof (u32_range (spec_stts_count
                           (olist (tk_timeToSampleEntries tk)))) as Hrange.
  rewrite <- Hsum in Hrange.
  unfold fill_decoding_times in Hfill.
  rewrite (wf_timeCount _ Hwf), Nat2Z.id in Hfill.
  pose proof (stts_deltas_length _ (wt_entries _ Hwt)) as Hdeltas.
  destruct (tk_timeToSampleEntries tk) as [entries|] eqn:Hentries.
  - cbn [olist default] in *. unfold id in *.
    rewrite (for_opt_aget_fold
               (fun e st =>
                  for_opt (Z.to_nat (sampleCount e)) 0
                    (fill_time (sampleDelta e)) st) entries []) in Hfill.
    destruct (fold_opt _ _ _) as [st'|] eqn:Hfold; [|done].
    simpl in Hfill. injection Hfill as Hfill.
    apply (fill_times_entries entries []
             (0, 0, Some (replicate (Z.to_nat (tk_sampleCount tk)) 0)) st'
             (Z.to_nat (tk_sampleCount tk))) in Hfold; [| |lia].
    + destruct Hfold as (_ & _ & l & Hl & Hlen & Hcells).
      rewrite app_nil_l in Hcells.
      assert (length (stts_deltas entries) <= length l)%nat as Hle.
      { destruct (length (stts_deltas entries)) as [|m] eqn:Hm; [lia|].
        specialize (Hcells m ltac:(lia)).
        apply lookup_lt_Some in Hcells. lia. }
      assert (length (stts_deltas entries) = length l) as Heq.
      { rewrite u32_small in Hsum by lia. lia. }
      unfold times_follow_stts. rewrite Hentries. cbn [olist default].
      unfold id.
      exists l. split; [congruence|]. split; [lia|]. split; [done|].
      intros i Hi. apply Hcells. lia.
    + split; [done|]. split; [done|]. eexists. split; [done|].
      split; [by rewrite length_replicate|]. simpl. lia.
  - cbn [olist default] in *. simpl in Hfill. injection Hfill as Hfill.
    unfold spec_stts_count in Hsum. simpl in Hsum.
    unfold times_follow_stts. rewrite Hentries.
    exists []. rewrite <- Hfill, Hsum. simpl. split; [done|].
    split; [done|]. split; [done|]. lia.
Qed.

(** X10.  For every file that [mp4_demux_open] opens and every track,
    the array [sampleDecodingTime] has one cell for each sample, the
    time-to-sample table describes as many samples, and the decoding time
    of a sample is the sum of the deltas of the samples before it, as a
    64-bit unsigned value; the first sample has the decoding time 0. *)
Theorem decoding_times_follow_stts (contents : list Z) (d : mp4_demux)
    (h : nat) (tk : mp4_track) :
  mp4_demux_open contents = Ok tt d ->
  dm_tracks d !! h = Some tk ->
  times_follow_stts tk.
Proof.
  intros Hopen Htk.
  destruct (open_tracks contents d h tk Hopen Htk) as [Hwf Hbuilt].
  pose proof (open_times contents d h tk Hopen Htk) as Hwt.
  by apply built_times_follow_stts.
Qed.

Lemma decoding_times_follow_stts_example :
  tk_sampleDecodingTime (first_track (opened ex_audio))
  = Some [0; 3000; 6000]
  /\ stts_deltas (olist (tk_timeToSampleEntries
                           (first_track (opened ex_audio))))
     = [3000; 3000; 3000]
  /\ times_follow_stts (first_track (opened ex_audio)).
Proof.
  split; [by vm_compute|]. split; [by vm_compute|].
  apply (decoding_times_follow_stts ex_audio (opened ex_audio) 0).
  - by vm_compute.
  - by vm_compute.
Defined.

(** * The consolidation of the metadata *)

(** A step of the option monad in a hypothesis. *)
Ltac option_step_in H :=
  match type of H with
  | context [Some ?x ≫= ?f] =>
      change (Some x ≫= f) with (f x) in H; cbv beta iota in H
  end.

Lemma metadata_entry_set_spec (keys values : option (list (option (list Z))))
    (i : nat) (b : bool) :
  metadata_entry_set keys values (Z.of_nat i) = Some b ->
  b = entry_set (mjoin (olist keys !! i), mjoin (olist values !! i))
  /\ (b = true ->
      aget keys (Z.of_nat i) = Some (mjoin (olist keys !! i))
      /\ aget values (Z.of_nat i) = Some (mjoin (olist values !! i))).
Proof.
  unfold metadata_entry_set, entry_set. cbn [fst snd].
  destruct (aget values (Z.of_nat i)) as [v|] eqn:Hv; [|done].
  apply aget_Some in Hv as (lv & -> & _ & Hv). rewrite Nat2Z.id in Hv.
  cbn [olist default]. unfold id. rewrite Hv. cbn [mjoin option_join].
  simpl. destruct v as [vbuf|]; [|by intros [= <-]].
  destruct (decide (strlen vbuf > 0)) as [Hlen|Hlen].
  - destruct (aget keys (Z.of_nat i)) as [k|] eqn:Hk; [|done].
    apply aget_Some in Hk as (lk & -> & _ & Hk). rewrite Nat2Z.id in Hk.
    cbn [olist default]. unfold id. rewrite Hk. simpl.
    rewrite (bool_decide_eq_true_2 _ Hlen).
    by destruct k as [kbuf|]; intros [= <-].
  - intros [= <-]. rewrite (bool_decide_eq_false_2 _ Hlen).
    by destruct (mjoin (olist keys !! i)).
Qed.

Lemma selected_S (keys values : option (list (option (list Z))))
    (i n : nat) :
  selected keys values i (S n)
  = (if entry_set (mjoin (olist keys !! i), mjoin (olist values !! i))
     then [(mjoin (olist keys !! i), mjoin (olist values !! i))] else [])
    ++ selected keys values (S i) n.
Proof.
  unfold selected, metadata_pairs. cbn [seq]. rewrite fmap_cons.
  destruct (entry_set _) eqn:Hset.
  - by rewrite filter_cons_True.
  - rewrite filter_cons_False; [done|]. by rewrite Hset.
Qed.

(** The counting loops count the entries that are kept. *)
Lemma count_entries_from (keys values : option (list (option (list Z))))
    (n i : nat) (c c' : Z) :
  for_opt n (Z.of_nat i)
    (fun i n => b ← metadata_entry_set keys values i;
                Some (if b : bool then u32 (n + 1) else n)) (u32 c)
  = Some c' ->
  c' = u32 (c + Z.of_nat (length (selected keys values i n))).
Proof.
  revert i c. induction n as [|n IH]; intros i c Hrun.
  - simpl in Hrun. injection Hrun as <-. simpl. by rewrite Z.add_0_r.
  - rewrite for_opt_S in Hrun.
    destruct (metadata_entry_set keys values (Z.of_nat i)) as [b|] eqn:Hb;
      [|done].
    apply metadata_entry_set_spec in Hb as [-> _]. simpl in Hrun.
    rewrite selected_S. replace (Z.of_nat i + 1) with (Z.of_nat (S i))
      in Hrun by lia.
    destruct (entry_set _).
    + rewrite u32_add_l in Hrun. apply IH in Hrun. rewrite Hrun.
      rewrite length_app. simpl. f_equal. lia.
    + apply IH in Hrun. by rewrite Hrun.
Qed.

(** The copying loops copy them in order. *)
Lemma copy_entries_from (keys values : option (list (option (list Z))))
    (n i : nat) (N : nat) sel st st' :
  copied sel st N -> Z.of_nat N < 2 ^ 32 ->
  for_opt n (Z.of_nat i)
    (fun i st =>
       let '(k, fkeys, fvalues) := st in
       b ← metadata_entry_set keys values i;
       if b : bool then
         key ← aget keys i;
         fkeys' ← aset fkeys k key;
         value ← aget values i;
         fvalues' ← aset fvalues k value;
         Some (u32 (k + 1), Some fkeys', Some fvalues')
       else Some st) st = Some st' ->
  copied (sel ++ selected keys values i n) st' N.
Proof.
  revert i sel st. induction n as [|n IH]; intros i sel st Hc HN Hrun.
  - simpl in Hrun. injection Hrun as <-. by rewrite app_nil_r.
  - rewrite for_opt_S in Hrun. destruct st as [[k fkeys] fvalues].
    destruct (metadata_entry_set keys values (Z.of_nat i)) as [b|] eqn:Hb;
      [|done].
    apply metadata_entry_set_spec in Hb as [-> Hget].
    rewrite selected_S. replace (Z.of_nat i + 1) with (Z.of_nat (S i))
      in Hrun by lia.
    destruct (entry_set _) eqn:Hset.
    + destruct (Hget eq_refl) as [Hk Hv].
      destruct Hc as (Hkk & lk & lv & Hfk & Hfv & Hlk & Hlv & Htk & Htv).
      cbn [fst snd] in *. subst fkeys fvalues k.
      option_step_in Hrun. rewrite Hk in Hrun. option_step_in Hrun.
      destruct (aset (Some lk) _ _) as [lk'|] eqn:Hsk; [|done].
      option_step_in Hrun. rewrite Hv in Hrun. option_step_in Hrun.
      destruct (aset (Some lv) _ _) as [lv'|] eqn:Hsv; [|done].
      option_step_in Hrun. option_step_in Hrun.
      apply aset_Some in Hsk as (? & [= <-] & Hik & ->).
      apply aset_Some in Hsv as (? & [= <-] & Hiv & ->).
      rewrite !Nat2Z.id in Hrun.
      eapply (IH (S i) (sel ++ [(mjoin (olist keys !! i),
                                 mjoin (olist values !! i))])) in Hrun;
        [by rewrite <- app_assoc in Hrun| |done].
      split; cbn [fst snd].
      * rewrite length_app. simpl. rewrite u32_small; lia.
      * eexists _, _. split; [done|]. split; [done|].
        rewrite !length_insert. split; [done|]. split; [done|].
        rewrite !length_app, !fmap_app. simpl.
        replace (length sel + 1)%nat with (S (length sel)) by lia.
        split.
        -- rewrite (take_S_r _ _ (mjoin (olist keys !! i))).
           ++ by rewrite take_insert_ge, Htk by lia.
           ++ apply list_lookup_insert_eq. lia.
        -- rewrite (take_S_r _ _ (mjoin (olist values !! i))).
           ++ by rewrite take_insert_ge, Htv by lia.
           ++ apply list_lookup_insert_eq. lia.
    + option_step_in Hrun. option_step_in Hrun.
      by apply (IH (S i) sel) in Hrun.
Qed.

Lemma copied_full (sel : list (option (list Z) * option (list Z)))
    st (N : nat) :
  copied sel st N -> Z.of_nat N < 2 ^ 32 ->
  Z.of_nat N = u32 (Z.of_nat (length sel)) ->
  N = length sel /\ st.1.2 = Some (fst <$> sel) /\ st.2 = Some (snd <$> sel).
Proof.
  intros (_ & lk & lv & Hk & Hv & Hlk & Hlv & Htk & Htv) HN Hmod.
  assert (length sel <= N)%nat as Hle.
  { apply (f_equal length) in Htk. rewrite length_take, length_fmap in Htk.
    lia. }
  rewrite u32_small in Hmod by lia.
  assert (N = length sel) as -> by lia. split; [done|].
  rewrite take_ge in Htk, Htv by lia. by subst.
Qed.

(** The entries that [mp4_demux_build_metadata] copies. *)
Lemma build_metadata_entries (d d' : mp4_demux) :
  mp4_demux_build_metadata d = Ok tt d' ->
  dm_finalMetadataCount d' = Z.of_nat (length (final_entries d))
  /\ dm_finalMetadataKey d' = Some (fst <$> final_entries d)
  /\ dm_finalMetadataValue d' = Some (snd <$> final_entries d)
  /\ final_entries d' = final_entries d.
Proof.
  unfold mp4_demux_build_metadata. intros H.
  apply bind_Ok in H as (d0 & ? & [-> ->]%gets_Ok & H).
  apply bind_Ok in H as (metaCount & ? & [Hmc ->]%defined_Ok & H).
  apply bind_Ok in H as (udtaCount & ? & [Huc ->]%defined_Ok & H).
  apply (count_entries_from _ _ _ 0 0) in Hmc.
  apply (count_entries_from _ _ _ 0 0) in Huc.
  rewrite Z.add_0_l in Hmc, Huc.
  set (selm := selected (dm_metaMetadataKey d) (dm_metaMetadataValue d) 0
                 (Z.to_nat (dm_metaMetadataCount d))) in *.
  set (selu := selected (dm_udtaMetadataKey d) (dm_udtaMetadataValue d) 0
                 (Z.to_nat (dm_udtaMetadataCount d))) in *.
  set (xyz := if location_set d then 1 else 0) in *.
  set (finalCount := u32 (u32 (metaCount + udtaCount) + xyz)) in *.
  assert (finalCount = u32 (Z.of_nat (length (final_entries d)))) as Hfinal.
  { unfold finalCount, final_entries. fold selm selu.
    rewrite !length_app, Hmc, Huc.
    assert (Z.of_nat (length (if location_set d
                              then [(dm_udtaLocationKey d,
                                     dm_udtaLocationValue d)] else []))
            = xyz) as Hxyz by (unfold xyz; by destruct (location_set d)).
    rewrite !Nat2Z.inj_add, Hxyz. unfold u32.
    Z.div_mod_to_equations. lia. }
  pose proof (u32_range (Z.of_nat (length (final_entries d)))) as Hrange.
  rewrite <- Hfinal in Hrange.
  apply bind_Ok in H as ([] & ? & ->%modify_Ok & H).
  apply bind_Ok in H as ([] & ? & ->%modify_Ok & H).
  apply bind_Ok in H as ([] & ? & ->%modify_Ok & H).
  apply bind_Ok in H as (st1 & ? & [Hc1 ->]%defined_Ok & H).
  apply bind_Ok in H as (st2 & ? & [Hc2 ->]%defined_Ok & H).
  unfold copy_entries in Hc1, Hc2.
  apply (copy_entries_from _ _ _ 0 (Z.to_nat finalCount) []) in Hc1;
    [|by split; [|eexists _, _; rewrite !length_replicate]|lia].
  rewrite app_nil_l in Hc1. fold selm in Hc1.
  apply (copy_entries_from _ _ _ 0 (Z.to_nat finalCount) selm) in Hc2;
    [|done|lia].
  fold selu in Hc2. destruct st2 as [[k fkeys] fvalues].
  apply bind_Ok in H as (st & d1 & Hst & H).
  assert (copied (final_entries d)
            (Z.of_nat (length (final_entries d)), st.1, st.2)
            (Z.to_nat finalCount)
          /\ d1 = set_dm_finalMetadataValue
                    (Some (replicate (Z.to_nat finalCount) None))
                    (set_dm_finalMetadataKey
                       (Some (replicate (Z.to_nat finalCount) None))
                       (set_dm_finalMetadataCount finalCount d)))
    as [Hc3 ->].
  { unfold final_entries. fold selm selu.
    destruct (location_set d).
    - apply bind_Ok in Hst as (lk' & ? & [Hsk ->]%defined_Ok & Hst).
      apply bind_Ok in Hst as (lv' & ? & [Hsv ->]%defined_Ok & Hst).
      apply ret_Ok in Hst as [-> ->]. split; [|done].
      destruct Hc2 as (Hkk & lk & lv & Hfk & Hfv & Hlk & Hlv & Htk & Htv).
      cbn [fst snd] in *. subst fkeys fvalues k.
      apply aset_Some in Hsk as (? & [= <-] & Hik & ->).
      apply aset_Some in Hsv as (? & [= <-] & Hiv & ->).
      rewrite Nat2Z.id. rewrite app_assoc.
      remember (selm ++ selu) as sel eqn:Hsel.
      split; cbn [fst snd]; [done|].
      eexists _, _. split; [done|]. split; [done|].
      rewrite !length_insert. split; [done|]. split; [done|].
      rewrite !length_app, !fmap_app. cbn [length fmap list_fmap].
      replace (length sel + 1)%nat with (S (length sel)) by lia.
      split.
      + rewrite (take_S_r _ _ (dm_udtaLocationKey d)).
        * by rewrite take_insert_ge, Htk by lia.
        * apply list_lookup_insert_eq. lia.
      + rewrite (take_S_r _ _ (dm_udtaLocationValue d)).
        * by rewrite take_insert_ge, Htv by lia.
        * apply list_lookup_insert_eq. lia.
    - apply ret_Ok in Hst as [-> ->]. rewrite app_nil_r.
      split; [|done]. destruct Hc2 as [_ Hc2]. by split. }
  destruct (copied_full _ _ _ Hc3) as (HN & Hk & Hv); [lia|lia|].
  cbn [fst snd] in Hk, Hv.
  apply bind_Ok in H as ([] & ? & ->%modify_Ok & H).
  apply bind_Ok in H as ([] & ? & ->%modify_Ok & H).
  assert (dm_finalMetadataCount d' = finalCount
          /\ dm_finalMetadataKey d' = st.1 /\ dm_finalMetadataValue d' = st.2
          /\ final_entries d' = final_entries d) as (-> & -> & -> & ->).
  { destruct (decide (dm_metaCoverSize d > 0)).
    - apply bind_Ok in H as ([] & ? & ->%modify_Ok & H).
      apply bind_Ok in H as ([] & ? & ->%modify_Ok & H).
      by apply modify_Ok in H as ->.
    - destruct (decide (dm_udtaCoverSize d > 0)).
      + apply bind_Ok in H as ([] & ? & ->%modify_Ok & H).
        apply bind_Ok in H as ([] & ? & ->%modify_Ok & H).
        by apply modify_Ok in H as ->.
      + by apply ret_Ok in H as [_ ->]. }
  split; [lia|]. done.
Qed.

(** X11.  For every file that [mp4_demux_open] opens, the final
    metadata are the entries of [meta] whose key and value are both set
    and not empty, then those of [udta], then the location, in this
    order and with no other entry; [finalMetadataCount] is their number,
    and [mp4_demux_get_metadata_strings] returns them. *)
Theorem metadata_consolidated (contents : list Z) (d : mp4_demux) :
  mp4_demux_open contents = Ok tt d ->
  dm_finalMetadataCount d = Z.of_nat (length (final_entries d))
  /\ mp4_demux_get_metadata_strings d
     = Ok (Z.of_nat (length (final_entries d)),
           Some (fst <$> final_entries d),
           Some (snd <$> final_entries d)) d.
Proof.
  intros (d0 & n & d1 & _ & _ & Hmeta)%open_Ok.
  apply build_metadata_entries in Hmeta as (Hcount & Hkeys & Hvalues & Heq).
  rewrite Heq. split; [done|].
  unfold mp4_demux_get_metadata_strings, gets.
  by rewrite Hcount, Hkeys, Hvalues.
Qed.

Lemma metadata_consolidated_example :
  final_entries (opened ex_strings)
  = [(Some [99; 111; 109; 46; 97; 0], Some [118; 49; 0]);
     (Some [169; 110; 97; 109; 0], Some [72; 105; 0]);
     (Some [169; 120; 121; 122; 0], Some [43; 52; 56; 0])]
  /\ dm_udtaMetadataValue (opened ex_strings)
     = Some [Some [72; 105; 0]; Some [0; 0]]
  /\ dm_metaMetadataValue (opened ex_strings)
     = Some [Some [118; 49; 0]; None]
  /\ dm_finalMetadataCount (opened ex_strings)
     = Z.of_nat (length (final_entries (opened ex_strings)))
  /\ mp4_demux_get_metadata_strings (opened ex_strings)
     = Ok (Z.of_nat (length (final_entries (opened ex_strings))),
           Some (fst <$> final_entries (opened ex_strings)),
           Some (snd <$> final_entries (opened ex_strings)))
          (opened ex_strings).
Proof.
  split; [by vm_compute|]. split; [by vm_compute|]. split; [by vm_compute|].
  apply (metadata_consolidated ex_strings (opened ex_strings)).
  by vm_compute.
Defined.

(** * The track count and the cursors of an opened file

    No handler and no step of [mp4_demux_build_tracks] or
    [mp4_demux_build_metadata] assigns to [currentSample]; the track
    count changes with the track list only. *)

#[global] Instance cursor_inv_file_indep (P : mp4_demux -> Prop) :
  CursorInv P -> FileIndep P.
Proof. intros HP f d Hd. by apply (cursor_inv d). Qed.

Lemma pres_modify_cursor (P : mp4_demux -> Prop) `{!CursorInv P}
    (f : mp4_demux -> mp4_demux) :
  (forall d, cursors (f d) = cursors d) -> pres P (modify f).
Proof. intros Hf. apply pres_modify. intros d Hd. by apply (cursor_inv d). Qed.

Lemma pres_upd_track_cursor (P : mp4_demux -> Prop) `{!CursorInv P}
    (h : nat) (f : mp4_track -> mp4_track) :
  (forall tk, tk_currentSample (f tk) = tk_currentSample tk) ->
  pres P (upd_track h f).
Proof.
  intros Hf d a d' HP H. unfold upd_track in H.
  destruct (dm_tracks d !! h) as [tk|] eqn:Htk; [|done].
  injection H as _ <-. apply (cursor_inv d); [|done].
  unfold cursors. change (dm_tracks (set_dm_tracks ?x _)) with x.
  change (dm_trackCount (set_dm_tracks _ ?x)) with (dm_trackCount x).
  rewrite list_fmap_insert, Hf, list_insert_id; [done|].
  by rewrite list_lookup_fmap, Htk.
Qed.

(** One more step for goals [pres P m], for an invariant [P] of the
    cursors. *)
Ltac pres_cursor_step :=
  lazymatch goal with
  | |- pres _ (modify _) =>
      apply pres_modify_cursor;
      [first [assumption | typeclasses eauto] | intros; reflexivity]
  | |- pres _ (upd_track _ _) =>
      apply pres_upd_track_cursor;
      [first [assumption | typeclasses eauto] | intros; reflexivity]
  | |- pres _ (upd_table _ _ _ _ _) => unfold upd_table
  | |- pres _ (log_duration _) => apply pres_log_duration
  | |- pres _ (require_track _) => apply pres_require_track
  | |- pres _ (off_t_sub _ _) => apply pres_off_t_sub
  | |- pres _ (off_t_add _ _) => apply pres_off_t_add
  | |- pres _ (int_succ _) => apply pres_int_succ
  | |- pres _ (add_ret _ _) => apply pres_add_ret
  | |- pres _ (if decide _ then _ else _) => destruct (decide _)
  | |- _ => pres_step
  end.

Ltac pres_cursor := repeat pres_cursor_step.

Section cursor_handlers.
Context (P : mp4_demux -> Prop) `{!CursorInv P}.

Lemma cur_parse_ftyp maxBytes : pres P (mp4_demux_parse_ftyp maxBytes).
Proof. unfold mp4_demux_parse_ftyp. pres_cursor. Qed.

Lemma cur_parse_mvhd maxBytes : pres P (mp4_demux_parse_mvhd maxBytes).
Proof. unfold mp4_demux_parse_mvhd. pres_cursor. Qed.

Lemma cur_parse_tkhd maxBytes track :
  pres P (mp4_demux_parse_tkhd maxBytes track).
Proof. unfold mp4_demux_parse_tkhd. pres_cursor. Qed.

Lemma cur_parse_tref maxBytes track :
  pres P (mp4_demux_parse_tref maxBytes track).
Proof. unfold mp4_demux_parse_tref. pres_cursor. Qed.

Lemma cur_parse_mdhd maxBytes track :
  pres P (mp4_demux_parse_mdhd maxBytes track).
Proof. unfold mp4_demux_parse_mdhd. pres_cursor. Qed.

Lemma cur_parse_vmhd maxBytes : pres P (mp4_demux_parse_vmhd maxBytes).
Proof. unfold mp4_demux_parse_vmhd. pres_cursor. Qed.

Lemma cur_parse_smhd maxBytes : pres P (mp4_demux_parse_smhd maxBytes).
Proof. unfold mp4_demux_parse_smhd. pres_cursor. Qed.

Lemma cur_parse_hmhd maxBytes : pres P (mp4_demux_parse_hmhd maxBytes).
Proof. unfold mp4_demux_parse_hmhd. pres_cursor. Qed.

Lemma cur_parse_nmhd maxBytes : pres P (mp4_demux_parse_nmhd maxBytes).
Proof. unfold mp4_demux_parse_nmhd. pres_cursor. Qed.

Lemma cur_read_string_loop fuel k maxBytes st :
  pres P (read_string_loop fuel k maxBytes st).
Proof.
  revert k st. induction fuel as [|fuel IH]; intros k [b str]; simpl.
  - apply pres_ret.
  - pres_cursor. apply IH.
Qed.

Lemma cur_read_string maxBytes st : pres P (read_string maxBytes st).
Proof.
  unfold read_string. apply pres_bind; [apply cur_read_string_loop|].
  intros. pres_cursor.
Qed.

Lemma cur_parse_hdlr ancestors maxBytes track :
  pres P (mp4_demux_parse_hdlr ancestors maxBytes track).
Proof.
  unfold mp4_demux_parse_hdlr. pres_cursor; try apply cur_read_string;
    pres_cursor.
Qed.

Lemma cur_parse_avcc_nalu maxBytes h stored store i st :
  (forall size bytes tk,
     tk_currentSample (store size bytes tk) = tk_currentSample tk) ->
  pres P (parse_avcc_nalu maxBytes h stored store i st).
Proof.
  intros Hstore. unfold parse_avcc_nalu. destruct st as [b m].
  pres_cursor; apply pres_upd_track_cursor; done.
Qed.

Lemma cur_parse_avcc maxBytes track :
  pres P (mp4_demux_parse_avcc maxBytes track).
Proof.
  unfold mp4_demux_parse_avcc. pres_cursor;
    apply cur_parse_avcc_nalu; done.
Qed.

Lemma cur_parse_stsd_video maxBytes h b :
  pres P (parse_stsd_video maxBytes h b).
Proof. unfold parse_stsd_video. pres_cursor. apply cur_parse_avcc. Qed.

Lemma cur_parse_stsd_audio maxBytes h b :
  pres P (parse_stsd_audio maxBytes h b).
Proof. unfold parse_stsd_audio. pres_cursor. Qed.

Lemma cur_parse_stsd_metadata maxBytes h b :
  pres P (parse_stsd_metadata maxBytes h b).
Proof.
  unfold parse_stsd_metadata.
  pres_cursor; try (apply cur_read_string; done); pres_cursor;
    try (apply cur_read_string; done); pres_cursor.
Qed.

Lemma cur_parse_stsd maxBytes track :
  pres P (mp4_demux_parse_stsd maxBytes track).
Proof.
  unfold mp4_demux_parse_stsd. pres_cursor;
    first [apply cur_parse_stsd_video | apply cur_parse_stsd_audio
          | apply cur_parse_stsd_metadata].
Qed.

Lemma cur_parse_stts maxBytes track :
  pres P (mp4_demux_parse_stts maxBytes track).
Proof. unfold mp4_demux_parse_stts. pres_cursor. Qed.

Lemma cur_parse_stss maxBytes track :
  pres P (mp4_demux_parse_stss maxBytes track).
Proof. unfold mp4_demux_parse_stss. pres_cursor. Qed.

Lemma cur_parse_stsz maxBytes track :
  pres P (mp4_demux_parse_stsz maxBytes track).
Proof. unfold mp4_demux_parse_stsz. pres_cursor. Qed.

Lemma cur_parse_stsc maxBytes track :
  pres P (mp4_demux_parse_stsc maxBytes track).
Proof. unfold mp4_demux_parse_stsc. pres_cursor. Qed.

Lemma cur_parse_stco maxBytes track :
  pres P (mp4_demux_parse_stco maxBytes track).
Proof. unfold mp4_demux_parse_stco. pres_cursor. Qed.

Lemma cur_parse_co64 maxBytes track :
  pres P (mp4_demux_parse_co64 maxBytes track).
Proof. unfold mp4_demux_parse_co64. pres_cursor. Qed.

Lemma cur_parse_xyz type maxBytes :
  pres P (mp4_demux_parse_xyz type maxBytes).
Proof. unfold mp4_demux_parse_xyz. pres_cursor. Qed.

Lemma cur_count_ilst_loop fuel maxBytes st :
  pres P (count_ilst_loop fuel maxBytes st).
Proof.
  revert st. induction fuel as [|fuel IH]; intros [t c]; simpl.
  - destruct (decide _); [apply pres_out_of_fuel|apply pres_ret].
  - destruct (decide _); [|apply pres_ret]. pres_cursor; apply IH.
Qed.

Lemma cur_count_ilst_sub_box maxBytes :
  pres P (mp4_demux_count_ilst_sub_box maxBytes).
Proof.
  unfold mp4_demux_count_ilst_sub_box. pres_cursor.
  apply cur_count_ilst_loop.
Qed.

Lemma cur_count_ilst_value maxBytes :
  pres P (int_value (mp4_demux_count_ilst_sub_box maxBytes)).
Proof.
  apply pres_int_value; [by apply cur_count_ilst_sub_box|].
  intros d c d' HP H.
  pose proof (file_only_count_ilst_sub_box maxBytes d) as Hf.
  rewrite H in Hf. destruct Hf as [f ->]. by apply file_indep.
Qed.

Lemma cur_parse_meta_keys maxBytes :
  pres P (mp4_demux_parse_meta_keys maxBytes).
Proof. unfold mp4_demux_parse_meta_keys. pres_cursor. Qed.

Lemma cur_parse_meta_data ancestors maxBytes :
  pres P (mp4_demux_parse_meta_data ancestors maxBytes).
Proof. unfold mp4_demux_parse_meta_data. pres_cursor. Qed.
End cursor_handlers.

Lemma pres_modify_twice (P : mp4_demux -> Prop) {A : Type}
    (f g : mp4_demux -> mp4_demux) (k : M A) :
  (forall d, P d -> P (g (f d))) -> pres P k ->
  pres P (modify f;;; modify g;;; k).
Proof.
  intros Hfg Hk d a d' HP H.
  apply bind_Ok in H as ([] & d1 & ->%modify_Ok & H).
  apply bind_Ok in H as ([] & d2 & ->%modify_Ok & H).
  eapply Hk; [|exact H]. by apply Hfg.
Qed.

Section cursor_walker.
Context (P : mp4_demux -> Prop) `{!CursorInv P}.
Hypothesis P_new_track :
  forall d, P d ->
  P (set_dm_trackCount (u32 (dm_trackCount d + 1))
       (set_dm_tracks (dm_tracks d ++ [mp4_track_zero]) d)).

Lemma cur_parse_box pc parent type realBoxSize boxReadBytes track :
  (forall item maxBytes track, pres P (pc item maxBytes track)) ->
  pres P (parse_box pc parent type realBoxSize boxReadBytes track).
Proof.
  intros Hpc. unfold parse_box.
  repeat first [ apply pres_modify_twice; [exact P_new_track|]
               | pres_cursor_step ];
    first [ apply Hpc
          | by apply cur_parse_stts | by apply cur_parse_stss
          | by apply cur_parse_stsz | by apply cur_parse_stsc
          | by apply cur_parse_stco | by apply cur_parse_co64
          | by apply cur_parse_ftyp | by apply cur_parse_mvhd
          | by apply cur_parse_tkhd | by apply cur_parse_tref
          | by apply cur_parse_hdlr | by apply cur_parse_mdhd
          | by apply cur_parse_vmhd | by apply cur_parse_smhd
          | by apply cur_parse_hmhd | by apply cur_parse_nmhd
          | by apply cur_parse_stsd | by apply cur_parse_meta_data
          | by apply cur_parse_xyz | by apply cur_parse_meta_keys
          | by apply cur_count_ilst_value
          | idtac ].
Qed.

Lemma cur_parse_children_from fuel :
  forall parent maxBytes track parentReadBytes lastBox,
  pres P (mp4_demux_parse_children_from fuel parent maxBytes track
            parentReadBytes lastBox).
Proof.
  induction fuel as [|fuel IH]; intros parent maxBytes track prb lastBox;
    simpl.
  - pres_cursor.
  - pres_cursor; first [apply IH | apply cur_parse_box; intros; apply IH].
Qed.

Lemma cur_parse_children fuel parent maxBytes track :
  pres P (mp4_demux_parse_children fuel parent maxBytes track).
Proof. apply cur_parse_children_from. Qed.
End cursor_walker.

Section cursor_build.
Context (P : mp4_demux -> Prop) `{!CursorInv P}.

Lemma cur_build_track_tables h : pres P (build_track_tables h).
Proof. unfold build_track_tables. pres_cursor. Qed.

Lemma cur_link_track h loc : pres P (link_track h loc).
Proof. unfold link_track. pres_cursor. Qed.

Lemma cur_build_tracks_loop n : forall loc, pres P (build_tracks_loop n loc).
Proof.
  induction n as [|n IH]; intros loc; simpl; [apply pres_ret|].
  unfold build_track. pres_cursor;
    first [apply cur_build_track_tables | apply cur_link_track | apply IH].
Qed.

Lemma cur_link_single_metadata loc : pres P (link_single_metadata loc).
Proof. unfold link_single_metadata. pres_cursor. Qed.

Lemma cur_build_chapter hChap i u : pres P (build_chapter hChap i u).
Proof. unfold build_chapter. pres_cursor. Qed.

Lemma cur_build_chapters loc : pres P (build_chapters loc).
Proof. unfold build_chapters. pres_cursor. apply cur_build_chapter. Qed.

Lemma cur_build_tracks : pres P mp4_demux_build_tracks.
Proof.
  unfold mp4_demux_build_tracks. pres_cursor;
    first [apply cur_build_tracks_loop | apply cur_link_single_metadata
          | apply cur_build_chapters].
Qed.

Lemma cur_build_metadata : pres P mp4_demux_build_metadata.
Proof. unfold mp4_demux_build_metadata. pres_cursor. Qed.
End cursor_build.

#[global] Instance fresh_cursor_inv : CursorInv fresh.
Proof.
  intros d d' Heq [Hcount Hcur]. unfold cursors in Heq.
  injection Heq as Hc Ht. split.
  - rewrite <- Hc, Hcount.
    by rewrite <- (length_fmap tk_currentSample (dm_tracks d)), Ht,
      length_fmap.
  - assert (forall l : list mp4_track,
              Forall (fun tk => tk_currentSample tk = 0) l
              <-> Forall (fun x => x = 0) (tk_currentSample <$> l)) as Hf.
    { intros l. by rewrite Forall_fmap. }
    apply Hf. rewrite <- Ht. by apply Hf.
Qed.

Lemma fresh_new_track (d : mp4_demux) :
  fresh d ->
  fresh (set_dm_trackCount (u32 (dm_trackCount d + 1))
           (set_dm_tracks (dm_tracks d ++ [mp4_track_zero]) d)).
Proof.
  intros [Hcount Hcur]. split.
  - change (dm_trackCount (set_dm_trackCount ?x _)) with x.
    change (dm_tracks (set_dm_trackCount _ (set_dm_tracks ?x _))) with x.
    rewrite Hcount, length_app. simpl. unfold u32.
    rewrite Nat2Z.inj_add. Z.div_mod_to_equations. lia.
  - change (dm_tracks (set_dm_trackCount _ (set_dm_tracks ?x _))) with x.
    apply Forall_app. split; [done|]. by apply Forall_singleton.
Qed.

(** [mp4_demux_open] counts the tracks it creates and leaves every
    cursor on the first sample. *)
Lemma open_fresh (contents : list Z) (d : mp4_demux) :
  mp4_demux_open contents = Ok tt d -> fresh d.
Proof.
  intros (d0 & n & d1 & Hparse & Hbuild & Hmeta)%open_Ok.
  eapply (pres_elim fresh); [apply cur_build_metadata; apply _| |exact Hmeta].
  eapply (pres_elim fresh); [apply cur_build_tracks; apply _| |exact Hbuild].
  apply (cursor_inv d0); [done|].
  eapply (pres_elim fresh); [|  |exact Hparse].
  - apply cur_parse_children; [apply _|apply fresh_new_track].
  - split; [done|constructor].
Qed.

(** * The order of the tracks and of the samples *)

Lemma walk_tracks_down (steps h : nat) :
  (steps <= h)%nat -> walk_tracks steps (Some h) = Some (h - steps)%nat.
Proof.
  revert h. induction steps as [|steps IH]; intros h Hle; simpl.
  - f_equal. lia.
  - destruct h as [|h]; [lia|]. simpl. rewrite IH by lia. f_equal.
Qed.

Lemma find_track_from_ids (T T' : list mp4_track) (n : nat) (id : Z) :
  tk_id <$> T = tk_id <$> T' ->
  find_track_from T n id = find_track_from T' n id.
Proof.
  intros Hids. induction n as [|n IH]; [done|]. cbn [find_track_from].
  assert ((tk_id <$> T) !! n = (tk_id <$> T') !! n) as Hn by (by rewrite Hids).
  rewrite !list_lookup_fmap in Hn.
  destruct (T !! n) as [tk|], (T' !! n) as [tk'|]; try done.
  injection Hn as ->. by rewrite IH.
Qed.

Lemma find_track_cursor (d d' : mp4_demux) (h : nat) (tk : mp4_track)
    (c id : Z) :
  dm_tracks d !! h = Some tk ->
  dm_tracks d' = <[h := set_tk_currentSample c tk]> (dm_tracks d) ->
  find_track d' id = find_track d id.
Proof.
  intros Htk Hd'. unfold find_track. rewrite Hd', length_insert.
  apply find_track_from_ids. rewrite list_fmap_insert.
  apply list_insert_id. by rewrite list_lookup_fmap, Htk.
Qed.

Section reading.
Context (track_id : Z) (h : nat).

(** One call without buffers, on a track without linked metadata whose
    arrays are complete. *)
Lemma next_sample_describes (d : mp4_demux) (tk : mp4_track) :
  find_track d track_id = Some h -> dm_tracks d !! h = Some tk ->
  0 <= tk_currentSample tk < tk_sampleCount tk ->
  tk_sampleCount tk < 2 ^ 32 ->
  tk_metadata tk = None -> tk_timescale tk <> 0 ->
  Z.of_nat (length (olist (tk_sampleSize tk))) = tk_sampleCount tk ->
  Z.of_nat (length (olist (tk_sampleDecodingTime tk))) = tk_sampleCount tk ->
  exists r d',
    mp4_demux_get_track_next_sample track_id false 0 false 0 d
    = Ok (r, None, None) d'
    /\ describes tk (tk_currentSample tk) r
    /\ d' = set_dm_tracks
              (<[h := set_tk_currentSample (tk_currentSample tk + 1) tk]>
                 (dm_tracks d)) d.
Proof.
  intros Hfound Htk Hcur Hcount Hmeta Hts Hsz Hdt.
  unfold describes.
  next_sample_enter Hfound Htk.
  rewrite decide_True by lia. rewrite Hmeta.
  destruct (tk_sampleSize tk) as [sizes|]; simpl in Hsz; [|lia].
  destruct (tk_sampleDecodingTime tk) as [times|]; simpl in Hdt; [|lia].
  destruct (lookup_lt_is_Some_2 sizes (Z.to_nat (tk_currentSample tk)))
    as [size Hsize]; [lia|].
  destruct (lookup_lt_is_Some_2 times (Z.to_nat (tk_currentSample tk)))
    as [dts Hdts]; [lia|].
  unfold aget. rewrite !decide_True by lia. rewrite Hsize, Hdts.
  unfold ticks_to_us.
  destruct (decide (tk_timescale tk = 0)) as [?|_]; [done|].
  rewrite (u32_small (tk_sampleCount tk - 1)) by lia.
  rewrite (u32_small (tk_currentSample tk + 1)) by lia.
  unfold bind, defined, ret, upd_track. simpl.
  destruct (decide (tk_currentSample tk < tk_sampleCount tk - 1))
    as [Hnext|Hlast].
  - destruct (lookup_lt_is_Some_2 times
                (Z.to_nat (tk_currentSample tk + 1))) as [next Hn]; [lia|].
    rewrite decide_True by lia. rewrite Hn, Htk.
    eexists _, _. split; [reflexivity|]. simpl. split; [|done].
    split; [done|]. split; [done|]. split; [eauto|].
    rewrite decide_True by lia. eauto.
  - rewrite Htk. eexists _, _. split; [reflexivity|]. simpl. split; [|done].
    split; [done|]. split; [done|]. split; [eauto|].
    by rewrite decide_False by lia.
Qed.

Lemma read_samples_from (n : nat) :
  forall (d : mp4_demux) (tk : mp4_track),
  find_track d track_id = Some h -> dm_tracks d !! h = Some tk ->
  0 <= tk_currentSample tk ->
  tk_currentSample tk + Z.of_nat n <= tk_sampleCount tk ->
  tk_sampleCount tk < 2 ^ 32 ->
  tk_metadata tk = None -> tk_timescale tk <> 0 ->
  Z.of_nat (length (olist (tk_sampleSize tk))) = tk_sampleCount tk ->
  Z.of_nat (length (olist (tk_sampleDecodingTime tk))) = tk_sampleCount tk ->
  exists rs d',
    read_samples n track_id d = Ok rs d'
    /\ length rs = n
    /\ (forall (i : nat) r, rs !! i = Some r ->
          describes tk (tk_currentSample tk + Z.of_nat i) r)
    /\ find_track d' track_id = Some h
    /\ dm_file d' = dm_file d
    /\ dm_tracks d' =
         <[h := set_tk_currentSample (tk_currentSample tk + Z.of_nat n) tk]>
           (dm_tracks d).
Proof.
  induction n as [|n IH];
    intros d tk Hfound Htk Hcur Hn Hcount Hmeta Hts Hsz Hdt.
  - exists [], d. split; [done|]. split; [done|]. split; [done|].
    split; [done|]. split; [done|]. rewrite Z.add_0_r. symmetry.
    apply list_insert_id. rewrite Htk. by destruct tk.
  - destruct (next_sample_describes d tk)
      as (r & d1 & Hcall & Hr & Hd1'); [done|done|lia|done..|].
    set (tk1 := set_tk_currentSample (tk_currentSample tk + 1) tk) in *.
    assert (dm_tracks d1 = <[h := tk1]> (dm_tracks d)) as Hd1
      by (by rewrite Hd1').
    assert (dm_file d1 = dm_file d) as Hf1 by (by rewrite Hd1').
    assert (dm_tracks d1 !! h = Some tk1) as Htk1.
    { rewrite Hd1. apply list_lookup_insert_eq. by eapply lookup_lt_Some. }
    destruct (IH d1 tk1)
      as (rs & d' & Hrs & Hlen & Hall & Hfound' & Hf' & Hd');
      [by rewrite (find_track_cursor d d1 h tk _ _ Htk Hd1)
      |done|simpl; lia|simpl; lia|done..|].
    exists (r :: rs), d'. split.
    { cbn [read_samples]. unfold bind at 1. rewrite Hcall.
      unfold bind at 1. rewrite Hrs. done. }
    split; [simpl; lia|]. split.
    { intros [|i] r' Hi.
      - injection Hi as <-. by rewrite Z.add_0_r.
      - apply Hall in Hi. simpl in Hi.
        replace (tk_currentSample tk + Z.of_nat (S i))
          with (tk_currentSample tk + 1 + Z.of_nat i) by lia.
        exact Hi. }
    split; [done|]. split; [congruence|].
    rewrite Hd', Hd1, list_insert_insert_eq.
    replace (tk_currentSample tk1 + Z.of_nat n)
      with (tk_currentSample tk + Z.of_nat (S n)) by (simpl; lia).
    reflexivity.
Qed.
End reading.

Lemma open_arrays (contents : list Z) (d : mp4_demux) (h : nat)
    (tk : mp4_track) :
  mp4_demux_open contents = Ok tt d -> dm_tracks d !! h = Some tk ->
  tk_currentSample tk = 0
  /\ 0 <= tk_sampleCount tk < 2 ^ 32
  /\ Z.of_nat (length (olist (tk_sampleSize tk))) = tk_sampleCount tk
  /\ Z.of_nat (length (olist (tk_sampleDecodingTime tk))) = tk_sampleCount tk.
Proof.
  intros Hopen Htk.
  destruct (open_tracks contents d h tk Hopen Htk) as [Hwf Hbuilt].
  pose proof (open_times contents d h tk Hopen Htk) as Hwt.
  destruct (open_fresh contents d Hopen) as [_ Hcur].
  split; [by eapply (Forall_lookup_1 _ _ _ _ Hcur)|].
  destruct (built_times_follow_stts tk Hwf Hwt Hbuilt)
    as (times & Htimes & Hlen & _).
  destruct Hbuilt as (_ & _ & Hcount & _).
  pose proof (stts_sample_count_sum tk Hwf) as Hsum.
  rewrite Hcount in Hsum. injection Hsum as Hsum.
  pose proof (u32_range (spec_stts_count
                           (olist (tk_timeToSampleEntries tk)))) as Hrange.
  rewrite <- Hsum in Hrange.
  split; [lia|]. split; [by rewrite (wf_sampleCount _ Hwf)|].
  by rewrite Htimes.
Qed.

(** X12.  After a successful [mp4_demux_open] the track count is the
    number of tracks (as a 32-bit unsigned value), and
    [mp4_demux_get_track_info] numbers the tracks from the one created
    last: for every index below the track count it describes the track
    at this position from the end of the tracks in creation order, and
    takes neither the [-EINVAL] nor the [-ENOENT] branch. *)
Theorem track_index_counts_from_last (contents : list Z) (d : mp4_demux)
    (track_idx : Z) :
  mp4_demux_open contents = Ok tt d ->
  0 <= track_idx < dm_trackCount d ->
  mp4_demux_get_track_count d
  = Ok (u32 (Z.of_nat (length (dm_tracks d)))) d
  /\ exists tk,
       reverse (dm_tracks d) !! Z.to_nat track_idx = Some tk
       /\ mp4_demux_get_track_info track_idx d
          = defined (track_info_of d tk) d.
Proof.
  intros Hopen Hidx. destruct (open_fresh contents d Hopen) as [Hcount _].
  split; [unfold mp4_demux_get_track_count, gets; by rewrite Hcount|].
  assert (Z.to_nat track_idx < length (dm_tracks d))%nat as Hlt.
  { rewrite Hcount in Hidx. unfold u32 in Hidx.
    pose proof (Z.mod_le (Z.of_nat (length (dm_tracks d))) (2 ^ 32)
                  ltac:(lia) ltac:(lia)). lia. }
  destruct (lookup_lt_is_Some_2 (reverse (dm_tracks d)) (Z.to_nat track_idx))
    as [tk Htk]; [by rewrite length_reverse|].
  exists tk. split; [done|].
  rewrite reverse_lookup in Htk by done.
  unfold mp4_demux_get_track_info.
  unfold bind at 1, gets at 1.
  unfold MP4_RETURN_ERR_IF_FAILED. rewrite bool_decide_true by lia.
  unfold bind at 1, ret at 1. unfold bind at 1, gets at 1.
  unfold track_head.
  destruct (length (dm_tracks d)) as [|n] eqn:Hlen; [lia|].
  rewrite walk_tracks_down by lia.
  replace (n - Z.to_nat track_idx)%nat
    with (S n - S (Z.to_nat track_idx))%nat by lia.
  unfold bind, get_track. by rewrite Htk.
Qed.

Lemma track_index_counts_from_last_example :
  tk_id <$> dm_tracks (opened (ex_chapters 2)) = [1; 2]
  /\ tk_id <$> reverse (dm_tracks (opened (ex_chapters 2))) = [2; 1]
  /\ mp4_demux_get_track_count (opened (ex_chapters 2))
     = Ok (u32 (Z.of_nat (length (dm_tracks (opened (ex_chapters 2))))))
         (opened (ex_chapters 2))
  /\ exists tk,
       reverse (dm_tracks (opened (ex_chapters 2))) !! Z.to_nat 0 = Some tk
       /\ mp4_demux_get_track_info 0 (opened (ex_chapters 2))
          = defined (track_info_of (opened (ex_chapters 2)) tk)
              (opened (ex_chapters 2)).
Proof.
  split; [by vm_compute|]. split; [by vm_compute|].
  apply (track_index_counts_from_last (ex_chapters 2)
           (opened (ex_chapters 2)) 0).
  - by vm_compute.
  - by vm_compute.
Defined.

(** X13.  Reading a track of a file that [mp4_demux_open] has opened:
    for a track that [mp4_demux_get_track_next_sample] finds, without
    linked metadata and with a timescale that is not zero, [n] calls
    without buffers ([n] at most the sample count) all return 0 and
    describe the samples 0, 1, ..., n - 1 in this order (sizes from
    [sampleSize], decoding times and next decoding times from
    [sampleDecodingTime] in microseconds, 0 as the next time of the last
    sample); they leave the cursor of the track on [n] and change nothing
    else in the tracks; and once all samples are read, the next call
    returns 0 with a structure of zeros and changes nothing. *)
Theorem samples_are_read_in_order (contents : list Z) (d : mp4_demux)
    (track_id : Z) (h : nat) (tk : mp4_track) (n : nat) :
  mp4_demux_open contents = Ok tt d ->
  find_track d track_id = Some h -> dm_tracks d !! h = Some tk ->
  tk_metadata tk = None -> tk_timescale tk <> 0 ->
  Z.of_nat n <= tk_sampleCount tk ->
  exists rs d',
    read_samples n track_id d = Ok rs d'
    /\ length rs = n
    /\ (forall (i : nat) r, rs !! i = Some r -> describes tk (Z.of_nat i) r)
    /\ dm_tracks d' = <[h := set_tk_currentSample (Z.of_nat n) tk]> (dm_tracks d)
    /\ (Z.of_nat n = tk_sampleCount tk ->
        mp4_demux_get_track_next_sample track_id false 0 false 0 d'
        = Ok (mp4_track_sample_zero, None, None) d').
Proof.
  intros Hopen Hfound Htk Hmeta Hts Hn.
  destruct (open_arrays contents d h tk Hopen Htk)
    as (Hcur & Hcount & Hsz & Hdt).
  destruct (read_samples_from track_id h n d tk)
    as (rs & d' & Hrs & Hlen & Hall & Hfound' & _ & Hd');
    [done|done|lia|lia|lia|done..|].
  rewrite Hcur in Hall, Hd'. exists rs, d'.
  split; [done|]. split; [done|]. split; [done|]. split; [done|].
  intros Hend.
  apply (next_sample_end d' track_id h
           (set_tk_currentSample (Z.of_nat n) tk)); [done| |simpl; lia].
  rewrite Hd'. apply list_lookup_insert_eq. by eapply lookup_lt_Some.
Qed.

Lemma samples_are_read_in_order_example :
  (exists d',
     read_samples 3 7 (opened ex_audio)
     = Ok [Build_mp4_track_sample 10 0 0 33333;
           Build_mp4_track_sample 20 0 33333 66667;
           Build_mp4_track_sample 30 0 66667 0] d')
  /\ exists rs d',
       read_samples 3 7 (opened ex_audio) = Ok rs d'
       /\ length rs = 3%nat
       /\ (forall (i : nat) r, rs !! i = Some r ->
             describes (first_track (opened ex_audio)) (Z.of_nat i) r)
       /\ dm_tracks d'
          = <[0%nat := set_tk_currentSample (Z.of_nat 3)
                         (first_track (opened ex_audio))]>
              (dm_tracks (opened ex_audio))
       /\ (Z.of_nat 3 = tk_sampleCount (first_track (opened ex_audio)) ->
           mp4_demux_get_track_next_sample 7 false 0 false 0 d'
           = Ok (mp4_track_sample_zero, None, None) d').
Proof.
  split; [eexists; by vm_compute|].
  apply (samples_are_read_in_order ex_audio (opened ex_audio) 7 0
           (first_track (opened ex_audio)) 3).
  - by vm_compute.
  - by vm_compute.
  - by vm_compute.
  - by vm_compute.
  - by vm_compute.
  - by vm_compute.
Defined.

(** * The bytes that the readers return *)

(** ** The bytes of the file stay as they are *)

Lemma pres_bytes_fread (b : list Z) (size : Z) :
  pres (fun d => f_bytes (dm_file d) = b) (fread size).
Proof.
  intros d r d' Hb H. unfold fread in H.
  pose proof (fread_file_spec size (dm_file d)) as (Hbytes & _).
  destruct (fread_file size (dm_file d)) as [r' f]. injection H as _ <-.
  simpl in *. congruence.
Qed.

Lemma pres_bytes_fseeko_set (b : list Z) (off : Z) :
  pres (fun d => f_bytes (dm_file d) = b) (fseeko_set off).
Proof.
  intros d r d' Hb H. unfold fseeko_set, fseeko_to in H.
  repeat destruct (decide _); injection H as _ <-; exact Hb.
Qed.

Lemma pres_bytes_upd_track (b : list Z) (h : nat)
    (f : mp4_track -> mp4_track) :
  pres (fun d => f_bytes (dm_file d) = b) (upd_track h f).
Proof.
  intros d [] d' Hb H. unfold upd_track in H.
  destruct (dm_tracks d !! h); [|done]. injection H as <-. exact Hb.
Qed.

Ltac pres_bytes_step :=
  lazymatch goal with
  | |- pres _ (modify _) => apply pres_modify; intros ? HP; exact HP
  | |- pres _ (upd_track _ _) => apply pres_bytes_upd_track
  | |- pres _ (fread _) => apply pres_bytes_fread
  | |- pres _ (fseeko_set _) => apply pres_bytes_fseeko_set
  | |- pres _ (seek_or_fail _) => unfold seek_or_fail
  | |- pres _ (MP4_READ_16 _) => unfold MP4_READ_16, MP4_READ
  | |- pres _ (if decide _ then _ else _) => destruct (decide _)
  | |- _ => pres_step
  end.

Ltac pres_bytes := repeat pres_bytes_step.

Lemma bytes_build_tracks_loop (b : list Z) (n : nat) :
  forall loc,
  pres (fun d => f_bytes (dm_file d) = b) (build_tracks_loop n loc).
Proof.
  induction n as [|n IH]; intros loc; simpl; [apply pres_ret|].
  apply pres_bind; [|intros; apply IH].
  unfold build_track, build_track_tables, link_track. pres_bytes.
Qed.

Lemma bytes_build_tracks (b : list Z) :
  pres (fun d => f_bytes (dm_file d) = b) mp4_demux_build_tracks.
Proof.
  unfold mp4_demux_build_tracks. pres_bytes.
  - apply bytes_build_tracks_loop.
  - unfold link_single_metadata. pres_bytes.
  - unfold build_chapters. pres_bytes. unfold build_chapter. pres_bytes.
Qed.

Lemma bytes_build_metadata (b : list Z) :
  pres (fun d => f_bytes (dm_file d) = b) mp4_demux_build_metadata.
Proof. unfold mp4_demux_build_metadata. pres_bytes. Qed.

(** The demuxer that [mp4_demux_open] returns reads the bytes that it
    was given. *)
Lemma open_bytes (contents : list Z) (d : mp4_demux) :
  mp4_demux_open contents = Ok tt d -> f_bytes (dm_file d) = contents.
Proof.
  intros (d0 & n & d1 & Hparse & Hbuild & Hmeta)%open_Ok.
  eapply (pres_elim (fun d => f_bytes (dm_file d) = contents));
    [apply bytes_build_metadata| |exact Hmeta].
  eapply (pres_elim (fun d => f_bytes (dm_file d) = contents));
    [apply bytes_build_tracks| |exact Hbuild].
  change (f_bytes (dm_file d0) = contents).
  set (f := Build_FILE contents 0 false) in *.
  pose proof (walks_parse_children_from (S (Z.to_nat (file_length f)))
                [0] (file_length f) None 0 false ltac:(lia)
                (set_dm_fileSize (file_length f) (mp4_demux_zero f)))
    as Hwalk.
  unfold mp4_demux_parse_children in Hparse. rewrite Hparse in Hwalk.
  destruct Hwalk as [Hb _]; [done| |exact Hb].
  unfold bytes_left, file_length. simpl. lia.
Qed.

(** ** Reading a range of the file *)

Lemma s64_small (x : Z) : 0 <= x < 2 ^ 63 -> s64 x = x.
Proof. intros Hx. unfold s64. Z.div_mod_to_equations. lia. Qed.

Lemma read_sample_inside (off size : Z) (d : mp4_demux) :
  0 <= off -> 0 < size -> off + size <= file_length (dm_file d) ->
  off < 2 ^ 63 ->
  read_sample off size d
  = Ok (take (Z.to_nat size) (drop (Z.to_nat off) (f_bytes (dm_file d))))
      (set_dm_file (Build_FILE (f_bytes (dm_file d)) (off + size) false) d).
Proof.
  intros Hoff Hsize Hend Hmax. unfold read_sample.
  rewrite s64_small by lia.
  unfold bind at 1, seek_or_fail, bind at 1, fseeko_set, fseeko_to.
  rewrite decide_False by lia. rewrite decide_False by lia.
  unfold ret at 1. unfold bind, fread, fread_file. simpl.
  rewrite decide_False by lia.
  rewrite decide_True by (unfold file_length in *; simpl; lia). done.
Qed.

Lemma read_sample_outside (off size : Z) (d : mp4_demux) :
  0 <= off < 2 ^ 63 ->
  size <= 0 \/ file_length (dm_file d) < off + size ->
  exists d',
    read_sample off size d = Err (- EIO) d'
    /\ dm_tracks d' = dm_tracks d
    /\ f_bytes (dm_file d') = f_bytes (dm_file d).
Proof.
  intros Hoff Hout. unfold read_sample.
  rewrite s64_small by lia.
  unfold bind at 1, seek_or_fail, bind at 1, fseeko_set, fseeko_to.
  rewrite decide_False by lia. rewrite decide_False by lia.
  unfold ret at 1. unfold bind, fread, fread_file. simpl.
  destruct (decide (size <= 0)); [by eexists|].
  rewrite decide_False by (unfold file_length in *; simpl; lia).
  by eexists.
Qed.

Section reading_bytes.
Context (track_id : Z) (h : nat) (d : mp4_demux) (tk : mp4_track).
Context (size off sample_buffer_size : Z).
Hypothesis Hfound : find_track d track_id = Some h.
Hypothesis Htk : dm_tracks d !! h = Some tk.
Hypothesis Hcur : 0 <= tk_currentSample tk < tk_sampleCount tk.
Hypothesis Hsize : aget (tk_sampleSize tk) (tk_currentSample tk) = Some size.
Hypothesis Hoff : aget (tk_sampleOffset tk) (tk_currentSample tk) = Some off.
Hypothesis Hbuf : size <= sample_buffer_size.

(** A call with a sample buffer that is large enough, when the sample
    lies within the file. *)
Lemma next_sample_reads :
  tk_sampleCount tk < 2 ^ 32 ->
  tk_metadata tk = None -> tk_timescale tk <> 0 ->
  Z.of_nat (length (olist (tk_sampleDecodingTime tk))) = tk_sampleCount tk ->
  0 <= off -> 0 < size -> off + size <= file_length (dm_file d) ->
  off < 2 ^ 63 ->
  exists r d',
    mp4_demux_get_track_next_sample track_id true sample_buffer_size false 0 d
    = Ok (r, Some (take (Z.to_nat size)
                     (drop (Z.to_nat off) (f_bytes (dm_file d)))), None) d'
    /\ describes tk (tk_currentSample tk) r
    /\ dm_tracks d' =
         <[h := set_tk_currentSample (tk_currentSample tk + 1) tk]>
           (dm_tracks d).
Proof.
  intros Hcount Hmeta Hts Hdt Hoff0 Hsize0 Hend Hmax.
  unfold describes.
  next_sample_enter Hfound Htk.
  rewrite decide_True by lia. rewrite Hmeta, Hsize, Hoff.
  unfold bind at 1, defined at 1, ret at 1.
  rewrite bool_decide_true by done. cbn [andb].
  unfold bind at 1. unfold bind at 1, defined at 1, ret at 1.
  unfold bind at 1. rewrite read_sample_inside by done.
  unfold ret at 1. unfold bind at 1, ret at 1.
  destruct (tk_sampleDecodingTime tk) as [times|]; simpl in Hdt; [|lia].
  destruct (lookup_lt_is_Some_2 times (Z.to_nat (tk_currentSample tk)))
    as [dts Hdts]; [lia|].
  unfold aget. rewrite !decide_True by lia. rewrite Hdts.
  unfold ticks_to_us.
  destruct (decide (tk_timescale tk = 0)) as [?|_]; [done|].
  rewrite (u32_small (tk_sampleCount tk - 1)) by lia.
  rewrite (u32_small (tk_currentSample tk + 1)) by lia.
  unfold bind, defined, ret, upd_track. simpl.
  destruct (decide (tk_currentSample tk < tk_sampleCount tk - 1))
    as [Hnext|Hlast].
  - destruct (lookup_lt_is_Some_2 times
                (Z.to_nat (tk_currentSample tk + 1))) as [next Hn]; [lia|].
    rewrite decide_True by lia. rewrite Hn. simpl. rewrite Htk.
    eexists _, _. split; [reflexivity|]. simpl. split; [|done].
    split; [done|]. split; [done|]. split; [eauto|].
    rewrite decide_True by lia. eauto.
  - simpl. rewrite Htk.
    eexists _, _. split; [reflexivity|]. simpl. split; [|done].
    split; [done|]. split; [done|]. split; [eauto|].
    by rewrite decide_False by lia.
Qed.

(** A call with a sample buffer that is large enough, when the sample
    is empty or does not lie within the file. *)
Lemma next_sample_read_fails :
  0 <= off < 2 ^ 63 ->
  size <= 0 \/ file_length (dm_file d) < off + size ->
  exists d',
    mp4_demux_get_track_next_sample track_id true sample_buffer_size false 0 d
    = Err (- EIO) d'
    /\ dm_tracks d' = dm_tracks d
    /\ f_bytes (dm_file d') = f_bytes (dm_file d).
Proof.
  intros Hoff0 Hout.
  destruct (read_sample_outside off size d Hoff0 Hout) as (d' & Hread & Hd').
  exists d'. split; [|done].
  next_sample_enter Hfound Htk.
  rewrite decide_True by lia. rewrite Hsize, Hoff.
  unfold bind at 1, defined at 1, ret at 1.
  rewrite bool_decide_true by done. cbn [andb].
  unfold bind at 1. unfold bind at 1, defined at 1, ret at 1.
  unfold bind at 1. by rewrite Hread.
Qed.
End reading_bytes.

(** The state in which [i] samples of a track of an opened file have
    been read without buffers. *)
Lemma read_samples_state (contents : list Z) (d0 : mp4_demux)
    (track_id : Z) (h : nat) (tk : mp4_track) (i : nat)
    (rs : list mp4_track_sample) (d : mp4_demux) :
  mp4_demux_open contents = Ok tt d0 ->
  find_track d0 track_id = Some h -> dm_tracks d0 !! h = Some tk ->
  tk_metadata tk = None -> tk_timescale tk <> 0 ->
  Z.of_nat i <= tk_sampleCount tk ->
  read_samples i track_id d0 = Ok rs d ->
  find_track d track_id = Some h
  /\ f_bytes (dm_file d) = contents
  /\ dm_tracks d = <[h := set_tk_currentSample (Z.of_nat i) tk]> (dm_tracks d0)
  /\ dm_tracks d !! h = Some (set_tk_currentSample (Z.of_nat i) tk)
  /\ tk_sampleCount tk < 2 ^ 32
  /\ Z.of_nat (length (olist (tk_sampleSize tk))) = tk_sampleCount tk
  /\ Z.of_nat (length (olist (tk_sampleDecodingTime tk))) = tk_sampleCount tk.
Proof.
  intros Hopen Hfound Htk Hmeta Hts Hi Hread.
  destruct (open_arrays contents d0 h tk Hopen Htk)
    as (Hcur & Hcount & Hsz & Hdt).
  destruct (read_samples_from track_id h i d0 tk)
    as (rs' & d' & Hrs & _ & _ & Hfound' & Hfile & Hd');
    [done|done|lia|lia|lia|done..|].
  rewrite Hread in Hrs. injection Hrs as <- <-.
  rewrite Hcur, Z.add_0_l in Hd'.
  split; [done|]. split; [rewrite Hfile; by apply open_bytes|].
  split; [done|]. split; [|split; [lia|done]].
  rewrite Hd'. apply list_lookup_insert_eq. by eapply lookup_lt_Some.
Qed.

(** X14.  The bytes of a sample come from the file.  In a file that
    [mp4_demux_open] has opened, for a track that
    [mp4_demux_get_track_next_sample] finds, without linked metadata
    track and with a timescale that is not zero, after [i] samples have
    been read by calls without buffers: when the sample [i] is not
    empty, its offset is not negative, it lies within the file and the
    file has fewer than [2^63] bytes, the next call, with a sample buffer
    that is not smaller than the sample and no metadata buffer, returns
    0 and copies the [sampleSize[i]] bytes of the file that start at
    [sampleOffset[i]]; it describes the sample [i] and moves the cursor
    of the track to [i + 1]. *)
Theorem sample_bytes_come_from_the_file (contents : list Z)
    (d0 d : mp4_demux) (track_id : Z) (h : nat) (tk : mp4_track) (i : nat)
    (rs : list mp4_track_sample) (size off sample_buffer_size : Z) :
  mp4_demux_open contents = Ok tt d0 ->
  find_track d0 track_id = Some h -> dm_tracks d0 !! h = Some tk ->
  tk_metadata tk = None -> tk_timescale tk <> 0 ->
  read_samples i track_id d0 = Ok rs d ->
  aget (tk_sampleSize tk) (Z.of_nat i) = Some size ->
  aget (tk_sampleOffset tk) (Z.of_nat i) = Some off ->
  size <= sample_buffer_size ->
  0 < size -> 0 <= off ->
  off + size <= Z.of_nat (length contents) < 2 ^ 63 ->
  exists r d',
    mp4_demux_get_track_next_sample track_id true sample_buffer_size false 0 d
    = Ok (r, Some (take (Z.to_nat size) (drop (Z.to_nat off) contents)),
          None) d'
    /\ describes tk (Z.of_nat i) r
    /\ dm_tracks d'
       = <[h := set_tk_currentSample (Z.of_nat i + 1) tk]> (dm_tracks d0).
Proof.
  intros Hopen Hfound Htk Hmeta Hts Hread Hsize Hoff Hbuf Hsize0 Hoff0 Hend.
  pose proof (aget_lt _ _ _ Hsize) as Hi.
  destruct (open_arrays contents d0 h tk Hopen Htk) as (_ & _ & Hsz & _).
  destruct (read_samples_state contents d0 track_id h tk i rs d)
    as (Hfound' & Hbytes & Hd & Htk' & Hcount & _ & Hdt); [done..|lia|done|].
  destruct (next_sample_reads track_id h d
              (set_tk_currentSample (Z.of_nat i) tk) size off
              sample_buffer_size Hfound' Htk')
    as (r & d' & Hcall & Hr & Hd'); [simpl; lia|done..| |lia|].
  { unfold file_length. rewrite Hbytes. lia. }
  rewrite Hbytes in Hcall. exists r, d'. split; [done|]. split; [done|].
  rewrite Hd', Hd, list_insert_insert_eq. reflexivity.
Qed.

Lemma sample_bytes_come_from_the_file_example :
  (exists d,
     read_samples 1 7 (opened ex_audio)
     = Ok [Build_mp4_track_sample 10 0 0 33333] d
     /\ exists r d',
          mp4_demux_get_track_next_sample 7 true 64 false 0 d
          = Ok (r, Some (take (Z.to_nat 20) (drop (Z.to_nat 410) ex_audio)),
                None) d'
          /\ describes (first_track (opened ex_audio)) (Z.of_nat 1) r
          /\ dm_tracks d'
             = <[0%nat := set_tk_currentSample (Z.of_nat 1 + 1)
                            (first_track (opened ex_audio))]>
                 (dm_tracks (opened ex_audio)))
  /\ take (Z.to_nat 20) (drop (Z.to_nat 410) ex_audio)
     = [0; 0; 0; 20; 115; 116; 99; 111; 0; 0; 0; 0; 0; 0; 0; 1; 0; 0; 1; 144].
Proof.
  split; [|by vm_compute].
  eexists. split; [by vm_compute|].
  apply (sample_bytes_come_from_the_file ex_audio (opened ex_audio) _ 7 0
           (first_track (opened ex_audio)) 1
           [Build_mp4_track_sample 10 0 0 33333] 20 410 64).
  - by vm_compute.
  - by vm_compute.
  - by vm_compute.
  - by vm_compute.
  - by vm_compute.
  - by vm_compute.
  - by vm_compute.
  - by vm_compute.
  - lia.
  - lia.
  - lia.
  - by vm_compute.
Defined.

(** X15.  A sample that cannot be read blocks the track.  In a file
    that [mp4_demux_open] has opened, for a track that
    [mp4_demux_get_track_next_sample] finds, without linked metadata
    track and with a timescale that is not zero, after [i] samples have
    been read by calls without buffers: when the offset of the sample
    [i] is not negative and below [2^63], and the sample is empty
    ([fread] of 0 bytes returns 0) or extends beyond the end of the
    file, the next call with a sample buffer that is not smaller than
    the sample returns [-EIO] and leaves the tracks, hence the cursor,
    as they are, and so does a further call of this kind in the state
    that it leaves. *)
Theorem unreadable_sample_blocks_the_track (contents : list Z)
    (d0 d : mp4_demux) (track_id : Z) (h : nat) (tk : mp4_track) (i : nat)
    (rs : list mp4_track_sample) (size off sample_buffer_size : Z) :
  mp4_demux_open contents = Ok tt d0 ->
  find_track d0 track_id = Some h -> dm_tracks d0 !! h = Some tk ->
  tk_metadata tk = None -> tk_timescale tk <> 0 ->
  read_samples i track_id d0 = Ok rs d ->
  aget (tk_sampleSize tk) (Z.of_nat i) = Some size ->
  aget (tk_sampleOffset tk) (Z.of_nat i) = Some off ->
  size <= sample_buffer_size ->
  0 <= off < 2 ^ 63 ->
  size = 0 \/ Z.of_nat (length contents) < off + size ->
  exists d',
    mp4_demux_get_track_next_sample track_id true sample_buffer_size false 0 d
    = Err (- EIO) d'
    /\ dm_tracks d' = dm_tracks d
    /\ forall sample_buffer_size', size <= sample_buffer_size' ->
       exists d'',
         mp4_demux_get_track_next_sample track_id true sample_buffer_size'
           false 0 d'
         = Err (- EIO) d''
         /\ dm_tracks d'' = dm_tracks d.
Proof.
  intros Hopen Hfound Htk Hmeta Hts Hread Hsize Hoff Hbuf Hoff0 Hout.
  pose proof (aget_lt _ _ _ Hsize) as Hi.
  destruct (open_arrays contents d0 h tk Hopen Htk) as (_ & _ & Hsz & _).
  destruct (read_samples_state contents d0 track_id h tk i rs d)
    as (Hfound' & Hbytes & Hd & Htk' & _); [done..|lia|done|].
  destruct (next_sample_read_fails track_id h d
              (set_tk_currentSample (Z.of_nat i) tk) size off
              sample_buffer_size Hfound' Htk')
    as (d' & Hcall & Hd' & Hb'); [simpl; lia|done..| |].
  { unfold file_length. rewrite Hbytes. lia. }
  exists d'. split; [done|]. split; [done|].
  intros sbs' Hbuf'.
  destruct (next_sample_read_fails track_id h d'
              (set_tk_currentSample (Z.of_nat i) tk) size off sbs')
    as (d'' & Hcall' & Hd'' & _);
    [unfold find_track; rewrite Hd'; exact Hfound'
    |by rewrite Hd'|simpl; lia|done..| |].
  { unfold file_length. rewrite Hb', Hbytes. lia. }
  exists d''. split; [done|]. congruence.
Qed.

Lemma unreadable_sample_blocks_the_track_example :
  (exists off,
     aget (tk_sampleOffset (first_track (opened ex_audio_beyond))) 0
     = Some off
     /\ Z.of_nat (length ex_audio_beyond) < off)
  /\ exists d',
       mp4_demux_get_track_next_sample 7 true 64 false 0
         (opened ex_audio_beyond)
       = Err (- EIO) d'
       /\ dm_tracks d' = dm_tracks (opened ex_audio_beyond)
       /\ forall sample_buffer_size', 10 <= sample_buffer_size' ->
          exists d'',
            mp4_demux_get_track_next_sample 7 true sample_buffer_size'
              false 0 d'
            = Err (- EIO) d''
            /\ dm_tracks d'' = dm_tracks (opened ex_audio_beyond).
Proof.
  split; [eexists; split; by vm_compute|].
  apply (unreadable_sample_blocks_the_track ex_audio_beyond
           (opened ex_audio_beyond) (opened ex_audio_beyond) 7 0
           (first_track (opened ex_audio_beyond)) 0 [] 10 4000 64).
  - by vm_compute.
  - by vm_compute.
  - by vm_compute.
  - by vm_compute.
  - by vm_compute.
  - by vm_compute.
  - by vm_compute.
  - by vm_compute.
  - lia.
  - lia.
  - right. by vm_compute.
Defined.


(** X16.  The bytes of the cover come from the file.  In a file that
    [mp4_demux_open] has opened with a final cover (its size is not
    zero) whose offset is not negative and below [2^63],
    [mp4_demux_get_metadata_cover] with a buffer that is not smaller
    than the cover copies into it the [finalCoverSize] bytes of the file
    that start at [finalCoverOffset], when they lie within the file, and
    returns [-EIO] when they do not; with a buffer that is smaller it
    returns 0 and copies nothing ([-ENOBUFS] is the code of a test
    [MP4_LOG_ERR_AND_RETURN_ERR_IF_FAILED(1, ...)], which never fails).
    When it returns 0, the size and the type of the cover are stored
    through the pointers that are not [NULL], and only the position in
    the file has changed. *)
Theorem cover_bytes_come_from_the_file (contents : list Z) (d : mp4_demux)
    (cover_buffer_size : Z) (cover_size cover_type : bool) :
  mp4_demux_open contents = Ok tt d ->
  dm_finalCoverSize d > 0 ->
  0 <= dm_finalCoverOffset d < 2 ^ 63 ->
  (dm_finalCoverSize d <= cover_buffer_size ->
   dm_finalCoverOffset d + dm_finalCoverSize d
   <= Z.of_nat (length contents) ->
   mp4_demux_get_metadata_cover true cover_buffer_size cover_size cover_type d
   = Ok (if cover_size then Some (dm_finalCoverSize d) else None,
         if cover_type then Some (dm_finalCoverType d) else None,
         Some (take (Z.to_nat (dm_finalCoverSize d))
                 (drop (Z.to_nat (dm_finalCoverOffset d)) contents)))
       (set_dm_file
          (Build_FILE contents (dm_finalCoverOffset d + dm_finalCoverSize d)
             false) d))
  /\ (dm_finalCoverSize d <= cover_buffer_size ->
      Z.of_nat (length contents)
      < dm_finalCoverOffset d + dm_finalCoverSize d ->
      exists d',
        mp4_demux_get_metadata_cover true cover_buffer_size cover_size
          cover_type d
        = Err (- EIO) d')
  /\ (cover_buffer_size < dm_finalCoverSize d ->
      mp4_demux_get_metadata_cover true cover_buffer_size cover_size
        cover_type d
      = Ok (if cover_size then Some (dm_finalCoverSize d) else None,
            if cover_type then Some (dm_finalCoverType d) else None,
            None) d).
Proof.
  intros Hopen Hsize Hoff.
  pose proof (open_bytes contents d Hopen) as Hbytes.
  split; [|split].
  - intros Hbuf Hend.
    unfold mp4_demux_get_metadata_cover, bind, gets, seek_or_fail, bind,
      fseeko_set, fseeko_to, fread, fread_file, ret, fail, file_length.
    rewrite (decide_True (P := dm_finalCoverSize d > 0)) by done.
    rewrite bool_decide_true by done. cbn [andb].
    rewrite (decide_False (P := dm_finalCoverOffset d < 0)) by lia.
    rewrite (decide_False (P := 2 ^ 63 <= dm_finalCoverOffset d)) by lia.
    cbn [dm_file set_dm_file f_pos f_bytes f_eof].
    rewrite (decide_False (P := dm_finalCoverSize d <= 0)) by lia.
    rewrite Hbytes. rewrite decide_True by lia. reflexivity.
  - intros Hbuf Hend.
    unfold mp4_demux_get_metadata_cover, bind, gets, seek_or_fail, bind,
      fseeko_set, fseeko_to, fread, fread_file, ret, fail, file_length.
    rewrite (decide_True (P := dm_finalCoverSize d > 0)) by done.
    rewrite bool_decide_true by done. cbn [andb].
    rewrite (decide_False (P := dm_finalCoverOffset d < 0)) by lia.
    rewrite (decide_False (P := 2 ^ 63 <= dm_finalCoverOffset d)) by lia.
    cbn [dm_file set_dm_file f_pos f_bytes f_eof].
    rewrite (decide_False (P := dm_finalCoverSize d <= 0)) by lia.
    rewrite Hbytes. rewrite decide_False by lia. by eexists.
  - intros Hbuf.
    unfold mp4_demux_get_metadata_cover, bind, gets.
    rewrite (decide_True (P := dm_finalCoverSize d > 0)) by done.
    rewrite bool_decide_false by lia. reflexivity.
Qed.

Lemma cover_bytes_come_from_the_file_example :
  dm_finalCoverSize (opened (ex_covers true true)) = 7
  /\ dm_finalCoverOffset (opened (ex_covers true true)) = 284
  /\ take (Z.to_nat 7) (drop (Z.to_nat 284) (ex_covers true true))
     = [1; 2; 3; 4; 5; 6; 7]
  /\ mp4_demux_get_metadata_cover true 16 true true
       (opened (ex_covers true true))
     = Ok (Some (dm_finalCoverSize (opened (ex_covers true true))),
           Some (dm_finalCoverType (opened (ex_covers true true))),
           Some (take (Z.to_nat (dm_finalCoverSize
                                   (opened (ex_covers true true))))
                   (drop (Z.to_nat (dm_finalCoverOffset
                                      (opened (ex_covers true true))))
                      (ex_covers true true))))
         (set_dm_file
            (Build_FILE (ex_covers true true)
               (dm_finalCoverOffset (opened (ex_covers true true))
                + dm_finalCoverSize (opened (ex_covers true true)))
               false)
            (opened (ex_covers true true)))
  /\ mp4_demux_get_metadata_cover true 6 true true
       (opened (ex_covers true true))
     = Ok (Some (dm_finalCoverSize (opened (ex_covers true true))),
           Some (dm_finalCoverType (opened (ex_covers true true))),
           None)
         (opened (ex_covers true true)).
Proof.
  split; [by vm_compute|]. split; [by vm_compute|]. split; [by vm_compute|].
  assert (mp4_demux_open (ex_covers true true)
          = Ok tt (opened (ex_covers true true))) as Hopen by (by vm_compute).
  assert (dm_finalCoverSize (opened (ex_covers true true)) > 0) as Hsize
    by (by vm_compute).
  assert (0 <= dm_finalCoverOffset (opened (ex_covers true true)) < 2 ^ 63)
    as Hoff.
  { assert (dm_finalCoverOffset (opened (ex_covers true true)) = 284) as ->
      by (by vm_compute). lia. }
  split.
  - pose proof (cover_bytes_come_from_the_file (ex_covers true true)
                  (opened (ex_covers true true)) 16 true true Hopen Hsize
                  Hoff) as (Hin & _ & _).
    cbv iota in Hin. apply Hin; by vm_compute.
  - pose proof (cover_bytes_come_from_the_file (ex_covers true true)
                  (opened (ex_covers true true)) 6 true true Hopen Hsize
                  Hoff) as (_ & _ & Hsmall).
    cbv iota in Hsmall. apply Hsmall. by vm_compute.
Defined.

(** X17.  [mp4_demux_seek] divides by the duration of the track: when
    the first track that it visits is not skipped and has a duration of
    zero (a media header box with a duration of 0, or no such box), the
    estimate of the sample index divides by zero and the behaviour is
    undefined, whatever the time and the flag [sync]. *)
Theorem seek_zero_duration_undefined (logs : bool) (time_offset : Z)
    (sync : bool) (d : mp4_demux) (h : nat) (tk : mp4_track) :
  length (dm_tracks d) = S h ->
  dm_tracks d !! h = Some tk -> seekable tk ->
  tk_duration tk = 0 ->
  mp4_demux_seek logs time_offset sync d = Undef.
Proof.
  intros Hn Htk [Hchap Hmeta] Hduration.
  unfold mp4_demux_seek. unfold bind at 1, gets at 1. rewrite Hn.
  cbn [seek_loop]. unfold bind at 1.
  unfold seek_track. unfold bind at 1, get_track at 1. rewrite Htk.
  rewrite decide_False by done. rewrite decide_False by done.
  unfold seek_start. rewrite decide_True by done. reflexivity.
Qed.

(** The track of the example has no media header box. *)
Lemma seek_zero_duration_undefined_example :
  tk_duration <$> dm_tracks (opened ex_no_duration) = [0]
  /\ mp4_demux_seek false 0 false (opened ex_no_duration) = Undef.
Proof.
  split; [by vm_compute|].
  apply (seek_zero_duration_undefined false 0 false (opened ex_no_duration)
           0 (first_track (opened ex_no_duration))).
  - by vm_compute.
  - by vm_compute.
  - split; [by vm_compute|]. intros [H _]. by vm_compute in H.
  - by vm_compute.
Defined.

(** X18.  The error path of [mp4_demux_open] can read through a [NULL]
    pointer.  When a step of [mp4_demux_open] fails while
    [metaMetadataCount] is not zero and [metaMetadataKey] is still
    [NULL] (the handler of the [keys] box stores the count before it
    checks it against the size of the box and allocates the arrays),
    [mp4_demux_close], which the error path calls, reads
    [metaMetadataKey[0]]: the behaviour is undefined. *)
Theorem failed_open_reads_through_NULL (contents : list Z) (c : Z)
    (d : mp4_demux) :
  mp4_demux_open_from (mp4_demux_zero (Build_FILE contents 0 false))
  = Err c d ->
  0 < dm_metaMetadataCount d -> dm_metaMetadataKey d = None ->
  mp4_demux_close d = Undef /\ mp4_demux_open contents = Undef.
Proof.
  intros Hfrom Hcount Hkeys.
  assert (mp4_demux_close d = Undef) as Hclose.
  { unfold mp4_demux_close, bind, gets, defined, ret, undef.
    destruct (for_opt _ _ _ _) as [[]|]; [|done].
    destruct (close_strings (dm_udtaMetadataKey d) _ _) as [[]|]; [|done].
    unfold close_strings. rewrite Hkeys.
    destruct (Z.to_nat (dm_metaMetadataCount d)) as [|n] eqn:Hn; [lia|].
    reflexivity. }
  split; [done|]. unfold mp4_demux_open. rewrite Hfrom.
  unfold bind. by rewrite Hclose.
Qed.

Lemma failed_open_reads_through_NULL_example :
  (exists d,
     mp4_demux_open_from (mp4_demux_zero (Build_FILE ex_keys_short 0 false))
     = Err (- EIO) d
     /\ dm_metaMetadataCount d = 5 /\ dm_metaMetadataKey d = None)
  /\ mp4_demux_open ex_keys_short = Undef.
Proof.
  assert (exists d,
            mp4_demux_open_from
              (mp4_demux_zero (Build_FILE ex_keys_short 0 false))
            = Err (- EIO) d
            /\ dm_metaMetadataCount d = 5 /\ dm_metaMetadataKey d = None)
    as (d & Hfrom & Hcount & Hkeys).
  { eexists. split; [by vm_compute|]. split; by vm_compute. }
  split; [exists d; split; [exact Hfrom|split; [exact Hcount|exact Hkeys]]|].
  assert (0 < dm_metaMetadataCount d) as Hpos by lia.
  exact (proj2 (failed_open_reads_through_NULL ex_keys_short (- EIO) d
                  Hfrom Hpos Hkeys)).
Defined.
